(** * Clip_Generator: timestamp resolution and topic classification

    A shallow embedding of [youtube_clipper/core/clip_finder.py] and
    [youtube_clipper/core/topic_classifier.py], with the theorems that settle
    the properties stated about them.

    Conventions of the embedding.
    - A Python [str] is a list of characters; the character type is Rocq's
      [ascii], read as the code points U+0000..U+00FF.  Text with code points
      above U+00FF is outside the embedding.
    - A Python [float] is an IEEE 754 binary64 value ([spec_float] with
      precision 53 and maximal exponent 1024); every arithmetic operation
      rounds to nearest, ties to even, as CPython does.
    - [re] patterns are values of [Re.regex], run by a backtracking matcher
      with Python's priorities (leftmost start, greedy or lazy repetition,
      ordered alternation).
    - The chat-completion service is a state transformer on an abstract
      world; logging is a list of structured records carried with the world.
    - [config] is not part of the sources at hand: the values the code reads
      from it are parameters. *)

From Stdlib Require Import ZArith List Bool Ascii String Lia PeanoNat.
From Stdlib Require Import Floats.SpecFloat.
From Stdlib Require Import Reals Lra.
From Stdlib Require Import Sorting.Permutation Sorting.Sorted.
Import ListNotations.

Set Implicit Arguments.

(** ** Python floats *)

Module PyFloat.

Definition prec : Z := 53.
Definition emax : Z := 1024.

Definition float := spec_float.

Definition zero : float := S754_zero false.

Definition add : float -> float -> float := SFadd prec emax.
Definition sub : float -> float -> float := SFsub prec emax.
Definition mul : float -> float -> float := SFmul prec emax.
(** [x / y]; Python raises on a zero divisor, and no call site of the
    embedded code divides by zero. *)
Definition div : float -> float -> float := SFdiv prec emax.

(** Comparison, on the exact values: of two finite numbers of one sign the
    larger is the one with the larger [m * 2^e], whatever the
    representation. *)
Definition compare_magnitude (m1 : positive) (e1 : Z) (m2 : positive) (e2 : Z)
    : comparison :=
  let z := Z.min e1 e2 in
  (Zpos m1 * 2 ^ (e1 - z) ?= Zpos m2 * 2 ^ (e2 - z))%Z.

Definition compare (x y : float) : option comparison :=
  match x, y with
  | S754_nan, _ | _, S754_nan => None
  | S754_infinity s1, S754_infinity s2 =>
      Some (match s1, s2 with
            | true, true | false, false => Eq
            | true, false => Lt
            | false, true => Gt
            end)
  | S754_infinity s, _ => Some (if s then Lt else Gt)
  | _, S754_infinity s => Some (if s then Gt else Lt)
  | S754_finite s _ _, S754_zero _ => Some (if s then Lt else Gt)
  | S754_zero _, S754_finite s _ _ => Some (if s then Gt else Lt)
  | S754_zero _, S754_zero _ => Some Eq
  | S754_finite s1 m1 e1, S754_finite s2 m2 e2 =>
      Some (match s1, s2 with
            | true, false => Lt
            | false, true => Gt
            | false, false => compare_magnitude m1 e1 m2 e2
            | true, true => CompOpp (compare_magnitude m1 e1 m2 e2)
            end)
  end.

Definition eqb (x y : float) : bool :=
  match compare x y with Some Eq => true | _ => false end.
Definition ltb (x y : float) : bool :=
  match compare x y with Some Lt => true | _ => false end.
Definition leb (x y : float) : bool :=
  match compare x y with Some (Lt | Eq) => true | _ => false end.
Definition gtb (x y : float) : bool := ltb y x.
Definition neqb (x y : float) : bool := negb (eqb x y).

(** [bool(x)]: every float but the two zeros is truthy. *)
Definition truthy (x : float) : bool := neqb x zero.

(** The binary64 value nearest to [n / d] (ties to even): the value of an
    integer, of a quotient of integers and of a decimal literal. *)
Definition of_ratio (n : Z) (d : positive) : float :=
  let round (s : bool) (m : positive) :=
    let '(q, e, l) := SFdiv_core_binary prec emax (Zpos m) 0 (Zpos d) 0 in
    binary_round_aux prec emax s q e l in
  match n with
  | Z0 => zero
  | Zpos m => round false m
  | Zneg m => round true m
  end.

Definition of_Z (n : Z) : float := of_ratio n 1.

(** Python's [min(x, y)] on two arguments: [y] when [y < x], else [x]. *)
Definition min (x y : float) : float := if ltb y x then y else x.

End PyFloat.

Abbreviation float := PyFloat.float.

(** ** Python strings, on the code points U+0000..U+00FF *)

Definition str := list ascii.

Module PyStr.

Definition code (c : ascii) : N := N_of_ascii c.

Definition between (lo hi : N) (c : ascii) : bool :=
  ((lo <=? code c) && (code c <=? hi))%N.

(** [c.isdigit()] restricted to decimal digits, the class [[0-9]] and, below
    U+0100, the class [\d]. *)
Definition is_digit (c : ascii) : bool := between 48 57 c.

(** [c.isspace()], the class [\s]: tab to carriage return, the four
    separators U+001C..U+001F, space, NEL and no-break space. *)
Definition is_space (c : ascii) : bool :=
  between 9 13 c || between 28 32 c || (code c =? 133)%N || (code c =? 160)%N.

(** The class [\w]: underscore and the alphanumeric characters (letters,
    digits, the superscript digits and the vulgar fractions of Latin-1). *)
Definition is_word (c : ascii) : bool :=
  between 48 57 c || between 65 90 c || (code c =? 95)%N || between 97 122 c
  || (code c =? 170)%N || between 178 179 c || (code c =? 181)%N
  || between 185 186 c || between 188 190 c
  || between 192 214 c || between 216 246 c || between 248 255 c.

(** [c.lower()]: A-Z and the Latin-1 capitals U+00C0..U+00DE but the
    multiplication sign. *)
Definition lower_char (c : ascii) : ascii :=
  if between 65 90 c || (between 192 222 c && negb (code c =? 215)%N)
  then ascii_of_N (code c + 32) else c.

(** [c.upper()] where the result stays below U+0100: a-z and the Latin-1
    small letters U+00E0..U+00FE but the division sign.  The three
    characters whose capital lies elsewhere (sharp s, micro sign, y with
    diaeresis) are left as they are; no ASCII text is equal to their
    capitals. *)
Definition upper_char (c : ascii) : ascii :=
  if between 97 122 c || (between 224 254 c && negb (code c =? 247)%N)
  then ascii_of_N (code c - 32) else c.

Definition lower (s : str) : str := map lower_char s.
Definition upper (s : str) : str := map upper_char s.

Definition eqb (s t : str) : bool :=
  if list_eq_dec ascii_dec s t then true else false.

(** [s.startswith(p)] *)
Fixpoint starts_with (p s : str) : bool :=
  match p, s with
  | [], _ => true
  | a :: p', b :: s' => Ascii.eqb a b && starts_with p' s'
  | _ :: _, [] => false
  end.

(** [p in s] *)
Fixpoint contains (p s : str) : bool :=
  starts_with p s ||
  match s with
  | [] => false
  | _ :: s' => contains p s'
  end.

Fixpoint lstrip (s : str) : str :=
  match s with
  | c :: s' => if is_space c then lstrip s' else s
  | [] => []
  end.

(** [s.strip()] *)
Definition strip (s : str) : str := rev (lstrip (rev (lstrip s))).

(** [s.split(sep)] for a one-character separator: never the empty list. *)
Fixpoint split (sep : ascii) (s : str) : list str :=
  match s with
  | [] => [[]]
  | c :: s' =>
      if Ascii.eqb c sep then [] :: split sep s'
      else match split sep s' with
           | l :: ls => (c :: l) :: ls
           | [] => [[c]]
           end
  end.

(** [sep.join(parts)] *)
Fixpoint join (sep : str) (parts : list str) : str :=
  match parts with
  | [] => []
  | [p] => p
  | p :: ps => p ++ sep ++ join sep ps
  end.

(** [s[i:j]] for integers [i], [j] (negative ones count from the end) *)
Definition clamp (n : Z) (i : Z) : nat :=
  let i' := if (i <? 0)%Z then (i + n)%Z else i in
  Z.to_nat (Z.min n (Z.max 0 i')).

Definition slice (s : str) (i j : Z) : str :=
  let n := Z.of_nat (List.length s) in
  let a := clamp n i in
  let b := clamp n j in
  firstn (b - a) (skipn a s).

(** [s[i:]] and [s[:j]] *)
Definition slice_from (s : str) (i : Z) : str := skipn (clamp (Z.of_nat (List.length s)) i) s.
Definition slice_to (s : str) (j : Z) : str := firstn (clamp (Z.of_nat (List.length s)) j) s.

End PyStr.

Definition lit (s : string) : str := list_ascii_of_string s.

(** ** The [re] module: patterns and the backtracking matcher *)

Module Re.

Definition class := ascii -> bool.

(** The pattern constructs the sources use.  Repetition applies to a single
    character class only, which is all the patterns of the code need. *)
Inductive regex : Type :=
| Eps                              (* the empty pattern *)
| Chr (p : class)                  (* one character of a class, or a literal *)
| Seq (r1 r2 : regex)              (* r1 r2 *)
| Alt (r1 r2 : regex)              (* r1|r2, the left branch first *)
| Opt (r : regex)                  (* r? *)
| Star (p : class)                 (* p*, greedy *)
| Plus (p : class)                 (* p+, greedy *)
| PlusLazy (p : class)             (* p+?, lazy *)
| Group (n : nat) (r : regex)      (* the n-th capturing group *)
| Ahead (r : regex)                (* (?=r) *)
| Eos                              (* $ without MULTILINE *)
| WordB.                           (* \b *)

(** A position in the subject: the characters before it (nearest first),
    the characters after it, and the groups captured so far. *)
Record state : Type := State {
  before : str;
  rest : str;
  groups : list (nat * str)
}.

Definition cont := state -> option state.

Definition advance (c : ascii) (s' : str) (st : state) : state :=
  State (c :: before st) s' (groups st).

Fixpoint star (p : class) (k : cont) (b s : str) (g : list (nat * str)) : option state :=
  match s with
  | c :: s' =>
      if p c then
        match star p k (c :: b) s' g with
        | Some r => Some r
        | None => k (State b s g)
        end
      else k (State b s g)
  | [] => k (State b s g)
  end.

Fixpoint star_lazy (p : class) (k : cont) (b s : str) (g : list (nat * str)) : option state :=
  match k (State b s g) with
  | Some r => Some r
  | None =>
      match s with
      | c :: s' => if p c then star_lazy p k (c :: b) s' g else None
      | [] => None
      end
  end.

(** The text consumed between two positions of one subject. *)
Definition consumed (st st' : state) : str :=
  firstn (List.length (rest st) - List.length (rest st')) (rest st).

Definition word_boundary (st : state) : bool :=
  xorb (match before st with c :: _ => PyStr.is_word c | [] => false end)
       (match rest st with c :: _ => PyStr.is_word c | [] => false end).

Definition at_end (st : state) : bool :=
  match rest st with
  | [] => true
  | [c] => Ascii.eqb c "010"
  | _ => false
  end.

Fixpoint run (r : regex) (k : cont) (st : state) : option state :=
  match r with
  | Eps => k st
  | Chr p =>
      match rest st with
      | c :: s' => if p c then k (advance c s' st) else None
      | [] => None
      end
  | Seq r1 r2 => run r1 (run r2 k) st
  | Alt r1 r2 =>
      match run r1 k st with
      | Some m => Some m
      | None => run r2 k st
      end
  | Opt r1 =>
      match run r1 k st with
      | Some m => Some m
      | None => k st
      end
  | Star p => star p k (before st) (rest st) (groups st)
  | Plus p =>
      match rest st with
      | c :: s' => if p c then star p k (c :: before st) s' (groups st) else None
      | [] => None
      end
  | PlusLazy p =>
      match rest st with
      | c :: s' => if p c then star_lazy p k (c :: before st) s' (groups st) else None
      | [] => None
      end
  | Group n r1 =>
      run r1 (fun st' => k (State (before st') (rest st')
                                  ((n, consumed st st') :: groups st'))) st
  | Ahead r1 =>
      match run r1 Some st with
      | Some st' => k (State (before st) (rest st) (groups st'))
      | None => None
      end
  | Eos => if at_end st then k st else None
  | WordB => if word_boundary st then k st else None
  end.

(** A match object: where the match starts and the position it ends at. *)
Record match_object : Type := Match {
  m_start : nat;
  m_final : state
}.

Definition m_end (m : match_object) : nat := List.length (before (m_final m)).

(** [m.group(n)] for a group that took part in the match. *)
Fixpoint lookup (n : nat) (g : list (nat * str)) : option str :=
  match g with
  | [] => None
  | (i, s) :: g' => if Nat.eqb i n then Some s else lookup n g'
  end.

Definition group (n : nat) (m : match_object) : str :=
  match lookup n (groups (m_final m)) with
  | Some s => s
  | None => []
  end.

(** [re.search]: the first start position, from the left, at which the
    pattern matches. *)
Fixpoint search_at (r : regex) (b s : str) : option match_object :=
  match run r Some (State b s []) with
  | Some st => Some (Match (List.length b) st)
  | None =>
      match s with
      | [] => None
      | c :: s' => search_at r (c :: b) s'
      end
  end.

Definition search (r : regex) (text : str) : option match_object :=
  search_at r [] text.

(** [re.finditer]: the matches from left to right, none overlapping; after
    an empty match the scan moves on by one character.  [fuel] bounds the
    number of matches and [S (length text)] is never exhausted. *)
Fixpoint finditer_at (fuel : nat) (r : regex) (b s : str) : list match_object :=
  match fuel with
  | O => []
  | S fuel' =>
      match search_at r b s with
      | None => []
      | Some m =>
          m :: (if Nat.eqb (m_end m) (m_start m) then
                  match rest (m_final m) with
                  | [] => []
                  | c :: s' => finditer_at fuel' r (c :: before (m_final m)) s'
                  end
                else finditer_at fuel' r (before (m_final m)) (rest (m_final m)))
      end
  end.

Definition finditer (r : regex) (text : str) : list match_object :=
  finditer_at (S (List.length text)) r [] text.

(** Pattern builders. *)

(** A literal character; under IGNORECASE it matches both cases. *)
Definition char (ignorecase : bool) (c : ascii) : class :=
  fun x => if ignorecase
           then Ascii.eqb (PyStr.lower_char x) (PyStr.lower_char c)
           else Ascii.eqb x c.

Fixpoint text (ignorecase : bool) (s : str) : regex :=
  match s with
  | [] => Eps
  | c :: s' => Seq (Chr (char ignorecase c)) (text ignorecase s')
  end.

Definition any : class := fun _ => true.   (* [.] under DOTALL *)

End Re.

Declare Scope re_scope.
Delimit Scope re_scope with re.
Bind Scope re_scope with Re.regex.
Notation "r1 ;; r2" := (Re.Seq r1 r2) (at level 61, right associativity) : re_scope.

(** ** Conversions between text and numbers *)

Module PyNum.
Import PyStr.

(** [str(n)] for a natural number. *)
Fixpoint digits_of (fuel : nat) (n : N) (acc : str) : str :=
  match fuel with
  | O => acc
  | S fuel' =>
      let acc' := ascii_of_N (48 + n mod 10) :: acc in
      if (n <? 10)%N then acc' else digits_of fuel' (n / 10)%N acc'
  end.

Definition str_of_N (n : N) : str := digits_of (S (N.to_nat (N.log2 n))) n [].

Definition str_of_Z (n : Z) : str :=
  match n with
  | Zneg p => "-"%char :: str_of_N (Npos p)
  | _ => str_of_N (Z.to_N n)
  end.

(** The value of a run of decimal digits. *)
Definition digits_value (ds : str) : Z :=
  fold_left (fun acc c => (10 * acc + (Z.of_N (code c) - 48))%Z) ds 0%Z.

(** The longest prefix of characters of a class, and what follows it. *)
Fixpoint span (p : ascii -> bool) (s : str) : str * str :=
  match s with
  | c :: s' => if p c then let '(l, r) := span p s' in (c :: l, r) else ([], s)
  | [] => ([], [])
  end.

(** [float(s)] for [s] an unsigned decimal literal, digits with an optional
    point and further digits, correctly rounded; these are the only strings
    the patterns of the code capture as numbers.  On any other string the
    answer is [None], which stands for Python's [ValueError] (Python itself
    accepts more forms: signs, exponents, blanks, [inf] and [nan]). *)
Definition float_of_str (s : str) : option float :=
  let '(ip, r) := span is_digit s in
  match ip, r with
  | [], _ => None
  | _ :: _, [] => Some (PyFloat.of_ratio (digits_value ip) 1)
  | _ :: _, c :: fr =>
      if Ascii.eqb c "." then
        let '(fp, r') := span is_digit fr in
        match r' with
        | [] => Some (PyFloat.of_ratio (digits_value (ip ++ fp))
                        (Z.to_pos (10 ^ Z.of_nat (List.length fp))))
        | _ :: _ => None
        end
      else None
  end.

(** [format(x, '.pf')]: the decimal expansion of the exact value of [x],
    rounded to [p] places, ties to even. *)
Definition round_half_even (n d : Z) : Z :=
  let q := (n / d)%Z in
  match (2 * (n mod d) ?= d)%Z with
  | Lt => q
  | Gt => (q + 1)%Z
  | Eq => if Z.even q then q else (q + 1)%Z
  end.

Definition pad_left (n : nat) (s : str) : str :=
  repeat "0"%char (n - List.length s) ++ s.

Definition fixed (p : nat) (neg : bool) (v : Z) : str :=
  let scale := (10 ^ Z.of_nat p)%Z in
  (if neg then ["-"%char] else []) ++
  str_of_Z (v / scale) ++
  match p with
  | O => []
  | S _ => "."%char :: pad_left p (str_of_Z (v mod scale))
  end.

Definition format_f (p : nat) (x : float) : str :=
  match x with
  | S754_nan => lit "nan"
  | S754_infinity s => (if s then ["-"%char] else []) ++ lit "inf"
  | S754_zero s => fixed p s 0
  | S754_finite s m e =>
      let n := (Zpos m * 10 ^ Z.of_nat p)%Z in
      fixed p s (match e with
                 | Zneg k => round_half_even n (2 ^ Zpos k)
                 | _ => n * 2 ^ e
                 end)%Z
  end.

End PyNum.

(** ** Exceptions, logging and the chat-completion service *)

(** The exceptions that reach the embedded code: the service's
    [openai.APIError], any other [Exception], and the module's own
    [ClipExtractionError].  Each carries the text [str(e)] gives. *)
Inductive exn : Type :=
| APIError (msg : str)
| OtherError (msg : str)
| ClipExtractionError (msg : str).

Definition str_of_exn (e : exn) : str :=
  match e with
  | APIError msg => msg
  | OtherError msg => msg
  | ClipExtractionError msg => msg
  end.

Inductive level : Type := INFO | WARNING | ERROR.

(** One constructor per message of [clip_finder.py], with the values the
    message is formatted from. *)
Inductive message : Type :=
| Analyzing (clip_description : str)
| Transcription_too_long (len max : Z)
| Found_clip (start_time end_time duration : float)
| Duration_outside_range (duration : float)
| No_timestamps_identified
| OpenAI_error (e : exn)
| Clip_finding_failed (e : exn)
| Invalid_timestamps (end_time start_time : float)
| Timestamps_not_numbers
| Using_fallback
| Timestamps_not_parsed
| Timestamp_parse_error (e : exn)
| Finding_clip (i n : nat) (description : str)
| Failed_to_find_clip (i : nat) (e : exn)
| Failed_to_suggest (e : exn)
| Improvement_parse_error (e : exn).

Definition log_record : Type := level * message.

(** The arguments of [client.chat.completions.create]. *)
Record request : Type := Request {
  req_model : str;
  req_system : str;
  req_user : str;
  req_temperature : float;
  req_max_tokens : Z
}.

(** What the code reads from [config]. *)
Record Config : Type := {
  GPT_TEMPERATURE : float;
  GPT_MAX_TOKENS : Z;
  MAX_TRANSCRIPTION_LENGTH : Z;
  (** [str()] of the two bounds, as the prompt interpolates them *)
  TARGET_CLIP_DURATION_MIN : str;
  TARGET_CLIP_DURATION_MAX : str;
  validate_clip_duration : float -> bool
}.

(** Computations of the module: they read and change the world the service
    lives in, append to the log, and end in a value or an exception. *)
Module Eff.
Section Monad.
Variable World : Type.

Record store : Type := Store { world : World; logs : list log_record }.

Definition M (A : Type) : Type := store -> store * (exn + A).

Definition ret {A} (a : A) : M A := fun s => (s, inr a).

Definition bind {A B} (m : M A) (f : A -> M B) : M B :=
  fun s =>
    match m s with
    | (s', inr a) => f a s'
    | (s', inl e) => (s', inl e)
    end.

Definition raise {A} (e : exn) : M A := fun s => (s, inl e).

(** [try: m  except Exception as e: h e] *)
Definition try_except {A} (m : M A) (h : exn -> M A) : M A :=
  fun s =>
    match m s with
    | (s', inl e) => h e s'
    | r => r
    end.

Definition log (l : level) (msg : message) : M unit :=
  fun s => (Store (world s) (logs s ++ [(l, msg)]), inr tt).

(** A call of the service: [serve] answers with the content of the first
    choice, or raises. *)
Definition call (serve : request -> World -> World * (exn + str)) (q : request) : M str :=
  fun s => let '(w, r) := serve q (world s) in (Store w (logs s), r).

(** The value or exception a computation ends in, and its log. *)
Definition outcome {A} (m : M A) (s : store) : exn + A := snd (m s).
Definition logged {A} (m : M A) (s : store) : list log_record := logs (fst (m s)).
End Monad.

Arguments ret {World A} a.
Arguments raise {World A} e.
Arguments log {World} l msg.
End Eff.

Declare Scope eff_scope.
Delimit Scope eff_scope with eff.
Notation "x <- m ;; k" := (Eff.bind m (fun x => k))
  (at level 61, m at next level, right associativity) : eff_scope.
Notation "m ;; k" := (Eff.bind m (fun _ => k))
  (at level 61, right associativity) : eff_scope.

(** ** clip_finder.py *)

Module ClipFinder.
Import Re PyStr PyNum Eff.
Local Open Scope re_scope.

Definition newline : ascii := "010"%char.
Definition dquote : ascii := "034"%char.

(** *** The patterns *)

(** [[0-9]+\.?[0-9]*], which below U+0100 is also [\d+\.?\d*] *)
Definition number : regex :=
  Plus is_digit ;; Opt (Chr (char true ".")) ;; Star is_digit.

(** [NAME\s*([0-9]+\.?[0-9]*|SENTINEL)], IGNORECASE: a strict field *)
Definition field (name sentinel : string) : regex :=
  text true (lit name) ;; Star is_space ;;
  Group 1 (Alt number (text true (lit sentinel))).

(** [START_TIME:\s*([0-9]+\.?[0-9]*|NOT_FOUND)], IGNORECASE *)
Definition start_pattern : regex := field "START_TIME:" "NOT_FOUND".

(** [END_TIME:\s*([0-9]+\.?[0-9]*|NOT_FOUND)], IGNORECASE *)
Definition end_pattern : regex := field "END_TIME:" "NOT_FOUND".

(** [(?:seconds?|s)] *)
Definition seconds : regex :=
  Alt (text true (lit "second") ;; Opt (Chr (char true "s"))) (Chr (char true "s")).

(** The loose pattern, IGNORECASE: two numbers [\d+\.?\d*], each a
    capturing group followed by [\s*(?:seconds?|s)], with [\s*(?:to|-)?\s*]
    between the first unit and the second number. *)
Definition timestamp_patterns : regex :=
  Group 1 number ;; Star is_space ;; seconds ;; Star is_space ;;
  Opt (Alt (text true (lit "to")) (Chr (char true "-"))) ;; Star is_space ;;
  Group 2 number ;; Star is_space ;; seconds.

(** [SUGGESTED_START:\s*([0-9]+\.?[0-9]*|KEEP_CURRENT)], IGNORECASE *)
Definition suggested_start_pattern : regex := field "SUGGESTED_START:" "KEEP_CURRENT".

(** [SUGGESTED_END:\s*([0-9]+\.?[0-9]*|KEEP_CURRENT)], IGNORECASE *)
Definition suggested_end_pattern : regex := field "SUGGESTED_END:" "KEEP_CURRENT".

(** [IMPROVEMENT_REASON:\s*(.+?)(?=\n|$)], IGNORECASE and DOTALL *)
Definition reason_pattern : regex :=
  text true (lit "IMPROVEMENT_REASON:") ;; Star is_space ;;
  Group 1 (PlusLazy any) ;; Ahead (Alt (Chr (char true newline)) Eos).

(** [CONFIDENCE:\s*(HIGH|MEDIUM|LOW)], IGNORECASE *)
Definition confidence_pattern : regex :=
  text true (lit "CONFIDENCE:") ;; Star is_space ;;
  Group 1 (Alt (text true (lit "HIGH"))
               (Alt (text true (lit "MEDIUM")) (text true (lit "LOW")))).

(** What the two strict fields capture when both are found, and what the
    two groups of the loose pattern capture when it is found. *)
Definition strict_fields (response_text : str) : option (str * str) :=
  match search start_pattern response_text, search end_pattern response_text with
  | Some start_match, Some end_match => Some (group 1 start_match, group 1 end_match)
  | _, _ => None
  end.

Definition loose_fields (response_text : str) : option (str * str) :=
  match search timestamp_patterns response_text with
  | Some fallback_match => Some (group 1 fallback_match, group 2 fallback_match)
  | None => None
  end.

(** *** The result dictionaries *)

(** An item of [find_multiple_clips]; [error] is the key only a failed
    item has. *)
Record clip_result : Type := ClipResult {
  description : str;
  start_time : option float;
  end_time : option float;
  duration : option float;
  success : bool;
  error : option str
}.

(** The result of [suggest_clip_improvements]; [changed] is [None] when
    the dictionary has no such key. *)
Record improvement : Type := Improvement {
  suggested_start : float;
  suggested_end : float;
  improvement_reason : str;
  confidence : str;
  changed : option bool
}.

Definition timestamps : Type := option float * option float.

Section WithService.
Variable World : Type.
(** [self.client.chat.completions.create(...).choices[0].message.content] *)
Variable create : request -> World -> World * (exn + str).
Variable config : Config.
(** [self.model] *)
Variable model : str.

Local Abbreviation M := (Eff.M World).
Local Open Scope eff_scope.

(** **** [_prepare_transcription_for_analysis] *)

Fixpoint number_lines (i total : nat) (lines : list str) : list str :=
  match lines with
  | [] => []
  | line :: lines' =>
      (match strip line with
       | [] => []
       | _ :: _ =>
           let estimated_time :=
             PyFloat.mul (PyFloat.of_ratio (Z.of_nat i) (Pos.of_nat total))
                         (PyFloat.of_Z 1800) in
           lit "[~" ++ format_f 0 estimated_time ++ lit "s] " ++ strip line
       end) :: number_lines (S i) total lines'
  end.

(** The shortened transcription: head, middle and tail parts. *)
Definition shortened (transcription : str) : str :=
  let len := Z.of_nat (List.length transcription) in
  let part_size := (MAX_TRANSCRIPTION_LENGTH config / 3)%Z in
  let beginning := slice_to transcription part_size in
  let end_ := slice_from transcription (- part_size) in
  let middle_start := (len / 2 - part_size / 2)%Z in
  let middle := slice transcription middle_start (middle_start + part_size) in
  beginning ++ [newline; newline] ++ lit "[... MIDDLE SECTION ...]" ++ [newline]
  ++ middle ++ [newline; newline] ++ lit "[... END SECTION ...]" ++ [newline]
  ++ end_.

Definition numbered (transcription : str) : str :=
  let lines := split newline transcription in
  join [newline] (number_lines 0 (List.length lines) lines).

Definition _prepare_transcription_for_analysis (transcription : str) : M str :=
  let len := Z.of_nat (List.length transcription) in
  transcription <-
    (if (len >? MAX_TRANSCRIPTION_LENGTH config)%Z then
       log INFO (Transcription_too_long len (MAX_TRANSCRIPTION_LENGTH config)) ;;
       ret (shortened transcription)
     else ret transcription) ;;
  ret (numbered transcription).

(** What [_prepare_transcription_for_analysis] returns and what it logs. *)
Definition prepared (transcription : str) : str :=
  if (Z.of_nat (List.length transcription) >? MAX_TRANSCRIPTION_LENGTH config)%Z
  then numbered (shortened transcription)
  else numbered transcription.

Definition prepare_log (transcription : str) : list log_record :=
  let len := Z.of_nat (List.length transcription) in
  if (len >? MAX_TRANSCRIPTION_LENGTH config)%Z
  then [(INFO, Transcription_too_long len (MAX_TRANSCRIPTION_LENGTH config))]
  else [].

(** **** [_create_clip_finding_prompt] *)

Definition _create_clip_finding_prompt (transcription clip_description : str) : str :=
  lit "
Analyze the following video transcription and find the specific segment described by the user.

TRANSCRIPTION:
" ++ transcription ++ lit "

USER REQUEST: " ++ [dquote] ++ clip_description ++ [dquote] ++ lit "

INSTRUCTIONS:
1. Find the section of the transcription that best matches the user's description
2. Identify clear start and end points for a coherent clip
3. Aim for clips between " ++ TARGET_CLIP_DURATION_MIN config ++ lit "-"
  ++ TARGET_CLIP_DURATION_MAX config ++ lit " seconds when possible
4. Ensure the clip has a natural beginning and ending
5. Provide your answer in this exact format:

START_TIME: [seconds]
END_TIME: [seconds]
REASONING: [brief explanation of why this section matches the request]

If you cannot find a suitable match, respond with:
START_TIME: NOT_FOUND
END_TIME: NOT_FOUND
REASONING: [explanation of why no match was found]

EXAMPLE RESPONSE FORMAT:
START_TIME: 245.5
END_TIME: 298.2
REASONING: This section discusses inflation's impact on bond markets, matching the user's request for inflation analysis.
".

(** **** [_parse_timestamp_response] *)

Definition not_found : timestamps := (None, None).

(** The branch taken when both strict fields match. *)
Definition strict_timestamps (start_str end_str : str) : M timestamps :=
  if PyStr.eqb (upper start_str) (lit "NOT_FOUND")
     || PyStr.eqb (upper end_str) (lit "NOT_FOUND")
  then ret not_found
  else
    match float_of_str start_str, float_of_str end_str with
    | Some start_time, Some end_time =>
        if PyFloat.leb end_time start_time then
          log WARNING (Invalid_timestamps end_time start_time) ;;
          ret not_found
        else ret (Some start_time, Some end_time)
    | _, _ =>
        log ERROR Timestamps_not_numbers ;;
        ret not_found
    end.

(** The branch taken otherwise: the loose pattern, then giving up. *)
Definition fallback_timestamps (response_text : str) : M timestamps :=
  let absent : M timestamps :=
    log WARNING Timestamps_not_parsed ;; ret not_found in
  match search timestamp_patterns response_text with
  | Some fallback_match =>
      match float_of_str (group 1 fallback_match),
            float_of_str (group 2 fallback_match) with
      | Some start_time, Some end_time =>
          if PyFloat.gtb end_time start_time then
            log INFO Using_fallback ;;
            ret (Some start_time, Some end_time)
          else absent
      | _, _ => absent
      end
  | None => absent
  end.

Definition _parse_timestamp_response (response_text : str) : M timestamps :=
  try_except
    (let start_match := search start_pattern response_text in
     let end_match := search end_pattern response_text in
     match start_match, end_match with
     | Some start_match, Some end_match =>
         strict_timestamps (group 1 start_match) (group 1 end_match)
     | _, _ => fallback_timestamps response_text
     end)
    (fun e =>
       log ERROR (Timestamp_parse_error e) ;;
       ret not_found).

(** **** [find_clip_timestamps] *)

(** The arguments of the call: the model, the two messages and the
    sampling settings. *)
Definition clip_request (prompt : str) : request :=
  Request model
    (lit "You are an expert at analyzing video transcriptions and identifying specific content segments. You provide precise timestamp ranges for requested clips.")
    prompt (GPT_TEMPERATURE config) (GPT_MAX_TOKENS config).

Definition find_clip_timestamps (transcription clip_description : str) : M timestamps :=
  try_except
    (log INFO (Analyzing clip_description) ;;
     prepared_transcription <- _prepare_transcription_for_analysis transcription ;;
     let prompt := _create_clip_finding_prompt prepared_transcription clip_description in
     response <- call create (clip_request prompt) ;;
     timestamps <- _parse_timestamp_response response ;;
     match timestamps with
     | (Some start_time, Some end_time) =>
         let duration := PyFloat.sub end_time start_time in
         log INFO (Found_clip start_time end_time duration) ;;
         (if negb (validate_clip_duration config duration)
          then log WARNING (Duration_outside_range duration)
          else ret tt) ;;
         ret (Some start_time, Some end_time)
     | _ =>
         log WARNING No_timestamps_identified ;;
         ret not_found
     end)
    (fun e =>
       match e with
       | APIError _ =>
           log ERROR (OpenAI_error e) ;;
           raise (ClipExtractionError (lit "OpenAI API error: " ++ str_of_exn e))
       | _ =>
           log ERROR (Clip_finding_failed e) ;;
           raise (ClipExtractionError (lit "Clip finding failed: " ++ str_of_exn e))
       end).

(** **** [find_multiple_clips] *)

(** The dictionary of an item whose resolution returned. *)
Definition found_item (description : str) (start_time end_time : option float)
    : clip_result :=
  ClipResult description start_time end_time
    (match start_time, end_time with
     | Some s, Some e =>
         if PyFloat.truthy s && PyFloat.truthy e
         then Some (PyFloat.sub e s) else None
     | _, _ => None
     end)
    (match start_time, end_time with
     | Some _, Some _ => true
     | _, _ => false
     end)
    None.

(** The dictionary of an item whose resolution raised. *)
Definition failed_item (description : str) (e : exn) : clip_result :=
  ClipResult description None None None false (Some (str_of_exn e)).

(** One turn of the loop: the [try] block and its handler, each ending
    in [results.append]. *)
Definition find_one_clip (i n : nat) (transcription description : str)
    (results : list clip_result) : M (list clip_result) :=
  try_except
    (log INFO (Finding_clip (i + 1) n description) ;;
     found <- find_clip_timestamps transcription description ;;
     let '(start_time, end_time) := found in
     let result := found_item description start_time end_time in
     ret (results ++ [result]))
    (fun e =>
       log ERROR (Failed_to_find_clip (i + 1) e) ;;
       ret (results ++ [failed_item description e])).

Fixpoint clips_loop (i n : nat) (transcription : str) (clip_descriptions : list str)
    (results : list clip_result) : M (list clip_result) :=
  match clip_descriptions with
  | [] => ret results
  | description :: rest =>
      results' <- find_one_clip i n transcription description results ;;
      clips_loop (S i) n transcription rest results'
  end.

Definition find_multiple_clips (transcription : str) (clip_descriptions : list str)
    : M (list clip_result) :=
  clips_loop 0 (List.length clip_descriptions) transcription clip_descriptions [].

(** The resolutions of a batch, in order: for each description the
    store its resolution starts from (the line announcing the item is
    logged already), and what the resolution ends in. *)
Definition item_start (i n : nat) (description : str) (s : store World) : store World :=
  fst (log INFO (Finding_clip (i + 1) n description) s).

Definition item_end (i : nat) (r : store World * (exn + timestamps)) : store World :=
  match snd r with
  | inl e => fst (log ERROR (Failed_to_find_clip (i + 1) e) (fst r))
  | inr _ => fst r
  end.

Fixpoint resolutions (i n : nat) (transcription : str) (clip_descriptions : list str)
    (s : store World) : list (store World * (exn + timestamps)) :=
  match clip_descriptions with
  | [] => []
  | description :: rest =>
      let r := find_clip_timestamps transcription description
                 (item_start i n description s) in
      (item_start i n description s, snd r)
      :: resolutions (S i) n transcription rest (item_end i r)
  end.

(** The item recorded for a resolution. *)
Definition item_of (description : str) (o : exn + timestamps) : clip_result :=
  match o with
  | inr (start_time, end_time) => found_item description start_time end_time
  | inl e => failed_item description e
  end.

(** **** [_parse_improvement_response] *)

(** A suggested boundary: the captured number, or the original value
    when the field is absent, says KEEP_CURRENT or is not a number. *)
Definition suggested (field : option match_object) (original : float) : float :=
  match field with
  | Some m =>
      let s := group 1 m in
      if PyStr.eqb (upper s) (lit "KEEP_CURRENT") then original
      else match float_of_str s with
           | Some x => x
           | None => original
           end
  | None => original
  end.

Definition _parse_improvement_response (response_text : str)
    (original_start original_end : float) : M improvement :=
  try_except
    (let start_match := search suggested_start_pattern response_text in
     let end_match := search suggested_end_pattern response_text in
     let reason_match := search reason_pattern response_text in
     let confidence_match := search confidence_pattern response_text in
     let suggested_start := suggested start_match original_start in
     let suggested_end := suggested end_match original_end in
     let improvement_reason :=
       match reason_match with
       | Some m => strip (group 1 m)
       | None => lit "No specific improvements suggested"
       end in
     let confidence :=
       match confidence_match with
       | Some m => upper (group 1 m)
       | None => lit "MEDIUM"
       end in
     ret (Improvement suggested_start suggested_end improvement_reason confidence
            (Some (PyFloat.neqb suggested_start original_start
                   || PyFloat.neqb suggested_end original_end))))
    (fun e =>
       log ERROR (Improvement_parse_error e) ;;
       ret (Improvement original_start original_end
              (lit "Could not parse suggestions") (lit "LOW") (Some false))).

(** **** [suggest_clip_improvements] *)

Definition improvement_prompt (transcription : str) (start_time end_time : float) : str :=
  lit "
Analyze this video transcription segment and suggest improvements to the clip boundaries for better flow and completeness.

CURRENT CLIP: " ++ format_f 1 start_time ++ lit "s to " ++ format_f 1 end_time
  ++ lit "s (duration: " ++ format_f 1 (PyFloat.sub end_time start_time) ++ lit "s)

TRANSCRIPTION CONTEXT:
" ++ transcription ++ lit "

INSTRUCTIONS:
1. Review the current clip boundaries
2. Suggest better start/end points if they would improve content flow
3. Ensure the clip tells a complete story or makes a complete point
4. Aim for natural speech breaks and complete sentences
5. Consider if extending or shortening would improve clarity

Respond with:
SUGGESTED_START: [seconds or KEEP_CURRENT]
SUGGESTED_END: [seconds or KEEP_CURRENT]
IMPROVEMENT_REASON: [explanation of suggested changes]
CONFIDENCE: [HIGH/MEDIUM/LOW]
".

Definition improvement_request (prompt : str) : request :=
  Request model
    (lit "You are an expert video editor who optimizes clip boundaries for maximum impact and clarity.")
    prompt (PyFloat.of_ratio 1 10) 200.

Definition suggest_clip_improvements (transcription : str)
    (start_time end_time : float) : M improvement :=
  try_except
    (let prompt := improvement_prompt transcription start_time end_time in
     response <- call create (improvement_request prompt) ;;
     _parse_improvement_response response start_time end_time)
    (fun e =>
       log ERROR (Failed_to_suggest e) ;;
       ret (Improvement start_time end_time
              (lit "Could not analyze improvements") (lit "LOW") None)).

End WithService.
End ClipFinder.


(** ** Dictionaries, in insertion order *)

Module Dict.
Section Dict.
Variable V : Type.

Definition dict : Type := list (str * V).

(** [d.get(k)] *)
Fixpoint get (k : str) (d : dict) : option V :=
  match d with
  | [] => None
  | (k', v) :: d' => if PyStr.eqb k' k then Some v else get k d'
  end.

(** [d[k] = v]: a key already there keeps its place. *)
Fixpoint set (k : str) (v : V) (d : dict) : dict :=
  match d with
  | [] => [(k, v)]
  | (k', v') :: d' => if PyStr.eqb k' k then (k', v) :: d' else (k', v') :: set k v d'
  end.

End Dict.
End Dict.

(** ** topic_classifier.py *)

Module TopicClassifier.
Import Re PyStr.
Local Open Scope re_scope.

(** The float literals of the module. *)
Definition f0 : float := PyFloat.zero.
Definition f1 : float := PyFloat.of_Z 1.
Definition f0_1 : float := PyFloat.of_ratio 1 10.
Definition f0_6 : float := PyFloat.of_ratio 6 10.
Definition f0_7 : float := PyFloat.of_ratio 7 10.
Definition f0_8 : float := PyFloat.of_ratio 8 10.
Definition f1_5 : float := PyFloat.of_ratio 15 10.
Definition f2 : float := PyFloat.of_Z 2.
Definition f5 : float := PyFloat.of_Z 5.
Definition f10 : float := PyFloat.of_Z 10.
Definition f100 : float := PyFloat.of_Z 100.

(** The entry of a category in [all_scores]; the four fields under
    [details] are those only [classify_by_content] records: base score,
    density bonus, clustering bonus and keyword count. *)
Record score_entry : Type := ScoreEntry {
  score : float;
  matched_keywords : list str;
  details : option (float * float * float * nat)
}.

Record classification : Type := Classification {
  primary_category : str;
  confidence_score : float;
  all_scores : Dict.dict score_entry;
  method : str
}.

(** The result of [classify_combined]; [disagreement] is [None] when the
    dictionary has no such key. *)
Record combined : Type := Combined {
  c_primary_category : str;
  c_confidence_score : float;
  description_result : classification;
  content_result : classification;
  c_method : str;
  clip_duration : float;
  disagreement : option bool
}.

(** An entry of [combined_scores] and an entry of the suggestions. *)
Record combined_entry : Type := CombinedEntry {
  ce_description_score : float;
  ce_content_score : float;
  combined_score : float
}.

Record suggestion : Type := Suggestion {
  category : str;
  confidence : float;
  description_score : float;
  content_score : float
}.

(** [len(keyword.split())]: the number of maximal runs of non-blank
    characters. *)
Fixpoint word_count_from (in_word : bool) (s : str) : nat :=
  match s with
  | [] => 0
  | c :: s' =>
      if is_space c then word_count_from false s'
      else if in_word then word_count_from true s'
      else S (word_count_from true s')
  end.

Definition word_count (s : str) : nat := word_count_from false s.

Definition specific_terms : list str :=
  [lit "federal reserve"; lit "interest rate"; lit "cpi"; lit "gdp";
   lit "unemployment rate"].

Definition keyword_weight (keyword : str) : float :=
  let base_weight := f1 in
  let base_weight :=
    if (1 <? word_count keyword)%nat then PyFloat.mul base_weight f1_5 else base_weight in
  if existsb (PyStr.eqb keyword) specific_terms
  then PyFloat.mul base_weight f2 else base_weight.

(** Python's [max(d, key=...)] over a non-empty dictionary: the first key
    with the largest value. *)
Fixpoint max_from (A : Type) (key : A -> float) (best : A) (l : list A) : A :=
  match l with
  | [] => best
  | x :: l' => max_from key (if PyFloat.gtb (key x) (key best) then x else best) l'
  end.

(** [list.sort()] on integers, and [list.sort(key=..., reverse=True)]: both
    stable.  In the second, elements are inserted from the last to the
    first, each before the first element whose key is not strictly larger,
    so that equal keys keep the order they came in. *)
Fixpoint insert_asc (x : Z) (l : list Z) : list Z :=
  match l with
  | [] => [x]
  | y :: l' => if (y <=? x)%Z then y :: insert_asc x l' else x :: l
  end.

Definition sort_asc (l : list Z) : list Z :=
  fold_left (fun acc x => insert_asc x acc) l [].

Fixpoint insert_desc (A : Type) (key : A -> float) (x : A) (l : list A) : list A :=
  match l with
  | [] => [x]
  | y :: l' =>
      if PyFloat.gtb (key y) (key x) then y :: insert_desc key x l' else x :: l
  end.

Definition sort_desc (A : Type) (key : A -> float) (l : list A) : list A :=
  fold_right (insert_desc key) [] l.

(** **** [_calculate_clustering_bonus] *)

(** What one adjacent pair adds to the bonus. *)
Definition pair_bonus (distance : Z) : option float :=
  if (distance <=? 100)%Z
  then Some (PyFloat.div (PyFloat.of_Z (100 - distance)) f100)
  else None.

Fixpoint clustering_loop (prev : Z) (positions : list Z) (clustering_bonus : float) : float :=
  match positions with
  | [] => clustering_bonus
  | p :: positions' =>
      let distance := (p - prev)%Z in
      clustering_loop p positions'
        (match pair_bonus distance with
         | Some b => PyFloat.add clustering_bonus b
         | None => clustering_bonus
         end)
  end.

Definition _calculate_clustering_bonus (positions : list Z) (content_length : nat) : float :=
  if (List.length positions <? 2)%nat then f0
  else
    match sort_asc positions with
    | [] => f0
    | p0 :: positions' => clustering_loop p0 positions' f0
    end.

(** The length of a segment converts to a float: [score / content_length]
    raises [OverflowError] in Python when it does not, which takes a text of
    some 2^1024 characters. *)
Definition length_converts (transcript_segment : str) : Prop :=
  PyFloat.of_Z (Z.of_nat (List.length transcript_segment)) <> S754_infinity false.

Section WithCategories.
(** [config.TOPIC_CATEGORIES], in the order of the dictionary. *)
Variable categories : list (str * list str).

(** **** [_calculate_category_weights] *)

Definition _calculate_category_weights : Dict.dict (Dict.dict float) :=
  fold_left
    (fun weights ck =>
       let '(category, keywords) := ck in
       if PyStr.eqb category (lit "general") then weights
       else
         let category_weights :=
           fold_left (fun cw keyword => Dict.set keyword (keyword_weight keyword) cw)
                     keywords [] in
         Dict.set category category_weights weights)
    categories [].

Definition category_weights : Dict.dict (Dict.dict float) := _calculate_category_weights.

(** [self.category_weights[category].get(keyword, 1.0)] *)
Definition weight_of (category keyword : str) : float :=
  match Dict.get category category_weights with
  | Some cw =>
      match Dict.get keyword cw with
      | Some w => w
      | None => f1
      end
  | None => f1
  end.

(** The best category of a non-empty [category_scores]. *)
Definition best_of (category_scores : Dict.dict score_entry) : option (str * score_entry) :=
  match category_scores with
  | [] => None
  | first :: others => Some (max_from (fun ce => score (snd ce)) first others)
  end.

(** **** [classify_by_description] *)

Definition description_entry (description_lower category : str) (keywords : list str)
    : score_entry :=
  let '(score, matched) :=
    fold_left
      (fun acc keyword =>
         let '(score, matched) := acc in
         if contains keyword description_lower
         then (PyFloat.add score (weight_of category keyword), matched ++ [keyword])
         else acc)
      keywords (f0, []) in
  ScoreEntry score matched None.

Definition description_scores (description : str) : Dict.dict score_entry :=
  let description_lower := lower description in
  fold_left
    (fun category_scores ck =>
       let '(category, keywords) := ck in
       if PyStr.eqb category (lit "general") then category_scores
       else
         let e := description_entry description_lower category keywords in
         if PyFloat.gtb (score e) f0 then Dict.set category e category_scores
         else category_scores)
    categories [].

Definition classify_by_description (description : str) : classification :=
  let category_scores := description_scores description in
  match best_of category_scores with
  | Some (best_category, e) =>
      Classification best_category (PyFloat.min (PyFloat.div (score e) f5) f1)
        category_scores (lit "description_keywords")
  | None => Classification (lit "general") f0 [] (lit "default_fallback")
  end.

(** **** [classify_by_content] *)

(** [r'\b' + re.escape(keyword) + r'\b'] *)
Definition keyword_pattern (keyword : str) : regex :=
  WordB ;; text false keyword ;; WordB.

Definition content_entry (content_lower category : str) (keywords : list str)
    : option score_entry :=
  let '(score, matched, keyword_positions) :=
    fold_left
      (fun acc keyword =>
         let '(score, matched, keyword_positions) := acc in
         let found := finditer (keyword_pattern keyword) content_lower in
         let occurrences := List.length found in
         if (0 <? occurrences)%nat then
           (PyFloat.add score
              (PyFloat.mul (weight_of category keyword)
                           (PyFloat.of_Z (Z.of_nat occurrences))),
            matched ++ [keyword],
            keyword_positions ++ map (fun m => Z.of_nat (m_start m)) found)
         else acc)
      keywords (f0, [], []) in
  if PyFloat.gtb score f0 then
    let content_length := List.length content_lower in
    let density_bonus :=
      PyFloat.mul (PyFloat.div score (PyFloat.of_Z (Z.of_nat content_length)))
                  (PyFloat.of_Z 1000) in
    let clustering_bonus := _calculate_clustering_bonus keyword_positions content_length in
    let final_score := PyFloat.add (PyFloat.add score density_bonus) clustering_bonus in
    Some (ScoreEntry final_score matched
            (Some (score, density_bonus, clustering_bonus, List.length matched)))
  else None.

Definition content_scores (transcript_segment : str) : Dict.dict score_entry :=
  let content_lower := lower transcript_segment in
  fold_left
    (fun category_scores ck =>
       let '(category, keywords) := ck in
       if PyStr.eqb category (lit "general") then category_scores
       else
         match content_entry content_lower category keywords with
         | Some e => Dict.set category e category_scores
         | None => category_scores
         end)
    categories [].

Definition classify_by_content (transcript_segment : str) : classification :=
  match strip transcript_segment with
  | [] => Classification (lit "general") f0 [] (lit "empty_content")
  | _ :: _ =>
      let category_scores := content_scores transcript_segment in
      match best_of category_scores with
      | Some (best_category, e) =>
          let max_score := score e in
          let keyword_diversity := List.length (matched_keywords e) in
          let confidence :=
            PyFloat.min
              (PyFloat.mul (PyFloat.div max_score f10)
                 (PyFloat.add f1
                    (PyFloat.mul (PyFloat.of_Z (Z.of_nat keyword_diversity)) f0_1)))
              f1 in
          Classification best_category confidence category_scores (lit "content_analysis")
      | None => Classification (lit "general") f0 [] (lit "no_keywords_found")
      end
  end.

(** **** [classify_combined] *)

Definition classify_combined (description transcript_segment : str)
    (start_time end_time : float) : combined :=
  let desc_result := classify_by_description description in
  let content_result := classify_by_content transcript_segment in
  if PyStr.eqb (primary_category desc_result) (primary_category content_result) then
    let combined_confidence :=
      PyFloat.min
        (PyFloat.div (PyFloat.add (confidence_score desc_result)
                                  (confidence_score content_result)) f1_5)
        f1 in
    Combined (primary_category desc_result) combined_confidence desc_result content_result
      (lit "combined_agreement") (PyFloat.sub end_time start_time) None
  else
    let '(primary_result, method) :=
      if PyFloat.gtb (confidence_score desc_result) (confidence_score content_result)
      then (desc_result, lit "description_primary")
      else (content_result, lit "content_primary") in
    let adjusted_confidence := PyFloat.mul (confidence_score primary_result) f0_7 in
    Combined (primary_category primary_result) adjusted_confidence desc_result content_result
      method (PyFloat.sub end_time start_time) (Some true).

(** **** [get_category_suggestions] *)

Definition add_description_scores (scores : Dict.dict score_entry)
    (combined_scores : Dict.dict combined_entry) : Dict.dict combined_entry :=
  fold_left
    (fun cs cd =>
       let '(category, data) := cd in
       Dict.set category
         (CombinedEntry (score data) f0 (PyFloat.mul (score data) f0_6)) cs)
    scores combined_scores.

Definition add_content_scores (scores : Dict.dict score_entry)
    (combined_scores : Dict.dict combined_entry) : Dict.dict combined_entry :=
  fold_left
    (fun cs cd =>
       let '(category, data) := cd in
       match Dict.get category cs with
       | Some old =>
           Dict.set category
             (CombinedEntry (ce_description_score old) (score data)
                (PyFloat.add (combined_score old) (PyFloat.mul (score data) f0_8))) cs
       | None =>
           Dict.set category
             (CombinedEntry f0 (score data) (PyFloat.mul (score data) f0_8)) cs
       end)
    scores combined_scores.

Definition suggestion_of (cs : str * combined_entry) : suggestion :=
  let '(category, scores) := cs in
  Suggestion category (PyFloat.min (PyFloat.div (combined_score scores) f10) f1)
    (ce_description_score scores) (ce_content_score scores).

Definition get_category_suggestions (description transcript_segment : str)
    : list suggestion :=
  let desc_result := classify_by_description description in
  let content_result := classify_by_content transcript_segment in
  let combined_scores :=
    add_content_scores (all_scores content_result)
      (add_description_scores (all_scores desc_result) []) in
  let suggestions := map suggestion_of combined_scores in
  firstn 3 (sort_desc confidence suggestions).

End WithCategories.
End TopicClassifier.

(** ** Computations with a log and exceptions of any kind *)

(** The computations of [Eff], with the type of the log messages and the
    type of the exceptions left open. *)
Module EffOf.
Section Monad.
Variables World Msg Exn : Type.

Record store : Type := Store { world : World; logs : list (level * Msg) }.

Definition M (A : Type) : Type := store -> store * (Exn + A).

Definition ret {A} (a : A) : M A := fun s => (s, inr a).

Definition bind {A B} (m : M A) (f : A -> M B) : M B :=
  fun s =>
    match m s with
    | (s', inr a) => f a s'
    | (s', inl e) => (s', inl e)
    end.

Definition raise {A} (e : Exn) : M A := fun s => (s, inl e).

(** [try: m  except Exception as e: h e] *)
Definition try_except {A} (m : M A) (h : Exn -> M A) : M A :=
  fun s =>
    match m s with
    | (s', inl e) => h e s'
    | r => r
    end.

Definition log (l : level) (msg : Msg) : M unit :=
  fun s => (Store (world s) (logs s ++ [(l, msg)]), inr tt).

(** A call of something outside: it changes the world and answers or
    raises. *)
Definition call {A} (serve : World -> World * (Exn + A)) : M A :=
  fun s => let '(w, r) := serve (world s) in (Store w (logs s), r).

Definition outcome {A} (m : M A) (s : store) : Exn + A := snd (m s).
Definition logged {A} (m : M A) (s : store) : list (level * Msg) := logs (fst (m s)).
End Monad.

Arguments ret {World Msg Exn A} a.
Arguments raise {World Msg Exn A} e.
Arguments log {World Msg Exn} l msg.
Arguments call {World Msg Exn A} serve.
End EffOf.

Declare Scope effof_scope.
Delimit Scope effof_scope with effof.
Notation "x <- m ;; k" := (EffOf.bind m (fun x => k))
  (at level 61, m at next level, right associativity) : effof_scope.
Notation "m ;; k" := (EffOf.bind m (fun _ => k))
  (at level 61, right associativity) : effof_scope.

(** ** clip_finder.py: the construction of a finder *)

Module ClipFinderInit.
Import PyStr EffOf.
Local Open Scope effof_scope.

(** What [__init__] raises: the module's [ConfigurationError], or whatever
    the construction of the client raises. *)
Inductive init_exn : Type :=
| ConfigurationError (msg : str)
| ClientError (e : exn).

Inductive init_message : Type :=
| Initialized_with_model (model : str).

Section WithClient.
Variable World : Type.
(** The clients of the service *)
Variable Client : Type.
(** [openai.OpenAI(api_key=api_key)] *)
Variable OpenAI : str -> World -> World * (exn + Client).

(** The attributes [__init__] sets. *)
Record clip_finder : Type := ClipFinder {
  api_key : str;
  model : str;
  client : Client
}.

(** [not s] for a string *)
Definition is_empty (s : str) : bool :=
  match s with [] => true | _ :: _ => false end.

Definition new_client (api_key : str) (w : World) : World * (init_exn + Client) :=
  match OpenAI api_key w with
  | (w', inl e) => (w', inl (ClientError e))
  | (w', inr c) => (w', inr c)
  end.

Definition __init__ (api_key model : str) : M World init_message init_exn clip_finder :=
  if is_empty api_key || is_empty (strip api_key) then
    raise (ConfigurationError (lit "OpenAI API key is required"))
  else
    client <- call (new_client api_key) ;;
    log INFO (Initialized_with_model model) ;;
    ret (ClipFinder api_key model client).

End WithClient.
End ClipFinderInit.

(** ** clip_finder.py: the topics of a transcription *)

Module TopicExtraction.
Import Re PyStr PyNum EffOf.
Local Open Scope re_scope.

(** The two messages of [extract_key_topics] and [_parse_topics_response]. *)
Inductive topics_message : Type :=
| Failed_to_extract_topics (e : exn)
| Topics_parse_error (e : exn).

(** [TOPIC\s+\d+:\s*] then the first group, a number [[0-9]+\.?[0-9]*],
    then [\s*s\s*-\s*(.+?)(?=\n|$)]; IGNORECASE and DOTALL *)
Definition topic_pattern : regex :=
  text true (lit "TOPIC") ;; Plus is_space ;; Plus is_digit ;;
  Chr (char true ":") ;; Star is_space ;;
  Group 1 ClipFinder.number ;; Star is_space ;; Chr (char true "s") ;;
  Star is_space ;; Chr (char true "-") ;; Star is_space ;;
  Group 2 (PlusLazy any) ;;
  Ahead (Alt (Chr (char true ClipFinder.newline)) Eos).

(** [re.findall] for a pattern with two groups: the pairs of what the
    groups capture, match after match. *)
Definition findall2 (r : regex) (text : str) : list (str * str) :=
  map (fun m => (group 1 m, group 2 m)) (finditer r text).

(** A dictionary of the list of topics. *)
Record topic : Type := Topic {
  timestamp : float;
  description : str;
  topic_id : nat
}.

(** The loop over the matches; a match whose first group is no number is
    passed over. *)
Fixpoint topics_loop (matches : list (str * str)) (topics : list topic) : list topic :=
  match matches with
  | [] => topics
  | match_ :: matches' =>
      match float_of_str (fst match_) with
      | Some timestamp =>
          let description := strip (snd match_) in
          topics_loop matches'
            (topics ++ [Topic timestamp description (List.length topics + 1)])
      | None => topics_loop matches' topics
      end
  end.

Section WithService.
Variable World : Type.
(** [self.client.chat.completions.create(...).choices[0].message.content] *)
Variable create : request -> World -> World * (exn + str).
(** [self.model] *)
Variable model : str.

Local Abbreviation M := (EffOf.M World topics_message exn).
Local Open Scope effof_scope.

Definition _parse_topics_response (response_text : str) : M (list topic) :=
  try_except
    (let matches := findall2 topic_pattern response_text in
     ret (topics_loop matches []))
    (fun e =>
       log ERROR (Topics_parse_error e) ;;
       ret []).

Definition topics_prompt (transcription : str) : str :=
  lit "
Analyze this video transcription and identify the main topics discussed, along with their approximate timestamps.

TRANSCRIPTION:
" ++ transcription ++ lit "

INSTRUCTIONS:
1. Identify 3-7 main topics or themes discussed
2. For each topic, provide the approximate start time and a brief description
3. Focus on substantive content sections, not introductions or conclusions
4. Format your response as:

TOPIC 1: [timestamp]s - [brief description]
TOPIC 2: [timestamp]s - [brief description]
etc.

EXAMPLE:
TOPIC 1: 45s - Discussion of inflation trends and CPI data
TOPIC 2: 128s - Federal Reserve policy implications
TOPIC 3: 267s - Impact on housing market and mortgage rates
".

Definition topics_request (prompt : str) : request :=
  Request model
    (lit "You are an expert at analyzing economic content and identifying key discussion topics.")
    prompt (PyFloat.of_ratio 1 10) 300.

Definition extract_key_topics (transcription : str) : M (list topic) :=
  try_except
    (let prompt := topics_prompt transcription in
     response <- call (create (topics_request prompt)) ;;
     _parse_topics_response response)
    (fun e =>
       log ERROR (Failed_to_extract_topics e) ;;
       ret []).

End WithService.
End TopicExtraction.

(** ** topic_classifier.py: the validation of a manual classification *)

Module TopicValidation.
Import PyStr PyNum TopicClassifier.



Section WithCategories.
(** [config.TOPIC_CATEGORIES], in the order of the dictionary. *)
Variable categories : list (str * list str).




End WithCategories.
End TopicValidation.

(** * Definitions the theorems are stated with *)

(** ** Values and magnitudes of floats

    What the theorems on the arithmetic are stated with: the rounding the
    operations end with, its two truncation steps, exact values as real
    numbers, and bounds on them. *)

Unset Implicit Arguments.

Module PyFloatSpec.
Import PyFloat.

Definition bra := binary_round_aux prec emax.

(** Not a NaN and sign bit clear: +0, a positive finite number or +inf. *)
Definition nonneg (x : float) : bool :=
  match x with
  | S754_zero false | S754_infinity false | S754_finite false _ _ => true
  | _ => false
  end.

(** One truncation step: the exponent the step ends at and the mantissa
    it leaves. *)
Definition step_e (m e : Z) : Z := Z.max e (fexp prec emax (Zdigits2 m + e)).

Definition step_m (m e : Z) : Z := (m / 2 ^ (step_e m e - e))%Z.

Local Open Scope R_scope.

Definition bpow (e : Z) : R := powerRZ 2 e.

(** The exact value of a mantissa at an exponent. *)
Definition mval (m e : Z) : R := IZR m * bpow e.

(** [x >= 2^k]: a positive finite number at least [2^k], or +inf. *)
Definition ge_bpow (x : float) (k : Z) : Prop :=
  match x with
  | S754_infinity false => True
  | S754_finite false m e => bpow k <= mval (Zpos m) e
  | _ => False
  end.

(** [x <= v] for a finite [x >= 0]: +0 or a positive finite number of
    value at most [v]. *)
Definition fin_le (x : float) (v : R) : Prop :=
  match x with
  | S754_zero false => 0 <= v
  | S754_finite false m e => mval (Zpos m) e <= v
  | _ => False
  end.

Definition one : float := S754_finite false 4503599627370496 (-52).

(** 0.7 as a float: [6305039478318694 * 2^-53]. *)
Definition seven_tenths : float := S754_finite false 6305039478318694 (-53).

(** The exact value of a finite number that is not negative. *)
Definition value (x : float) : R :=
  match x with
  | S754_finite false m e => mval (Zpos m) e
  | _ => 0
  end.

Definition finite_nonneg (x : float) : bool :=
  match x with
  | S754_zero false | S754_finite false _ _ => true
  | _ => false
  end.

(** A mantissa and an exponent of the format: at most 53 binary digits, at
    the least exponent or above. *)
Definition bounded (m : positive) (e : Z) : Prop :=
  (Zpos m < 2 ^ prec)%Z /\ (emin prec emax <= e)%Z.

(** A float whose mantissa and exponent, if it has them, are of the
    format. *)
Definition in_format (x : float) : Prop :=
  match x with
  | S754_finite _ m e => bounded m e
  | _ => True
  end.

(** [x >= v]: a positive finite number of value at least [v], or +inf. *)
Definition ge_val (x : float) (v : R) : Prop :=
  match x with
  | S754_infinity false => True
  | S754_finite false m e => v <= mval (Zpos m) e
  | _ => False
  end.

End PyFloatSpec.

Set Implicit Arguments.

(** ** What the matcher reads *)

Module ReSpec.
Import Re PyStr PyNum.

(** The unsigned decimal literals: digits, then possibly a point and
    further digits. *)
Inductive decimal : str -> Prop :=
| decimal_int (ip : str) :
    ip <> [] -> forallb is_digit ip = true -> decimal ip
| decimal_frac (ip fp : str) :
    ip <> [] -> forallb is_digit ip = true -> forallb is_digit fp = true ->
    decimal (ip ++ "."%char :: fp).

(** What may follow a number in the subject for the number pattern to take
    exactly the literal: the end, or a character that is neither a digit
    nor a point. *)
Definition stops (tail : str) : Prop :=
  match tail with
  | c :: _ => is_digit c = false /\ Ascii.eqb c "." = false
  | [] => True
  end.

(** A literal text of a pattern against the characters it is read on. *)
Fixpoint matches_text (ic : bool) (p l : str) : bool :=
  match p, l with
  | [], [] => true
  | c :: p', x :: l' => char ic c x && matches_text ic p' l'
  | _, _ => false
  end.

Inductive reach : regex -> state -> state -> Prop :=
| reach_eps st : reach Eps st st
| reach_chr (p : class) c b s g :
    p c = true -> reach (Chr p) (State b (c :: s) g) (State (c :: b) s g)
| reach_seq r1 r2 st st1 st2 :
    reach r1 st st1 -> reach r2 st1 st2 -> reach (Seq r1 r2) st st2
| reach_alt_l r1 r2 st st' : reach r1 st st' -> reach (Alt r1 r2) st st'
| reach_alt_r r1 r2 st st' : reach r2 st st' -> reach (Alt r1 r2) st st'
| reach_opt_some r st st' : reach r st st' -> reach (Opt r) st st'
| reach_opt_none r st : reach (Opt r) st st
| reach_star (p : class) l b s g :
    forallb p l = true ->
    reach (Star p) (State b (l ++ s) g) (State (rev l ++ b) s g)
| reach_plus (p : class) l b s g :
    l <> [] -> forallb p l = true ->
    reach (Plus p) (State b (l ++ s) g) (State (rev l ++ b) s g)
| reach_plus_lazy (p : class) l b s g :
    l <> [] -> forallb p l = true ->
    reach (PlusLazy p) (State b (l ++ s) g) (State (rev l ++ b) s g)
| reach_group n r st st' :
    reach r st st' ->
    reach (Group n r) st
      (State (before st') (rest st') ((n, consumed st st') :: groups st'))
| reach_ahead r st st' :
    reach r st st' ->
    reach (Ahead r) st (State (before st) (rest st) (groups st'))
| reach_eos st : at_end st = true -> reach Eos st st
| reach_wordb st : word_boundary st = true -> reach WordB st st.

Definition all_ascii : list ascii := map ascii_of_nat (seq 0 256).

(** Capital letters and the underscore: the characters of the sentinels. *)
Definition plain (c : ascii) : bool := between 65 90 c || (code c =? 95)%N.

End ReSpec.

(** ** Answers of the service and results of a batch *)

Module ClipFinderSpec.
Import Re PyStr PyNum Eff ClipFinder.

(** The text the service sends back when it echoes two literals. *)
Definition echo (ls le : str) : str :=
  lit "START_TIME: " ++ ls ++ lit " END_TIME: " ++ le.

(** The items of a batch, one per description. *)
Definition items (World : Type) (descs : list str)
    (rs : list (store World * (exn + timestamps)))
    : list clip_result :=
  map (fun dr => item_of (fst dr) (snd (snd dr))) (combine descs rs).

End ClipFinderSpec.

(** ** Scores, confidences and suggestions *)

Unset Implicit Arguments.

Module ClassifierSpec.
Import PyFloat PyFloatSpec TopicClassifier.
Local Open Scope R_scope.

Definition all_values {V : Type} (P : V -> Prop) (d : Dict.dict V) : Prop :=
  Forall (fun kv => P (snd kv)) d.

(** A weight is a finite number, at least 1. *)
Definition weight_ok (w : float) : Prop :=
  match w with
  | S754_finite false m e => bpow 0 <= mval (Zpos m) e
  | _ => False
  end.

(** A running score: 0.0 before any keyword matched, at least 1 after. *)
Definition score_inv (s : float) : Prop := s = f0 \/ ge_bpow s 0.

(** A confidence that is not the 0.0 of a fallback: from [2^-4] to 1. *)
Definition confident (c : float) : Prop := ge_bpow c (-4) /\ fin_le c 1.

Definition keys {V : Type} (d : Dict.dict V) : list str := map fst d.

(** The score a dictionary of scores gives a category: 0.0 when the
    category is not in it. *)
Definition score_in (scores : Dict.dict score_entry) (category : str) : float :=
  match Dict.get category scores with
  | Some data => score data
  | None => f0
  end.

Definition scores_nonneg (scores : Dict.dict score_entry) : Prop :=
  all_values (fun data => nonneg (score data) = true) scores.

Section Combine.
Variables description_scores content_scores : Dict.dict score_entry.

(** The sum the entry of a category ends with. *)
Definition total (category : str) : float :=
  add (mul (score_in description_scores category) f0_6)
      (mul (score_in content_scores category) f0_8).

(** An entry as the first loop of [get_category_suggestions] leaves it. *)
Definition fresh (ke : str * combined_entry) : Prop :=
  ce_description_score (snd ke) = score_in description_scores (fst ke)
  /\ ce_content_score (snd ke) = f0
  /\ combined_score (snd ke) = mul (score_in description_scores (fst ke)) f0_6.

(** An entry as the second loop leaves it. *)
Definition settled (ke : str * combined_entry) : Prop :=
  ce_description_score (snd ke) = score_in description_scores (fst ke)
  /\ ce_content_score (snd ke) = score_in content_scores (fst ke)
  /\ combined_score (snd ke) = total (fst ke).

(** The state of the second loop: an entry is fresh and its category is
    still to come if it is a content category at all, or it is settled
    and its category will not come again. *)
Definition pending (rest : Dict.dict score_entry) (ke : str * combined_entry) : Prop :=
  (fresh ke /\ (In (fst ke) (keys content_scores) -> In (fst ke) (keys rest)))
  \/ (settled ke /\ ~ In (fst ke) (keys rest)).

End Combine.

Section SortDesc.
Variable A : Type.
Variable key : A -> float.

(** Keys that are finite and not negative are ordered by their values. *)
Definition above (a b : A) : Prop := (value (key b) <= value (key a))%R.

Definition plain_key (a : A) : Prop := finite_nonneg (key a) = true.

End SortDesc.

(** What is right of a suggestion. *)
Definition suggestion_ok (by_description by_content : Dict.dict score_entry)
    (s : suggestion) : Prop :=
  description_score s = score_in by_description (category s)
  /\ content_score s = score_in by_content (category s)
  /\ confidence s
     = min (div (add (mul (description_score s) f0_6) (mul (content_score s) f0_8)) f10) f1
  /\ leb f0 (confidence s) = true
  /\ leb (confidence s) f1 = true.

End ClassifierSpec.

Set Implicit Arguments.

(** ** The order of floats that are not negative *)

Unset Implicit Arguments.

Module PyFloatOrderSpec.
Import PyFloat PyFloatSpec.
Local Open Scope R_scope.

(** [x <= y] for two floats that are not negative, +inf included. *)
Definition le_ext (x y : float) : Prop :=
  match y with
  | S754_infinity false => True
  | _ =>
      match x with
      | S754_infinity false => False
      | _ => value x <= value y
      end
  end.

End PyFloatOrderSpec.

Set Implicit Arguments.

(** ** Lines *)

Module LinesSpec.
Import PyStr PyNum.

(** A character other than a given one. *)
Definition other (sep c : ascii) : bool := negb (Ascii.eqb c sep).

(** The time estimated for line [i] of [total] lines:
    [(i / len(lines)) * 1800]. *)
Definition estimated_time (i total : nat) : float :=
  PyFloat.mul (PyFloat.of_ratio (Z.of_nat i) (Pos.of_nat total)) (PyFloat.of_Z 1800).

(** What numbering makes of line [i] of [total] lines: nothing of a blank
    line, and of any other line the stripped line behind the label
    [[~Ns] ], where [N] is the estimated time without decimals, a run of
    digits. *)
Definition numbered_line (i total : nat) (line out : str) : Prop :=
  (forallb is_space line = true -> out = [])
  /\ (forallb is_space line = false ->
      exists label,
        out = lit "[~" ++ label ++ lit "s] " ++ strip line
        /\ label = format_f 0 (estimated_time i total)
        /\ label <> []
        /\ forallb is_digit label = true).

End LinesSpec.

(** ** Lines of text *)

Module TextSpec.
Import PyStr LinesSpec.

(** No blank character at either end. *)
Definition trimmed (s : str) : Prop :=
  match s with c :: _ => is_space c = false | [] => True end
  /\ match rev s with c :: _ => is_space c = false | [] => True end.

(** No newline. *)
Definition single_line (s : str) : Prop :=
  forallb (other ClipFinder.newline) s = true.

(** Characters of ASCII only. *)
Definition ascii_only (s : str) : bool :=
  forallb (fun c => (code c <? 128)%N) s.

End TextSpec.

(** ** The two loops of the weights *)

Module WeightSpec.
Import TopicClassifier.

(** The inner loop: the weights of the keywords of one category. *)
Definition weights_of_keywords (keywords : list str) (cw : Dict.dict float)
    : Dict.dict float :=
  fold_left (fun cw keyword => Dict.set keyword (keyword_weight keyword) cw) keywords cw.

(** One round of the outer loop. *)
Definition weights_step (weights : Dict.dict (Dict.dict float)) (ck : str * list str)
    : Dict.dict (Dict.dict float) :=
  let '(category, keywords) := ck in
  if PyStr.eqb category (lit "general") then weights
  else Dict.set category (weights_of_keywords keywords []) weights.

End WeightSpec.

(** ** The first of the largest *)

Module BestSpec.

(** [m] is where the list is largest for the first time: what comes
    before is strictly smaller, what comes after is not larger. *)
Definition first_maximum {A : Type} (key : A -> float) (l : list A) (m : A) : Prop :=
  exists pre post,
    l = pre ++ m :: post
    /\ Forall (fun x => PyFloat.ltb (key x) (key m) = true) pre
    /\ Forall (fun x => PyFloat.leb (key x) (key m) = true) post.

(** A keyword of the list is part of the text. *)
Definition mentioned (text_lower : str) (keywords : list str) : bool :=
  existsb (fun keyword => PyStr.contains keyword text_lower) keywords.

(** The whole-word occurrences of a keyword in a text. *)
Definition occurrences (content_lower keyword : str) : nat :=
  List.length (Re.finditer (TopicClassifier.keyword_pattern keyword) content_lower).

(** A keyword of the list occurs in the text as a whole word. *)
Definition occurring (content_lower : str) (keywords : list str) : bool :=
  existsb (fun keyword => (0 <? occurrences content_lower keyword)%nat) keywords.

End BestSpec.

(** ** An answer in the format the prompt for the topics asks for *)

Module TopicFormatSpec.
Import PyStr ReSpec TextSpec.

(** One topic as it is written: its number, its seconds and its
    description. *)
Record written : Type := Written {
  w_number : str;
  w_seconds : str;
  w_description : str
}.

(** [TOPIC <number>: <seconds>s - <description>] *)
Definition topic_line (t : written) : str :=
  lit "TOPIC " ++ w_number t ++ lit ": " ++ w_seconds t ++ lit "s - " ++ w_description t.

(** The number is a run of digits, the seconds are a decimal literal, and
    the description is one line that is not empty and has no blank at
    either end. *)
Definition well_written (t : written) : Prop :=
  w_number t <> [] /\ forallb is_digit (w_number t) = true
  /\ decimal (w_seconds t)
  /\ w_description t <> [] /\ single_line (w_description t) /\ trimmed (w_description t).

(** The lines of the topics, one below the other. *)
Definition topics_text (ts : list written) : str :=
  join [ClipFinder.newline] (map topic_line ts).

(** What follows the first line: every further line behind a newline. *)
Definition further_lines (ts : list written) : str :=
  List.concat (map (fun t => ClipFinder.newline :: topic_line t) ts).

(** The pairs [re.findall] collects on a part of the text. *)
Definition findall2_at (fuel : nat) (b s : str) : list (str * str) :=
  map (fun m => (Re.group 1 m, Re.group 2 m))
      (Re.finditer_at fuel TopicExtraction.topic_pattern b s).

(** The end of a line: the end of the text or a newline. *)
Definition line_end (tail : str) : Prop :=
  tail = [] \/ exists more, tail = ClipFinder.newline :: more.

End TopicFormatSpec.

(** ** The clustering bonus, as the specification words it *)

Module ClusteringSpec.
Import TopicClassifier.

(** The adjacent pairs of a list, left to right. *)
Definition adjacent (l : list Z) : list (Z * Z) := combine l (tl l).

(** What a pair at a given distance contributes: [(100 - distance)/100]
    within 100 characters, nothing beyond. *)
Definition contribution (distance : Z) : float :=
  if (distance <=? 100)%Z
  then PyFloat.div (PyFloat.of_Z (100 - distance)) f100
  else f0.

(** Sort ascending, then add the contribution of every adjacent pair. *)
Definition clustering_bonus (positions : list Z) : float :=
  fold_left (fun bonus ab => PyFloat.add bonus (contribution (snd ab - fst ab)))
            (adjacent (sort_asc positions)) f0.

(** The distances from 0 to 100. *)
Definition near_distances : list Z := map Z.of_nat (seq 0 101).

(** No number of a list is above one that comes before it. *)
Fixpoint non_increasing (l : list float) : bool :=
  match l with
  | [] => true
  | x :: l' => forallb (fun y => PyFloat.leb y x) l && non_increasing l'
  end.

End ClusteringSpec.

(** ** Inputs of the concrete runs *)

(** A service that answers every request with the same text, or fails every
    request with the same error; the world is a single point. *)
Definition answering (text : str) : request -> unit -> unit * (exn + str) :=
  fun _ w => (w, inr text).

Definition failing (e : exn) : request -> unit -> unit * (exn + str) :=
  fun _ w => (w, inl e).

(** A service that fails its second request and answers the others; the
    world is the number of requests made so far. *)
Definition second_fails : request -> nat -> nat * (exn + str) :=
  fun _ calls =>
    (S calls,
     if (calls =? 1)%nat then inl (APIError (lit "connection error"))
     else inr (lit "START_TIME: 10.0 END_TIME: 50.0")).

(** A configuration with a target band of 30 to 90 seconds. *)
Definition example_config : Config := {|
  GPT_TEMPERATURE := PyFloat.of_ratio 1 10;
  GPT_MAX_TOKENS := 500;
  MAX_TRANSCRIPTION_LENGTH := 8000;
  TARGET_CLIP_DURATION_MIN := lit "30";
  TARGET_CLIP_DURATION_MAX := lit "90";
  validate_clip_duration :=
    fun d => PyFloat.leb (PyFloat.of_Z 30) d && PyFloat.leb d (PyFloat.of_Z 90)
|}.

Definition empty_store : Eff.store unit := Eff.Store tt [].

(** Topic categories of the kind [config.TOPIC_CATEGORIES] holds. *)
Definition example_categories : list (str * list str) :=
  [(lit "inflation", [lit "inflation"; lit "cpi"; lit "price"]);
   (lit "fed", [lit "federal reserve"; lit "interest rate"; lit "fomc"; lit "powell"]);
   (lit "markets", [lit "stock"; lit "market"]);
   (lit "general", [lit "economy"])].

(** A segment of 359 characters that names the FOMC once. *)
Definition fomc_segment : str :=
  lit "the fomc met this week "
  ++ List.concat (repeat (lit "and they talked for a while ") 12).

Definition inflation_description : str := lit "what powell said about inflation and cpi".

Definition markets_segment : str :=
  lit "Stock prices fell as the market digested the news; the stock market is nervous.".

(** A configuration that shortens any transcription of more than 30
    characters. *)
Definition short_config : Config := {|
  GPT_TEMPERATURE := PyFloat.of_ratio 1 10;
  GPT_MAX_TOKENS := 500;
  MAX_TRANSCRIPTION_LENGTH := 30;
  TARGET_CLIP_DURATION_MIN := lit "30";
  TARGET_CLIP_DURATION_MAX := lit "90";
  validate_clip_duration :=
    fun d => PyFloat.leb (PyFloat.of_Z 30) d && PyFloat.leb d (PyFloat.of_Z 90)
|}.

(** A transcription of 100 characters on ten lines. *)
Definition ten_lines : str :=
  List.concat (repeat (lit "nine char" ++ [ClipFinder.newline]) 10).



(** Two topics as the prompt words them. *)
Definition example_answer : list TopicFormatSpec.written :=
  [TopicFormatSpec.Written (lit "1") (lit "45")
     (lit "Discussion of inflation trends and CPI data");
   TopicFormatSpec.Written (lit "2") (lit "128.5")
     (lit "Federal Reserve policy implications")].

(** * Facts about float comparison *)

Module PyFloatFacts.
Import PyFloat.

Lemma compare_magnitude_swap (m1 : positive) (e1 : Z) (m2 : positive) (e2 : Z) :
  compare_magnitude m2 e2 m1 e1 = CompOpp (compare_magnitude m1 e1 m2 e2).
Proof.
  unfold compare_magnitude. rewrite (Z.min_comm e2 e1). apply Z.compare_antisym.
Qed.

(** Exchanging the arguments of a comparison reverses its answer. *)
Lemma compare_swap (x y : float) :
  compare y x = option_map CompOpp (compare x y).
Proof.
  destruct x as [sx|sx| |sx mx ex], y as [sy|sy| |sy my ey]; simpl;
    try reflexivity;
    try (destruct sx; reflexivity);
    try (destruct sy; reflexivity);
    try (destruct sx, sy; reflexivity).
  destruct sx, sy; try reflexivity; rewrite compare_magnitude_swap;
    destruct (compare_magnitude mx ex my ey); reflexivity.
Qed.

Lemma ltb_not_leb (x y : float) : ltb x y = true -> leb y x = false.
Proof.
  unfold ltb, leb. rewrite (compare_swap x y).
  destruct (compare x y) as [[]|]; simpl; congruence.
Qed.

Lemma leb_not_ltb (x y : float) : leb y x = true -> ltb x y = false.
Proof.
  unfold ltb, leb. rewrite (compare_swap x y).
  destruct (compare x y) as [[]|]; simpl; congruence.
Qed.

End PyFloatFacts.

(** * Facts about float arithmetic *)

Unset Implicit Arguments.

Module PyFloatArith.
Import PyFloat PyFloatSpec.

Lemma shr_1_m (mrs : shr_record) :
  (0 <= shr_m mrs)%Z -> shr_m (shr_1 mrs) = (shr_m mrs / 2)%Z.
Proof.
  destruct mrs as [m r s]; simpl. destruct m as [|p|p]; intros H.
  - reflexivity.
  - destruct p as [p|p|]; simpl shr_m.
    + rewrite Pos2Z.inj_xI. apply (Z.div_unique _ 2 _ 1); lia.
    + rewrite Pos2Z.inj_xO. apply (Z.div_unique _ 2 _ 0); lia.
    + reflexivity.
  - lia.
Qed.

Lemma iter_shr_m (p : positive) :
  forall mrs, (0 <= shr_m mrs)%Z ->
    shr_m (SpecFloat.iter_pos shr_1 p mrs) = (shr_m mrs / 2 ^ Zpos p)%Z.
Proof.
  induction p as [p IH|p IH|]; intros mrs H; simpl SpecFloat.iter_pos.
  - assert (H1 : (0 <= shr_m (shr_1 mrs))%Z).
    { rewrite shr_1_m by assumption. apply Z.div_pos; lia. }
    assert (H2 : (0 <= shr_m (SpecFloat.iter_pos shr_1 p (shr_1 mrs)))%Z).
    { rewrite IH by assumption. apply Z.div_pos; [assumption | apply Z.pow_pos_nonneg; lia]. }
    rewrite IH, IH, shr_1_m by assumption.
    rewrite !Z.div_div by (try apply Z.pow_pos_nonneg; lia).
    f_equal. rewrite (Pos2Z.inj_xI p), Z.pow_add_r, Z.pow_twice_r by lia. lia.
  - assert (H2 : (0 <= shr_m (SpecFloat.iter_pos shr_1 p mrs))%Z).
    { rewrite IH by assumption. apply Z.div_pos; [assumption | apply Z.pow_pos_nonneg; lia]. }
    rewrite IH, IH by assumption.
    rewrite !Z.div_div by (try apply Z.pow_pos_nonneg; lia).
    f_equal. rewrite (Pos2Z.inj_xO p), Z.pow_twice_r. lia.
  - rewrite shr_1_m by assumption. reflexivity.
Qed.

Lemma shr_record_m (m : Z) (l : location) : shr_m (shr_record_of_loc m l) = m.
Proof. destruct l as [|[]]; reflexivity. Qed.

Lemma shr_fexp_eq (m e : Z) (l : location) :
  (0 <= m)%Z ->
  shr_m (fst (shr_fexp prec emax m e l)) = step_m m e
  /\ snd (shr_fexp prec emax m e l) = step_e m e.
Proof.
  intros Hm. unfold shr_fexp, shr, step_m, step_e.
  destruct (fexp prec emax (Zdigits2 m + e) - e)%Z as [|p|p] eqn:Hn; simpl fst; simpl snd.
  - rewrite shr_record_m. replace (Z.max e _) with e by lia.
    rewrite Z.sub_diag. simpl. now rewrite Z.div_1_r.
  - rewrite iter_shr_m by (rewrite shr_record_m; assumption).
    rewrite shr_record_m.
    replace (Z.max e _) with (e + Z.pos p)%Z by lia.
    split; [f_equal; f_equal; lia | reflexivity].
  - rewrite shr_record_m. replace (Z.max e _) with e by lia.
    rewrite Z.sub_diag. simpl. now rewrite Z.div_1_r.
Qed.

Lemma rne_bounds (m : Z) (l : location) :
  (m <= round_nearest_even m l <= m + 1)%Z.
Proof. destruct l as [|[]]; simpl; try destruct (Z.even m); lia. Qed.

Lemma step_m_nonneg (m e : Z) : (0 <= m)%Z -> (0 <= step_m m e)%Z.
Proof.
  intros H. unfold step_m. apply Z.div_pos; [assumption|].
  apply Z.pow_pos_nonneg; [lia|]. unfold step_e. lia.
Qed.

(** The shape of a rounded result: two truncation steps around a rounding
    that adds at most one to the mantissa. *)
Lemma bra_shape (m e : Z) (l : location) :
  (0 <= m)%Z ->
  exists m1, (step_m m e <= m1 <= step_m m e + 1)%Z /\
    let e1 := step_e m e in
    bra false m e l =
    match step_m m1 e1 with
    | Z0 => S754_zero false
    | Zpos p =>
        if (step_e m1 e1 <=? emax - prec)%Z
        then S754_finite false p (step_e m1 e1)
        else S754_infinity false
    | Zneg _ => S754_nan
    end.
Proof.
  intros Hm. unfold bra, binary_round_aux.
  destruct (shr_fexp_eq m e l Hm) as [H1 H2].
  destruct (shr_fexp prec emax m e l) as [mrs' e'] eqn:Hs. simpl in H1, H2.
  set (m1 := round_nearest_even (shr_m mrs') (loc_of_shr_record mrs')).
  assert (Hb : (step_m m e <= m1 <= step_m m e + 1)%Z).
  { unfold m1. rewrite <- H1. apply rne_bounds. }
  assert (Hm1 : (0 <= m1)%Z) by (pose proof (step_m_nonneg m e Hm); lia).
  exists m1. split; [exact Hb|]. cbv zeta. subst e'.
  destruct (shr_fexp_eq m1 (step_e m e) loc_Exact Hm1) as [H3 H4].
  destruct (shr_fexp prec emax m1 (step_e m e) loc_Exact) as [mrs'' e''].
  simpl in H3, H4. rewrite H3, H4. reflexivity.
Qed.

Lemma bra_nonneg (m e : Z) (l : location) :
  (0 <= m)%Z -> nonneg (bra false m e l) = true.
Proof.
  intros Hm. destruct (bra_shape m e l Hm) as (m1 & Hb & ->).
  pose proof (step_m_nonneg m e Hm) as H0.
  assert (H1 : (0 <= step_m m1 (step_e m e))%Z) by (apply step_m_nonneg; lia).
  destruct (step_m m1 (step_e m e)) as [|p|p]; [reflexivity | | lia].
  destruct (_ <=? _)%Z; reflexivity.
Qed.

End PyFloatArith.

Set Implicit Arguments.

(** * Magnitudes of rounded results *)

Unset Implicit Arguments.

Module PyFloatBounds.
Import PyFloat PyFloatSpec PyFloatArith.
Local Open Scope R_scope.

Lemma bpow_pos (e : Z) : 0 < bpow e.
Proof. apply powerRZ_lt. lra. Qed.

Lemma bpow_add (a b : Z) : bpow (a + b) = bpow a * bpow b.
Proof. apply powerRZ_add. lra. Qed.

Lemma bpow_IZR (a : Z) : (0 <= a)%Z -> bpow a = IZR (2 ^ a).
Proof.
  intros H. unfold bpow. rewrite <- (Z2Nat.id a H) at 1 2.
  rewrite <- pow_powerRZ. now rewrite pow_IZR, Z2Nat.id.
Qed.

Lemma bpow_ge_1 (a : Z) : (0 <= a)%Z -> 1 <= bpow a.
Proof.
  intros H. rewrite bpow_IZR by assumption. apply IZR_le.
  pose proof (Z.pow_pos_nonneg 2 a). lia.
Qed.

Lemma bpow_le (a b : Z) : (a <= b)%Z -> bpow a <= bpow b.
Proof.
  intros H.
  assert (E : bpow b = bpow a * bpow (b - a)) by (rewrite <- bpow_add; f_equal; lia).
  pose proof (bpow_pos a). pose proof (bpow_ge_1 (b - a) ltac:(lia)). nra.
Qed.

Lemma bpow_lt (a b : Z) : (a < b)%Z -> bpow a < bpow b.
Proof.
  intros H.
  assert (E : bpow b = bpow a * bpow (b - a)) by (rewrite <- bpow_add; f_equal; lia).
  pose proof (bpow_pos a).
  assert (2 <= bpow (b - a)).
  { rewrite bpow_IZR by lia. apply IZR_le.
    replace (b - a)%Z with (1 + (b - a - 1))%Z by lia.
    rewrite Z.pow_add_r by lia. pose proof (Z.pow_pos_nonneg 2 (b - a - 1)). lia. }
  nra.
Qed.

Lemma bpow_le_inv (a b : Z) : bpow a <= bpow b -> (a <= b)%Z.
Proof.
  intros H. destruct (Z.le_gt_cases a b) as [|Hlt]; [assumption|].
  apply bpow_lt in Hlt. lra.
Qed.

Lemma bpow_lt_inv (a b : Z) : bpow a < bpow b -> (a < b)%Z.
Proof.
  intros H. destruct (Z.lt_ge_cases a b) as [|Hge]; [assumption|].
  apply bpow_le in Hge. lra.
Qed.

Lemma mval_shift (m e n : Z) : (0 <= n)%Z -> mval (m * 2 ^ n) e = mval m (e + n).
Proof.
  intros H. unfold mval. rewrite mult_IZR, bpow_add, <- bpow_IZR by assumption. ring.
Qed.

Lemma mval_nonneg (m e : Z) : (0 <= m)%Z -> 0 <= mval m e.
Proof.
  intros H. unfold mval. apply IZR_le in H. pose proof (bpow_pos e). nra.
Qed.

Lemma mval_le (m m' e : Z) : (m <= m')%Z -> mval m e <= mval m' e.
Proof.
  intros H. unfold mval. apply IZR_le in H. pose proof (bpow_pos e). nra.
Qed.

(** The number of binary digits. *)
Lemma digits2_bounds (p : positive) :
  (2 ^ (Zpos (digits2_pos p) - 1) <= Zpos p < 2 ^ Zpos (digits2_pos p))%Z.
Proof.
  induction p as [p IH|p IH|]; simpl digits2_pos.
  - rewrite Pos2Z.inj_succ. change (Z.pos p~1) with (2 * Z.pos p + 1)%Z.
    replace (Z.succ (Z.pos (digits2_pos p)) - 1)%Z with (1 + (Z.pos (digits2_pos p) - 1))%Z by lia.
    replace (Z.succ (Z.pos (digits2_pos p))) with (1 + Z.pos (digits2_pos p))%Z by lia.
    rewrite !Z.pow_add_r by lia. rewrite !Z.pow_1_r.
    revert IH. generalize (2 ^ (Z.pos (digits2_pos p) - 1))%Z (2 ^ Z.pos (digits2_pos p))%Z.
    intros; lia.
  - rewrite Pos2Z.inj_succ. change (Z.pos p~0) with (2 * Z.pos p)%Z.
    replace (Z.succ (Z.pos (digits2_pos p)) - 1)%Z with (1 + (Z.pos (digits2_pos p) - 1))%Z by lia.
    replace (Z.succ (Z.pos (digits2_pos p))) with (1 + Z.pos (digits2_pos p))%Z by lia.
    rewrite !Z.pow_add_r by lia. rewrite !Z.pow_1_r.
    revert IH. generalize (2 ^ (Z.pos (digits2_pos p) - 1))%Z (2 ^ Z.pos (digits2_pos p))%Z.
    intros; lia.
  - simpl. lia.
Qed.

Lemma digits_mval (p : positive) (e : Z) :
  bpow (Zpos (digits2_pos p) - 1 + e) <= mval (Zpos p) e < bpow (Zpos (digits2_pos p) + e).
Proof.
  destruct (digits2_bounds p) as [H1 H2].
  apply IZR_le in H1. apply IZR_lt in H2.
  rewrite <- !bpow_IZR in H1, H2 by lia.
  rewrite !bpow_add. unfold mval. pose proof (bpow_pos e). nra.
Qed.

(** A truncation step never raises the value, and keeps it above any
    power of two from the least exponent on that it was above. *)
Lemma step_e_ge (m e : Z) : (e <= step_e m e)%Z.
Proof. unfold step_e. lia. Qed.

Lemma step_up (m e : Z) : (0 <= m)%Z -> mval (step_m m e) (step_e m e) <= mval m e.
Proof.
  intros H. pose proof (step_e_ge m e) as He. unfold step_m.
  set (n := (step_e m e - e)%Z) in *.
  replace (step_e m e) with (e + n)%Z by (unfold n; lia).
  rewrite <- mval_shift by lia. apply mval_le.
  rewrite Z.mul_comm. apply Z.mul_div_le. apply Z.pow_pos_nonneg; lia.
Qed.

Lemma step_low (m e k : Z) :
  (0 <= m)%Z -> (emin prec emax <= k)%Z ->
  bpow k <= mval m e -> bpow k <= mval (step_m m e) (step_e m e).
Proof.
  intros Hm Hk Hv. pose proof (step_e_ge m e) as He.
  destruct m as [|p|p]; [| |lia].
  - unfold mval in Hv. pose proof (bpow_pos k). lra.
  - unfold step_m. set (e1 := step_e (Z.pos p) e) in *.
    destruct (Z.le_gt_cases e1 k) as [Hle | Hgt].
    + (* the power of two is a multiple of the new unit *)
      assert (Hp : (2 ^ (k - e) <= Z.pos p)%Z).
      { apply le_IZR. rewrite <- bpow_IZR by lia.
        replace k with ((k - e) + e)%Z in Hv at 1 by lia.
        rewrite bpow_add in Hv. unfold mval in Hv. pose proof (bpow_pos e). nra. }
      assert (Hq : (2 ^ (k - e1) <= Z.pos p / 2 ^ (e1 - e))%Z).
      { apply Z.div_le_lower_bound; [apply Z.pow_pos_nonneg; lia|].
        rewrite <- Z.pow_add_r by lia. now replace (e1 - e + (k - e1))%Z with (k - e)%Z by lia. }
      apply IZR_le in Hq. rewrite <- bpow_IZR in Hq by lia.
      replace k with ((k - e1) + e1)%Z at 1 by lia. rewrite bpow_add.
      unfold mval. pose proof (bpow_pos e1). nra.
    + (* the new unit is above the power of two *)
      destruct (Z.eq_dec e1 e) as [E | NE].
      * rewrite E, Z.sub_diag, Z.pow_0_r, Z.div_1_r.
        pose proof (bpow_lt k e ltac:(lia)). pose proof (bpow_pos e).
        assert (1 <= IZR (Z.pos p)) by (apply IZR_le; lia).
        unfold mval. nra.
      * (* a shift took place and the mantissa keeps 53 digits *)
        assert (He1 : e1 = (Z.pos (digits2_pos p) + e - prec)%Z).
        { unfold e1, step_e, fexp in *. simpl Zdigits2 in *. lia. }
        destruct (digits2_bounds p) as [Hd _].
        assert (Hq : (2 ^ (prec - 1) <= Z.pos p / 2 ^ (e1 - e))%Z).
        { apply Z.div_le_lower_bound; [apply Z.pow_pos_nonneg; lia|].
          rewrite <- Z.pow_add_r by (unfold prec in *; lia).
          now replace (e1 - e + (prec - 1))%Z with (Z.pos (digits2_pos p) - 1)%Z by lia. }
        apply IZR_le in Hq.
        assert (1 <= IZR (Z.pos p / 2 ^ (e1 - e))).
        { eapply Rle_trans; [|exact Hq]. apply IZR_le. unfold prec. lia. }
        pose proof (bpow_lt k e1 ltac:(lia)). unfold mval. pose proof (bpow_pos e1). nra.
Qed.


Lemma ge_bpow_nonneg (x : float) (k : Z) : ge_bpow x k -> nonneg x = true.
Proof. destruct x as [[]|[]| |[] m e]; simpl; tauto. Qed.

Lemma ge_bpow_weaken (x : float) (k k' : Z) :
  (k' <= k)%Z -> ge_bpow x k -> ge_bpow x k'.
Proof.
  intros H. destruct x as [[]|[]| |[] m e]; simpl; auto.
  pose proof (bpow_le k' k H). lra.
Qed.

(** Rounding keeps a value above the powers of two it was above. *)
Lemma bra_low (m e k : Z) (l : location) :
  (0 <= m)%Z -> (emin prec emax <= k)%Z ->
  bpow k <= mval m e -> ge_bpow (bra false m e l) k.
Proof.
  intros Hm Hk Hv. destruct (bra_shape m e l Hm) as (m1 & Hb & ->).
  pose proof (step_m_nonneg m e Hm) as H0.
  pose proof (step_low m e k Hm Hk Hv) as H1.
  assert (H2 : bpow k <= mval m1 (step_e m e)).
  { eapply Rle_trans; [exact H1|]. apply mval_le. lia. }
  assert (Hm1 : (0 <= m1)%Z) by lia.
  pose proof (step_low m1 (step_e m e) k Hm1 Hk H2) as H3.
  destruct (step_m m1 (step_e m e)) as [|p|p] eqn:E.
  - unfold mval in H3. pose proof (bpow_pos k). lra.
  - destruct (_ <=? _)%Z; simpl; auto.
  - pose proof (step_m_nonneg m1 (step_e m e) Hm1). lia.
Qed.

(** Rounding adds less than one unit of the exponent it truncates to, and
    does not overflow below [2^(emax - prec)]. *)
Lemma bra_up (m e k : Z) (l : location) :
  (0 <= m)%Z -> (k <= emax - prec)%Z ->
  mval m e + bpow (step_e m e) <= bpow k ->
  fin_le (bra false m e l) (mval m e + bpow (step_e m e)).
Proof.
  intros Hm Hk Hv. destruct (bra_shape m e l Hm) as (m1 & Hb & ->).
  pose proof (step_m_nonneg m e Hm) as H0.
  pose proof (step_up m e Hm) as H1.
  set (e1 := step_e m e) in *.
  assert (H2 : mval m1 e1 <= mval m e + bpow e1).
  { eapply Rle_trans; [apply (mval_le m1 (step_m m e + 1)); lia|].
    unfold mval in *. rewrite plus_IZR. lra. }
  assert (Hm1 : (0 <= m1)%Z) by lia.
  pose proof (step_up m1 e1 Hm1) as H3.
  destruct (step_m m1 e1) as [|p|p] eqn:E.
  - simpl. pose proof (mval_nonneg m e Hm). pose proof (bpow_pos e1). lra.
  - assert (He2 : (step_e m1 e1 <= emax - prec)%Z).
    { apply Z.le_trans with k; [|assumption]. apply bpow_le_inv.
      assert (bpow (step_e m1 e1) <= mval (Z.pos p) (step_e m1 e1)).
      { unfold mval. assert (1 <= IZR (Z.pos p)) by (apply IZR_le; lia).
        pose proof (bpow_pos (step_e m1 e1)). nra. }
      lra. }
    apply Z.leb_le in He2. rewrite He2. simpl. lra.
  - pose proof (step_m_nonneg m1 e1 Hm1). lia.
Qed.

(** ** Comparison and exact values *)

Lemma compare_magnitude_spec (m1 : positive) (e1 : Z) (m2 : positive) (e2 : Z) :
  match compare_magnitude m1 e1 m2 e2 with
  | Eq => mval (Zpos m1) e1 = mval (Zpos m2) e2
  | Lt => mval (Zpos m1) e1 < mval (Zpos m2) e2
  | Gt => mval (Zpos m2) e2 < mval (Zpos m1) e1
  end.
Proof.
  unfold compare_magnitude. set (z := Z.min e1 e2).
  assert (V1 : mval (Zpos m1) e1 = IZR (Zpos m1 * 2 ^ (e1 - z)) * bpow z).
  { fold (mval (Zpos m1 * 2 ^ (e1 - z)) z). rewrite mval_shift by (unfold z; lia).
    f_equal. lia. }
  assert (V2 : mval (Zpos m2) e2 = IZR (Zpos m2 * 2 ^ (e2 - z)) * bpow z).
  { fold (mval (Zpos m2 * 2 ^ (e2 - z)) z). rewrite mval_shift by (unfold z; lia).
    f_equal. lia. }
  rewrite V1, V2. pose proof (bpow_pos z).
  destruct (Z.compare_spec (Zpos m1 * 2 ^ (e1 - z)) (Zpos m2 * 2 ^ (e2 - z))) as [E | L | L].
  - now rewrite E.
  - apply IZR_lt in L. nra.
  - apply IZR_lt in L. nra.
Qed.

Lemma ltb_finite (m1 : positive) (e1 : Z) (m2 : positive) (e2 : Z) :
  mval (Zpos m1) e1 < mval (Zpos m2) e2 ->
  ltb (S754_finite false m1 e1) (S754_finite false m2 e2) = true.
Proof.
  intros H. unfold ltb; simpl.
  pose proof (compare_magnitude_spec m1 e1 m2 e2) as S.
  destruct (compare_magnitude m1 e1 m2 e2); [lra | reflexivity | lra].
Qed.

Lemma leb_finite (m1 : positive) (e1 : Z) (m2 : positive) (e2 : Z) :
  leb (S754_finite false m1 e1) (S754_finite false m2 e2) = true
  <-> mval (Zpos m1) e1 <= mval (Zpos m2) e2.
Proof.
  unfold leb; simpl.
  pose proof (compare_magnitude_spec m1 e1 m2 e2) as S.
  destruct (compare_magnitude m1 e1 m2 e2); split; intros; try lra; try reflexivity;
    discriminate.
Qed.

End PyFloatBounds.

Set Implicit Arguments.

(** * Signs and magnitudes of the operations *)

Unset Implicit Arguments.

Module PyFloatOps.
Import PyFloat PyFloatSpec PyFloatArith PyFloatBounds.
Local Open Scope R_scope.

Lemma iter_xO (m d : positive) : Zpos (Pos.iter xO m d) = (Zpos m * 2 ^ Zpos d)%Z.
Proof.
  induction d as [|d IH] using Pos.peano_ind.
  - simpl. lia.
  - rewrite Pos.iter_succ, Pos2Z.inj_succ, Z.pow_succ_r by lia.
    change (Z.pos (Pos.iter xO m d)~0) with (2 * Z.pos (Pos.iter xO m d))%Z. lia.
Qed.

Lemma shl_align_val (mx : positive) (ex ex' : Z) :
  mval (Zpos (fst (shl_align mx ex ex'))) (snd (shl_align mx ex ex')) = mval (Zpos mx) ex.
Proof.
  unfold shl_align. destruct (ex' - ex)%Z as [|d|d] eqn:E; simpl; try reflexivity.
  rewrite iter_xO, mval_shift by lia. f_equal. lia.
Qed.

Lemma shl_align_snd (mx : positive) (ex ex' : Z) :
  (ex' <= ex)%Z -> snd (shl_align mx ex ex') = ex'.
Proof.
  intros H. unfold shl_align. destruct (ex' - ex)%Z as [|d|d] eqn:E; simpl; lia.
Qed.

Lemma binary_round_nonneg (m : positive) (e : Z) :
  nonneg (binary_round prec emax false m e) = true.
Proof.
  unfold binary_round. destruct (shl_align _ _ _) as [mz ez].
  apply bra_nonneg. lia.
Qed.

Lemma binary_round_low (m : positive) (e k : Z) :
  (emin prec emax <= k)%Z -> bpow k <= mval (Zpos m) e ->
  ge_bpow (binary_round prec emax false m e) k.
Proof.
  intros Hk Hv. unfold binary_round.
  pose proof (shl_align_val m e (fexp prec emax (Z.pos (digits2_pos m) + e))) as V.
  destruct (shl_align _ _ _) as [mz ez]. simpl in V.
  apply bra_low; [lia | assumption | now rewrite V].
Qed.

(** ** Addition *)

Lemma add_finite (mx : positive) (ex : Z) (my : positive) (ey : Z) :
  exists m : positive,
    add (S754_finite false mx ex) (S754_finite false my ey)
    = binary_round prec emax false m (Z.min ex ey)
    /\ mval (Zpos m) (Z.min ex ey) = mval (Zpos mx) ex + mval (Zpos my) ey.
Proof.
  unfold add, SFadd. set (ez := Z.min ex ey).
  pose proof (shl_align_val mx ex ez) as Vx. pose proof (shl_align_val my ey ez) as Vy.
  rewrite shl_align_snd in Vx, Vy by (unfold ez; lia).
  simpl cond_Zopp.
  exists (fst (shl_align mx ex ez) + fst (shl_align my ey ez))%positive.
  split; [reflexivity|].
  rewrite <- Vx, <- Vy. unfold mval. rewrite Pos2Z.inj_add, plus_IZR. ring.
Qed.

Lemma add_nonneg (x y : float) :
  nonneg x = true -> nonneg y = true -> nonneg (add x y) = true.
Proof.
  intros Hx Hy.
  destruct x as [[]|[]| |[] mx ex], y as [[]|[]| |[] my ey];
    try discriminate Hx; try discriminate Hy; try reflexivity.
  destruct (add_finite mx ex my ey) as (m & E & _).
  rewrite E. apply binary_round_nonneg.
Qed.

Lemma add_low_l (x y : float) (k : Z) :
  (emin prec emax <= k)%Z -> ge_bpow x k -> nonneg y = true -> ge_bpow (add x y) k.
Proof.
  intros Hk Hx Hy.
  destruct x as [[]|[]| |[] mx ex], y as [[]|[]| |[] my ey];
    try contradiction Hx; try discriminate Hy; try exact I; try exact Hx.
  destruct (add_finite mx ex my ey) as (m & E & V).
  rewrite E. apply binary_round_low; [assumption|]. simpl in Hx.
  rewrite V. pose proof (mval_nonneg (Zpos my) ey ltac:(lia)). lra.
Qed.

Lemma add_low_r (x y : float) (k : Z) :
  (emin prec emax <= k)%Z -> nonneg x = true -> ge_bpow y k -> ge_bpow (add x y) k.
Proof.
  intros Hk Hx Hy.
  destruct x as [[]|[]| |[] mx ex], y as [[]|[]| |[] my ey];
    try contradiction Hy; try discriminate Hx; try exact I; try exact Hy.
  destruct (add_finite mx ex my ey) as (m & E & V).
  rewrite E. apply binary_round_low; [assumption|]. simpl in Hy.
  rewrite V. pose proof (mval_nonneg (Zpos mx) ex ltac:(lia)). lra.
Qed.

Lemma add_zero_r (x : float) : nonneg x = true -> add x zero = x.
Proof. destruct x as [[]|[]| |[] mx ex]; simpl; try discriminate; reflexivity. Qed.

Lemma add_zero_l (x : float) : nonneg x = true -> add zero x = x.
Proof. destruct x as [[]|[]| |[] mx ex]; simpl; try discriminate; reflexivity. Qed.

(** ** Multiplication *)

Lemma mul_finite (mx : positive) (ex : Z) (my : positive) (ey : Z) :
  mul (S754_finite false mx ex) (S754_finite false my ey)
  = bra false (Zpos (mx * my)) (ex + ey) loc_Exact.
Proof. reflexivity. Qed.

Lemma mul_nonneg_fin (x : float) (my : positive) (ey : Z) :
  nonneg x = true -> nonneg (mul x (S754_finite false my ey)) = true.
Proof.
  destruct x as [[]|[]| |[] mx ex]; simpl; try discriminate; try reflexivity.
  intros _. apply (bra_nonneg (Zpos (mx * my))). lia.
Qed.

Lemma mul_fin_nonneg (mx : positive) (ex : Z) (y : float) :
  nonneg y = true -> nonneg (mul (S754_finite false mx ex) y) = true.
Proof.
  destruct y as [[]|[]| |[] my ey]; simpl; try discriminate; try reflexivity.
  intros _. apply (bra_nonneg (Zpos (mx * my))). lia.
Qed.

Lemma mul_low (x y : float) (a b : Z) :
  (emin prec emax <= a + b)%Z -> ge_bpow x a -> ge_bpow y b -> ge_bpow (mul x y) (a + b).
Proof.
  intros Hk.
  destruct x as [[]|[]| |[] mx ex], y as [[]|[]| |[] my ey]; simpl; try tauto.
  intros Hx Hy. apply (bra_low (Zpos (mx * my))); [lia | assumption|].
  rewrite bpow_add. unfold mval in *. rewrite Pos2Z.inj_mul, mult_IZR, bpow_add.
  pose proof (bpow_pos a). pose proof (bpow_pos b).
  replace (IZR (Z.pos mx) * IZR (Z.pos my) * (bpow ex * bpow ey))
    with ((IZR (Z.pos mx) * bpow ex) * (IZR (Z.pos my) * bpow ey)) by ring.
  apply Rmult_le_compat; lra.
Qed.


(** ** Division *)

(** The quotient the division core hands to the rounding: it is not
    negative, and it is above every power of two, from the least exponent
    on, that the exact quotient is above. *)
Lemma div_core_low (m1 : positive) (e1 : Z) (m2 : positive) (e2 : Z) :
  let '(q, e', l) := SFdiv_core_binary prec emax (Zpos m1) e1 (Zpos m2) e2 in
  (0 <= q)%Z /\
  forall k, (emin prec emax <= k)%Z ->
    bpow k * mval (Zpos m2) e2 <= mval (Zpos m1) e1 -> bpow k <= mval q e'.
Proof.
  unfold SFdiv_core_binary. simpl Zdigits2.
  set (d1 := Z.pos (digits2_pos m1)). set (d2 := Z.pos (digits2_pos m2)).
  set (e' := Z.min (fexp prec emax (d1 + e1 - (d2 + e2))) (e1 - e2)).
  set (s := (e1 - e2 - e')%Z).
  assert (Hs : (0 <= s)%Z) by (unfold s, e'; lia).
  set (m' := match s with
             | 0%Z => Z.pos m1
             | Z.pos _ => Z.shiftl (Z.pos m1) s
             | Z.neg _ => 0%Z
             end).
  assert (Hm' : m' = (Z.pos m1 * 2 ^ s)%Z).
  { unfold m'. destruct s as [|p|p]; [simpl; lia | now rewrite Z.shiftl_mul_pow2 by lia | lia]. }
  pose proof (Z_div_mod m' (Z.pos m2) ltac:(lia)) as Hdiv.
  destruct (Z.div_eucl m' (Z.pos m2)) as [q r] eqn:Ediv.
  destruct Hdiv as [Hq Hr].
  assert (Hq0 : (0 <= q)%Z) by (assert (0 <= m')%Z by (rewrite Hm'; pose proof (Z.pow_pos_nonneg 2 s); lia); nia).
  split; [exact Hq0|]. intros k Hk Hv.
  (* the exact quotient, in units of [2^e'] *)
  assert (Hv' : bpow k * IZR (Z.pos m2) <= IZR m' * bpow e').
  { rewrite Hm', mult_IZR, <- bpow_IZR by assumption.
    replace (IZR (Z.pos m1) * bpow s * bpow e') with (IZR (Z.pos m1) * bpow (s + e'))
      by (rewrite bpow_add; ring).
    replace (s + e')%Z with (e1 + - e2)%Z by (unfold s; lia).
    rewrite bpow_add. unfold mval in Hv.
    pose proof (bpow_pos e2). pose proof (bpow_pos (- e2)).
    assert (E : bpow e2 * bpow (- e2) = 1).
    { rewrite <- bpow_add. replace (e2 + - e2)%Z with 0%Z by lia. reflexivity. }
    assert (Hv2 : bpow k * IZR (Z.pos m2) * (bpow e2 * bpow (- e2))
                  <= IZR (Z.pos m1) * bpow e1 * bpow (- e2)).
    { replace (bpow k * IZR (Z.pos m2) * (bpow e2 * bpow (- e2)))
        with (bpow k * (IZR (Z.pos m2) * bpow e2) * bpow (- e2)) by ring.
      apply Rmult_le_compat_r; lra. }
    rewrite E in Hv2. lra. }
  destruct (Z.le_gt_cases e' k) as [Hle | Hgt].
  - assert (Hz : (2 ^ (k - e') * Z.pos m2 <= m')%Z).
    { apply le_IZR. rewrite mult_IZR, <- bpow_IZR by lia.
      replace k with ((k - e') + e')%Z in Hv' at 1 by lia. rewrite bpow_add in Hv'.
      pose proof (bpow_pos e'). nra. }
    assert (Hq' : (2 ^ (k - e') <= q)%Z).
    { pose proof (Z.pow_pos_nonneg 2 (k - e') ltac:(lia) ltac:(lia)). nia. }
    apply IZR_le in Hq'. rewrite <- bpow_IZR in Hq' by lia.
    replace k with ((k - e') + e')%Z at 1 by lia. rewrite bpow_add.
    unfold mval. pose proof (bpow_pos e'). nra.
  - assert (He' : (e' <= d1 + e1 - (d2 + e2) - prec)%Z).
    { unfold e', fexp in *. lia. }
    destruct (digits2_bounds m1) as [Hd1 _]. destruct (digits2_bounds m2) as [_ Hd2].
    fold d1 in Hd1. fold d2 in Hd2.
    assert (Hz : (2 ^ (d1 - 1 + s - d2) * 2 ^ d2 <= m')%Z).
    { rewrite <- Z.pow_add_r by (unfold prec in *; lia).
      replace (d1 - 1 + s - d2 + d2)%Z with ((d1 - 1) + s)%Z by lia.
      rewrite Z.pow_add_r, Hm' by (unfold d1; lia).
      apply Z.mul_le_mono_nonneg_r; [apply Z.pow_nonneg; lia | exact Hd1]. }
    assert (Hq' : (1 <= q)%Z).
    { pose proof (Z.pow_pos_nonneg 2 (d1 - 1 + s - d2) ltac:(lia)
                    ltac:(unfold s, prec in *; lia)). nia. }
    apply IZR_le in Hq'. pose proof (bpow_lt k e' ltac:(lia)).
    unfold mval. pose proof (bpow_pos e'). nra.
Qed.

Lemma div_finite (mx : positive) (ex : Z) (my : positive) (ey : Z) :
  nonneg (div (S754_finite false mx ex) (S754_finite false my ey)) = true
  /\ forall k, (emin prec emax <= k)%Z ->
       bpow k * mval (Zpos my) ey <= mval (Zpos mx) ex ->
       ge_bpow (div (S754_finite false mx ex) (S754_finite false my ey)) k.
Proof.
  unfold div, SFdiv. pose proof (div_core_low mx ex my ey) as H.
  destruct (SFdiv_core_binary prec emax (Z.pos mx) ex (Z.pos my) ey) as [[q e'] l].
  destruct H as [Hq Hlow]. simpl xorb. split.
  - now apply bra_nonneg.
  - intros k Hk Hv. apply bra_low; auto.
Qed.

Lemma div_nonneg (x y : float) (k : Z) :
  ge_bpow x k -> nonneg y = true -> y <> S754_infinity false ->
  nonneg (div x y) = true.
Proof.
  intros Hx Hy Hi.
  destruct x as [[]|[]| |[] mx ex], y as [[]|[]| |[] my ey];
    try contradiction Hx; try discriminate Hy; try reflexivity; try congruence.
  apply div_finite.
Qed.

Lemma div_nonneg_fin (x : float) (my : positive) (ey : Z) :
  nonneg x = true -> nonneg (div x (S754_finite false my ey)) = true.
Proof.
  intros Hx. destruct x as [[]|[]| |[] mx ex]; try discriminate Hx; try reflexivity.
  apply div_finite.
Qed.

(** Dividing by a positive number that is at most [2^c]. *)
Lemma div_low (x : float) (my : positive) (ey : Z) (k c : Z) :
  (emin prec emax <= k - c)%Z -> ge_bpow x k -> mval (Zpos my) ey <= bpow c ->
  ge_bpow (div x (S754_finite false my ey)) (k - c).
Proof.
  intros Hk Hx Hy.
  destruct x as [[]|[]| |[] mx ex]; try contradiction Hx; try exact I.
  apply div_finite; [assumption|]. simpl in Hx.
  assert (E : bpow k = bpow (k - c) * bpow c) by (rewrite <- bpow_add; f_equal; lia).
  pose proof (bpow_pos (k - c)). pose proof (mval_nonneg (Zpos my) ey ltac:(lia)).
  apply Rle_trans with (bpow (k - c) * bpow c); [|lra].
  apply Rmult_le_compat_l; lra.
Qed.

(** ** Integers and quotients of integers *)

Lemma of_ratio_pos (m d : positive) :
  nonneg (of_ratio (Zpos m) d) = true
  /\ forall k, (emin prec emax <= k)%Z ->
       bpow k * IZR (Zpos d) <= IZR (Zpos m) -> ge_bpow (of_ratio (Zpos m) d) k.
Proof.
  unfold of_ratio. pose proof (div_core_low m 0 d 0) as H.
  destruct (SFdiv_core_binary prec emax (Z.pos m) 0 (Z.pos d) 0) as [[q e'] l].
  destruct H as [Hq Hlow]. split.
  - now apply bra_nonneg.
  - intros k Hk Hv. apply bra_low; auto. apply Hlow; [assumption|].
    unfold mval. simpl bpow. lra.
Qed.

Lemma of_ratio_nonneg (n : Z) (d : positive) :
  (0 <= n)%Z -> nonneg (of_ratio n d) = true.
Proof.
  intros H. destruct n as [|m|m]; [reflexivity | apply of_ratio_pos | lia].
Qed.

Lemma of_Z_low (n : Z) : (1 <= n)%Z -> ge_bpow (of_Z n) 0.
Proof.
  intros H. destruct n as [|m|m]; try lia.
  apply of_ratio_pos; [unfold emin, prec, emax; lia|].
  simpl bpow. apply IZR_le in H. lra.
Qed.


(** ** Clamping to 1.0 and the disagreement penalty *)

Lemma mval_pow2 (a e : Z) : (0 <= a)%Z -> mval (2 ^ a) e = bpow (a + e).
Proof. intros H. unfold mval. now rewrite <- bpow_IZR, bpow_add. Qed.

Lemma one_value : mval 4503599627370496 (-52) = 1.
Proof. change 4503599627370496%Z with (2 ^ 52)%Z. now rewrite mval_pow2 by lia. Qed.

(** [min(x, 1.0)] of a number that is not negative is a finite number from
    0 to 1. *)
Lemma min_one_fin (x : float) :
  nonneg x = true -> nonneg (min x one) = true /\ fin_le (min x one) 1.
Proof.
  intros Hx. unfold min, one.
  destruct x as [[]|[]| |[] mx ex]; try discriminate Hx.
  - simpl. split; [reflexivity | lra].
  - simpl. rewrite one_value. split; [reflexivity | lra].
  - unfold ltb. simpl compare.
    pose proof (compare_magnitude_spec 4503599627370496 (-52) mx ex) as S.
    rewrite one_value in S.
    destruct (compare_magnitude 4503599627370496 (-52) mx ex); simpl;
      rewrite ?one_value; split; try reflexivity; lra.
Qed.

Lemma min_one_low (x : float) (k : Z) :
  (k <= 0)%Z -> ge_bpow x k -> ge_bpow (min x one) k.
Proof.
  intros Hk Hx. unfold min, one.
  assert (H1 : bpow k <= 1) by (apply (bpow_le k 0); assumption).
  destruct x as [[]|[]| |[] mx ex]; try contradiction Hx.
  - simpl. now rewrite one_value.
  - destruct (ltb _ _); simpl; [now rewrite one_value | exact Hx].
Qed.

Lemma digits_le (p : positive) (a : Z) :
  (Zpos p < 2 ^ a)%Z -> (0 <= a)%Z -> (Zpos (digits2_pos p) <= a)%Z.
Proof.
  intros H Ha. destruct (digits2_bounds p) as [Hd _].
  destruct (Z.le_gt_cases (Zpos (digits2_pos p)) a) as [|Hgt]; [assumption|].
  assert (2 ^ a <= 2 ^ (Zpos (digits2_pos p) - 1))%Z by (apply Z.pow_le_mono_r; lia).
  lia.
Qed.

(** Multiplying a number between [2^(emin + 2)] and 1 by 0.7 makes it
    strictly smaller. *)
Lemma mul_seven_tenths_lt (x : float) (k : Z) :
  (emin prec emax + 2 <= k)%Z -> ge_bpow x k -> fin_le x 1 ->
  ltb (mul x seven_tenths) x = true.
Proof.
  intros Hk Hge Hle. unfold seven_tenths.
  destruct x as [[]|[]| |[] mx ex]; try contradiction Hge; try contradiction Hle.
  simpl in Hge, Hle. rewrite mul_finite.
  set (M := 6305039478318694%positive).
  set (m := Z.pos (mx * M)). set (e := (ex + -53)%Z).
  destruct (digits_mval mx ex) as [Dlo Dhi]. set (dx := Z.pos (digits2_pos mx)) in *.
  assert (Hdx : (emin prec emax + 3 <= dx + ex)%Z).
  { assert (bpow k < bpow (dx + ex)) by lra. apply bpow_lt_inv in H. lia. }
  (* the exponent the product is truncated to *)
  assert (He1 : (step_e m e <= dx + ex - 3)%Z).
  { unfold step_e, fexp, e, m. simpl Zdigits2.
    assert (Hd : (Z.pos (digits2_pos (mx * M)) <= dx + 53)%Z).
    { apply digits_le; [|unfold dx; lia].
      destruct (digits2_bounds mx) as [_ Hmx]. fold dx in Hmx.
      rewrite Z.pow_add_r by (unfold dx; lia). rewrite Pos2Z.inj_mul.
      assert (Z.pos M < 2 ^ 53)%Z by (unfold M; reflexivity).
      nia. }
    unfold prec in *. unfold dx in *. lia. }
  (* the product and one unit of that exponent stay below [x] *)
  assert (Hlt : mval m e + bpow (step_e m e) < mval (Z.pos mx) ex).
  { assert (Ev : mval m e = IZR (Z.pos mx) * IZR (Z.pos M) * bpow e).
    { unfold mval, m. now rewrite Pos2Z.inj_mul, mult_IZR. }
    assert (Ex : mval (Z.pos mx) ex = IZR (Z.pos mx) * IZR (2 ^ 53) * bpow e).
    { unfold mval, e. rewrite <- bpow_IZR by lia.
      replace (IZR (Z.pos mx) * bpow 53 * bpow (ex + -53))
        with (IZR (Z.pos mx) * (bpow 53 * bpow (ex + -53))) by ring.
      rewrite <- bpow_add. do 2 f_equal. lia. }
    assert (Eu : bpow (step_e m e) <= IZR (Z.pos mx) * IZR (2 ^ 51) * bpow e).
    { apply Rle_trans with (bpow (dx - 1 + ex + -2)).
      - apply bpow_le. lia.
      - rewrite <- bpow_IZR by lia.
        replace (IZR (Z.pos mx) * bpow 51 * bpow e)
          with (IZR (Z.pos mx) * (bpow 51 * bpow e)) by ring.
        rewrite <- (bpow_add 51 e). replace (51 + e)%Z with (-2 + ex)%Z by (unfold e; lia).
        replace (dx - 1 + ex + -2)%Z with ((dx - 1) + (-2 + ex))%Z by lia.
        rewrite (bpow_add (dx - 1) (-2 + ex)).
        assert (bpow (dx - 1) <= IZR (Z.pos mx)).
        { rewrite (bpow_add (dx - 1) ex) in Dlo. unfold mval in Dlo.
          pose proof (bpow_pos ex). apply Rmult_le_reg_r with (bpow ex); lra. }
        pose proof (bpow_pos (-2 + ex)).
        apply Rmult_le_compat_r; lra. }
    rewrite Ev, Ex.
    assert (Hc : IZR (Z.pos M) + IZR (2 ^ 51) < IZR (2 ^ 53)).
    { rewrite <- plus_IZR. apply IZR_lt. unfold M. reflexivity. }
    assert (0 < IZR (Z.pos mx)) by (apply IZR_lt; lia).
    pose proof (bpow_pos e).
    assert (0 < IZR (Z.pos mx) * bpow e) by nra.
    nra. }
  assert (Hup : fin_le (bra false m e loc_Exact) (mval m e + bpow (step_e m e))).
  { apply (bra_up m e 0); [unfold m; lia | unfold emax, prec; lia|].
    simpl bpow. lra. }
  fold m e.
  destruct (bra false m e loc_Exact) as [[]|[]| |[] mr er]; try contradiction Hup.
  - reflexivity.
  - simpl in Hup. apply ltb_finite. lra.
Qed.

(** ** The order on finite numbers that are not negative *)

Lemma value_pos (m : positive) (e : Z) : 0 < mval (Zpos m) e.
Proof.
  unfold mval. assert (0 < IZR (Zpos m)) by (apply IZR_lt; lia).
  pose proof (bpow_pos e). nra.
Qed.

Lemma leb_value (x y : float) :
  finite_nonneg x = true -> finite_nonneg y = true ->
  (leb x y = true <-> value x <= value y).
Proof.
  intros Hx Hy.
  destruct x as [[]|[]| |[] mx ex], y as [[]|[]| |[] my ey];
    try discriminate Hx; try discriminate Hy.
  - simpl. split; [lra | reflexivity].
  - unfold leb. simpl. pose proof (value_pos my ey). split; [lra | reflexivity].
  - unfold leb. simpl. pose proof (value_pos mx ex). split; [discriminate | lra].
  - apply leb_finite.
Qed.

Lemma ltb_value (x y : float) :
  finite_nonneg x = true -> finite_nonneg y = true ->
  (ltb x y = true <-> value x < value y).
Proof.
  intros Hx Hy.
  destruct x as [[]|[]| |[] mx ex], y as [[]|[]| |[] my ey];
    try discriminate Hx; try discriminate Hy.
  - simpl. unfold ltb. simpl. split; [discriminate | lra].
  - unfold ltb. simpl. pose proof (value_pos my ey). split; [lra | reflexivity].
  - unfold ltb. simpl. pose proof (value_pos mx ex). split; [discriminate | lra].
  - unfold ltb. simpl. pose proof (compare_magnitude_spec mx ex my ey) as S.
    destruct (compare_magnitude mx ex my ey); split; intros; try lra; try reflexivity;
      discriminate.
Qed.

Lemma fin_le_finite (x : float) (v : R) : fin_le x v -> finite_nonneg x = true.
Proof. destruct x as [[]|[]| |[] mx ex]; simpl; tauto. Qed.

Lemma fin_le_value (x : float) (v : R) : fin_le x v -> value x <= v.
Proof. destruct x as [[]|[]| |[] mx ex]; simpl; tauto. Qed.

End PyFloatOps.

Set Implicit Arguments.
(** * Rounding keeps a result above the numbers of the format below it *)

Unset Implicit Arguments.

Module PyFloatMono.
Import PyFloat PyFloatSpec PyFloatArith PyFloatBounds PyFloatOps.
Local Open Scope R_scope.

Lemma step_low_val (m e : Z) (mx : positive) (ex : Z) :
  (0 <= m)%Z -> bounded mx ex ->
  mval (Zpos mx) ex <= mval m e ->
  mval (Zpos mx) ex <= mval (step_m m e) (step_e m e).
Proof.
  intros Hm [Bm Be] Hv. pose proof (step_e_ge m e) as He.
  pose proof (value_pos mx ex) as Hx.
  destruct m as [|p|p]; [| |lia].
  - unfold mval in Hv at 2. lra.
  - unfold step_m. set (e1 := step_e (Z.pos p) e) in *.
    destruct (Z.le_gt_cases e1 ex) as [Hle | Hgt].
    + (* the number is a multiple of the new unit *)
      assert (Hp : (Z.pos mx * 2 ^ (ex - e) <= Z.pos p)%Z).
      { apply le_IZR. rewrite mult_IZR, <- bpow_IZR by lia.
        assert (E : bpow ex = bpow (ex - e) * bpow e) by (rewrite <- bpow_add; f_equal; lia).
        unfold mval in Hv. rewrite E in Hv. pose proof (bpow_pos e). nra. }
      assert (Hq : (Z.pos mx * 2 ^ (ex - e1) <= Z.pos p / 2 ^ (e1 - e))%Z).
      { apply Z.div_le_lower_bound; [apply Z.pow_pos_nonneg; lia|].
        replace (2 ^ (e1 - e) * (Z.pos mx * 2 ^ (ex - e1)))%Z
          with (Z.pos mx * (2 ^ (e1 - e) * 2 ^ (ex - e1)))%Z by ring.
        rewrite <- Z.pow_add_r by lia.
        now replace (e1 - e + (ex - e1))%Z with (ex - e)%Z by lia. }
      apply IZR_le in Hq. rewrite mult_IZR, <- bpow_IZR in Hq by lia.
      assert (E : bpow ex = bpow (ex - e1) * bpow e1) by (rewrite <- bpow_add; f_equal; lia).
      unfold mval. rewrite E. pose proof (bpow_pos e1). nra.
    + destruct (Z.eq_dec e1 e) as [E | NE].
      * rewrite E, Z.sub_diag, Z.pow_0_r, Z.div_1_r. exact Hv.
      * (* a shift took place and the mantissa keeps 53 digits *)
        assert (He1 : e1 = (Z.pos (digits2_pos p) + e - prec)%Z).
        { unfold e1, step_e, fexp in *. simpl Zdigits2 in *. lia. }
        destruct (digits2_bounds p) as [Hd _].
        assert (Hq : (2 ^ (prec - 1) <= Z.pos p / 2 ^ (e1 - e))%Z).
        { apply Z.div_le_lower_bound; [apply Z.pow_pos_nonneg; lia|].
          rewrite <- Z.pow_add_r by (unfold prec in *; lia).
          now replace (e1 - e + (prec - 1))%Z with (Z.pos (digits2_pos p) - 1)%Z by lia. }
        apply IZR_le in Hq. rewrite <- bpow_IZR in Hq by (unfold prec; lia).
        apply IZR_lt in Bm. rewrite <- bpow_IZR in Bm by (unfold prec; lia).
        assert (E1 : bpow (prec + ex) <= bpow (prec - 1 + e1)) by (apply bpow_le; lia).
        rewrite !bpow_add in E1.
        pose proof (bpow_pos e1). pose proof (bpow_pos ex).
        pose proof (bpow_pos prec). pose proof (bpow_pos (prec - 1)).
        unfold mval in *.
        apply Rle_trans with (bpow prec * bpow ex); [nra|].
        apply Rle_trans with (bpow (prec - 1) * bpow e1); [exact E1 | nra].
Qed.

Lemma bra_low_val (m e : Z) (l : location) (mx : positive) (ex : Z) :
  (0 <= m)%Z -> bounded mx ex ->
  mval (Zpos mx) ex <= mval m e -> ge_val (bra false m e l) (mval (Zpos mx) ex).
Proof.
  intros Hm Hb Hv. destruct (bra_shape m e l Hm) as (m1 & Hm1b & ->).
  pose proof (step_m_nonneg m e Hm) as H0.
  pose proof (step_low_val m e mx ex Hm Hb Hv) as H1.
  assert (H2 : mval (Zpos mx) ex <= mval m1 (step_e m e)).
  { eapply Rle_trans; [exact H1|]. apply mval_le. lia. }
  assert (Hm1 : (0 <= m1)%Z) by lia.
  pose proof (step_low_val m1 (step_e m e) mx ex Hm1 Hb H2) as H3.
  destruct (step_m m1 (step_e m e)) as [|p|p] eqn:E.
  - unfold mval in H3 at 2. pose proof (value_pos mx ex). lra.
  - destruct (_ <=? _)%Z; simpl; auto.
  - pose proof (step_m_nonneg m1 (step_e m e) Hm1). lia.
Qed.

(** A rounded result is of the format. *)
Lemma step_bounded (m e : Z) (p : positive) :
  (0 <= m)%Z -> step_m m e = Zpos p -> bounded p (step_e m e).
Proof.
  intros Hm E. split.
  - destruct m as [|q|q]; [discriminate E | | lia].
    rewrite <- E. unfold step_m.
    set (n := (step_e (Z.pos q) e - e)%Z).
    assert (Hn : (Z.pos (digits2_pos q) - prec <= n)%Z).
    { unfold n, step_e, fexp. simpl Zdigits2. lia. }
    assert (Hn0 : (0 <= n)%Z) by (unfold n; pose proof (step_e_ge (Z.pos q) e); lia).
    destruct (digits2_bounds q) as [_ Hd].
    apply Z.div_lt_upper_bound; [apply Z.pow_pos_nonneg; lia|].
    rewrite <- Z.pow_add_r by (unfold prec; lia).
    eapply Z.lt_le_trans; [exact Hd|]. apply Z.pow_le_mono_r; lia.
  - unfold step_e, fexp. lia.
Qed.

Lemma bra_in_format (m e : Z) (l : location) :
  (0 <= m)%Z -> in_format (bra false m e l).
Proof.
  intros Hm. destruct (bra_shape m e l Hm) as (m1 & Hb & ->).
  pose proof (step_m_nonneg m e Hm) as H0.
  assert (Hm1 : (0 <= m1)%Z) by lia.
  destruct (step_m m1 (step_e m e)) as [|p|p] eqn:E; simpl; auto.
  destruct (_ <=? _)%Z; simpl; auto. now apply step_bounded.
Qed.

Lemma binary_round_low_val (m : positive) (e : Z) (mx : positive) (ex : Z) :
  bounded mx ex -> mval (Zpos mx) ex <= mval (Zpos m) e ->
  ge_val (binary_round prec emax false m e) (mval (Zpos mx) ex).
Proof.
  intros Hb Hv. unfold binary_round.
  pose proof (shl_align_val m e (fexp prec emax (Z.pos (digits2_pos m) + e))) as V.
  destruct (shl_align _ _ _) as [mz ez]. simpl in V.
  apply bra_low_val; [lia | assumption | now rewrite V].
Qed.

Lemma binary_round_in_format (m : positive) (e : Z) :
  in_format (binary_round prec emax false m e).
Proof.
  unfold binary_round. destruct (shl_align _ _ _) as [mz ez].
  apply bra_in_format. lia.
Qed.

(** ** Addition *)

Lemma add_low_val (mx : positive) (ex : Z) (my : positive) (ey : Z)
    (ms : positive) (es : Z) :
  bounded ms es -> mval (Zpos ms) es <= mval (Zpos mx) ex + mval (Zpos my) ey ->
  ge_val (add (S754_finite false mx ex) (S754_finite false my ey)) (mval (Zpos ms) es).
Proof.
  intros Hb Hv. destruct (add_finite mx ex my ey) as (m & E & V).
  rewrite E. apply binary_round_low_val; [assumption | now rewrite V].
Qed.

(** ** Division *)

Lemma div_core_low_val (m1 : positive) (e1 : Z) (m2 : positive) (e2 : Z)
    (mx : positive) (ex : Z) :
  let '(q, e', l) := SFdiv_core_binary prec emax (Zpos m1) e1 (Zpos m2) e2 in
  bounded mx ex ->
  mval (Zpos mx) ex * mval (Zpos m2) e2 <= mval (Zpos m1) e1 ->
  mval (Zpos mx) ex <= mval q e'.
Proof.
  unfold SFdiv_core_binary. simpl Zdigits2.
  set (d1 := Z.pos (digits2_pos m1)). set (d2 := Z.pos (digits2_pos m2)).
  set (e' := Z.min (fexp prec emax (d1 + e1 - (d2 + e2))) (e1 - e2)).
  set (s := (e1 - e2 - e')%Z).
  assert (Hs : (0 <= s)%Z) by (unfold s, e'; lia).
  set (m' := match s with
             | 0%Z => Z.pos m1
             | Z.pos _ => Z.shiftl (Z.pos m1) s
             | Z.neg _ => 0%Z
             end).
  assert (Hm' : m' = (Z.pos m1 * 2 ^ s)%Z).
  { unfold m'. destruct s as [|p|p]; [simpl; lia | now rewrite Z.shiftl_mul_pow2 by lia | lia]. }
  pose proof (Z_div_mod m' (Z.pos m2) ltac:(lia)) as Hdiv.
  destruct (Z.div_eucl m' (Z.pos m2)) as [q r] eqn:Ediv.
  destruct Hdiv as [Hq Hr].
  intros [Bm Be] Hv.
  (* the exact quotient, in units of [2^e'] *)
  assert (Hv' : mval (Zpos mx) ex * IZR (Z.pos m2) <= IZR m' * bpow e').
  { rewrite Hm', mult_IZR, <- bpow_IZR by assumption.
    replace (IZR (Z.pos m1) * bpow s * bpow e') with (IZR (Z.pos m1) * bpow (s + e'))
      by (rewrite bpow_add; ring).
    replace (s + e')%Z with (e1 + - e2)%Z by (unfold s; lia).
    rewrite bpow_add. unfold mval in Hv. unfold mval.
    pose proof (bpow_pos e2). pose proof (bpow_pos (- e2)).
    assert (E : bpow e2 * bpow (- e2) = 1).
    { rewrite <- bpow_add. replace (e2 + - e2)%Z with 0%Z by lia. reflexivity. }
    assert (Hv2 : IZR (Z.pos mx) * bpow ex * IZR (Z.pos m2) * (bpow e2 * bpow (- e2))
                  <= IZR (Z.pos m1) * bpow e1 * bpow (- e2)).
    { replace (IZR (Z.pos mx) * bpow ex * IZR (Z.pos m2) * (bpow e2 * bpow (- e2)))
        with (IZR (Z.pos mx) * bpow ex * (IZR (Z.pos m2) * bpow e2) * bpow (- e2)) by ring.
      apply Rmult_le_compat_r; lra. }
    rewrite E in Hv2. lra. }
  destruct (Z.le_gt_cases e' ex) as [Hle | Hgt].
  - assert (Hz : (Z.pos mx * 2 ^ (ex - e') * Z.pos m2 <= m')%Z).
    { apply le_IZR. rewrite !mult_IZR, <- bpow_IZR by lia.
      assert (E : bpow ex = bpow (ex - e') * bpow e') by (rewrite <- bpow_add; f_equal; lia).
      unfold mval in Hv'. rewrite E in Hv'. pose proof (bpow_pos e'). nra. }
    assert (Hq' : (Z.pos mx * 2 ^ (ex - e') <= q)%Z).
    { pose proof (Z.pow_pos_nonneg 2 (ex - e') ltac:(lia) ltac:(lia)). nia. }
    apply IZR_le in Hq'. rewrite mult_IZR, <- bpow_IZR in Hq' by lia.
    assert (E : bpow ex = bpow (ex - e') * bpow e') by (rewrite <- bpow_add; f_equal; lia).
    unfold mval. rewrite E. pose proof (bpow_pos e'). nra.
  - assert (He' : (e' <= d1 + e1 - (d2 + e2) - prec)%Z).
    { unfold e', fexp in *. lia. }
    destruct (digits2_bounds m1) as [Hd1 _]. destruct (digits2_bounds m2) as [_ Hd2].
    fold d1 in Hd1. fold d2 in Hd2.
    assert (Hn : (prec - 1 <= d1 - 1 + s - d2)%Z) by (unfold s; lia).
    assert (Hz : (2 ^ (d1 - 1 + s - d2) * 2 ^ d2 <= m')%Z).
    { rewrite <- Z.pow_add_r by (unfold prec in *; lia).
      replace (d1 - 1 + s - d2 + d2)%Z with ((d1 - 1) + s)%Z by lia.
      rewrite Z.pow_add_r, Hm' by (unfold d1; lia).
      apply Z.mul_le_mono_nonneg_r; [apply Z.pow_nonneg; lia | exact Hd1]. }
    assert (Hq' : (2 ^ (d1 - 1 + s - d2) <= q)%Z).
    { pose proof (Z.pow_pos_nonneg 2 (d1 - 1 + s - d2) ltac:(lia)
                    ltac:(unfold prec in *; lia)). nia. }
    assert (Hq2 : (2 ^ (prec - 1) <= q)%Z).
    { eapply Z.le_trans; [|exact Hq']. apply Z.pow_le_mono_r; [lia | exact Hn]. }
    apply IZR_le in Hq2. rewrite <- bpow_IZR in Hq2 by (unfold prec; lia).
    apply IZR_lt in Bm. rewrite <- bpow_IZR in Bm by (unfold prec; lia).
    assert (E1 : bpow (prec + ex) <= bpow (prec - 1 + e')) by (apply bpow_le; lia).
    rewrite !bpow_add in E1.
    pose proof (bpow_pos e'). pose proof (bpow_pos ex).
    pose proof (bpow_pos prec). pose proof (bpow_pos (prec - 1)).
    unfold mval in *.
    apply Rle_trans with (bpow prec * bpow ex); [nra|].
    apply Rle_trans with (bpow (prec - 1) * bpow e'); [exact E1 | nra].
Qed.

Lemma div_finite_val (mx : positive) (ex : Z) (my : positive) (ey : Z)
    (ms : positive) (es : Z) :
  bounded ms es -> mval (Zpos ms) es * mval (Zpos my) ey <= mval (Zpos mx) ex ->
  ge_val (div (S754_finite false mx ex) (S754_finite false my ey)) (mval (Zpos ms) es).
Proof.
  intros Hb Hv. unfold div, SFdiv.
  pose proof (div_core_low mx ex my ey) as H0.
  pose proof (div_core_low_val mx ex my ey ms es) as H.
  destruct (SFdiv_core_binary prec emax (Z.pos mx) ex (Z.pos my) ey) as [[q e'] l].
  destruct H0 as [Hq _]. simpl xorb. apply bra_low_val; auto.
Qed.

Lemma div_fin_in_format (x : float) (my : positive) (ey : Z) :
  nonneg x = true -> in_format (div x (S754_finite false my ey)).
Proof.
  intros Hx. destruct x as [[]|[]| |[] mx ex]; try discriminate Hx; try exact I.
  unfold div, SFdiv. pose proof (div_core_low mx ex my ey) as H0.
  destruct (SFdiv_core_binary prec emax (Z.pos mx) ex (Z.pos my) ey) as [[q e'] l].
  destruct H0 as [Hq _]. simpl xorb. now apply bra_in_format.
Qed.

Lemma mul_in_format (x y : float) :
  nonneg x = true -> nonneg y = true -> in_format (mul x y).
Proof.
  intros Hx Hy.
  destruct x as [[]|[]| |[] mx ex], y as [[]|[]| |[] my ey];
    try discriminate Hx; try discriminate Hy; try exact I.
  rewrite mul_finite. apply bra_in_format. lia.
Qed.

Lemma min_in_format (x y : float) : in_format x -> in_format y -> in_format (min x y).
Proof. intros Hx Hy. unfold min. now destruct (ltb y x). Qed.

(** ** Clamping and comparing *)

Lemma min_one_ge_val (q : float) (v : R) : ge_val q v -> v <= 1 -> ge_val (min q one) v.
Proof.
  intros Hq Hv. unfold min, one.
  destruct q as [[]|[]| |[] mq eq]; try contradiction Hq.
  - simpl. now rewrite one_value.
  - destruct (ltb _ _); simpl; [now rewrite one_value | exact Hq].
Qed.

Lemma ge_val_leb (s x : float) :
  finite_nonneg s = true -> finite_nonneg x = true -> ge_val x (value s) ->
  leb s x = true.
Proof.
  intros Hs Hx H. apply leb_value; [exact Hs | exact Hx|].
  destruct x as [[]|[]| |[] mq eq]; try discriminate Hx; try contradiction H. exact H.
Qed.

(** The smaller of two numbers that are finite and not negative. *)
Lemma min_cases (x y : float) :
  finite_nonneg x = true -> finite_nonneg y = true ->
  (min x y = x \/ min x y = y)
  /\ value (min x y) <= value x /\ value (min x y) <= value y.
Proof.
  intros Hx Hy. unfold min. destruct (ltb y x) eqn:E.
  - apply (ltb_value _ _ Hy Hx) in E. split; [now right | lra].
  - split; [now left|]. split; [lra|].
    destruct (Rle_or_lt (value x) (value y)) as [H | H]; [exact H|].
    apply (ltb_value _ _ Hy Hx) in H. congruence.
Qed.

End PyFloatMono.

Set Implicit Arguments.
(** * Facts about the matcher *)

Module ReFacts.
Import Re PyStr PyNum ReSpec.

Lemma span_spec (p : ascii -> bool) (s l r : str) :
  span p s = (l, r) ->
  s = l ++ r /\ forallb p l = true /\
  match r with c :: _ => p c = false | [] => True end.
Proof.
  revert l r; induction s as [|c s IH]; simpl; intros l r H.
  - inversion H; subst; auto.
  - destruct (p c) eqn:Hc.
    + destruct (span p s) as [l' r'] eqn:Hs.
      inversion H; subst; clear H.
      destruct (IH l' r eq_refl) as (-> & Hl & Hr).
      simpl; rewrite Hc; auto.
    + inversion H; subst; simpl; auto.
Qed.

(** A greedy repetition takes every character of the class when what
    follows the pattern accepts the position after them. *)
Lemma star_all (p : class) (k : cont) (l : str) :
  forall (b s : str) (g : list (nat * str)) (m : state),
    forallb p l = true ->
    k (State (rev l ++ b) s g) = Some m ->
    match s with c :: _ => p c = false | [] => True end ->
    star p k b (l ++ s) g = Some m.
Proof.
  induction l as [|c l IH]; simpl; intros b s g m Hl Hk Hs.
  - destruct s as [|c s]; simpl; auto. now rewrite Hs.
  - apply andb_prop in Hl; destruct Hl as [Hc Hl].
    rewrite Hc. rewrite (IH (c :: b) s g m); auto.
    now rewrite <- app_assoc in Hk.
Qed.

Lemma consumed_app (b b' l s : str) (g g' : list (nat * str)) :
  consumed (State b (l ++ s) g) (State b' s g') = l.
Proof.
  unfold consumed; simpl. rewrite length_app.
  replace (List.length l + List.length s - List.length s) with (List.length l) by lia.
  rewrite firstn_app, firstn_all, Nat.sub_diag; simpl. apply app_nil_r.
Qed.


Lemma dot_class (c : ascii) : char true "." c = Ascii.eqb c ".".
Proof. destruct c as [[] [] [] [] [] [] [] []]; reflexivity. Qed.

Lemma digit_not_space (c : ascii) : is_digit c = true -> is_space c = false.
Proof. destruct c as [[] [] [] [] [] [] [] []]; simpl; intros H; try reflexivity; discriminate H. Qed.

Lemma digit_not_dot (c : ascii) : is_digit c = true -> Ascii.eqb c "." = false.
Proof. destruct c as [[] [] [] [] [] [] [] []]; simpl; intros H; try reflexivity; discriminate H. Qed.

Lemma float_of_str_decimal (s : str) (x : float) :
  float_of_str s = Some x -> decimal s.
Proof.
  unfold float_of_str. destruct (span is_digit s) as [ip r] eqn:Hs.
  apply span_spec in Hs; destruct Hs as (-> & Hip & Hr).
  destruct ip as [|c ip]; [discriminate|].
  destruct r as [|d fr].
  - intros _. rewrite app_nil_r. now constructor.
  - destruct (Ascii.eqb d ".") eqn:Hd; [|discriminate].
    apply Ascii.eqb_eq in Hd; subst d.
    destruct (span is_digit fr) as [fp r'] eqn:Hf.
    apply span_spec in Hf; destruct Hf as (-> & Hfp & _).
    destruct r'; [|discriminate]. intros _. rewrite app_nil_r.
    now apply decimal_frac.
Qed.

Lemma span_all (p : ascii -> bool) (l r : str) :
  forallb p l = true ->
  match r with c :: _ => p c = false | [] => True end ->
  span p (l ++ r) = (l, r).
Proof.
  induction l as [|c l IH]; simpl; intros Hl Hr.
  - destruct r; simpl in *; auto. now rewrite Hr.
  - apply andb_prop in Hl; destruct Hl as [Hc Hl]. now rewrite Hc, IH.
Qed.

Lemma span_whole (p : ascii -> bool) (l : str) :
  forallb p l = true -> span p l = (l, []).
Proof.
  intros Hl. rewrite <- (app_nil_r l) at 1. now apply span_all.
Qed.

Lemma decimal_float_of_str (s : str) :
  decimal s -> exists x, float_of_str s = Some x.
Proof.
  intros [ip Hne Hip | ip fp Hne Hip Hfp]; unfold float_of_str.
  - rewrite span_whole by auto.
    destruct ip; [congruence | eauto].
  - rewrite span_all by (simpl; auto). destruct ip; [congruence|].
    simpl. rewrite span_whole by auto.
    eauto.
Qed.

Lemma stops_digit (tail : str) :
  stops tail -> match tail with c :: _ => is_digit c = false | [] => True end.
Proof. destruct tail; simpl; tauto. Qed.

Lemma run_number (ls tail : str) (k : cont) (b : str) (g : list (nat * str)) (m : state) :
  decimal ls -> stops tail ->
  k (State (rev ls ++ b) tail g) = Some m ->
  run ClipFinder.number k (State b (ls ++ tail) g) = Some m.
Proof.
  intros Hd Ht Hk. unfold ClipFinder.number.
  destruct Hd as [ip Hne Hip | ip fp Hne Hip Hfp];
    (destruct ip as [|c ip]; [congruence|]); simpl in Hip;
    apply andb_prop in Hip; destruct Hip as [Hc Hip]; simpl; rewrite Hc.
  - apply star_all; [exact Hip | | now apply stops_digit].
    simpl in Hk; rewrite <- app_assoc in Hk; simpl in Hk.
    destruct tail as [|d tail]; simpl.
    + exact Hk.
    + destruct Ht as [Hd1 Hd2].
      change (Ascii.eqb (lower_char d) (lower_char ".")) with (char true "." d).
      rewrite dot_class, Hd2, Hd1. exact Hk.
  - rewrite <- app_assoc. apply star_all; [exact Hip | | reflexivity].
    simpl.
    assert (Hs : star is_digit k ("."%char :: rev ip ++ c :: b) (fp ++ tail) g = Some m).
    { apply star_all; [exact Hfp | | now apply stops_digit].
      simpl in Hk. rewrite rev_app_distr in Hk. simpl in Hk.
      rewrite <- !app_assoc in Hk. exact Hk. }
    now rewrite Hs.
Qed.


Lemma run_text (ic : bool) (p : str) :
  forall (l s b : str) (g : list (nat * str)) (k : cont),
    matches_text ic p l = true ->
    run (text ic p) k (State b (l ++ s) g) = k (State (rev l ++ b) s g).
Proof.
  induction p as [|c p IH]; intros [|x l] s b g k H; try discriminate H.
  - reflexivity.
  - simpl in H. apply andb_prop in H; destruct H as [Hx Hl].
    simpl. rewrite Hx. unfold advance; simpl.
    rewrite IH by assumption. now rewrite <- app_assoc.
Qed.

(** A strict field read on its name, blanks and a decimal literal. *)
Lemma run_field_number (name sentinel : string) (pre sp ls tail b : str)
    (g : list (nat * str)) :
  matches_text true (lit name) pre = true ->
  forallb is_space sp = true ->
  decimal ls -> stops tail ->
  run (ClipFinder.field name sentinel) Some (State b (pre ++ sp ++ ls ++ tail) g)
  = Some (State (rev ls ++ rev sp ++ rev pre ++ b) tail ((1, ls) :: g)).
Proof.
  intros Hpre Hsp Hd Ht. unfold ClipFinder.field.
  change (run (?a ;; ?r)%re ?k ?st) with (run a (run r k) st).
  rewrite run_text by assumption.
  change (run (Star ?p ;; ?r)%re ?k (State ?b' ?s' ?g'))
    with (star p (run r k) b' s' g').
  apply star_all; [assumption | |].
  - change (run (Group ?n ?r) ?k ?st)
      with (run r (fun st' => k (State (before st') (rest st')
                                       ((n, consumed st st') :: groups st'))) st).
    change (run (Alt ?r1 ?r2) ?k ?st)
      with (match run r1 k st with Some m => Some m | None => run r2 k st end).
    erewrite run_number; [reflexivity | assumption | assumption |].
    rewrite consumed_app. reflexivity.
  - destruct Hd as [ip Hne Hip | ip fp Hne Hip Hfp];
      (destruct ip as [|c ip]; [congruence|]); simpl in Hip;
      apply andb_prop in Hip; destruct Hip as [Hc _]; simpl;
      now apply digit_not_space.
Qed.

Lemma search_at_hit (r : regex) (b s : str) (st : state) :
  run r Some (State b s []) = Some st ->
  search_at r b s = Some (Match (List.length b) st).
Proof. intros H. destruct s; simpl; now rewrite H. Qed.

Lemma search_at_step (r : regex) (b s : str) (c : ascii) :
  run r Some (State b (c :: s) []) = None ->
  search_at r b (c :: s) = search_at r (c :: b) s.
Proof. intros H. simpl. now rewrite H. Qed.

(** No match starts at a character the first literal of a field rejects. *)
Lemma search_at_skip (n0 : ascii) (name sentinel : string) (l : str) :
  forall b s,
    forallb (fun c => negb (char true n0 c)) l = true ->
    search_at (ClipFinder.field (String n0 name) sentinel) b (l ++ s)
    = search_at (ClipFinder.field (String n0 name) sentinel) (rev l ++ b) s.
Proof.
  induction l as [|c l IH]; intros b s H; [reflexivity|].
  simpl in H. apply andb_prop in H; destruct H as [Hc Hl].
  apply negb_true_iff in Hc.
  change ((c :: l) ++ s) with (c :: l ++ s).
  rewrite search_at_step.
  - rewrite IH by assumption. simpl. now rewrite <- app_assoc.
  - unfold ClipFinder.field. simpl. now rewrite Hc.
Qed.


(** ** What a successful run has read

    [reach r st st'] says that the pattern [r] can read the subject from
    position [st] to position [st'], with the groups it captures on the
    way.  Every answer of the matcher comes from such a reading. *)
Lemma star_sound (p : class) (k : cont) (s : str) :
  forall b g res,
    star p k b s g = Some res ->
    exists l s', s = l ++ s' /\ forallb p l = true
                 /\ k (State (rev l ++ b) s' g) = Some res.
Proof.
  induction s as [|c s IH]; simpl; intros b g res H.
  - exists [], []. auto.
  - destruct (p c) eqn:Hc.
    + destruct (star p k (c :: b) s g) as [r|] eqn:Hs.
      * inversion H; subst r. destruct (IH _ _ _ Hs) as (l & s' & -> & Hl & Hk).
        exists (c :: l), s'. simpl. rewrite Hc, Hl, <- app_assoc. auto.
      * exists [], (c :: s). auto.
    + exists [], (c :: s). auto.
Qed.

Lemma star_lazy_sound (p : class) (k : cont) (s : str) :
  forall b g res,
    star_lazy p k b s g = Some res ->
    exists l s', s = l ++ s' /\ forallb p l = true
                 /\ k (State (rev l ++ b) s' g) = Some res.
Proof.
  induction s as [|c s IH]; simpl; intros b g res H.
  - destruct (k (State b [] g)) eqn:Hk; [|discriminate].
    exists [], []. inversion H; subst. auto.
  - destruct (k (State b (c :: s) g)) eqn:Hk.
    + exists [], (c :: s). inversion H; subst. auto.
    + destruct (p c) eqn:Hc; [|discriminate].
      destruct (IH _ _ _ H) as (l & s' & -> & Hl & Hk').
      exists (c :: l), s'. simpl. rewrite Hc, Hl, <- app_assoc. auto.
Qed.

Theorem run_sound (r : regex) :
  forall (k : cont) (st res : state),
    run r k st = Some res ->
    exists st', reach r st st' /\ k st' = Some res.
Proof.
  induction r as [|p|r1 IH1 r2 IH2|r1 IH1 r2 IH2|r IH|p|p|p|n r IH|r IH| |];
    intros k [b s g] res H; simpl in H.
  - eauto using reach.
  - destruct s as [|c s]; [discriminate|].
    destruct (p c) eqn:Hc; [|discriminate]. eauto using reach.
  - apply IH1 in H; destruct H as (st1 & R1 & H).
    apply IH2 in H; destruct H as (st2 & R2 & H). eauto using reach.
  - destruct (run r1 k (State b s g)) eqn:H1.
    + inversion H; subst. apply IH1 in H1; destruct H1 as (st' & R & Hk).
      eauto using reach.
    + apply IH2 in H; destruct H as (st' & R & Hk). eauto using reach.
  - destruct (run r k (State b s g)) eqn:H1.
    + inversion H; subst. apply IH in H1; destruct H1 as (st' & R & Hk).
      eauto using reach.
    + eauto using reach.
  - apply star_sound in H; destruct H as (l & s' & -> & Hl & Hk).
    eauto using reach.
  - destruct s as [|c s]; [discriminate|].
    destruct (p c) eqn:Hc; [|discriminate].
    apply star_sound in H; destruct H as (l & s' & -> & Hl & Hk).
    exists (State (rev (c :: l) ++ b) s' g). split.
    + change (c :: l ++ s') with ((c :: l) ++ s').
      apply reach_plus; [discriminate|]. simpl. now rewrite Hc.
    + simpl. now rewrite <- app_assoc.
  - destruct s as [|c s]; [discriminate|].
    destruct (p c) eqn:Hc; [|discriminate].
    apply star_lazy_sound in H; destruct H as (l & s' & -> & Hl & Hk).
    exists (State (rev (c :: l) ++ b) s' g). split.
    + change (c :: l ++ s') with ((c :: l) ++ s').
      apply reach_plus_lazy; [discriminate|]. simpl. now rewrite Hc.
    + simpl. now rewrite <- app_assoc.
  - apply IH in H; destruct H as (st' & R & Hk). eauto using reach.
  - destruct (run r Some (State b s g)) as [st'|] eqn:H1; [|discriminate].
    apply IH in H1; destruct H1 as (st1 & R & Hk). inversion Hk; subst st1.
    exists (State b s (groups st')). split; [|assumption].
    apply (reach_ahead R).
  - destruct (at_end (State b s g)) eqn:He; [|discriminate]. eauto using reach.
  - destruct (word_boundary (State b s g)) eqn:He; [|discriminate]. eauto using reach.
Qed.


Lemma consumed_read (st st' : state) (l : str) :
  rest st = l ++ rest st' -> consumed st st' = l.
Proof.
  destruct st as [b s g], st' as [b' s' g']; simpl; intros ->.
  apply consumed_app.
Qed.

Lemma reach_seq_inv r1 r2 st st2 :
  reach (Seq r1 r2) st st2 -> exists st1, reach r1 st st1 /\ reach r2 st1 st2.
Proof. inversion 1; subst; eauto. Qed.

Lemma reach_chr_inv (p : class) st st' :
  reach (Chr p) st st' ->
  exists c, p c = true /\ rest st = c :: rest st'.
Proof. inversion 1; subst; simpl; eauto. Qed.

Lemma reach_alt_inv r1 r2 st st' :
  reach (Alt r1 r2) st st' -> reach r1 st st' \/ reach r2 st st'.
Proof. inversion 1; subst; auto. Qed.

Lemma reach_opt_inv r st st' :
  reach (Opt r) st st' -> reach r st st' \/ st' = st.
Proof. inversion 1; subst; auto. Qed.

Lemma reach_star_inv (p : class) st st' :
  reach (Star p) st st' ->
  exists l, forallb p l = true /\ rest st = l ++ rest st'.
Proof. inversion 1; subst; simpl; eauto. Qed.

Lemma reach_plus_inv (p : class) st st' :
  reach (Plus p) st st' ->
  exists l, l <> [] /\ forallb p l = true /\ rest st = l ++ rest st'.
Proof. inversion 1; subst; simpl; eauto. Qed.

Lemma reach_group_inv n r st st2 :
  reach (Group n r) st st2 ->
  exists st', reach r st st'
              /\ st2 = State (before st') (rest st') ((n, consumed st st') :: groups st').
Proof. inversion 1; subst; eauto. Qed.

Lemma reach_text (ic : bool) (p : str) :
  forall st st',
    reach (text ic p) st st' ->
    exists l, matches_text ic p l = true /\ rest st = l ++ rest st'.
Proof.
  induction p as [|c p IH]; simpl; intros st st' H.
  - inversion H; subst. now exists [].
  - apply reach_seq_inv in H; destruct H as (st1 & H1 & H2).
    apply reach_chr_inv in H1; destruct H1 as (x & Hx & Hr1).
    apply IH in H2; destruct H2 as (l & Hl & Hr).
    exists (x :: l). simpl. rewrite Hx, Hl, Hr1, Hr. auto.
Qed.

Lemma reach_number (st st' : state) :
  reach ClipFinder.number st st' ->
  exists l, decimal l /\ rest st = l ++ rest st'.
Proof.
  unfold ClipFinder.number. intros H.
  apply reach_seq_inv in H; destruct H as (st1 & H1 & H).
  apply reach_seq_inv in H; destruct H as (st2 & H2 & H3).
  apply reach_plus_inv in H1; destruct H1 as (ip & Hne & Hip & R1).
  apply reach_star_inv in H3; destruct H3 as (fp & Hfp & R3).
  apply reach_opt_inv in H2; destruct H2 as [H2 | ->].
  - apply reach_chr_inv in H2; destruct H2 as (c & Hc & R2).
    rewrite dot_class in Hc. apply Ascii.eqb_eq in Hc; subst c.
    exists (ip ++ "."%char :: fp). split.
    + now apply decimal_frac.
    + rewrite R1, R2, R3, <- app_assoc. reflexivity.
  - exists (ip ++ fp). split.
    + apply decimal_int.
      * destruct ip; [congruence | discriminate].
      * rewrite forallb_app. now rewrite Hip, Hfp.
    + rewrite R1, R3, <- app_assoc. reflexivity.
Qed.

(** The first group of a strict field is a decimal literal or the
    sentinel, in either case of its letters. *)
Lemma reach_field (name sentinel : string) (st st' : state) :
  reach (ClipFinder.field name sentinel) st st' ->
  exists l, lookup 1 (groups st') = Some l
            /\ (decimal l \/ matches_text true (lit sentinel) l = true).
Proof.
  unfold ClipFinder.field. intros H.
  apply reach_seq_inv in H; destruct H as (st1 & _ & H).
  apply reach_seq_inv in H; destruct H as (st2 & _ & H).
  apply reach_group_inv in H; destruct H as (st3 & H & ->).
  simpl. eexists; split; [reflexivity|].
  apply reach_alt_inv in H; destruct H as [H | H].
  - apply reach_number in H; destruct H as (l & Hl & R).
    rewrite (consumed_read _ _ _ R). now left.
  - apply reach_text in H; destruct H as (l & Hl & R).
    rewrite (consumed_read _ _ _ R). now right.
Qed.

Lemma search_at_sound (r : regex) (s : str) :
  forall b m,
    search_at r b s = Some m ->
    exists b' s', run r Some (State b' s' []) = Some (m_final m).
Proof.
  induction s as [|c s IH]; simpl; intros b m H.
  - destruct (run r Some (State b [] [])) eqn:Hr; [|discriminate].
    inversion H; subst; simpl. eauto.
  - destruct (run r Some (State b (c :: s) [])) eqn:Hr.
    + inversion H; subst; simpl. eauto.
    + eauto.
Qed.

Lemma search_field (name sentinel : string) (text : str) (m : match_object) :
  search (ClipFinder.field name sentinel) text = Some m ->
  decimal (group 1 m) \/ matches_text true (lit sentinel) (group 1 m) = true.
Proof.
  intros H. apply search_at_sound in H; destruct H as (b & s & H).
  apply run_sound in H; destruct H as (st' & R & E). inversion E; subst st'.
  apply reach_field in R; destruct R as (l & Hl & Hd).
  unfold group. now rewrite Hl.
Qed.


(** ** Case-insensitive letters *)

Lemma in_all_ascii (c : ascii) : In c all_ascii.
Proof.
  rewrite <- (ascii_nat_embedding c). apply in_map, in_seq.
  pose proof (nat_ascii_bounded c). lia.
Qed.

Lemma ascii_forall (P : ascii -> bool) :
  forallb P all_ascii = true -> forall c, P c = true.
Proof. intros H c. rewrite forallb_forall in H. apply H, in_all_ascii. Qed.

Lemma plain_upper (c x : ascii) :
  plain c = true -> char true c x = true -> upper_char x = c.
Proof.
  intros Hc Hx.
  assert (H : forallb (fun c => forallb (fun x =>
                implb (plain c && char true c x) (Ascii.eqb (upper_char x) c))
                all_ascii) all_ascii = true) by (vm_compute; reflexivity).
  pose proof (ascii_forall _ (ascii_forall _ H c) x) as E. cbv beta in E.
  rewrite Hc, Hx in E. now apply Ascii.eqb_eq.
Qed.

Lemma matches_upper (p : str) :
  forallb plain p = true ->
  forall l, matches_text true p l = true -> upper l = p.
Proof.
  induction p as [|c p IH]; intros Hp [|x l] H; try discriminate H; [reflexivity|].
  simpl in *. apply andb_prop in Hp; destruct Hp as [Hc Hp].
  apply andb_prop in H; destruct H as [Hx Hl].
  now rewrite (plain_upper _ _ Hc Hx), (IH Hp l Hl).
Qed.

End ReFacts.

(** * Timestamp resolution *)

Module ClipFinderFacts.
Import Re PyStr PyNum Eff ClipFinder ReSpec ClipFinderSpec ReFacts PyFloatFacts.

Lemma decimal_head (ls : str) :
  decimal ls -> exists c ls', ls = c :: ls' /\ is_digit c = true.
Proof.
  intros [ip Hne Hip | ip fp Hne Hip Hfp];
    (destruct ip as [|c ip]; [congruence|]); simpl in Hip;
    apply andb_prop in Hip; destruct Hip as [Hc _]; simpl; eauto.
Qed.

Lemma digit_upper (c : ascii) : is_digit c = true -> upper_char c = c.
Proof. destruct c as [[] [] [] [] [] [] [] []]; simpl; intros H; try reflexivity; discriminate H. Qed.

Lemma decimal_chars (ls : str) :
  decimal ls -> forallb (fun c => is_digit c || Ascii.eqb c ".") ls = true.
Proof.
  assert (Hd : forall l, forallb is_digit l = true ->
                         forallb (fun c => is_digit c || Ascii.eqb c ".") l = true).
  { induction l as [|c l IH]; simpl; intros H; [reflexivity|].
    apply andb_prop in H; destruct H as [Hc Hl]. now rewrite Hc, IH. }
  intros [ip Hne Hip | ip fp Hne Hip Hfp].
  - now apply Hd.
  - rewrite forallb_app. simpl. now rewrite !Hd by assumption.
Qed.

(** A decimal literal is not a sentinel. *)
Lemma decimal_not_sentinel (ls : str) (sentinel : string) :
  decimal ls ->
  match lit sentinel with c :: _ => is_digit c = false | [] => True end ->
  PyStr.eqb (upper ls) (lit sentinel) = false.
Proof.
  intros Hd Hs. destruct (decimal_head Hd) as (c & ls' & -> & Hc).
  unfold PyStr.eqb.
  destruct (list_eq_dec ascii_dec (upper (c :: ls')) (lit sentinel)) as [E|]; [|reflexivity].
  simpl in E. rewrite digit_upper in E by assumption.
  rewrite <- E in Hs. congruence.
Qed.

Lemma not_first_letter (n0 : ascii) (ls : str) :
  (forall c, is_digit c || Ascii.eqb c "." = true -> char true n0 c = false) ->
  decimal ls ->
  forallb (fun c => negb (char true n0 c)) ls = true.
Proof.
  intros Hn Hd. apply decimal_chars in Hd. rewrite forallb_forall in *.
  intros c Hc. now rewrite Hn by auto.
Qed.

Lemma letter_E (c : ascii) : is_digit c || Ascii.eqb c "." = true -> char true "E" c = false.
Proof. destruct c as [[] [] [] [] [] [] [] []]; simpl; intros H; try reflexivity; discriminate H. Qed.

Lemma search_start_echo (ls le : str) :
  decimal ls ->
  exists m, search start_pattern (echo ls le) = Some m /\ group 1 m = ls.
Proof.
  intros Hd. unfold search, echo, start_pattern.
  change (lit "START_TIME: ") with (lit "START_TIME:" ++ lit " ").
  rewrite <- app_assoc.
  eexists. split.
  - apply search_at_hit. apply run_field_number; try reflexivity; try assumption.
    simpl; auto.
  - reflexivity.
Qed.

Lemma search_end_echo (ls le : str) :
  decimal ls -> decimal le ->
  exists m, search end_pattern (echo ls le) = Some m /\ group 1 m = le.
Proof.
  intros Hs He. unfold search, echo, end_pattern.
  cbn [lit list_ascii_of_string app].
  do 12 (rewrite search_at_step by reflexivity).
  rewrite search_at_skip by (apply not_first_letter; [exact letter_E | assumption]).
  rewrite search_at_step by reflexivity.
  match goal with
  | |- exists m, search_at _ ?B _ = _ /\ _ =>
      pose proof (@run_field_number "END_TIME:" "NOT_FOUND" (lit "END_TIME:") (lit " ")
                    le [] B [] eq_refl eq_refl He I) as H
  end.
  rewrite app_nil_r in H.
  eexists. split; [apply search_at_hit; exact H | reflexivity].
Qed.

Lemma str_eqb_eq (x y : str) : PyStr.eqb x y = true <-> x = y.
Proof.
  unfold PyStr.eqb. destruct (list_eq_dec ascii_dec x y); split; congruence.
Qed.

Lemma str_eqb_neq (x y : str) : PyStr.eqb x y = false <-> x <> y.
Proof.
  unfold PyStr.eqb. destruct (list_eq_dec ascii_dec x y); split; congruence.
Qed.

(** A strict field that is not the sentinel is a number. *)
Lemma strict_field_number (name sentinel : string) (text : str) (m : match_object) :
  forallb plain (lit sentinel) = true ->
  search (field name sentinel) text = Some m ->
  upper (group 1 m) <> lit sentinel ->
  exists x, float_of_str (group 1 m) = Some x.
Proof.
  intros Hp H Hn. destruct (search_field _ _ _ H) as [Hd | Hs].
  - now apply decimal_float_of_str.
  - apply matches_upper in Hs; [contradiction | assumption].
Qed.

Section Service.
Variable World : Type.
Variable create : request -> World -> World * (exn + str).
Variable config : Config.
Variable model : str.

Lemma prepare_eq (transcription : str) (s : store World) :
  _prepare_transcription_for_analysis config transcription s
  = (Store (world s) (logs s ++ prepare_log config transcription),
     inr (prepared config transcription)).
Proof.
  unfold _prepare_transcription_for_analysis, prepared, prepare_log, bind, log, ret.
  destruct (Z.of_nat (List.length transcription) >? MAX_TRANSCRIPTION_LENGTH config)%Z;
    simpl; [reflexivity|].
  rewrite app_nil_r. now destruct s.
Qed.

(** The strict fields of an echoed pair of literals parse to their
    values, and nothing is logged. *)
Lemma parse_echo (ls le : str) (fs fe : float) (s : store World) :
  float_of_str ls = Some fs -> float_of_str le = Some fe ->
  PyFloat.ltb fs fe = true ->
  _parse_timestamp_response (echo ls le) s = (s, inr (Some fs, Some fe)).
Proof.
  intros Hs He Hlt.
  pose proof (float_of_str_decimal _ Hs) as Ds.
  pose proof (float_of_str_decimal _ He) as De.
  destruct (search_start_echo le Ds) as (m1 & H1 & G1).
  destruct (search_end_echo Ds De) as (m2 & H2 & G2).
  unfold _parse_timestamp_response, try_except. rewrite H1, H2, G1, G2.
  unfold strict_timestamps.
  rewrite !decimal_not_sentinel by (assumption || reflexivity).
  simpl. rewrite Hs, He, (ltb_not_leb _ _ Hlt). reflexivity.
Qed.


(** The result of the parse, case by case. *)
Lemma parse_cases (text : str) (s : store World) :
  exists r, outcome (_parse_timestamp_response text) s = inr r /\
    match strict_fields text with
    | Some (a, b) =>
        (upper a = lit "NOT_FOUND" \/ upper b = lit "NOT_FOUND") /\ r = not_found
        \/ upper a <> lit "NOT_FOUND" /\ upper b <> lit "NOT_FOUND" /\
           exists x y, float_of_str a = Some x /\ float_of_str b = Some y /\
             (PyFloat.leb y x = true /\ r = not_found
              \/ PyFloat.leb y x = false /\ r = (Some x, Some y))
    | None =>
        match loose_fields text with
        | Some (a, b) =>
            match float_of_str a, float_of_str b with
            | Some x, Some y =>
                PyFloat.gtb y x = true /\ r = (Some x, Some y)
                \/ PyFloat.gtb y x = false /\ r = not_found
            | _, _ => r = not_found
            end
        | None => r = not_found
        end
    end.
Proof.
  unfold outcome, _parse_timestamp_response, try_except, strict_fields, loose_fields.
  destruct (search start_pattern text) as [m1|] eqn:H1;
    [destruct (search end_pattern text) as [m2|] eqn:H2|].
  - unfold strict_timestamps.
    destruct (PyStr.eqb (upper (group 1 m1)) (lit "NOT_FOUND")) eqn:E1;
      [apply str_eqb_eq in E1; simpl; eauto 6|].
    destruct (PyStr.eqb (upper (group 1 m2)) (lit "NOT_FOUND")) eqn:E2;
      [apply str_eqb_eq in E2; simpl; eauto 6|].
    apply str_eqb_neq in E1, E2. simpl.
    destruct (@strict_field_number "START_TIME:" "NOT_FOUND" _ _ eq_refl H1 E1) as (x & Hx).
    destruct (@strict_field_number "END_TIME:" "NOT_FOUND" _ _ eq_refl H2 E2) as (y & Hy).
    rewrite Hx, Hy.
    destruct (PyFloat.leb y x) eqn:Hle; simpl; eexists; (split; [reflexivity|]);
      right; repeat split; auto; exists x, y; auto.
  - unfold fallback_timestamps.
    destruct (search timestamp_patterns text) as [m|]; simpl; eauto.
    destruct (float_of_str (group 1 m)) as [x|]; simpl; eauto.
    destruct (float_of_str (group 2 m)) as [y|]; simpl; eauto.
    destruct (PyFloat.gtb y x); simpl; eauto.
  - unfold fallback_timestamps.
    destruct (search timestamp_patterns text) as [m|]; simpl; eauto.
    destruct (float_of_str (group 1 m)) as [x|]; simpl; eauto.
    destruct (float_of_str (group 2 m)) as [y|]; simpl; eauto.
    destruct (PyFloat.gtb y x); simpl; eauto.
Qed.


Lemma store_eta (s : store World) (A : Type) (r : exn + A) :
  (s, r) = (Store (world s) (logs s ++ []), r).
Proof. destruct s as [w l]. simpl. now rewrite app_nil_r. Qed.

(** Neither branch of the parse raises, and each reads nothing but its
    arguments: value and logged records are the same in every store. *)
Lemma fallback_pure (text : str) :
  exists (r : timestamps) (l : list log_record),
    (forall s : store World,
       fallback_timestamps text s = (Store (world s) (logs s ++ l), inr r))
    /\ (r = not_found \/ exists x y, r = (Some x, Some y)).
Proof.
  unfold fallback_timestamps.
  destruct (search timestamp_patterns text) as [m|];
    [destruct (float_of_str (group 1 m)) as [x|];
     [destruct (float_of_str (group 2 m)) as [y|];
      [destruct (PyFloat.gtb y x)|]|]|];
    do 2 eexists; (split; [intros s; reflexivity | eauto]).
Qed.

Lemma strict_pure (a b : str) :
  exists (r : timestamps) (l : list log_record),
    (forall s : store World,
       strict_timestamps a b s = (Store (world s) (logs s ++ l), inr r))
    /\ (r = not_found \/ exists x y, r = (Some x, Some y)).
Proof.
  unfold strict_timestamps.
  destruct (PyStr.eqb (upper a) (lit "NOT_FOUND")
            || PyStr.eqb (upper b) (lit "NOT_FOUND")).
  - exists not_found, []. split; [intros s; apply store_eta | auto].
  - destruct (float_of_str a) as [x|];
      [destruct (float_of_str b) as [y|]; [destruct (PyFloat.leb y x)|]|].
    + do 2 eexists; (split; [intros s; reflexivity | eauto]).
    + exists (Some x, Some y), []. split; [intros s; apply store_eta | eauto].
    + do 2 eexists; (split; [intros s; reflexivity | eauto]).
    + do 2 eexists; (split; [intros s; reflexivity | eauto]).
Qed.

(** The handler of the parse is never entered. *)
Lemma parse_strict (text a b : str) (s : store World) :
  strict_fields text = Some (a, b) ->
  _parse_timestamp_response text s = strict_timestamps a b s.
Proof.
  intros H. unfold _parse_timestamp_response, try_except.
  unfold strict_fields in H.
  destruct (search start_pattern text); [destruct (search end_pattern text)|];
    try discriminate H.
  inversion H; subst.
  destruct (strict_pure (group 1 m) (group 1 m0)) as (r & l & Hp & _).
  now rewrite Hp.
Qed.

Lemma parse_fallback (text : str) (s : store World) :
  strict_fields text = None ->
  _parse_timestamp_response text s = fallback_timestamps text s.
Proof.
  intros H. unfold _parse_timestamp_response, try_except.
  unfold strict_fields in H.
  destruct (fallback_pure text) as (r & l & Hp & _).
  destruct (search start_pattern text); [destruct (search end_pattern text)|];
    try discriminate H; now rewrite Hp.
Qed.

(** The parse reads nothing but the text: its value and the records it
    logs are the same in every store, the world is left as it was, and
    the value is the absence marker or a pair of numbers. *)
Lemma parse_pure (text : str) :
  exists (r : timestamps) (l : list log_record),
    (forall s : store World,
       _parse_timestamp_response text s = (Store (world s) (logs s ++ l), inr r))
    /\ (r = not_found \/ exists x y, r = (Some x, Some y)).
Proof.
  destruct (strict_fields text) as [[a b]|] eqn:H.
  - destruct (strict_pure a b) as (r & l & Hp & Hv). exists r, l.
    split; [|exact Hv]. intros s. rewrite (parse_strict _ s H). apply Hp.
  - destruct (fallback_pure text) as (r & l & Hp & Hv). exists r, l.
    split; [|exact Hv]. intros s. rewrite (parse_fallback _ s H). apply Hp.
Qed.


(** One turn of the batch loop appends the item of its resolution and
    never raises. *)
Lemma find_one_clip_eq (i n : nat) (transcription d : str)
    (acc : list clip_result) (s : store World) :
  let r := find_clip_timestamps create config model transcription d
             (item_start i n d s) in
  find_one_clip create config model i n transcription d acc s
  = (item_end i r, inr (acc ++ [item_of d (snd r)])).
Proof.
  intros r. unfold find_one_clip, try_except, bind at 1.
  change (log INFO (Finding_clip (i + 1) n d) s) with (item_start i n d s, @inr exn _ tt).
  unfold bind at 1. fold r. unfold item_end.
  destruct r as [s1 [e | [st en]]]; reflexivity.
Qed.

Lemma clips_loop_eq (transcription : str) (descs : list str) :
  forall (i n : nat) (acc : list clip_result) (s : store World),
    exists s',
      clips_loop create config model i n transcription descs acc s
      = (s', inr (acc ++ map (fun dr => item_of (fst dr) (snd (snd dr)))
                          (combine descs
                             (resolutions create config model i n transcription descs s)))).
Proof.
  induction descs as [|d descs IH]; intros i n acc s.
  - exists s. simpl. unfold ret. now rewrite app_nil_r.
  - simpl. unfold bind at 1. rewrite find_one_clip_eq.
    destruct (IH (S i) n
                (acc ++ [item_of d (snd (find_clip_timestamps create config model
                                           transcription d (item_start i n d s)))])
                (item_end i (find_clip_timestamps create config model
                               transcription d (item_start i n d s))))
      as (s' & Hs').
    exists s'. rewrite Hs'. now rewrite <- app_assoc.
Qed.

Lemma resolutions_length (transcription : str) (descs : list str) :
  forall i n s,
    List.length (resolutions create config model i n transcription descs s)
    = List.length descs.
Proof. induction descs; simpl; intros; auto. Qed.


Lemma batch_eq (transcription : str) (descs : list str) (s : store World) :
  outcome (find_multiple_clips create config model transcription descs) s
  = inr (items descs (resolutions create config model 0 (List.length descs)
                        transcription descs s)).
Proof.
  unfold outcome, find_multiple_clips.
  destruct (clips_loop_eq transcription descs 0 (List.length descs) [] s) as (s' & ->).
  reflexivity.
Qed.

Lemma item_description (d : str) (o : exn + timestamps) :
  description (item_of d o) = d.
Proof. destruct o as [e | [st en]]; reflexivity. Qed.

Lemma items_descriptions (descs : list str) :
  forall rs : list (store World * (exn + timestamps)),
    List.length rs = List.length descs ->
    map description (items descs rs) = descs.
Proof.
  unfold items. induction descs as [|d descs IH]; intros [|r rs] H; try discriminate H.
  - reflexivity.
  - simpl. rewrite item_description. f_equal. apply IH. simpl in H. lia.
Qed.

Lemma items_nth (descs : list str) :
  forall (rs : list (store World * (exn + timestamps))) k d r,
    nth_error descs k = Some d -> nth_error rs k = Some r ->
    nth_error (items descs rs) k = Some (item_of d (snd r)).
Proof.
  unfold items. induction descs as [|d0 descs IH]; intros [|r0 rs] [|k] d r Hd Hr;
    try discriminate; simpl in *.
  - now inversion Hd; inversion Hr; subst.
  - now apply IH.
Qed.

(** Each recorded resolution is the run of [find_clip_timestamps] on its
    own description, from the store it started in. *)
Lemma resolutions_nth (transcription : str) (descs : list str) :
  forall i n s k d s_k o,
    nth_error descs k = Some d ->
    nth_error (resolutions create config model i n transcription descs s) k
    = Some (s_k, o) ->
    o = outcome (find_clip_timestamps create config model transcription d) s_k.
Proof.
  induction descs as [|d0 descs IH]; intros i n s [|k] d s_k o Hd Hr;
    try discriminate; simpl in *.
  - inversion Hd; inversion Hr; subst. reflexivity.
  - eapply IH; eassumption.
Qed.

End Service.

End ClipFinderFacts.

(** * Facts about the classifier *)

Unset Implicit Arguments.

Module ClassifierFacts.
Import PyFloat PyFloatSpec PyFloatArith PyFloatBounds PyFloatOps TopicClassifier ClassifierSpec.
Local Open Scope R_scope.

(** ** Dictionaries *)

Lemma set_all {V : Type} (P : V -> Prop) (k : str) (v : V) (d : Dict.dict V) :
  all_values P d -> P v -> all_values P (Dict.set k v d).
Proof.
  intros Hd Hv. induction d as [|[k' v'] d IH]; simpl.
  - repeat constructor. exact Hv.
  - inversion Hd as [|kv d' Hv' Hd']; subst.
    destruct (PyStr.eqb k' k); constructor; simpl; auto. apply IH. exact Hd'.
Qed.

Lemma get_all {V : Type} (P : V -> Prop) (k : str) (v : V) (d : Dict.dict V) :
  all_values P d -> Dict.get k d = Some v -> P v.
Proof.
  intros Hd. induction d as [|[k' v'] d IH]; simpl; [discriminate|].
  inversion Hd as [|kv d' Hv' Hd']; subst. destruct (PyStr.eqb k' k); [|auto].
  intros E; inversion E; subst. exact Hv'.
Qed.

Lemma fold_left_inv {A B : Type} (P : A -> Prop) (f : A -> B -> A) (l : list B) :
  (forall a b, P a -> P (f a b)) -> forall a, P a -> P (fold_left f l a).
Proof. intros Hf. induction l as [|b l IH]; simpl; auto. Qed.

(** ** Weights *)

Lemma mval_ge_bpow (m : positive) (e k : Z) :
  (e <= k)%Z -> (2 ^ (k - e) <= Zpos m)%Z -> bpow k <= mval (Zpos m) e.
Proof.
  intros He H. apply IZR_le in H. rewrite <- bpow_IZR in H by lia.
  replace k with ((k - e) + e)%Z at 1 by lia. rewrite bpow_add.
  unfold mval. pose proof (bpow_pos e). nra.
Qed.

Lemma mval_le_bpow (m : positive) (e k : Z) :
  (e <= k)%Z -> (Zpos m <= 2 ^ (k - e))%Z -> mval (Zpos m) e <= bpow k.
Proof.
  intros He H. apply IZR_le in H. rewrite <- bpow_IZR in H by lia.
  replace k with ((k - e) + e)%Z at 1 by lia. rewrite bpow_add.
  unfold mval. pose proof (bpow_pos e). nra.
Qed.

(** A closed weight, evaluated and compared with 1. *)
Ltac closed_weight :=
  match goal with
  | |- weight_ok ?w =>
      let w' := eval vm_compute in w in
      change (weight_ok w'); unfold weight_ok; apply mval_ge_bpow; vm_compute; congruence
  end.

Lemma keyword_weight_ok (keyword : str) : weight_ok (keyword_weight keyword).
Proof.
  unfold keyword_weight.
  destruct (1 <? word_count keyword)%nat, (existsb (PyStr.eqb keyword) specific_terms);
    closed_weight.
Qed.

Lemma weight_ok_ge (w : float) : weight_ok w -> ge_bpow w 0.
Proof. destruct w as [[]|[]| |[] m e]; simpl; tauto. Qed.

Section WithCategories.
Variable categories : list (str * list str).

Lemma weights_ok :
  all_values (all_values weight_ok) (category_weights categories).
Proof.
  unfold category_weights, _calculate_category_weights.
  apply fold_left_inv; [|constructor].
  intros weights [category keywords] Hw.
  destruct (PyStr.eqb category (lit "general")); [assumption|].
  apply set_all; [assumption|].
  apply fold_left_inv; [|constructor].
  intros cw keyword Hcw. apply set_all; [assumption | apply keyword_weight_ok].
Qed.

Lemma weight_of_ok (category keyword : str) :
  weight_ok (weight_of categories category keyword).
Proof.
  unfold weight_of.
  destruct (Dict.get category (category_weights categories)) as [cw|] eqn:E1.
  - pose proof (get_all _ _ _ _ weights_ok E1) as Hcw.
    destruct (Dict.get keyword cw) as [w|] eqn:E2.
    + exact (get_all _ _ _ _ Hcw E2).
    + closed_weight.
  - closed_weight.
Qed.

(** ** Scores *)

Lemma emin_le_0 : (emin prec emax <= 0)%Z.
Proof. unfold emin, prec, emax. lia. Qed.

Lemma score_inv_nonneg (s : float) : score_inv s -> nonneg s = true.
Proof. intros [-> | H]; [reflexivity | exact (ge_bpow_nonneg _ _ H)]. Qed.

Lemma score_inv_add (s w : float) : score_inv s -> ge_bpow w 0 -> score_inv (add s w).
Proof.
  intros Hs Hw. right. apply add_low_r; [apply emin_le_0 | now apply score_inv_nonneg | exact Hw].
Qed.

Lemma score_inv_pos (s : float) : score_inv s -> gtb s f0 = true -> ge_bpow s 0.
Proof. intros [-> | H] G; [discriminate G | exact H]. Qed.

Lemma description_entry_ok (description_lower category : str) (keywords : list str) :
  score_inv (score (description_entry categories description_lower category keywords)).
Proof.
  unfold description_entry.
  set (f := fun (acc : float * list str) (keyword : str) => _).
  assert (H : score_inv (fst (fold_left f keywords (f0, [])))).
  { apply (fold_left_inv (fun acc => score_inv (fst acc))); [|now left].
    intros [s matched] keyword Hs. unfold f.
    destruct (PyStr.contains keyword description_lower); [|exact Hs].
    simpl. apply score_inv_add; [exact Hs|]. apply weight_ok_ge, weight_of_ok. }
  destruct (fold_left f keywords (f0, [])) as [s matched]. exact H.
Qed.

Lemma description_scores_ok (description : str) :
  all_values (fun e => ge_bpow (score e) 0) (description_scores categories description).
Proof.
  unfold description_scores. apply fold_left_inv; [|constructor].
  intros cs [category keywords] Hcs.
  destruct (PyStr.eqb category (lit "general")); [assumption|].
  destruct (gtb _ f0) eqn:G; [|assumption].
  apply set_all; [assumption|].
  exact (score_inv_pos _ (description_entry_ok _ _ _) G).
Qed.

(** ** The best category *)

Lemma max_from_in {A : Type} (key : A -> float) (l : list A) :
  forall best, max_from key best l = best \/ In (max_from key best l) l.
Proof.
  induction l as [|x l IH]; intros best; simpl; [now left|].
  destruct (IH (if gtb (key x) (key best) then x else best)) as [E | H].
  - rewrite E. destruct (gtb (key x) (key best)); auto.
  - auto.
Qed.

Lemma best_of_all (P : score_entry -> Prop) (d : Dict.dict score_entry)
    (c : str) (e : score_entry) :
  all_values P d -> best_of d = Some (c, e) -> P e.
Proof.
  intros Hd. unfold best_of. destruct d as [|first others]; [discriminate|].
  intros E; inversion E as [E']; clear E.
  unfold all_values in Hd. rewrite Forall_forall in Hd.
  destruct (max_from_in (fun ce => score (snd ce)) others first) as [H | H];
    [rewrite H in E'; subst first | rewrite E' in H];
    [apply (Hd (c, e)); now left | apply (Hd (c, e)); now right].
Qed.

(** ** Confidences *)

Lemma f1_one : f1 = one.
Proof. reflexivity. Qed.

Lemma f0_7_seven_tenths : f0_7 = seven_tenths.
Proof. reflexivity. Qed.

Lemma clamp_confident (q : float) (k : Z) :
  (-4 <= k <= 0)%Z -> ge_bpow q k -> confident (min q f1).
Proof.
  intros Hk Hq. rewrite f1_one. split.
  - apply (ge_bpow_weaken _ k); [lia|]. apply min_one_low; [lia | exact Hq].
  - apply min_one_fin. exact (ge_bpow_nonneg _ _ Hq).
Qed.

Lemma description_cases (description : str) :
  let r := classify_by_description categories description in
  (primary_category r = lit "general" /\ confidence_score r = f0)
  \/ confident (confidence_score r).
Proof.
  unfold classify_by_description.
  destruct (best_of (description_scores categories description)) as [[c e]|] eqn:E.
  - right. cbn [confidence_score].
    pose proof (best_of_all _ _ _ _ (description_scores_ok description) E) as He.
    apply (clamp_confident _ (0 - 3)); [lia|].
    change f5 with (S754_finite false 5629499534213120 (-50)).
    apply div_low; [unfold emin, prec, emax; lia | exact He|].
    apply mval_le_bpow; vm_compute; congruence.
  - left. split; reflexivity.
Qed.

(** ** The clustering bonus is never negative *)

Lemma pair_bonus_nonneg (distance : Z) (b : float) :
  pair_bonus distance = Some b -> nonneg b = true.
Proof.
  unfold pair_bonus. destruct (distance <=? 100)%Z eqn:E; [|discriminate].
  intros H. assert (Hb : b = div (of_Z (100 - distance)) f100) by congruence.
  subst b. clear H. apply Z.leb_le in E.
  change f100 with (S754_finite false 7036874417766400 (-46)).
  apply div_nonneg_fin. apply of_ratio_nonneg. lia.
Qed.

Lemma clustering_loop_nonneg (positions : list Z) :
  forall prev b, nonneg b = true -> nonneg (clustering_loop prev positions b) = true.
Proof.
  induction positions as [|p positions IH]; intros prev b Hb; simpl; [exact Hb|].
  apply IH. destruct (pair_bonus (p - prev)) as [b'|] eqn:E; [|exact Hb].
  apply add_nonneg; [exact Hb | exact (pair_bonus_nonneg _ _ E)].
Qed.

Lemma clustering_nonneg (positions : list Z) (content_length : nat) :
  nonneg (_calculate_clustering_bonus positions content_length) = true.
Proof.
  unfold _calculate_clustering_bonus.
  destruct (_ <? 2)%nat; [reflexivity|].
  destruct (sort_asc positions) as [|p0 ps]; [reflexivity|].
  now apply clustering_loop_nonneg.
Qed.

(** ** Content scores *)

Lemma content_entry_ok (content_lower category : str) (keywords : list str)
    (e : score_entry) :
  length_converts content_lower ->
  content_entry categories content_lower category keywords = Some e ->
  ge_bpow (score e) 0.
Proof.
  intros Hlen. unfold content_entry.
  set (f := fun (acc : float * list str * list Z) (keyword : str) => _).
  assert (H : score_inv (fst (fst (fold_left f keywords (f0, [], []))))).
  { apply (fold_left_inv (fun acc => score_inv (fst (fst acc)))); [|now left].
    intros [[s matched] positions] keyword Hs. unfold f.
    destruct (0 <? _)%nat eqn:Hocc; [|exact Hs].
    simpl. apply score_inv_add; [exact Hs|].
    apply (mul_low _ _ 0 0); [apply emin_le_0 | apply weight_ok_ge, weight_of_ok|].
    apply of_Z_low. apply Nat.ltb_lt in Hocc. lia. }
  destruct (fold_left f keywords (f0, [], [])) as [[s matched] positions].
  simpl in H. destruct (gtb s f0) eqn:G; [|discriminate].
  intros [= <-]. simpl.
  pose proof (score_inv_pos _ H G) as Hs.
  apply add_low_l; [apply emin_le_0 | | apply clustering_nonneg].
  apply add_low_l; [apply emin_le_0 | exact Hs|].
  change (of_Z 1000) with (S754_finite false 8796093022208000 (-43)).
  apply mul_nonneg_fin. apply (div_nonneg _ _ 0); [exact Hs | | exact Hlen].
  apply of_ratio_nonneg. lia.
Qed.

Lemma lower_length (s : str) : List.length (PyStr.lower s) = List.length s.
Proof. apply length_map. Qed.

Lemma content_scores_ok (transcript_segment : str) :
  length_converts transcript_segment ->
  all_values (fun e => ge_bpow (score e) 0) (content_scores categories transcript_segment).
Proof.
  intros Hlen. unfold content_scores. apply fold_left_inv; [|constructor].
  intros cs [category keywords] Hcs.
  destruct (PyStr.eqb category (lit "general")); [assumption|].
  destruct (content_entry _ _ _ _) as [e|] eqn:E; [|assumption].
  apply set_all; [assumption|].
  apply (content_entry_ok _ _ _ _ ltac:(unfold length_converts; rewrite lower_length; exact Hlen) E).
Qed.

Lemma content_cases (transcript_segment : str) :
  length_converts transcript_segment ->
  let r := classify_by_content categories transcript_segment in
  (primary_category r = lit "general" /\ confidence_score r = f0)
  \/ confident (confidence_score r).
Proof.
  intros Hlen. unfold classify_by_content.
  destruct (PyStr.strip transcript_segment); [left; split; reflexivity|].
  destruct (best_of (content_scores categories transcript_segment)) as [[c e]|] eqn:E.
  - right. cbn [confidence_score].
    pose proof (best_of_all _ _ _ _ (content_scores_ok _ Hlen) E) as He.
    apply (clamp_confident _ ((0 - 4) + 0)); [lia|].
    apply mul_low; [unfold emin, prec, emax; lia | |].
    + change f10 with (S754_finite false 5629499534213120 (-49)).
      apply div_low; [unfold emin, prec, emax; lia | exact He|].
      apply mval_le_bpow; vm_compute; congruence.
    + apply add_low_l; [apply emin_le_0 | apply weight_ok_ge; closed_weight|].
      change f0_1 with (S754_finite false 7205759403792794 (-56)).
      apply mul_nonneg_fin. apply of_ratio_nonneg. lia.
  - left. split; reflexivity.
Qed.

End WithCategories.
End ClassifierFacts.

Set Implicit Arguments.
(** * The clustering bonus *)

Unset Implicit Arguments.

Module ClusteringFacts.
Import PyFloat PyFloatSpec PyFloatArith PyFloatBounds PyFloatOps TopicClassifier ClusteringSpec.
Import ClassifierSpec ClassifierFacts.

(** ** [list.sort()] *)

Lemma insert_asc_perm (x : Z) (l : list Z) : Permutation (x :: l) (insert_asc x l).
Proof.
  induction l as [|y l IH]; simpl; [reflexivity|].
  destruct (y <=? x)%Z; [|reflexivity].
  rewrite perm_swap. now constructor.
Qed.

Lemma insert_asc_in (x y : Z) (l : list Z) : In y (insert_asc x l) -> y = x \/ In y l.
Proof.
  intros H. apply (Permutation_in _ (Permutation_sym (insert_asc_perm x l))) in H.
  destruct H; auto.
Qed.

Lemma insert_asc_sorted (x : Z) (l : list Z) :
  StronglySorted Z.le l -> StronglySorted Z.le (insert_asc x l).
Proof.
  induction 1 as [|y l Hl IH Hy]; simpl.
  - repeat constructor.
  - destruct (y <=? x)%Z eqn:E.
    + apply Z.leb_le in E. constructor; [exact IH|].
      rewrite Forall_forall in *. intros z Hz.
      destruct (insert_asc_in _ _ _ Hz) as [-> | Hz']; auto.
    + apply Z.leb_gt in E. constructor; [now constructor|].
      constructor; [lia|]. rewrite Forall_forall in *. intros z Hz.
      specialize (Hy z Hz). lia.
Qed.

Lemma sort_asc_from (l : list Z) :
  forall acc, StronglySorted Z.le acc ->
    StronglySorted Z.le (fold_left (fun acc x => insert_asc x acc) l acc)
    /\ Permutation (l ++ acc) (fold_left (fun acc x => insert_asc x acc) l acc).
Proof.
  induction l as [|x l IH]; intros acc Hacc; simpl; [split; [assumption | reflexivity]|].
  destruct (IH (insert_asc x acc) (insert_asc_sorted x acc Hacc)) as [S P].
  split; [exact S|]. rewrite <- P, <- insert_asc_perm.
  apply Permutation_middle.
Qed.

Lemma sort_asc_sorted (l : list Z) : StronglySorted Z.le (sort_asc l).
Proof. apply sort_asc_from. constructor. Qed.

Lemma sort_asc_perm (l : list Z) : Permutation l (sort_asc l).
Proof.
  destruct (sort_asc_from l [] ltac:(constructor)) as [_ P].
  now rewrite app_nil_r in P.
Qed.

Lemma sort_asc_length (l : list Z) : List.length (sort_asc l) = List.length l.
Proof. symmetry. apply Permutation_length, sort_asc_perm. Qed.

(** ** The loop adds the contributions of the adjacent pairs *)

Lemma contribution_pair_bonus (distance : Z) :
  contribution distance =
  match pair_bonus distance with Some b => b | None => f0 end.
Proof. unfold contribution, pair_bonus. now destruct (distance <=? 100)%Z. Qed.

Lemma clustering_loop_spec (positions : list Z) :
  forall prev bonus, nonneg bonus = true ->
    clustering_loop prev positions bonus
    = fold_left (fun bonus ab => add bonus (contribution (snd ab - fst ab)))
                (combine (prev :: positions) positions) bonus.
Proof.
  induction positions as [|p positions IH]; intros prev bonus Hb; [reflexivity|].
  cbn [clustering_loop combine fold_left fst snd].
  rewrite contribution_pair_bonus.
  destruct (pair_bonus (p - prev)) as [b|] eqn:E.
  - apply IH. apply add_nonneg; [exact Hb | exact (pair_bonus_nonneg _ _ E)].
  - change f0 with zero. rewrite (add_zero_r _ Hb). now apply IH.
Qed.

Lemma clustering_bonus_eq (positions : list Z) (content_length : nat) :
  _calculate_clustering_bonus positions content_length = clustering_bonus positions.
Proof.
  unfold _calculate_clustering_bonus, clustering_bonus, adjacent.
  pose proof (sort_asc_length positions) as L.
  destruct (List.length positions <? 2)%nat eqn:E.
  - apply Nat.ltb_lt in E.
    destruct (sort_asc positions) as [|p0 [|p1 ps]]; [reflexivity | reflexivity|].
    simpl in L. lia.
  - destruct (sort_asc positions) as [|p0 ps]; [reflexivity|].
    now apply clustering_loop_spec.
Qed.

(** ** Distances *)

(** Adjacent positions of a sorted list are at a distance that is not
    negative. *)
Lemma adjacent_distance (l : list Z) (a b : Z) :
  StronglySorted Z.le l -> In (a, b) (adjacent l) -> (0 <= b - a)%Z.
Proof.
  unfold adjacent. induction 1 as [|x l Hl IH Hx]; simpl; [tauto|].
  destruct l as [|y l]; simpl; [tauto|].
  intros [E | H].
  - inversion E; subst. inversion Hx; subst. lia.
  - now apply IH.
Qed.

Lemma near_distances_in (d : Z) : (0 <= d <= 100)%Z -> In d near_distances.
Proof.
  intros H. unfold near_distances. apply in_map_iff. exists (Z.to_nat d).
  split; [lia|]. apply in_seq. lia.
Qed.

Lemma non_increasing_nth (l : list float) :
  non_increasing l = true ->
  forall i j, (i <= j < List.length l)%nat -> leb (nth j l f0) (nth i l f0) = true.
Proof.
  induction l as [|x l IH]; intros H i j Hij; [simpl in Hij; lia|].
  cbn [non_increasing] in H. apply andb_prop in H. destruct H as [H1 H2].
  destruct i as [|i].
  - rewrite forallb_forall in H1. apply H1. apply nth_In. lia.
  - destruct j as [|j]; [lia|]. simpl. apply IH; [exact H2 | simpl in Hij; lia].
Qed.

Lemma contribution_nth (d : Z) :
  (0 <= d <= 100)%Z ->
  nth (Z.to_nat d) (map contribution near_distances) f0 = contribution d.
Proof.
  intros H. unfold near_distances. rewrite map_map.
  rewrite (nth_indep _ f0 (contribution (Z.of_nat 0)))
    by (rewrite length_map, length_seq; lia).
  rewrite (map_nth (fun n => contribution (Z.of_nat n))), seq_nth by lia.
  f_equal. lia.
Qed.

Lemma non_increasing_near : non_increasing (map contribution near_distances) = true.
Proof. vm_compute. reflexivity. Qed.

Lemma contribution_non_increasing (d1 d2 : Z) :
  (0 <= d1)%Z -> (d1 <= d2)%Z -> (d2 <= 100)%Z ->
  leb (contribution d2) (contribution d1) = true.
Proof.
  intros H0 H1 H2.
  rewrite <- (contribution_nth d1), <- (contribution_nth d2) by lia.
  apply non_increasing_nth; [exact non_increasing_near|].
  unfold near_distances. rewrite !length_map, length_seq. lia.
Qed.

Lemma contribution_far (d : Z) : (100 < d)%Z -> pair_bonus d = None /\ contribution d = f0.
Proof.
  intros H. unfold pair_bonus, contribution.
  destruct (d <=? 100)%Z eqn:E; [apply Z.leb_le in E; lia | split; reflexivity].
Qed.

End ClusteringFacts.

Set Implicit Arguments.
(** * The suggestions *)

Unset Implicit Arguments.

Module SuggestionFacts.
Import PyFloat PyFloatSpec PyFloatArith PyFloatBounds PyFloatOps TopicClassifier ClassifierSpec ClassifierFacts.

(** ** Keys of a dictionary *)

Lemma eqb_eq (x y : str) : PyStr.eqb x y = true <-> x = y.
Proof. unfold PyStr.eqb. destruct (list_eq_dec ascii_dec x y); split; congruence. Qed.

Lemma get_in {V : Type} (k : str) (v : V) (d : Dict.dict V) :
  Dict.get k d = Some v -> In (k, v) d.
Proof.
  induction d as [|[k' v'] d IH]; simpl; [discriminate|].
  destruct (PyStr.eqb k' k) eqn:E.
  - apply eqb_eq in E. intros H. left. congruence.
  - auto.
Qed.

Lemma get_none {V : Type} (k : str) (d : Dict.dict V) :
  Dict.get k d = None <-> ~ In k (keys d).
Proof.
  induction d as [|[k' v'] d IH]; simpl; [tauto|].
  destruct (PyStr.eqb k' k) eqn:E.
  - apply eqb_eq in E. split; [discriminate | tauto].
  - assert (k' <> k) by (intros H; apply eqb_eq in H; congruence). tauto.
Qed.

Lemma in_get {V : Type} (k : str) (v : V) (d : Dict.dict V) :
  NoDup (keys d) -> In (k, v) d -> Dict.get k d = Some v.
Proof.
  induction d as [|[k' v'] d IH]; simpl; [tauto|].
  intros N H. inversion N as [|x l Hx Hl]; subst.
  destruct (PyStr.eqb k' k) eqn:E.
  - apply eqb_eq in E. subst k'. destruct H as [H | H]; [congruence|].
    exfalso. apply Hx. unfold keys. apply in_map_iff. now exists (k, v).
  - destruct H as [H | H]; [|auto].
    inversion H; subst. assert (k = k) by reflexivity. apply eqb_eq in H0. congruence.
Qed.

Lemma set_pairs {V : Type} (P : str * V -> Prop) (k : str) (v : V) (d : Dict.dict V) :
  Forall P d -> P (k, v) -> Forall P (Dict.set k v d).
Proof.
  intros Hd Hv. induction d as [|[k' v'] d IH]; simpl.
  - repeat constructor. exact Hv.
  - inversion Hd as [|kv d' Hv' Hd']; subst.
    destruct (PyStr.eqb k' k) eqn:E.
    + apply eqb_eq in E. subst k'. now constructor.
    + constructor; auto.
Qed.

Lemma set_keys {V : Type} (k : str) (v : V) (d : Dict.dict V) :
  (In k (keys d) /\ keys (Dict.set k v d) = keys d)
  \/ (~ In k (keys d) /\ keys (Dict.set k v d) = keys d ++ [k]).
Proof.
  induction d as [|[k' v'] d IH]; simpl; [now right|].
  destruct (PyStr.eqb k' k) eqn:E.
  - apply eqb_eq in E. left. simpl. auto.
  - assert (k' <> k) by (intros H; apply eqb_eq in H; congruence).
    simpl. destruct IH as [[H1 H2] | [H1 H2]]; [left | right]; rewrite H2; tauto.
Qed.

Lemma set_keys_in {V : Type} (k : str) (v : V) (d : Dict.dict V) (k' : str) :
  In k' (keys (Dict.set k v d)) <-> k' = k \/ In k' (keys d).
Proof.
  destruct (set_keys k v d) as [[H1 H2] | [H1 H2]]; rewrite H2.
  - split; [tauto | intros [-> | H]; assumption].
  - rewrite in_app_iff. simpl. intuition auto.
Qed.

Lemma set_keys_nodup {V : Type} (k : str) (v : V) (d : Dict.dict V) :
  NoDup (keys d) -> NoDup (keys (Dict.set k v d)).
Proof.
  intros N. destruct (set_keys k v d) as [[H1 H2] | [H1 H2]]; rewrite H2; [exact N|].
  apply NoDup_app; [exact N | repeat constructor; simpl; tauto|].
  intros x Hx [<- | []]. contradiction.
Qed.

(** What holds of the entries after [d[k] = v], from what held before of
    the entries of the other keys. *)
Lemma set_others {V : Type} (P Q : str * V -> Prop) (k : str) (v : V) (d : Dict.dict V) :
  NoDup (keys d) -> Forall P d ->
  (forall kv, P kv -> fst kv <> k -> Q kv) -> Q (k, v) ->
  Forall Q (Dict.set k v d).
Proof.
  intros N Hd HPQ Hv. induction d as [|[k' v'] d IH]; simpl.
  - repeat constructor. exact Hv.
  - inversion Hd as [|kv d' Hv' Hd']; subst. inversion N as [|x l Hx Hl]; subst.
    destruct (PyStr.eqb k' k) eqn:E.
    + apply eqb_eq in E. subst k'. constructor; [exact Hv|].
      rewrite Forall_forall in *. intros kv Hkv. apply HPQ; [auto|].
      intros <-. apply Hx. unfold keys. apply in_map. exact Hkv.
    + constructor; [|auto]. apply HPQ; [exact Hv'|]. simpl.
      intros H. apply eqb_eq in H. congruence.
Qed.

(** ** The combined scores *)

Lemma score_in_nonneg (scores : Dict.dict score_entry) (category : str) :
  scores_nonneg scores -> nonneg (score_in scores category) = true.
Proof.
  intros H. unfold score_in.
  destruct (Dict.get category scores) as [data|] eqn:E; [|reflexivity].
  exact (get_all _ _ _ _ H E).
Qed.

Lemma times_0_6_nonneg (x : float) : nonneg x = true -> nonneg (mul x f0_6) = true.
Proof.
  change f0_6 with (S754_finite false 5404319552844595 (-53)). apply mul_nonneg_fin.
Qed.

Lemma times_0_8_nonneg (x : float) : nonneg x = true -> nonneg (mul x f0_8) = true.
Proof.
  change f0_8 with (S754_finite false 7205759403792794 (-53)). apply mul_nonneg_fin.
Qed.

Section Combine.
Variables description_scores content_scores : Dict.dict score_entry.
Hypothesis description_keys : NoDup (keys description_scores).
Hypothesis content_keys : NoDup (keys content_scores).
Hypothesis description_nonneg : scores_nonneg description_scores.
Hypothesis content_nonneg : scores_nonneg content_scores.

Local Abbreviation dsc := (score_in description_scores).
Local Abbreviation csc := (score_in content_scores).
Local Abbreviation total := (ClassifierSpec.total description_scores content_scores).
Local Abbreviation fresh := (ClassifierSpec.fresh description_scores).
Local Abbreviation settled := (ClassifierSpec.settled description_scores content_scores).
Local Abbreviation pending := (ClassifierSpec.pending description_scores content_scores).

Lemma add_description_fresh (scores : Dict.dict score_entry) :
  forall cs,
    (forall k data, In (k, data) scores -> Dict.get k description_scores = Some data) ->
    Forall fresh cs ->
    Forall fresh (add_description_scores scores cs)
    /\ forall k, In k (keys scores) \/ In k (keys cs) ->
         In k (keys (add_description_scores scores cs)).
Proof.
  induction scores as [|[category data] scores IH]; intros cs Hin Hcs.
  - split; [exact Hcs|]. simpl. tauto.
  - unfold add_description_scores. cbn [fold_left].
    fold (add_description_scores scores
            (Dict.set category (CombinedEntry (score data) f0 (mul (score data) f0_6)) cs)).
    assert (Hd : dsc category = score data).
    { unfold dsc, score_in. now rewrite (Hin category data (or_introl eq_refl)). }
    destruct (IH (Dict.set category (CombinedEntry (score data) f0 (mul (score data) f0_6)) cs))
      as [H1 H2].
    + intros k d Hk. apply Hin. now right.
    + apply set_pairs; [exact Hcs|]. unfold fresh. cbn [fst snd ce_description_score
        ce_content_score combined_score]. rewrite Hd. auto.
    + split; [exact H1|]. intros k Hk. apply H2.
      rewrite set_keys_in. simpl in Hk. intuition auto.
Qed.

Lemma fresh_settled (ke : str * combined_entry) :
  fresh ke -> ~ In (fst ke) (keys content_scores) -> settled ke.
Proof.
  intros (H1 & H2 & H3) Hk. unfold settled, total.
  assert (Hc : csc (fst ke) = f0).
  { unfold csc, score_in. apply get_none in Hk. now rewrite Hk. }
  rewrite Hc. split; [exact H1|]. split; [exact H2|].
  rewrite H3. change (mul f0 f0_8) with zero. symmetry. apply add_zero_r.
  apply times_0_6_nonneg, score_in_nonneg, description_nonneg.
Qed.

Lemma add_content_settled (scores : Dict.dict score_entry) :
  forall cs,
    NoDup (keys scores) ->
    (forall k data, In (k, data) scores -> Dict.get k content_scores = Some data) ->
    (forall k, In k (keys description_scores) -> In k (keys cs)) ->
    NoDup (keys cs) ->
    Forall (pending scores) cs ->
    Forall settled (add_content_scores scores cs).
Proof.
  induction scores as [|[category data] scores IH]; intros cs N Hin Hkeys Ncs Hcs.
  - simpl. eapply Forall_impl; [|exact Hcs].
    intros ke [[Hf Hk] | [Hs _]]; [|exact Hs].
    apply fresh_settled; [exact Hf|]. intros H. exact (Hk H).
  - unfold add_content_scores. cbn [fold_left].
    set (entry := match Dict.get category cs with
                  | Some old =>
                      CombinedEntry (ce_description_score old) (score data)
                        (add (combined_score old) (mul (score data) f0_8))
                  | None => CombinedEntry f0 (score data) (mul (score data) f0_8)
                  end).
    assert (Estep : match Dict.get category cs with
                    | Some old =>
                        Dict.set category
                          (CombinedEntry (ce_description_score old) (score data)
                             (add (combined_score old) (mul (score data) f0_8))) cs
                    | None =>
                        Dict.set category
                          (CombinedEntry f0 (score data) (mul (score data) f0_8)) cs
                    end = Dict.set category entry cs).
    { unfold entry. now destruct (Dict.get category cs). }
    rewrite Estep. fold (add_content_scores scores (Dict.set category entry cs)).
    inversion N as [|x l Hx Hl]; subst.
    assert (Hc : csc category = score data).
    { unfold csc, score_in. now rewrite (Hin category data (or_introl eq_refl)). }
    apply IH.
    + exact Hl.
    + intros k d Hk. apply Hin. now right.
    + intros k Hk. rewrite set_keys_in. right. now apply Hkeys.
    + now apply set_keys_nodup.
    + apply (set_others (pending ((category, data) :: scores))); [exact Ncs | exact Hcs | |].
      * intros ke [[Hf Hk] | [Hs Hk]] NE.
        -- left. split; [exact Hf|]. intros H. destruct (Hk H) as [H' | H']; [|exact H'].
           simpl in H'. congruence.
        -- right. split; [exact Hs|]. intros H. apply Hk. now right.
      * right. split; [|exact Hx]. unfold settled, total.
        cbn [fst snd]. rewrite Hc. unfold entry.
        destruct (Dict.get category cs) as [old|] eqn:G.
        -- apply get_in in G. rewrite Forall_forall in Hcs.
           destruct (Hcs _ G) as [[(F1 & F2 & F3) _] | [_ Hk]].
           ++ cbn [fst snd] in F1, F2, F3.
              cbn [ce_description_score ce_content_score combined_score].
              rewrite F3. auto.
           ++ exfalso. apply Hk. now left.
        -- cbn [ce_description_score ce_content_score combined_score].
           assert (Hd : dsc category = f0).
           { unfold dsc, score_in. apply get_none in G.
             assert (Hk : ~ In category (keys description_scores)) by (intros H; exact (G (Hkeys _ H))).
             apply get_none in Hk. now rewrite Hk. }
           rewrite Hd. split; [reflexivity|]. split; [reflexivity|].
           change (mul f0 f0_6) with zero. symmetry. apply add_zero_l.
           apply times_0_8_nonneg. rewrite <- Hc. apply score_in_nonneg, content_nonneg.
Qed.

Lemma add_description_nodup (scores : Dict.dict score_entry) :
  forall cs, NoDup (keys cs) -> NoDup (keys (add_description_scores scores cs)).
Proof.
  unfold add_description_scores.
  apply (fold_left_inv (fun cs : Dict.dict combined_entry => NoDup (keys cs))).
  intros cs [category data] N. now apply set_keys_nodup.
Qed.

(** Both loops, from the empty dictionary. *)
Lemma combined_scores_settled :
  Forall settled
    (add_content_scores content_scores (add_description_scores description_scores [])).
Proof.
  destruct (add_description_fresh description_scores [])
    as [H1 H2]; [intros k data; now apply in_get | constructor|].
  apply add_content_settled.
  - exact content_keys.
  - intros k data. now apply in_get.
  - intros k Hk. apply H2. now left.
  - apply add_description_nodup. constructor.
  - eapply Forall_impl; [|exact H1]. intros ke Hf. left. split; [exact Hf | tauto].
Qed.

End Combine.

(** ** [sort(key=..., reverse=True)] *)

Section SortDesc.
Variable A : Type.
Variable key : A -> float.

Local Abbreviation above := (ClassifierSpec.above A key).
Local Abbreviation plain_key := (ClassifierSpec.plain_key A key).

Lemma insert_desc_perm (x : A) (l : list A) : Permutation (x :: l) (insert_desc key x l).
Proof.
  induction l as [|y l IH]; simpl; [reflexivity|].
  destruct (gtb (key y) (key x)); [|reflexivity].
  rewrite perm_swap. now constructor.
Qed.

Lemma sort_desc_perm (l : list A) : Permutation l (sort_desc key l).
Proof.
  induction l as [|x l IH]; simpl; [reflexivity|].
  rewrite <- insert_desc_perm. now constructor.
Qed.

Lemma insert_desc_sorted (x : A) (l : list A) :
  plain_key x -> Forall plain_key l ->
  StronglySorted above l -> StronglySorted above (insert_desc key x l).
Proof.
  intros Hx Hl S. induction S as [|y l S IH Hy]; simpl.
  - repeat constructor.
  - inversion Hl as [|y' l' Py Pl]; subst.
    destruct (gtb (key y) (key x)) eqn:E.
    + unfold gtb in E. apply (ltb_value _ _ Hx Py) in E.
      constructor; [now apply IH|].
      apply (Permutation_Forall (insert_desc_perm x l)).
      constructor; [unfold above; lra | exact Hy].
    + assert (Hyx : (value (key y) <= value (key x))%R).
      { destruct (Rle_or_lt (value (key y)) (value (key x))) as [H | H]; [exact H|].
        apply (ltb_value _ _ Hx Py) in H. unfold gtb in E. congruence. }
      constructor; [now constructor|].
      constructor; [exact Hyx|]. rewrite Forall_forall in *. intros z Hz.
      specialize (Hy z Hz). unfold above in *. lra.
Qed.

Lemma sort_desc_sorted (l : list A) :
  Forall plain_key l -> StronglySorted above (sort_desc key l).
Proof.
  induction 1 as [|x l Hx Hl IH]; simpl; [constructor|].
  apply insert_desc_sorted; [exact Hx | | exact IH].
  exact (Permutation_Forall (sort_desc_perm l) Hl).
Qed.

Lemma firstn_in (n : nat) (l : list A) (x : A) : In x (firstn n l) -> In x l.
Proof.
  intros H. rewrite <- (firstn_skipn n l). apply in_or_app. now left.
Qed.

Lemma firstn_sorted (R : A -> A -> Prop) (n : nat) (l : list A) :
  StronglySorted R l -> StronglySorted R (firstn n l).
Proof.
  intros S. revert n. induction S as [|x l S IH Hx]; intros [|n]; simpl; try constructor.
  - apply IH.
  - rewrite Forall_forall in *. intros y Hy. apply Hx. exact (firstn_in _ _ _ Hy).
Qed.

Lemma firstn_all (P : A -> Prop) (n : nat) (l : list A) :
  Forall P l -> Forall P (firstn n l).
Proof.
  rewrite !Forall_forall. intros H x Hx. apply H. exact (firstn_in _ _ _ Hx).
Qed.

Lemma sorted_leb (l : list A) :
  Forall plain_key l -> StronglySorted above l ->
  StronglySorted (fun a b => leb (key b) (key a) = true) l.
Proof.
  intros Hl S. induction S as [|x l S IH Hx]; [constructor|].
  inversion Hl as [|x' l' Px Pl]; subst. constructor; [now apply IH|].
  rewrite Forall_forall in *. intros y Hy.
  apply leb_value; [now apply Pl | exact Px | now apply Hx].
Qed.

End SortDesc.

(** ** The scores of the two classifications *)

Section WithCategories.
Variable categories : list (str * list str).

Lemma best_of_none (d : Dict.dict score_entry) : best_of d = None -> d = [].
Proof. destruct d; [reflexivity | discriminate]. Qed.

Lemma description_all_scores (description : str) :
  all_scores (classify_by_description categories description)
  = description_scores categories description.
Proof.
  unfold classify_by_description.
  destruct (best_of (description_scores categories description)) as [[c e]|] eqn:E;
    [reflexivity|].
  apply best_of_none in E. now rewrite E.
Qed.

Lemma content_all_scores (transcript_segment : str) :
  all_scores (classify_by_content categories transcript_segment) = []
  \/ all_scores (classify_by_content categories transcript_segment)
     = content_scores categories transcript_segment.
Proof.
  unfold classify_by_content.
  destruct (PyStr.strip transcript_segment); [now left|].
  destruct (best_of (content_scores categories transcript_segment)) as [[c e]|] eqn:E;
    [now right | now left].
Qed.

Lemma description_scores_keys (description : str) :
  NoDup (keys (description_scores categories description)).
Proof.
  unfold description_scores.
  apply (fold_left_inv (fun cs : Dict.dict score_entry => NoDup (keys cs))); [|constructor].
  intros cs [category keywords] N.
  destruct (PyStr.eqb category (lit "general")); [assumption|].
  destruct (gtb _ f0); [now apply set_keys_nodup | assumption].
Qed.

Lemma content_scores_keys (transcript_segment : str) :
  NoDup (keys (content_scores categories transcript_segment)).
Proof.
  unfold content_scores.
  apply (fold_left_inv (fun cs : Dict.dict score_entry => NoDup (keys cs))); [|constructor].
  intros cs [category keywords] N.
  destruct (PyStr.eqb category (lit "general")); [assumption|].
  destruct (content_entry _ _ _ _); [now apply set_keys_nodup | assumption].
Qed.

Lemma scores_ge_nonneg (scores : Dict.dict score_entry) :
  all_values (fun e => ge_bpow (score e) 0) scores -> scores_nonneg scores.
Proof.
  apply Forall_impl. intros kv H. exact (ge_bpow_nonneg _ _ H).
Qed.

Lemma suggestion_of_ok (by_description by_content : Dict.dict score_entry)
    (ke : str * combined_entry) :
  scores_nonneg by_description -> scores_nonneg by_content ->
  settled by_description by_content ke ->
  suggestion_ok by_description by_content (suggestion_of ke)
  /\ finite_nonneg (confidence (suggestion_of ke)) = true.
Proof.
  intros Hd Hc (H1 & H2 & H3). destruct ke as [k e]. cbn [fst snd] in *.
  unfold suggestion_ok, suggestion_of. cbn [category confidence description_score content_score].
  rewrite H3. unfold total. rewrite <- H1, <- H2.
  assert (Hn : nonneg (div (add (mul (ce_description_score e) f0_6)
                                (mul (ce_content_score e) f0_8)) f10) = true).
  { change f10 with (S754_finite false 5629499534213120 (-49)).
    apply div_nonneg_fin, add_nonneg.
    - apply times_0_6_nonneg. rewrite H1. now apply score_in_nonneg.
    - apply times_0_8_nonneg. rewrite H2. now apply score_in_nonneg. }
  rewrite f1_one. destruct (min_one_fin _ Hn) as [N L].
  pose proof (fin_le_finite _ _ L) as F. pose proof (fin_le_value _ _ L) as V.
  repeat split; try assumption.
  - apply leb_value; [reflexivity | exact F|]. simpl.
    destruct (min _ one) as [[]|[]| |[] m ex]; simpl; try lra.
    pose proof (value_pos m ex). lra.
  - apply leb_value; [exact F | reflexivity|]. simpl. rewrite one_value. exact V.
Qed.

Lemma suggestions_ok (description transcript_segment : str) :
  length_converts transcript_segment ->
  let by_description := all_scores (classify_by_description categories description) in
  let by_content := all_scores (classify_by_content categories transcript_segment) in
  Forall (fun s => suggestion_ok by_description by_content s
                   /\ finite_nonneg (confidence s) = true)
    (map suggestion_of
       (add_content_scores by_content (add_description_scores by_description []))).
Proof.
  intros Hlen by_description by_content.
  assert (Kd : NoDup (keys by_description)).
  { unfold by_description. rewrite description_all_scores. apply description_scores_keys. }
  assert (Nd : scores_nonneg by_description).
  { unfold by_description. rewrite description_all_scores.
    apply scores_ge_nonneg, description_scores_ok. }
  assert (Kc : NoDup (keys by_content) /\ scores_nonneg by_content).
  { unfold by_content.
    destruct (content_all_scores transcript_segment) as [-> | ->].
    - split; constructor.
    - split; [apply content_scores_keys|].
      apply scores_ge_nonneg, content_scores_ok, Hlen. }
  destruct Kc as [Kc Nc].
  apply Forall_map.
  eapply Forall_impl; [|exact (combined_scores_settled by_description by_content Kd Kc Nd Nc)].
  intros ke. now apply suggestion_of_ok.
Qed.

End WithCategories.

End SuggestionFacts.

Set Implicit Arguments.
(** * The combined confidence *)

Unset Implicit Arguments.

Module CombinedFacts.
Import PyFloat PyFloatSpec PyFloatArith PyFloatBounds PyFloatOps PyFloatMono.
Import TopicClassifier ClassifierSpec ClassifierFacts.
Local Open Scope R_scope.

Lemma f1_in_format : in_format f1.
Proof. rewrite f1_one. split; [reflexivity | vm_compute; discriminate]. Qed.

Lemma confident_finite (c : float) :
  confident c -> exists m e, c = S754_finite false m e /\ bpow (-4) <= mval (Zpos m) e <= 1.
Proof.
  intros [Hlo Hhi]. destruct c as [[]|[]| |[] m e]; try contradiction Hlo; try contradiction Hhi.
  exists m, e. simpl in Hlo, Hhi. auto.
Qed.

Lemma sub_confidence_plain (c : float) :
  c = f0 \/ confident c -> finite_nonneg c = true /\ 0 <= value c <= 1.
Proof.
  intros [-> | H].
  - split; [reflexivity | simpl; lra].
  - destruct (confident_finite c H) as (m & e & -> & Hlo & Hhi).
    split; [reflexivity|]. simpl. pose proof (bpow_pos (-4)). lra.
Qed.

(** The confidence of an agreement: from the smaller of the two
    confidences to 1. *)
Lemma agreement_boost (d c : float) :
  c = f0 \/ confident c -> d = f0 \/ confident d -> in_format d -> in_format c ->
  let combined := min (div (add d c) f1_5) f1 in
  leb (min d c) combined = true /\ leb f0 combined = true /\ leb combined f1 = true.
Proof.
  intros Hc Hd Fd Fc combined.
  destruct (sub_confidence_plain c Hc) as [Pc Vc].
  destruct (sub_confidence_plain d Hd) as [Pd Vd].
  assert (Hn : nonneg (div (add d c) f1_5) = true).
  { change f1_5 with (S754_finite false 6755399441055744 (-52)).
    apply div_nonneg_fin, add_nonneg.
    - destruct d as [[]|[]| |[] m e]; try discriminate Pd; reflexivity.
    - destruct c as [[]|[]| |[] m e]; try discriminate Pc; reflexivity. }
  destruct (min_one_fin _ Hn) as [N L]. rewrite <- f1_one in N, L. fold combined in N, L.
  pose proof (fin_le_finite _ _ L) as F. pose proof (fin_le_value _ _ L) as V.
  assert (V0 : 0 <= value combined).
  { destruct combined as [[]|[]| |[] m e]; simpl; try lra.
    pose proof (value_pos m e). lra. }
  destruct (min_cases d c Pd Pc) as (Hs & Sd & Sc).
  assert (Ps : finite_nonneg (min d c) = true) by (destruct Hs as [-> | ->]; assumption).
  split; [|split].
  - destruct Hd as [-> | Hd']; [|destruct Hc as [-> | Hc']].
    + apply leb_value; [exact Ps | exact F|]. simpl in Sd. lra.
    + apply leb_value; [exact Ps | exact F|]. simpl in Sc. lra.
    + (* both confidences are positive *)
      destruct (confident_finite d Hd') as (md & ed & Ed & Hd1 & Hd2).
      destruct (confident_finite c Hc') as (mc & ec & Ec & Hc1 & Hc2).
      assert (Hs' : exists ms es, min d c = S754_finite false ms es /\ bounded ms es).
      { destruct Hs as [-> | ->]; [exists md, ed | exists mc, ec]; subst; auto. }
      destruct Hs' as (ms & es & Es & Bs).
      rewrite Es in Sd, Sc. subst d c. simpl in Sd, Sc.
      apply ge_val_leb; [exact Ps | exact F|]. rewrite Es. simpl value.
      unfold combined. rewrite f1_one. apply min_one_ge_val; [|lra].
      assert (B2 : bounded ms (es + 1)) by (destruct Bs; split; [assumption | lia]).
      pose proof (add_low_val md ed mc ec ms (es + 1) B2) as Ha.
      assert (E2 : mval (Zpos ms) (es + 1) = 2 * mval (Zpos ms) es).
      { unfold mval. rewrite bpow_add. simpl (bpow 1). ring. }
      rewrite E2 in Ha. specialize (Ha ltac:(lra)).
      change f1_5 with (S754_finite false 6755399441055744 (-52)).
      destruct (add _ _) as [[]|[]| |[] ma ea]; try contradiction Ha.
      * exact I.
      * simpl in Ha. apply div_finite_val; [exact Bs|].
        assert (E15 : mval 6755399441055744 (-52) = 3 / 2).
        { change 6755399441055744%Z with (3 * 2 ^ 51)%Z.
          rewrite mval_shift by lia. unfold mval. simpl. lra. }
        rewrite E15. pose proof (value_pos ms es). lra.
  - apply leb_value; [reflexivity | exact F|]. simpl. exact V0.
  - apply leb_value; [exact F | reflexivity|]. simpl. rewrite one_value. exact V.
Qed.

(** The confidence of a disagreement is below the confidence it is taken
    from. *)
Lemma disagreement_penalty (x : float) : confident x -> ltb (mul x f0_7) x = true.
Proof.
  intros [Hlo Hhi]. rewrite f0_7_seven_tenths.
  apply (mul_seven_tenths_lt x (-4)); [unfold emin, prec, emax; lia | exact Hlo | exact Hhi].
Qed.

Section WithCategories.
Variable categories : list (str * list str).

Lemma description_in_format (description : str) :
  in_format (confidence_score (classify_by_description categories description)).
Proof.
  unfold classify_by_description.
  destruct (best_of (description_scores categories description)) as [[c e]|] eqn:E;
    [|exact I].
  cbn [confidence_score].
  pose proof (best_of_all _ _ _ _ (description_scores_ok categories description) E) as He.
  apply min_in_format; [|exact f1_in_format].
  change f5 with (S754_finite false 5629499534213120 (-50)).
  apply div_fin_in_format. exact (ge_bpow_nonneg _ _ He).
Qed.

Lemma content_in_format (transcript_segment : str) :
  length_converts transcript_segment ->
  in_format (confidence_score (classify_by_content categories transcript_segment)).
Proof.
  intros Hlen. unfold classify_by_content.
  destruct (PyStr.strip transcript_segment); [exact I|].
  destruct (best_of (content_scores categories transcript_segment)) as [[c e]|] eqn:E;
    [|exact I].
  cbn [confidence_score].
  pose proof (best_of_all _ _ _ _ (content_scores_ok categories _ Hlen) E) as He.
  apply min_in_format; [|exact f1_in_format].
  apply mul_in_format.
  - change f10 with (S754_finite false 5629499534213120 (-49)).
    apply div_nonneg_fin. exact (ge_bpow_nonneg _ _ He).
  - apply add_nonneg; [reflexivity|].
    change f0_1 with (S754_finite false 7205759403792794 (-56)).
    apply mul_nonneg_fin. apply of_ratio_nonneg. lia.
Qed.

(** When the two classifications disagree, the one the result is taken
    from is not a fallback, and its confidence is the larger one. *)
Lemma disagreement_higher (description transcript_segment : str) :
  length_converts transcript_segment ->
  let desc_result := classify_by_description categories description in
  let content_result := classify_by_content categories transcript_segment in
  let d := confidence_score desc_result in
  let c := confidence_score content_result in
  PyStr.eqb (primary_category desc_result) (primary_category content_result) = false ->
  let higher := if gtb d c then d else c in
  confident higher /\ leb d higher = true /\ leb c higher = true.
Proof.
  intros Hlen desc_result content_result d c Hne higher.
  pose proof (description_cases categories description) as Hd.
  pose proof (content_cases categories transcript_segment Hlen) as Hc.
  cbv zeta in Hd, Hc. fold desc_result in Hd. fold content_result in Hc. fold d in Hd. fold c in Hc.
  assert (Sd : d = f0 \/ confident d) by (destruct Hd as [[_ H] | H]; auto).
  assert (Sc : c = f0 \/ confident c) by (destruct Hc as [[_ H] | H]; auto).
  destruct (sub_confidence_plain d Sd) as [Pd Vd].
  destruct (sub_confidence_plain c Sc) as [Pc Vc].
  unfold higher. destruct (gtb d c) eqn:G.
  - unfold gtb in G. apply (ltb_value _ _ Pc Pd) in G.
    split; [|split].
    + destruct Sd as [E | H]; [|exact H]. rewrite E in G. simpl in G. lra.
    + apply leb_value; auto. lra.
    + apply leb_value; auto. lra.
  - assert (Hle : value d <= value c).
    { destruct (Rle_or_lt (value d) (value c)) as [H | H]; [exact H|].
      apply (ltb_value _ _ Pc Pd) in H. unfold gtb in G. congruence. }
    split; [|split].
    + destruct Hc as [[Hc1 Hc2] | H]; [|exact H].
      destruct Hd as [[Hd1 Hd2] | H].
      * rewrite Hd1, Hc1 in Hne. discriminate Hne.
      * destruct (confident_finite d H) as (m & e & E & Hlo & _).
        rewrite E in Hle. rewrite Hc2 in Hle. simpl in Hle.
        pose proof (bpow_pos (-4)). lra.
    + apply leb_value; auto.
    + apply leb_value; auto. lra.
Qed.

End WithCategories.

End CombinedFacts.

Set Implicit Arguments.

(** * The order of floats that are not negative *)

Unset Implicit Arguments.

Module PyFloatOrder.
Import PyFloat PyFloatSpec PyFloatOrderSpec PyFloatFacts PyFloatArith PyFloatBounds PyFloatOps PyFloatMono.
Local Open Scope R_scope.

Lemma le_ext_refl (x : float) : nonneg x = true -> le_ext x x.
Proof. destruct x as [[]|[]| |[] m e]; simpl; try discriminate; intros _; auto; lra. Qed.

Lemma le_ext_trans (x y z : float) :
  nonneg x = true -> nonneg y = true -> nonneg z = true ->
  le_ext x y -> le_ext y z -> le_ext x z.
Proof.
  destruct x as [[]|[]| |[] mx ex], y as [[]|[]| |[] my ey], z as [[]|[]| |[] mz ez];
    simpl; try discriminate; intros _ _ _; try tauto; lra.
Qed.

Lemma le_ext_total (x y : float) :
  nonneg x = true -> nonneg y = true -> le_ext x y \/ le_ext y x.
Proof.
  destruct x as [[]|[]| |[] mx ex], y as [[]|[]| |[] my ey];
    simpl; try discriminate; intros _ _; try tauto; lra.
Qed.

Lemma leb_le_ext (x y : float) :
  nonneg x = true -> nonneg y = true -> (leb x y = true <-> le_ext x y).
Proof.
  intros Hx Hy.
  destruct x as [[]|[]| |[] mx ex], y as [[]|[]| |[] my ey];
    try discriminate Hx; try discriminate Hy;
    try (simpl; split; [intros _; try exact I; lra | reflexivity]);
    try (unfold leb; simpl; split; [discriminate | tauto]).
  - unfold leb. simpl. pose proof (value_pos my ey). split; [lra | reflexivity].
  - unfold leb. simpl. pose proof (value_pos mx ex). split; [discriminate | lra].
  - apply leb_finite.
Qed.

Lemma ltb_le_ext (x y : float) :
  nonneg x = true -> nonneg y = true -> (ltb x y = true <-> ~ le_ext y x).
Proof.
  intros Hx Hy.
  destruct x as [[]|[]| |[] mx ex], y as [[]|[]| |[] my ey];
    try discriminate Hx; try discriminate Hy; unfold ltb; simpl.
  - split; [discriminate | lra].
  - split; [tauto | reflexivity].
  - pose proof (value_pos my ey). split; [lra | reflexivity].
  - split; [discriminate | tauto].
  - split; [discriminate | tauto].
  - split; [discriminate | tauto].
  - pose proof (value_pos mx ex). split; [discriminate | lra].
  - split; [tauto | reflexivity].
  - pose proof (compare_magnitude_spec mx ex my ey) as S.
    destruct (compare_magnitude mx ex my ey); split; intros; try lra; try reflexivity;
      discriminate.
Qed.

(** No comparison of two numbers that are not negative is undefined. *)
Lemma compare_nonneg (x y : float) :
  nonneg x = true -> nonneg y = true -> exists c, compare x y = Some c.
Proof.
  destruct x as [[]|[]| |[] mx ex], y as [[]|[]| |[] my ey];
    simpl; try discriminate; intros _ _; eauto.
Qed.

Lemma ltb_or_leb (x y : float) :
  nonneg x = true -> nonneg y = true -> ltb x y = true \/ leb y x = true.
Proof.
  intros Hx Hy. destruct (compare_nonneg x y Hx Hy) as [c Hc].
  unfold ltb, leb. rewrite (compare_swap x y), Hc. destruct c; simpl; auto.
Qed.

Lemma leb_false_ltb (x y : float) :
  nonneg x = true -> nonneg y = true -> leb y x = false -> ltb x y = true.
Proof.
  intros Hx Hy H. destruct (ltb_or_leb x y Hx Hy) as [L | L]; [exact L | congruence].
Qed.

Lemma ltb_false_leb (x y : float) :
  nonneg x = true -> nonneg y = true -> ltb x y = false -> leb y x = true.
Proof.
  intros Hx Hy H. destruct (ltb_or_leb x y Hx Hy) as [L | L]; [congruence | exact L].
Qed.

Lemma leb_refl (x : float) : nonneg x = true -> leb x x = true.
Proof. intros H. apply leb_le_ext; auto. now apply le_ext_refl. Qed.

Lemma leb_trans (x y z : float) :
  nonneg x = true -> nonneg y = true -> nonneg z = true ->
  leb x y = true -> leb y z = true -> leb x z = true.
Proof.
  intros Hx Hy Hz H1 H2. apply leb_le_ext; auto.
  apply (le_ext_trans x y z); auto; now apply leb_le_ext.
Qed.

Lemma ltb_leb_trans (x y z : float) :
  nonneg x = true -> nonneg y = true -> nonneg z = true ->
  ltb x y = true -> leb y z = true -> ltb x z = true.
Proof.
  intros Hx Hy Hz H1 H2. destruct (ltb_or_leb x z Hx Hz) as [L | L]; [exact L|].
  pose proof (leb_trans y z x Hy Hz Hx H2 L) as H3.
  apply leb_not_ltb in H3. congruence.
Qed.

Lemma ltb_leb (x y : float) : ltb x y = true -> leb x y = true.
Proof. unfold ltb, leb. destruct (compare x y) as [[]|]; congruence. Qed.

End PyFloatOrder.

Set Implicit Arguments.

(** * The estimated times of the lines *)

Unset Implicit Arguments.

Module EstimateFacts.
Import PyFloat PyFloatSpec PyFloatArith PyFloatBounds PyFloatOps PyStr PyNum LinesSpec.
Local Open Scope R_scope.

(** ** Upper bounds of rounded values *)

Lemma fin_le_weaken (x : float) (v v' : R) : fin_le x v -> v <= v' -> fin_le x v'.
Proof. destruct x as [[]|[]| |[] m e]; simpl; try tauto; intros; lra. Qed.

Lemma bpow_emin_le_1 : bpow (emin prec emax) <= 1.
Proof. change 1 with (bpow 0). apply bpow_le. unfold emin, prec, emax. lia. Qed.

(** The unit a positive number is truncated to is not above the number,
    unless it is the least unit. *)
Lemma step_e_small (p : positive) (e : Z) :
  bpow (step_e (Zpos p) e) <= mval (Zpos p) e + bpow (emin prec emax).
Proof.
  unfold step_e, fexp. simpl Zdigits2.
  destruct (digits_mval p e) as [Dlo _].
  assert (He : bpow e <= mval (Zpos p) e).
  { unfold mval. assert (1 <= IZR (Zpos p)) by (apply IZR_le; lia).
    pose proof (bpow_pos e). nra. }
  pose proof (bpow_pos (emin prec emax)) as Hmin.
  pose proof (value_pos p e) as Hpos.
  set (d := Zpos (digits2_pos p)) in *.
  destruct (Z.max_spec e (Z.max (d + e - prec) (emin prec emax))) as [[_ ->] | [_ ->]].
  - destruct (Z.max_spec (d + e - prec) (emin prec emax)) as [[_ ->] | [_ ->]].
    + lra.
    + assert (bpow (d + e - prec) <= bpow (d - 1 + e))
        by (apply bpow_le; unfold prec; lia).
      lra.
  - lra.
Qed.

(** The quotient the division core hands to the rounding is not above
    the exact quotient. *)
Lemma div_core_up (m1 m2 : positive) :
  let '(q, e', l) := SFdiv_core_binary prec emax (Zpos m1) 0 (Zpos m2) 0 in
  (0 <= q)%Z /\ (e' <= 0)%Z /\ mval q e' * IZR (Zpos m2) <= IZR (Zpos m1).
Proof.
  unfold SFdiv_core_binary. simpl Zdigits2.
  set (d1 := Z.pos (digits2_pos m1)). set (d2 := Z.pos (digits2_pos m2)).
  set (e' := Z.min (fexp prec emax (d1 + 0 - (d2 + 0))) (0 - 0)).
  set (s := (0 - 0 - e')%Z).
  assert (He' : (e' <= 0)%Z) by (unfold e'; lia).
  assert (Hs : (0 <= s)%Z) by (unfold s; lia).
  set (m' := match s with
             | 0%Z => Z.pos m1
             | Z.pos _ => Z.shiftl (Z.pos m1) s
             | Z.neg _ => 0%Z
             end).
  assert (Hm' : m' = (Z.pos m1 * 2 ^ s)%Z).
  { unfold m'. destruct s as [|p|p];
      [simpl; lia | now rewrite Z.shiftl_mul_pow2 by lia | lia]. }
  pose proof (Z_div_mod m' (Z.pos m2) ltac:(lia)) as Hdiv.
  destruct (Z.div_eucl m' (Z.pos m2)) as [q r] eqn:Ediv.
  destruct Hdiv as [Hq Hr].
  assert (Hq0 : (0 <= q)%Z).
  { assert (0 <= m')%Z by (rewrite Hm'; pose proof (Z.pow_pos_nonneg 2 s); lia). nia. }
  split; [exact Hq0|]. split; [exact He'|].
  assert (Hz : (q * Z.pos m2 <= Z.pos m1 * 2 ^ s)%Z) by lia.
  apply IZR_le in Hz. rewrite !mult_IZR, <- bpow_IZR in Hz by assumption.
  unfold mval.
  assert (E : bpow s * bpow e' = 1).
  { rewrite <- bpow_add. replace (s + e')%Z with 0%Z by (unfold s; lia). reflexivity. }
  pose proof (bpow_pos e') as Pe.
  assert (Hz' : IZR q * IZR (Z.pos m2) * bpow e' <= IZR (Z.pos m1) * bpow s * bpow e')
    by (apply Rmult_le_compat_r; lra).
  replace (IZR (Z.pos m1) * bpow s * bpow e') with (IZR (Z.pos m1) * (bpow s * bpow e'))
    in Hz' by ring.
  rewrite E in Hz'. lra.
Qed.

(** A quotient of at most 1 is rounded to a finite number. *)
Lemma of_ratio_le (n : Z) (d : positive) :
  (0 <= n <= Zpos d)%Z -> fin_le (of_ratio n d) 3.
Proof.
  intros H. destruct n as [|m|m]; [simpl; lra | | lia].
  unfold of_ratio. pose proof (div_core_up m d) as C.
  destruct (SFdiv_core_binary prec emax (Z.pos m) 0 (Z.pos d) 0) as [[q e'] l].
  destruct C as (Hq & He & Hv).
  assert (Hd : 0 < IZR (Zpos d)) by (apply IZR_lt; lia).
  assert (Hm : IZR (Zpos m) <= IZR (Zpos d)) by (apply IZR_le; lia).
  assert (Hv1 : mval q e' <= 1) by nra.
  pose proof bpow_emin_le_1 as Hmin.
  assert (Hu : bpow (step_e q e') <= 2).
  { destruct q as [|p|p]; [| |lia].
    - unfold step_e, fexp. simpl Zdigits2.
      apply Rle_trans with (bpow 0); [|simpl; lra].
      apply bpow_le. unfold emin, prec, emax. lia.
    - pose proof (step_e_small p e'). lra. }
  apply fin_le_weaken with (mval q e' + bpow (step_e q e')); [|lra].
  apply (bra_up q e' 2); [exact Hq | unfold emax, prec; lia|].
  simpl bpow. lra.
Qed.

Lemma value_1800 : mval 7916483719987200 (-42) = 1800.
Proof.
  change 7916483719987200%Z with (1800 * 2 ^ 42)%Z.
  rewrite mval_shift by lia. unfold mval. simpl. lra.
Qed.

(** The estimated time of a line is a finite number, not negative. *)
Lemma estimated_time_finite (i total : nat) :
  (i < total)%nat -> finite_nonneg (estimated_time i total) = true.
Proof.
  intros H. unfold estimated_time.
  assert (L : fin_le (of_ratio (Z.of_nat i) (Pos.of_nat total)) 3).
  { apply of_ratio_le.
    rewrite <- positive_nat_Z, Nat2Pos.id by lia. lia. }
  change (of_Z 1800) with (S754_finite false 7916483719987200 (-42)).
  destruct (of_ratio (Z.of_nat i) (Pos.of_nat total)) as [[]|[]| |[] mx ex];
    try contradiction L; [reflexivity|].
  simpl in L. rewrite mul_finite.
  set (m := Z.pos (mx * 7916483719987200)). set (e := (ex + -42)%Z).
  assert (Ev : mval m e = mval (Z.pos mx) ex * 1800).
  { rewrite <- value_1800. unfold mval, m, e.
    rewrite Pos2Z.inj_mul, mult_IZR, bpow_add. ring. }
  pose proof (step_e_small (mx * 7916483719987200) e) as Hu. fold m in Hu.
  pose proof bpow_emin_le_1 as Hmin.
  pose proof (value_pos mx ex) as Hp.
  apply (fin_le_finite _ (mval m e + bpow (step_e m e))).
  apply (bra_up m e 14); [unfold m; lia | unfold emax, prec; lia|].
  simpl bpow. lra.
Qed.

(** ** The digits of a formatted number *)

Lemma digit_is_digit (r : N) : (r < 10)%N -> is_digit (ascii_of_N (48 + r)) = true.
Proof.
  intros H. unfold is_digit, between, code. rewrite N_ascii_embedding by lia.
  apply andb_true_intro. split; apply N.leb_le; lia.
Qed.

Lemma digits_of_digits (fuel : nat) :
  forall n acc,
    forallb is_digit acc = true -> forallb is_digit (digits_of fuel n acc) = true.
Proof.
  induction fuel as [|fuel IH]; intros n acc H; cbn [digits_of]; [exact H|].
  assert (H' : forallb is_digit (ascii_of_N (48 + n mod 10) :: acc) = true).
  { cbn [forallb]. rewrite H, digit_is_digit; [reflexivity|]. apply N.mod_lt. lia. }
  destruct (n <? 10)%N; [exact H' | now apply IH].
Qed.

Lemma digits_of_nonempty (fuel : nat) :
  forall n acc, acc <> [] -> digits_of fuel n acc <> [].
Proof.
  induction fuel as [|fuel IH]; intros n acc H; cbn [digits_of]; [exact H|].
  destruct (n <? 10)%N; [discriminate | apply IH; discriminate].
Qed.

Lemma str_of_N_digits (n : N) :
  forallb is_digit (str_of_N n) = true /\ str_of_N n <> [].
Proof.
  unfold str_of_N. split; [now apply digits_of_digits|].
  cbn [digits_of]. destruct (n <? 10)%N; [discriminate|].
  apply digits_of_nonempty. discriminate.
Qed.

Lemma fixed_0_digits (v : Z) :
  (0 <= v)%Z -> forallb is_digit (fixed 0 false v) = true /\ fixed 0 false v <> [].
Proof.
  intros H. unfold fixed. cbn [app Z.of_nat]. rewrite app_nil_r.
  change (10 ^ 0)%Z with 1%Z. rewrite Z.div_1_r.
  destruct v as [|p|p]; [| |lia]; unfold str_of_Z; apply str_of_N_digits.
Qed.

Lemma round_half_even_nonneg (n d : Z) :
  (0 <= n)%Z -> (0 < d)%Z -> (0 <= round_half_even n d)%Z.
Proof.
  intros Hn Hd. unfold round_half_even.
  assert (0 <= n / d)%Z by (apply Z.div_pos; lia).
  destruct (2 * (n mod d) ?= d)%Z; [destruct (Z.even (n / d))| |]; lia.
Qed.

(** [format(x, '.0f')] of a finite number that is not negative is a run
    of digits. *)
Lemma format_f_0_digits (x : float) :
  finite_nonneg x = true ->
  forallb is_digit (format_f 0 x) = true /\ format_f 0 x <> [].
Proof.
  destruct x as [[]|[]| |[] m e]; try discriminate; intros _; unfold format_f.
  - now apply fixed_0_digits.
  - apply fixed_0_digits. cbn [Z.of_nat]. change (10 ^ 0)%Z with 1%Z.
    destruct e as [|k|k].
    + lia.
    + pose proof (Z.pow_pos_nonneg 2 (Z.pos k)). nia.
    + apply round_half_even_nonneg; [lia | apply Z.pow_pos_nonneg; lia].
Qed.

End EstimateFacts.

Set Implicit Arguments.

(** * Timestamps that are returned *)

Unset Implicit Arguments.

Module TimestampFacts.
Import Re PyStr PyNum Eff ClipFinder ReSpec ClipFinderSpec ReFacts ClipFinderFacts.
Import PyFloat PyFloatSpec PyFloatOrderSpec PyFloatFacts PyFloatArith PyFloatBounds.
Import PyFloatOps PyFloatMono PyFloatOrder.

(** ** The value of a literal *)

Lemma digit_code (c : ascii) : is_digit c = true -> (0 <= Z.of_N (code c) - 48)%Z.
Proof.
  unfold is_digit, between. intros H. apply andb_prop in H. destruct H as [H _].
  apply N.leb_le in H. lia.
Qed.

Lemma digits_value_nonneg (ds : str) :
  forallb is_digit ds = true -> (0 <= digits_value ds)%Z.
Proof.
  unfold digits_value.
  assert (G : forall acc, (0 <= acc)%Z -> forallb is_digit ds = true ->
            (0 <= fold_left (fun acc c => 10 * acc + (Z.of_N (code c) - 48)) ds acc)%Z).
  { induction ds as [|c ds IH]; intros acc Ha H; cbn [fold_left]; [exact Ha|].
    cbn [forallb] in H. apply andb_prop in H. destruct H as [Hc Hds].
    apply IH; [|exact Hds]. pose proof (digit_code c Hc). lia. }
  apply G. lia.
Qed.

Lemma of_ratio_in_format (n : Z) (d : positive) : (0 <= n)%Z -> in_format (of_ratio n d).
Proof.
  intros H. destruct n as [|m|m]; [exact I | | lia].
  unfold of_ratio. pose proof (div_core_low m 0 d 0) as H0.
  destruct (SFdiv_core_binary prec emax (Z.pos m) 0 (Z.pos d) 0) as [[q e'] l].
  destruct H0 as [Hq _]. now apply bra_in_format.
Qed.

(** The value of an unsigned literal is not negative, is no NaN, and is a
    number of the format. *)
Lemma float_of_str_plain (s : str) (x : float) :
  float_of_str s = Some x -> nonneg x = true /\ in_format x.
Proof.
  unfold float_of_str. destruct (span is_digit s) as [ip r] eqn:Hs.
  apply span_spec in Hs. destruct Hs as (-> & Hip & Hr).
  destruct ip as [|c ip]; [discriminate|].
  pose proof (digits_value_nonneg _ Hip) as Hv.
  destruct r as [|d fr].
  - intros E. inversion E; subst. split; [now apply of_ratio_nonneg | now apply of_ratio_in_format].
  - destruct (Ascii.eqb d "."); [|discriminate].
    destruct (span is_digit fr) as [fp r'] eqn:Hf.
    apply span_spec in Hf. destruct Hf as (-> & Hfp & _).
    destruct r'; [|discriminate].
    intros E. inversion E; subst.
    assert (Hv' : (0 <= digits_value ((c :: ip) ++ fp))%Z).
    { apply digits_value_nonneg. rewrite forallb_app. now rewrite Hip, Hfp. }
    split; [now apply of_ratio_nonneg | now apply of_ratio_in_format].
Qed.

(** ** Subtraction *)

(** The difference of a number and a smaller one, both of the format and
    not negative, is positive. *)
Lemma sub_pos (x y : float) :
  nonneg x = true -> nonneg y = true -> in_format x -> in_format y ->
  ltb x y = true -> ltb zero (sub y x) = true.
Proof.
  intros Hx Hy Fx Fy L.
  destruct x as [[]|[]| |[] mx ex], y as [[]|[]| |[] my ey];
    try discriminate Hx; try discriminate Hy; try discriminate L; try reflexivity.
  assert (Hv : (mval (Zpos mx) ex < mval (Zpos my) ey)%R).
  { apply (ltb_value (S754_finite false mx ex) (S754_finite false my ey)); auto. }
  unfold sub, SFsub. set (ez := Z.min ey ex).
  pose proof (shl_align_val mx ex ez) as Vx. pose proof (shl_align_val my ey ez) as Vy.
  rewrite shl_align_snd in Vx, Vy by (unfold ez; lia).
  simpl cond_Zopp.
  set (a := fst (shl_align my ey ez)) in *. set (b := fst (shl_align mx ex ez)) in *.
  assert (Hab : (Zpos b < Zpos a)%Z).
  { apply lt_IZR. rewrite <- Vx, <- Vy in Hv. unfold mval in Hv.
    pose proof (bpow_pos ez). nra. }
  destruct (Z.pos a - Z.pos b)%Z as [|p|p] eqn:E; try lia.
  unfold binary_normalize.
  assert (G : ge_bpow (binary_round prec emax false p ez) ez).
  { apply binary_round_low.
    - destruct Fx as [_ Fx], Fy as [_ Fy]. unfold ez. lia.
    - unfold mval. assert (1 <= IZR (Z.pos p))%R by (apply IZR_le; lia).
      pose proof (bpow_pos ez). nra. }
  destruct (binary_round prec emax false p ez) as [[]|[]| |[] mr er];
    try contradiction G; reflexivity.
Qed.

(** ** What the parse and the resolution return *)

Section Service.
Variable World : Type.
Variable create : request -> World -> World * (exn + str).
Variable config : Config.
Variable model : str.

Lemma parse_ordered (text : str) (s : store World) (x y : float) :
  outcome (_parse_timestamp_response text) s = inr (Some x, Some y) ->
  ltb x y = true
  /\ (nonneg x = true /\ in_format x) /\ (nonneg y = true /\ in_format y).
Proof.
  intros H. destruct (parse_cases text s) as (r & Hr & Hc).
  rewrite Hr in H. inversion H; subst r. clear H.
  destruct (strict_fields text) as [[a b]|].
  - destruct Hc as [[_ E] | (_ & _ & x' & y' & Hx & Hy & [[_ E] | [Hle E]])];
      try discriminate E.
    inversion E; subst x' y'.
    pose proof (float_of_str_plain _ _ Hx) as Px.
    pose proof (float_of_str_plain _ _ Hy) as Py.
    split; [|tauto]. apply leb_false_ltb; tauto.
  - destruct (loose_fields text) as [[a b]|]; [|discriminate Hc].
    destruct (float_of_str a) as [x'|] eqn:Hx; [|discriminate Hc].
    destruct (float_of_str b) as [y'|] eqn:Hy; [|discriminate Hc].
    destruct Hc as [[Hgt E] | [_ E]]; [|discriminate E].
    inversion E; subst x' y'.
    pose proof (float_of_str_plain _ _ Hx) as Px.
    pose proof (float_of_str_plain _ _ Hy) as Py.
    split; [exact Hgt | tauto].
Qed.

(** The resolution ends as the call of the service and the parse of its
    answer end. *)
Lemma find_clip_outcome (transcription clip_description : str) (s : store World) :
  let q := clip_request config model
             (_create_clip_finding_prompt config (prepared config transcription)
                clip_description) in
  outcome (find_clip_timestamps create config model transcription clip_description) s
  = match snd (create q (world s)) with
    | inl (APIError m) => inl (ClipExtractionError (lit "OpenAI API error: " ++ m))
    | inl e => inl (ClipExtractionError (lit "Clip finding failed: " ++ str_of_exn e))
    | inr text => outcome (_parse_timestamp_response text) s
    end.
Proof.
  intros q. unfold outcome, find_clip_timestamps, try_except, bind at 1.
  unfold log at 1. unfold bind at 1. rewrite prepare_eq.
  unfold bind at 1, call. cbn [world logs]. fold q.
  destruct (create q (world s)) as [w' o]. cbn [snd].
  destruct o as [e | text].
  - destruct e; reflexivity.
  - unfold bind at 1.
    destruct (parse_pure World text) as (r & l & Hp & Hv). rewrite !Hp.
    destruct Hv as [-> | (x & y & ->)]; [reflexivity|].
    unfold bind, log, ret.
    destruct (validate_clip_duration config (PyFloat.sub y x)); reflexivity.
Qed.

Lemma find_clip_ordered (transcription clip_description : str) (s : store World)
    (x y : float) :
  outcome (find_clip_timestamps create config model transcription clip_description) s
  = inr (Some x, Some y) ->
  ltb x y = true
  /\ (nonneg x = true /\ in_format x) /\ (nonneg y = true /\ in_format y).
Proof.
  intros H. pose proof (find_clip_outcome transcription clip_description s) as E.
  cbv zeta in E. rewrite E in H. clear E.
  destruct (snd (create _ (world s))) as [e | text].
  - destruct e; discriminate H.
  - exact (parse_ordered text s x y H).
Qed.

Lemma nonneg_leb_zero (x : float) : nonneg x = true -> leb zero x = true.
Proof. destruct x as [[]|[]| |[] m e]; simpl; try discriminate; reflexivity. Qed.

(** ** The items of a batch *)

Lemma nth_error_combine (A B : Type) (l : list A) (l' : list B) :
  forall k a b,
    nth_error (combine l l') k = Some (a, b) ->
    nth_error l k = Some a /\ nth_error l' k = Some b.
Proof.
  revert l'. induction l as [|x l IH]; intros [|y l'] [|k] a b H; simpl in *;
    try discriminate H.
  - inversion H; subst. auto.
  - now apply IH.
Qed.

(** Every item of a batch records the end of the resolution of its own
    description, from some store. *)
Lemma batch_items (transcription : str) (descs : list str) (s : store World)
    (results : list clip_result) (item : clip_result) :
  outcome (find_multiple_clips create config model transcription descs) s = inr results ->
  In item results ->
  exists d s_k,
    In d descs
    /\ item = item_of d (outcome (find_clip_timestamps create config model transcription d)
                           s_k).
Proof.
  rewrite batch_eq. intros E Hin. inversion E; subst results. clear E.
  unfold items in Hin. apply in_map_iff in Hin. destruct Hin as ([d [s_k o]] & <- & Hin).
  apply In_nth_error in Hin. destruct Hin as [k Hk].
  apply nth_error_combine in Hk. destruct Hk as [Hd Hr].
  exists d, s_k. split; [exact (nth_error_In _ _ Hd)|]. cbn [fst snd]. f_equal.
  eapply resolutions_nth; eassumption.
Qed.

Lemma truthy_above (x y : float) :
  nonneg x = true -> nonneg y = true -> ltb x y = true -> truthy y = true.
Proof.
  destruct x as [[]|[]| |[] mx ex], y as [[]|[]| |[] my ey];
    try discriminate; reflexivity.
Qed.

Lemma truthy_eqb (x : float) : truthy x = negb (PyFloat.eqb x zero).
Proof. reflexivity. Qed.

End Service.

End TimestampFacts.

Set Implicit Arguments.

(** * Lines, and the preparation of a transcription *)

Unset Implicit Arguments.

Module PrepareFacts.
Import Re PyStr PyNum Eff ClipFinder ClipFinderFacts LinesSpec.

(** ** [strip] *)

Lemma lstrip_nil (s : str) : lstrip s = [] <-> forallb is_space s = true.
Proof.
  induction s as [|c s IH]; simpl; [tauto|].
  destruct (is_space c); simpl; [exact IH | split; discriminate].
Qed.

Lemma lstrip_head (s : str) :
  match lstrip s with c :: _ => is_space c = false | [] => True end.
Proof.
  induction s as [|c s IH]; simpl; [exact I|].
  destruct (is_space c) eqn:E; [exact IH | exact E].
Qed.

Lemma forallb_rev (A : Type) (p : A -> bool) (l : list A) :
  forallb p (rev l) = forallb p l.
Proof.
  induction l as [|x l IH]; simpl; [reflexivity|].
  rewrite forallb_app, IH. simpl. rewrite andb_true_r. apply andb_comm.
Qed.

(** A string strips to nothing exactly when it is blank. *)
Lemma strip_nil (s : str) : strip s = [] <-> forallb is_space s = true.
Proof.
  unfold strip. split.
  - intros H. apply (f_equal (@rev ascii)) in H. rewrite rev_involutive in H.
    simpl in H. apply lstrip_nil in H. rewrite forallb_rev in H.
    pose proof (lstrip_head s) as Hh. destruct (lstrip s) as [|c l] eqn:E.
    + now apply lstrip_nil.
    + simpl in H. rewrite Hh in H. discriminate H.
  - intros H. apply lstrip_nil in H. now rewrite H.
Qed.

Lemma lstrip_all (p : ascii -> bool) (s : str) :
  forallb p s = true -> forallb p (lstrip s) = true.
Proof.
  induction s as [|c s IH]; simpl; [reflexivity|].
  intros H. apply andb_prop in H. destruct H as [Hc Hs].
  destruct (is_space c); [auto | simpl; now rewrite Hc, Hs].
Qed.

Lemma strip_all (p : ascii -> bool) (s : str) :
  forallb p s = true -> forallb p (strip s) = true.
Proof.
  intros H. unfold strip. rewrite forallb_rev. apply lstrip_all.
  rewrite forallb_rev. now apply lstrip_all.
Qed.

(** ** [split] and [join] *)

Lemma split_cons (sep : ascii) (s : str) : exists l ls, split sep s = l :: ls.
Proof.
  induction s as [|c s IH]; simpl; [eauto|].
  destruct (Ascii.eqb c sep); [eauto|].
  destruct IH as (l & ls & ->). eauto.
Qed.

(** No piece of a split holds the separator. *)
Lemma split_pieces (sep : ascii) (s : str) :
  Forall (fun l => forallb (other sep) l = true) (split sep s).
Proof.
  induction s as [|c s IH]; simpl; [repeat constructor|].
  destruct (Ascii.eqb c sep) eqn:E; [constructor; [reflexivity | exact IH]|].
  destruct (split_cons sep s) as (l & ls & Hs). rewrite Hs in *.
  inversion IH; subst. constructor; [|assumption].
  simpl. unfold other at 1. now rewrite E.
Qed.

Lemma join_cons (sep p q : str) (ps : list str) :
  join sep (p :: q :: ps) = p ++ sep ++ join sep (q :: ps).
Proof. reflexivity. Qed.

(** Joining the pieces of a split gives the string back. *)
Lemma join_split (sep : ascii) (s : str) : join [sep] (split sep s) = s.
Proof.
  induction s as [|c s IH]; [reflexivity|]. cbn [split].
  destruct (split_cons sep s) as (l & ls & Hs). rewrite Hs in *.
  destruct (Ascii.eqb c sep) eqn:E.
  - apply Ascii.eqb_eq in E. subst c. rewrite join_cons, IH. reflexivity.
  - destruct ls as [|l' ls].
    + simpl in *. now rewrite IH.
    + rewrite join_cons in *. rewrite <- IH. reflexivity.
Qed.

Lemma split_app_sep (sep : ascii) (l s : str) :
  forallb (other sep) l = true ->
  split sep (l ++ sep :: s) = l :: split sep s.
Proof.
  induction l as [|c l IH]; simpl; intros H.
  - now rewrite Ascii.eqb_refl.
  - apply andb_prop in H. destruct H as [Hc Hl]. unfold other in Hc.
    destruct (Ascii.eqb c sep); [discriminate Hc|]. now rewrite IH.
Qed.

Lemma split_one (sep : ascii) (l : str) :
  forallb (other sep) l = true -> split sep l = [l].
Proof.
  induction l as [|c l IH]; simpl; intros H; [reflexivity|].
  apply andb_prop in H. destruct H as [Hc Hl]. unfold other in Hc.
  destruct (Ascii.eqb c sep); [discriminate Hc|]. now rewrite IH.
Qed.

(** Splitting the join of pieces that do not hold the separator gives the
    pieces back, when there is at least one. *)
Lemma split_join (sep : ascii) (ls : list str) :
  ls <> [] ->
  Forall (fun l => forallb (other sep) l = true) ls ->
  split sep (join [sep] ls) = ls.
Proof.
  induction ls as [|l ls IH]; [congruence|].
  intros _ H. inversion H as [|l0 ls0 Hl Hls]; subst.
  destruct ls as [|l' ls].
  - simpl. now apply split_one.
  - rewrite join_cons.
    change ([sep] ++ join [sep] (l' :: ls)) with (sep :: join [sep] (l' :: ls)).
    rewrite split_app_sep by assumption. f_equal. apply IH; [discriminate | assumption].
Qed.

(** ** The characters of a formatted number *)

Lemma digit_char (r : N) : (r < 10)%N -> other newline (ascii_of_N (48 + r)) = true.
Proof.
  intros H. unfold other. apply negb_true_iff. apply Ascii.eqb_neq. intros E.
  apply (f_equal N_of_ascii) in E. rewrite N_ascii_embedding in E by lia.
  change (N_of_ascii newline) with 10%N in E. lia.
Qed.

Lemma digits_of_chars (fuel : nat) :
  forall n acc,
    forallb (other newline) acc = true ->
    forallb (other newline) (digits_of fuel n acc) = true.
Proof.
  induction fuel as [|fuel IH]; intros n acc H; cbn [digits_of]; [exact H|].
  assert (H' : forallb (other newline) (ascii_of_N (48 + n mod 10) :: acc) = true).
  { cbn [forallb]. rewrite H, digit_char; [reflexivity|]. apply N.mod_lt. lia. }
  destruct (n <? 10)%N; [exact H' | now apply IH].
Qed.

Lemma str_of_N_chars (n : N) : forallb (other newline) (str_of_N n) = true.
Proof. unfold str_of_N. now apply digits_of_chars. Qed.

Lemma str_of_Z_chars (n : Z) : forallb (other newline) (str_of_Z n) = true.
Proof.
  destruct n as [|q|q]; unfold str_of_Z; apply str_of_N_chars.
Qed.

Lemma fixed_0_chars (neg : bool) (v : Z) : forallb (other newline) (fixed 0 neg v) = true.
Proof.
  unfold fixed. rewrite !forallb_app, str_of_Z_chars. now destruct neg.
Qed.

(** [format(x, '.0f')] holds no newline. *)
Lemma format_f_0_chars (x : float) : forallb (other newline) (format_f 0 x) = true.
Proof.
  destruct x as [s|s| |s m e]; unfold format_f.
  - apply fixed_0_chars.
  - now destruct s.
  - reflexivity.
  - apply fixed_0_chars.
Qed.

(** ** Numbered lines *)

Lemma number_lines_length (lines : list str) :
  forall i total, List.length (number_lines i total lines) = List.length lines.
Proof. induction lines as [|l lines IH]; intros i total; simpl; auto. Qed.

Lemma number_lines_chars (lines : list str) :
  forall i total,
    Forall (fun l => forallb (other newline) l = true) lines ->
    Forall (fun l => forallb (other newline) l = true) (number_lines i total lines).
Proof.
  induction lines as [|l lines IH]; intros i total H; cbn [number_lines]; [constructor|].
  inversion H as [|l0 ls0 Hl Hls]; subst. constructor; [|now apply IH].
  pose proof (strip_all _ _ Hl) as Hs.
  destruct (strip l) as [|c s] eqn:E; [reflexivity|].
  rewrite !forallb_app, format_f_0_chars, Hs. reflexivity.
Qed.

Lemma number_lines_shape (lines : list str) :
  forall i total k line,
    i + List.length lines <= total ->
    nth_error lines k = Some line ->
    exists out,
      nth_error (number_lines i total lines) k = Some out
      /\ numbered_line (i + k) total line out.
Proof.
  induction lines as [|l lines IH]; intros i total k line L H; [now destruct k|].
  cbn [List.length] in L. cbn [number_lines]. destruct k as [|k].
  - cbn [nth_error] in H. inversion H; subst l. eexists. split; [reflexivity|].
    rewrite Nat.add_0_r. unfold numbered_line. destruct (strip line) as [|c s] eqn:E.
    + apply strip_nil in E. split; [reflexivity | congruence].
    + split.
      * intros B. apply strip_nil in B. congruence.
      * intros _. exists (format_f 0 (estimated_time i total)).
        split; [reflexivity|]. split; [reflexivity|].
        destruct (EstimateFacts.format_f_0_digits (estimated_time i total)) as [D N];
          [apply EstimateFacts.estimated_time_finite; lia | auto].
  - cbn [nth_error] in H |- *. replace (i + S k) with (S i + k) by lia.
    apply IH; [lia | exact H].
Qed.

(** The lines of a numbered text are the numbered lines of the text. *)
Lemma numbered_lines (text : str) :
  split newline (numbered text)
  = number_lines 0 (List.length (split newline text)) (split newline text).
Proof.
  unfold numbered. apply split_join.
  - destruct (split_cons newline text) as (l & ls & ->). discriminate.
  - apply number_lines_chars, split_pieces.
Qed.

(** ** Slices *)

Lemma clamp_in (n i : Z) : (0 <= i <= n)%Z -> clamp n i = Z.to_nat i.
Proof. intros H. unfold clamp. destruct (i <? 0)%Z eqn:E; [apply Z.ltb_lt in E; lia|]. f_equal. lia. Qed.

Lemma clamp_back (n i : Z) : (0 < i <= n)%Z -> clamp n (- i) = Z.to_nat (n - i).
Proof.
  intros H. unfold clamp. destruct (- i <? 0)%Z eqn:E; [|apply Z.ltb_ge in E; lia].
  f_equal. lia.
Qed.

Lemma slice_to_length (s : str) (j : Z) :
  (0 <= j <= Z.of_nat (List.length s))%Z -> List.length (slice_to s j) = Z.to_nat j.
Proof.
  intros H. unfold slice_to. rewrite clamp_in by assumption.
  rewrite length_firstn. lia.
Qed.

Lemma slice_from_back_length (s : str) (i : Z) :
  (0 < i <= Z.of_nat (List.length s))%Z -> List.length (slice_from s (- i)) = Z.to_nat i.
Proof.
  intros H. unfold slice_from. rewrite clamp_back by assumption.
  rewrite length_skipn. lia.
Qed.

Lemma slice_from_zero (s : str) : slice_from s (- 0) = s.
Proof.
  unfold slice_from. change (- 0)%Z with 0%Z. now rewrite clamp_in by lia.
Qed.

Lemma slice_length (s : str) (i j : Z) :
  (0 <= i <= j)%Z -> (j <= Z.of_nat (List.length s))%Z ->
  List.length (slice s i j) = Z.to_nat (j - i).
Proof.
  intros H1 H2. unfold slice. rewrite !clamp_in by lia.
  rewrite length_firstn, length_skipn. lia.
Qed.

Section Config.
Variable config : Config.

(** The length of a shortened transcription. *)
Lemma shortened_length (transcription : str) :
  let len := Z.of_nat (List.length transcription) in
  let part_size := (MAX_TRANSCRIPTION_LENGTH config / 3)%Z in
  (0 <= MAX_TRANSCRIPTION_LENGTH config < len)%Z ->
  Z.of_nat (List.length (shortened config transcription))
  = (2 * part_size + 51 + (if (part_size =? 0)%Z then len else part_size))%Z.
Proof.
  intros len part_size H. unfold shortened. fold len part_size.
  assert (Hp : (0 <= part_size /\ 3 * part_size <= MAX_TRANSCRIPTION_LENGTH config)%Z).
  { unfold part_size. split; [apply Z.div_pos; lia|].
    apply Z.mul_div_le. lia. }
  rewrite !length_app. cbn [List.length lit list_ascii_of_string].
  rewrite slice_to_length by (fold len; lia).
  assert (Hm : (0 <= len / 2 - part_size / 2)%Z).
  { assert (part_size / 2 <= len / 2)%Z by (apply Z.div_le_mono; lia). lia. }
  assert (Hm2 : (len / 2 - part_size / 2 + part_size <= len)%Z).
  { pose proof (Z.div_mod len 2 ltac:(lia)). pose proof (Z.mod_pos_bound len 2 ltac:(lia)).
    pose proof (Z.div_mod part_size 2 ltac:(lia)).
    pose proof (Z.mod_pos_bound part_size 2 ltac:(lia)).
    assert (part_size / 2 <= len / 2)%Z by (apply Z.div_le_mono; lia).
    destruct (Z.eq_dec (part_size / 2) (len / 2)); lia. }
  rewrite slice_length by (fold len; lia).
  destruct (part_size =? 0)%Z eqn:E.
  - apply Z.eqb_eq in E. rewrite E. rewrite slice_from_zero. fold len. lia.
  - apply Z.eqb_neq in E. rewrite slice_from_back_length by (fold len; lia). lia.
Qed.

End Config.

End PrepareFacts.

Set Implicit Arguments.

(** * Suggested improvements *)

Unset Implicit Arguments.

Module ImprovementFacts.
Import Re PyStr PyNum Eff ClipFinder ReSpec ClipFinderSpec ReFacts ClipFinderFacts.
Import LinesSpec TextSpec PrepareFacts.

(** ** Stripped text *)

Lemma lstrip_suffix (s : str) :
  exists pre, s = pre ++ lstrip s /\ forallb is_space pre = true.
Proof.
  induction s as [|c s IH]; simpl; [now exists []|].
  destruct (is_space c) eqn:E.
  - destruct IH as (pre & Hs & Hp). exists (c :: pre). simpl. rewrite E, Hp.
    split; [now rewrite <- Hs | reflexivity].
  - now exists [].
Qed.

Lemma last_head (A : Type) (pre l : list A) (c : A) (l' : list A) :
  rev l = c :: l' -> exists l'', rev (pre ++ l) = c :: l''.
Proof. intros H. rewrite rev_app_distr, H. simpl. eauto. Qed.

Lemma strip_trimmed (s : str) : trimmed (strip s).
Proof.
  unfold trimmed, strip. rewrite rev_involutive. split; [|apply lstrip_head].
  pose proof (lstrip_head s) as Hh.
  destruct (lstrip_suffix (rev (lstrip s))) as (pre & Hs & _).
  destruct (rev (lstrip (rev (lstrip s)))) as [|c t] eqn:E; [exact I|].
  apply (f_equal (@rev ascii)) in Hs. rewrite rev_involutive, rev_app_distr, E in Hs.
  simpl in Hs. rewrite Hs in Hh. exact Hh.
Qed.

(** Stripping a text that holds no newline after its first character
    leaves no newline. *)
Lemma strip_line (c : ascii) (l : str) :
  single_line l -> single_line (strip (c :: l)).
Proof.
  unfold single_line. intros H. unfold strip. rewrite forallb_rev. apply lstrip_all.
  rewrite forallb_rev. simpl. destruct (is_space c) eqn:E.
  - now apply lstrip_all.
  - simpl. rewrite H, andb_true_r. unfold other. apply negb_true_iff.
    apply Ascii.eqb_neq. intros ->. discriminate E.
Qed.

(** ** Lazy repetition stops at the first chance *)

Lemma star_lazy_first (p : class) (k : cont) (s : str) :
  forall b g res,
    star_lazy p k b s g = Some res ->
    exists l s',
      s = l ++ s' /\ forallb p l = true
      /\ k (State (rev l ++ b) s' g) = Some res
      /\ forall l1 x l2, l = l1 ++ x :: l2 ->
           k (State (rev l1 ++ b) (x :: l2 ++ s') g) = None.
Proof.
  induction s as [|c s IH]; intros b g res H.
  - simpl in H. destruct (k (State b [] g)) eqn:Hk; [|discriminate].
    exists [], []. split; [reflexivity|]. split; [reflexivity|].
    split; [simpl; congruence|]. intros [|? ?] x l2 E; discriminate E.
  - simpl in H. destruct (k (State b (c :: s) g)) eqn:Hk.
    + exists [], (c :: s). split; [reflexivity|]. split; [reflexivity|].
      split; [simpl; congruence|]. intros [|? ?] x l2 E; discriminate E.
    + destruct (p c) eqn:Hc; [|discriminate].
      destruct (IH _ _ _ H) as (l & s' & -> & Hl & Hr & Hmin).
      exists (c :: l), s'. split; [reflexivity|].
      split; [simpl; now rewrite Hc, Hl|].
      split; [simpl; now rewrite <- app_assoc|].
      intros [|y l1] x l2 E; simpl in E; inversion E; subst.
      * simpl. exact Hk.
      * simpl. rewrite <- app_assoc. simpl. now apply Hmin.
Qed.

Lemma newline_class (c : ascii) : char true newline c = Ascii.eqb c newline.
Proof. destruct c as [[] [] [] [] [] [] [] []]; reflexivity. Qed.

(** The tail [(.+?)(?=\n|$)] of a pattern: the group takes one character
    and then no newline. *)
Lemma run_line_tail (n : nat) (b s : str) (g : list (nat * str)) (res : state) :
  run (Group n (PlusLazy any) ;; Ahead (Alt (Chr (char true newline)) Eos))%re Some
      (State b s g) = Some res ->
  exists c l, groups res = (n, c :: l) :: g /\ single_line l.
Proof.
  intros H. cbn [run] in H. cbn [rest before groups] in H.
  destruct s as [|c s]; [discriminate|]. cbn [any] in H.
  apply star_lazy_first in H. destruct H as (l & s' & -> & _ & Hk & Hmin).
  exists c, l. split.
  - cbn [before rest groups] in Hk.
    destruct (match _ with Some m => Some m | None => _ end) as [st'|] eqn:Ha;
      [|discriminate].
    inversion Hk; subst res. cbn [groups].
    assert (Hg : groups st' = (n, consumed (State b (c :: l ++ s') g)
                                    (State (rev l ++ c :: b) s' g)) :: g).
    { destruct s' as [|x s'']; cbn [rest] in Ha.
      - cbn [at_end rest] in Ha. inversion Ha; reflexivity.
      - destruct (char true newline x).
        + inversion Ha; reflexivity.
        + destruct (at_end _); inversion Ha; reflexivity. }
    rewrite Hg. do 2 f_equal.
    change (c :: l ++ s') with ((c :: l) ++ s'). apply consumed_app.
  - unfold single_line. apply forallb_forall. intros x Hx.
    apply in_split in Hx. destruct Hx as (l1 & l2 & ->).
    specialize (Hmin l1 x l2 eq_refl). cbn [before rest groups run] in Hmin.
    unfold other. apply negb_true_iff. apply Ascii.eqb_neq. intros ->.
    cbn [rest] in Hmin. rewrite newline_class, Ascii.eqb_refl in Hmin. discriminate Hmin.
Qed.

(** ** The fields of an answer *)

Lemma run_seq (r1 r2 : regex) (k : cont) (st : state) :
  run (r1 ;; r2)%re k st = run r1 (run r2 k) st.
Proof. reflexivity. Qed.

Lemma search_reason (text : str) (m : match_object) :
  search reason_pattern text = Some m ->
  single_line (strip (group 1 m)).
Proof.
  intros H. apply search_at_sound in H. destruct H as (b & s & H).
  unfold reason_pattern in H. rewrite run_seq in H.
  apply run_sound in H. destruct H as (st1 & _ & H).
  rewrite run_seq in H.
  apply run_sound in H. destruct H as ([b2 s2 g2] & _ & H).
  apply run_line_tail in H. destruct H as (c & l & Hl & Hs).
  unfold group. rewrite Hl. cbn [lookup Nat.eqb]. now apply strip_line.
Qed.

Lemma search_confidence (text : str) (m : match_object) :
  search confidence_pattern text = Some m ->
  In (upper (group 1 m)) [lit "HIGH"; lit "MEDIUM"; lit "LOW"].
Proof.
  intros H. apply search_at_sound in H. destruct H as (b & s & H).
  apply run_sound in H. destruct H as (st' & R & E). inversion E; subst st'. clear E.
  unfold confidence_pattern in R.
  apply reach_seq_inv in R. destruct R as (st1 & _ & R).
  apply reach_seq_inv in R. destruct R as (st2 & _ & R).
  apply reach_group_inv in R. destruct R as (st3 & R & E).
  unfold group. rewrite E. cbn [groups lookup Nat.eqb].
  apply reach_alt_inv in R. destruct R as [R | R];
    [|apply reach_alt_inv in R; destruct R as [R | R]];
    apply reach_text in R; destruct R as (l & Hl & Hr);
    rewrite (consumed_read _ _ _ Hr);
    match type of Hl with
    | matches_text true ?w l = true => rewrite (@matches_upper w eq_refl l Hl)
    end; simpl; auto.
Qed.

(** What the field of the confidence captures reads HIGH, MEDIUM or LOW
    when the case of its letters is left aside. *)
Lemma search_confidence_word (text : str) (m : match_object) :
  search confidence_pattern text = Some m ->
  matches_text true (lit "HIGH") (group 1 m) = true
  \/ matches_text true (lit "MEDIUM") (group 1 m) = true
  \/ matches_text true (lit "LOW") (group 1 m) = true.
Proof.
  intros H. apply search_at_sound in H. destruct H as (b & s & H).
  apply run_sound in H. destruct H as (st' & R & E). inversion E; subst st'. clear E.
  unfold confidence_pattern in R.
  apply reach_seq_inv in R. destruct R as (st1 & _ & R).
  apply reach_seq_inv in R. destruct R as (st2 & _ & R).
  apply reach_group_inv in R. destruct R as (st3 & R & E).
  unfold group. rewrite E. cbn [groups lookup Nat.eqb].
  apply reach_alt_inv in R. destruct R as [R | R];
    [|apply reach_alt_inv in R; destruct R as [R | R]];
    apply reach_text in R; destruct R as (l & Hl & Hr);
    rewrite (consumed_read _ _ _ Hr); auto.
Qed.

(** A suggested boundary is the original one or the value of a literal. *)
Lemma suggested_cases (name : string) (text : str) (original : float) :
  let x := suggested (search (field name "KEEP_CURRENT") text) original in
  x = original \/ exists l, decimal l /\ float_of_str l = Some x.
Proof.
  unfold suggested.
  destruct (search (field name "KEEP_CURRENT") text) as [m|] eqn:E; [|now left].
  destruct (PyStr.eqb (upper (group 1 m)) (lit "KEEP_CURRENT")) eqn:K; [now left|].
  destruct (float_of_str (group 1 m)) as [x|] eqn:F; [|now left].
  right. exists (group 1 m). split; [|exact F].
  exact (@float_of_str_decimal _ _ F).
Qed.

Section Service.
Variable World : Type.

(** The parse ends in a dictionary, without a word in the log. *)
Lemma parse_improvement_eq (text : str) (original_start original_end : float)
    (s : store World) :
  _parse_improvement_response text original_start original_end s
  = (s, inr (Improvement
               (suggested (search suggested_start_pattern text) original_start)
               (suggested (search suggested_end_pattern text) original_end)
               (match search reason_pattern text with
                | Some m => strip (group 1 m)
                | None => lit "No specific improvements suggested"
                end)
               (match search confidence_pattern text with
                | Some m => upper (group 1 m)
                | None => lit "MEDIUM"
                end)
               (Some (PyFloat.neqb (suggested (search suggested_start_pattern text)
                                      original_start) original_start
                      || PyFloat.neqb (suggested (search suggested_end_pattern text)
                                         original_end) original_end)))).
Proof. reflexivity. Qed.

(** What the parse returns does not depend on the store. *)
Lemma parse_improvement_pure (text : str) (original_start original_end : float) :
  exists r,
    (forall s : store World,
       _parse_improvement_response text original_start original_end s = (s, inr r))
    /\ In (confidence r) [lit "HIGH"; lit "MEDIUM"; lit "LOW"]
    /\ changed r = Some (PyFloat.neqb (suggested_start r) original_start
                         || PyFloat.neqb (suggested_end r) original_end).
Proof.
  eexists. split; [intros s; apply parse_improvement_eq|].
  cbn [confidence changed suggested_start suggested_end]. split; [|reflexivity].
  destruct (search confidence_pattern text) as [m|] eqn:E.
  - exact (search_confidence _ _ E).
  - simpl. auto.
Qed.

End Service.

End ImprovementFacts.

Set Implicit Arguments.

(** * The topics of a transcription *)

Unset Implicit Arguments.

Module TopicExtractionFacts.
Import Re PyStr PyNum ReSpec ReFacts ClipFinderFacts.
Import LinesSpec TextSpec PrepareFacts ImprovementFacts TimestampFacts.
Import PyFloatSpec EffOf TopicExtraction.

(** ** Groups that a pattern leaves as they are *)

Lemma reach_chr_groups (p : class) st st' : reach (Chr p) st st' -> groups st' = groups st.
Proof. inversion 1; subst; reflexivity. Qed.

Lemma reach_star_groups (p : class) st st' : reach (Star p) st st' -> groups st' = groups st.
Proof. inversion 1; subst; reflexivity. Qed.

(** ** A match of the pattern of a topic *)

Lemma run_topic (b s : str) (res : state) :
  run topic_pattern Some (State b s []) = Some res ->
  exists l c d,
    decimal l /\ lookup 1 (groups res) = Some l
    /\ lookup 2 (groups res) = Some (c :: d) /\ single_line d.
Proof.
  intros H. unfold topic_pattern in H.
  rewrite run_seq in H. apply run_sound in H. destruct H as (s1 & _ & H).
  rewrite run_seq in H. apply run_sound in H. destruct H as (s2 & _ & H).
  rewrite run_seq in H. apply run_sound in H. destruct H as (s3 & _ & H).
  rewrite run_seq in H. apply run_sound in H. destruct H as (s4 & _ & H).
  rewrite run_seq in H. apply run_sound in H. destruct H as (s5 & _ & H).
  rewrite run_seq in H. apply run_sound in H. destruct H as (s6 & R6 & H).
  rewrite run_seq in H. apply run_sound in H. destruct H as (s7 & R7 & H).
  rewrite run_seq in H. apply run_sound in H. destruct H as (s8 & R8 & H).
  rewrite run_seq in H. apply run_sound in H. destruct H as (s9 & R9 & H).
  rewrite run_seq in H. apply run_sound in H. destruct H as (s10 & R10 & H).
  rewrite run_seq in H. apply run_sound in H. destruct H as (s11 & R11 & H).
  apply reach_group_inv in R6. destruct R6 as (s6' & R6 & E6).
  apply reach_number in R6. destruct R6 as (l & Hl & Hr).
  rewrite (consumed_read _ _ _ Hr) in E6.
  assert (G : groups s11 = (1, l) :: groups s6').
  { rewrite (reach_star_groups _ _ _ R11), (reach_chr_groups _ _ _ R10),
      (reach_star_groups _ _ _ R9), (reach_chr_groups _ _ _ R8),
      (reach_star_groups _ _ _ R7), E6. reflexivity. }
  destruct s11 as [b11 r11 g11]. cbn [groups] in G. subst g11.
  apply run_line_tail in H. destruct H as (c & d & Hg & Hd).
  exists l, c, d. rewrite Hg. cbn [lookup Nat.eqb]. auto.
Qed.

Lemma finditer_at_sound (r : regex) (fuel : nat) :
  forall b s m,
    In m (finditer_at fuel r b s) ->
    exists b' s', run r Some (State b' s' []) = Some (m_final m).
Proof.
  induction fuel as [|fuel IH]; intros b s m H; simpl in H; [destruct H|].
  destruct (search_at r b s) as [m0|] eqn:E; [|destruct H].
  destruct H as [<- | H].
  - eapply search_at_sound; exact E.
  - destruct (Nat.eqb (m_end m0) (m_start m0)).
    + destruct (rest (m_final m0)) as [|c s']; [destruct H|]. exact (IH _ _ _ H).
    + exact (IH _ _ _ H).
Qed.

(** What [re.findall] gives for the pattern of a topic: a literal and a
    text with no newline after its first character. *)
Lemma findall_topics (text : str) :
  Forall (fun match_ => decimal (fst match_)
                        /\ exists c d, snd match_ = c :: d /\ single_line d)
         (findall2 topic_pattern text).
Proof.
  unfold findall2. apply Forall_map. apply Forall_forall. intros m Hm.
  apply finditer_at_sound in Hm. destruct Hm as (b & s & H).
  apply run_topic in H. destruct H as (l & c & d & Hl & H1 & H2 & Hd).
  unfold group. rewrite H1, H2. cbn [fst snd]. eauto.
Qed.

(** ** The loop *)

Lemma topics_loop_ids (matches : list (str * str)) :
  forall topics,
    map topic_id topics = seq 1 (List.length topics) ->
    map topic_id (topics_loop matches topics)
    = seq 1 (List.length (topics_loop matches topics)).
Proof.
  induction matches as [|m matches IH]; intros topics H; cbn [topics_loop]; [exact H|].
  destruct (float_of_str (fst m)) as [ts|]; [|now apply IH].
  apply IH. rewrite map_app, length_app, H. cbn [map List.length topic_id].
  rewrite seq_app. f_equal. cbn [seq]. f_equal. lia.
Qed.

Lemma topics_loop_length (matches : list (str * str)) :
  Forall (fun match_ => decimal (fst match_)) matches ->
  forall topics,
    List.length (topics_loop matches topics) = List.length topics + List.length matches.
Proof.
  induction 1 as [|m matches Hm Hms IH]; intros topics; cbn [topics_loop List.length];
    [lia|].
  destruct (decimal_float_of_str Hm) as [ts ->].
  rewrite IH, length_app. simpl. lia.
Qed.

Lemma topics_loop_all (P : topic -> Prop) (matches : list (str * str)) :
  Forall (fun match_ =>
            forall ts n, float_of_str (fst match_) = Some ts ->
                         P (Topic ts (strip (snd match_)) n)) matches ->
  forall topics, Forall P topics -> Forall P (topics_loop matches topics).
Proof.
  induction 1 as [|m matches Hm Hms IH]; intros topics H; cbn [topics_loop]; [exact H|].
  destruct (float_of_str (fst m)) as [ts|] eqn:E; [|now apply IH].
  apply IH. apply Forall_app. split; [exact H|]. constructor; [|constructor].
  now apply Hm.
Qed.

End TopicExtractionFacts.

Set Implicit Arguments.

(** * Reading an answer in the format of the topics *)

Unset Implicit Arguments.

Module TopicFormatFacts.
Import Re PyStr PyNum ClipFinder ReSpec ReFacts ClipFinderFacts.
Import LinesSpec TextSpec PrepareFacts ImprovementFacts TimestampFacts.
Import EffOf TopicExtraction TopicExtractionFacts TopicFormatSpec.

(** ** Steps of the matcher *)

Lemma run_chr (p : class) (k : cont) (c : ascii) (b s : str) (g : list (nat * str)) :
  p c = true -> run (Chr p) k (State b (c :: s) g) = k (State (c :: b) s g).
Proof. intros H. cbn [run rest]. now rewrite H. Qed.

Lemma run_star_all (p : class) (k : cont) (l b s : str) (g : list (nat * str))
    (m : state) :
  forallb p l = true ->
  match s with c :: _ => p c = false | [] => True end ->
  k (State (rev l ++ b) s g) = Some m ->
  run (Star p) k (State b (l ++ s) g) = Some m.
Proof. intros Hl Hs Hk. cbn [run before rest groups]. now apply star_all. Qed.

Lemma run_plus_all (p : class) (k : cont) (c : ascii) (l b s : str)
    (g : list (nat * str)) (m : state) :
  p c = true -> forallb p l = true ->
  match s with c :: _ => p c = false | [] => True end ->
  k (State (rev l ++ c :: b) s g) = Some m ->
  run (Plus p) k (State b (c :: l ++ s) g) = Some m.
Proof.
  intros Hc Hl Hs Hk. cbn [run before rest groups]. rewrite Hc. now apply star_all.
Qed.

Lemma run_group (n : nat) (r : regex) (k : cont) (st : state) :
  run (Group n r) k st
  = run r (fun st' => k (State (before st') (rest st')
                               ((n, consumed st st') :: groups st'))) st.
Proof. reflexivity. Qed.

Lemma run_plus_lazy (p : class) (k : cont) (c : ascii) (b s : str)
    (g : list (nat * str)) :
  p c = true -> run (PlusLazy p) k (State b (c :: s) g) = star_lazy p k (c :: b) s g.
Proof. intros H. cbn [run rest before groups]. now rewrite H. Qed.

(** A lazy repetition stops where what follows the pattern accepts the
    position for the first time. *)
Lemma star_lazy_stop (p : class) (k : cont) (l : str) :
  forall (b s : str) (g : list (nat * str)) (m : state),
    forallb p l = true ->
    (forall l1 x l2, l = l1 ++ x :: l2 ->
       k (State (rev l1 ++ b) (x :: l2 ++ s) g) = None) ->
    k (State (rev l ++ b) s g) = Some m ->
    star_lazy p k b (l ++ s) g = Some m.
Proof.
  induction l as [|c l IH]; intros b s g m Hl Hn Hk.
  - cbn [app rev] in *. destruct s; cbn [star_lazy]; now rewrite Hk.
  - cbn [forallb] in Hl. apply andb_prop in Hl. destruct Hl as [Hc Hl].
    cbn [app star_lazy]. pose proof (Hn [] c l eq_refl) as H0. cbn [rev app] in H0.
    rewrite H0, Hc.
    apply IH; [exact Hl | |].
    + intros l1 x l2 E. specialize (Hn (c :: l1) x l2). cbn [rev app] in Hn.
      rewrite <- app_assoc in Hn. apply Hn. now rewrite E.
    + cbn [rev] in Hk. now rewrite <- app_assoc in Hk.
Qed.

Lemma run_line_end (k : cont) (b tail : str) (g : list (nat * str)) :
  line_end tail ->
  run (Ahead (Alt (Chr (char true newline)) Eos)) k (State b tail g)
  = k (State b tail g).
Proof.
  intros [-> | [more ->]]; cbn [run rest before groups at_end]; [reflexivity|].
  rewrite newline_class, Ascii.eqb_refl. reflexivity.
Qed.

Lemma run_not_line_end (k : cont) (b : str) (x : ascii) (s : str) (g : list (nat * str)) :
  other newline x = true ->
  run (Ahead (Alt (Chr (char true newline)) Eos)) k (State b (x :: s) g) = None.
Proof.
  intros H. unfold other in H. apply negb_true_iff in H.
  cbn [run rest before groups]. rewrite newline_class, H.
  unfold at_end. cbn [rest]. unfold newline in H. destruct s; [now rewrite H | reflexivity].
Qed.

(** A description up to the end of its line. *)
Lemma run_description (n : nat) (d b tail : str) (g : list (nat * str)) :
  d <> [] -> single_line d -> line_end tail ->
  run (Group n (PlusLazy any) ;; Ahead (Alt (Chr (char true newline)) Eos))%re Some
      (State b (d ++ tail) g)
  = Some (State (rev d ++ b) tail ((n, d) :: g)).
Proof.
  intros Hne Hd Ht. destruct d as [|c d]; [congruence|].
  unfold single_line in Hd. cbn [forallb] in Hd. apply andb_prop in Hd.
  destruct Hd as [_ Hd].
  rewrite run_seq, run_group. cbn [app]. rewrite run_plus_lazy by reflexivity.
  apply star_lazy_stop.
  - clear. induction d; [reflexivity | exact IHd].
  - intros l1 x l2 E. cbn [before rest groups].
    apply run_not_line_end. rewrite forallb_forall in Hd. apply Hd.
    rewrite E. apply in_or_app. right. now left.
  - cbn [before rest groups]. rewrite run_line_end by exact Ht.
    cbn [rev]. rewrite <- app_assoc. cbn [app]. do 3 f_equal.
    change (c :: d ++ tail) with ((c :: d) ++ tail). now rewrite consumed_app.
Qed.

(** ** A line of the format *)

Lemma run_topic_line (t : written) (b tail : str) :
  well_written t -> line_end tail ->
  exists b',
    run topic_pattern Some (State b (topic_line t ++ tail) [])
    = Some (State b' tail [(2, w_description t); (1, w_seconds t)])
    /\ List.length b < List.length b'.
Proof.
  intros (Hn & Hnd & Hs & Hd & Hl & Ht) He.
  destruct t as [num sec desc]. cbn [w_number w_seconds w_description] in *.
  destruct num as [|n0 num]; [congruence|].
  cbn [forallb] in Hnd. apply andb_prop in Hnd. destruct Hnd as [Hn0 Hnum].
  destruct (decimal_head Hs) as (s0 & sec' & Es & Hs0).
  destruct desc as [|d0 desc]; [congruence|].
  assert (Hd0 : is_space d0 = false) by exact (proj1 Ht).
  eexists. split.
  - unfold topic_line, topic_pattern. cbn [w_number w_seconds w_description].
    replace ((lit "TOPIC " ++ (n0 :: num) ++ lit ": " ++ sec ++ lit "s - " ++ d0 :: desc)
             ++ tail)
      with (lit "TOPIC"
            ++ " "%char :: [] ++ n0 :: num
            ++ ":"%char :: [" "%char] ++ sec
            ++ [] ++ "s"%char :: [" "%char] ++ "-"%char :: [" "%char]
            ++ (d0 :: desc) ++ tail)
      by (unfold lit; cbn [list_ascii_of_string app];
          repeat (progress (rewrite <- ?app_assoc; cbn [app])); reflexivity).
    rewrite run_seq, run_text by reflexivity.
    rewrite run_seq. cbn [app].
    apply (run_plus_all is_space _ " "%char []); [reflexivity | reflexivity | |].
    { cbn [app]. now apply digit_not_space. }
    rewrite run_seq. cbn [app].
    apply (run_plus_all is_digit _ n0 num); [exact Hn0 | exact Hnum | reflexivity|].
    rewrite run_seq, run_chr by reflexivity.
    rewrite run_seq. apply (run_star_all is_space _ [" "%char]); [reflexivity | |].
    { rewrite Es. cbn [app]. now apply digit_not_space. }
    rewrite run_seq, run_group.
    apply run_number; [exact Hs | simpl; auto|].
    cbn [before rest groups]. rewrite consumed_app.
    rewrite run_seq. apply (run_star_all is_space _ []); [reflexivity | reflexivity|].
    rewrite run_seq. cbn [app]. rewrite run_chr by reflexivity.
    rewrite run_seq. apply (run_star_all is_space _ [" "%char]);
      [reflexivity | reflexivity|].
    rewrite run_seq. cbn [app]. rewrite run_chr by reflexivity.
    rewrite run_seq. apply (run_star_all is_space _ [" "%char]);
      [reflexivity | exact Hd0|].
    apply (run_description 2 (d0 :: desc)); [discriminate | exact Hl | exact He].
  - repeat (progress (cbn [List.length rev app]; rewrite ?length_app, ?length_rev)). lia.
Qed.

(** ** The lines of an answer *)

Lemma run_topic_newline (b s : str) :
  run topic_pattern Some (State b (newline :: s) []) = None.
Proof. reflexivity. Qed.

Lemma run_topic_nil (b : str) : run topic_pattern Some (State b [] []) = None.
Proof. reflexivity. Qed.

Lemma further_line_end (ts : list written) : line_end (further_lines ts).
Proof.
  destruct ts as [|t ts]; [now left | right].
  unfold further_lines. cbn [map List.concat app]. eauto.
Qed.

Lemma further_length (ts : list written) :
  List.length ts <= List.length (further_lines ts).
Proof.
  induction ts as [|t ts IH]; [apply Nat.le_refl|].
  unfold further_lines in *. cbn [map List.concat List.length app].
  rewrite length_app. lia.
Qed.

Lemma topics_text_lines (ts : list written) :
  forall t, topics_text (t :: ts) = topic_line t ++ further_lines ts.
Proof.
  unfold topics_text.
  induction ts as [|t' ts IH]; intros t.
  - cbn [map join]. unfold further_lines. cbn [map List.concat]. now rewrite app_nil_r.
  - cbn [map]. rewrite join_cons. cbn [map] in IH. rewrite IH.
    unfold further_lines. cbn [map List.concat app]. reflexivity.
Qed.

(** The match of a line, and where the scan goes on. *)
Lemma line_step (t : written) (tail : str) (fuel : nat) (b : str) :
  well_written t -> line_end tail ->
  exists m b',
    finditer_at (S fuel) topic_pattern b (topic_line t ++ tail)
    = m :: finditer_at fuel topic_pattern b' tail
    /\ group 1 m = w_seconds t /\ group 2 m = w_description t.
Proof.
  intros W E. destruct (run_topic_line t b tail W E) as (b' & R & L).
  exists (Match (List.length b)
            (State b' tail [(2, w_description t); (1, w_seconds t)])), b'.
  split; [|split; reflexivity].
  cbn [finditer_at]. rewrite (search_at_hit _ _ _ R).
  unfold m_end. cbn [m_final m_start before rest].
  assert (N : Nat.eqb (List.length b') (List.length b) = false)
    by (apply Nat.eqb_neq; lia).
  now rewrite N.
Qed.

Lemma finditer_further (ts : list written) :
  Forall well_written ts ->
  forall fuel b,
    List.length ts <= fuel ->
    findall2_at fuel b (further_lines ts)
    = map (fun t => (w_seconds t, w_description t)) ts.
Proof.
  unfold findall2_at.
  induction 1 as [|t ts W Ws IH]; intros fuel b F.
  - unfold further_lines. cbn [map List.concat].
    destruct fuel; [reflexivity|]. cbn [finditer_at search_at].
    rewrite run_topic_nil. reflexivity.
  - destruct fuel as [|fuel]; [cbn [List.length] in F; lia|].
    cbn [List.length] in F.
    change (further_lines (t :: ts))
      with (newline :: topic_line t ++ further_lines ts).
    destruct (line_step t (further_lines ts) fuel (newline :: b) W (further_line_end ts))
      as (m & b' & St & G1 & G2).
    assert (E : finditer_at (S fuel) topic_pattern b
                  (newline :: topic_line t ++ further_lines ts)
                = finditer_at (S fuel) topic_pattern (newline :: b)
                    (topic_line t ++ further_lines ts)).
    { cbn [finditer_at]. rewrite search_at_step by apply run_topic_newline. reflexivity. }
    rewrite E, St. cbn [map]. rewrite G1, G2. f_equal. apply IH. lia.
Qed.

(** What [re.findall] gives for an answer in the format. *)
Lemma findall_topics_text (ts : list written) :
  Forall well_written ts ->
  findall2 topic_pattern (topics_text ts)
  = map (fun t => (w_seconds t, w_description t)) ts.
Proof.
  intros W. destruct W as [|t ts W Ws]; [reflexivity|].
  rewrite topics_text_lines. unfold findall2, finditer.
  destruct (line_step t (further_lines ts)
              (List.length (topic_line t ++ further_lines ts)) [] W
              (further_line_end ts)) as (m & b' & St & G1 & G2).
  rewrite St. cbn [map]. rewrite G1, G2. f_equal.
  apply (finditer_further ts Ws). rewrite length_app.
  pose proof (further_length ts). lia.
Qed.

(** ** The topics of an answer in the format *)

Lemma lstrip_plain (s : str) :
  match s with c :: _ => is_space c = false | [] => True end -> lstrip s = s.
Proof. destruct s as [|c s]; [reflexivity|]. cbn [lstrip]. now intros ->. Qed.

Lemma strip_plain (s : str) : trimmed s -> strip s = s.
Proof.
  intros [H1 H2]. unfold strip. rewrite (lstrip_plain s H1), (lstrip_plain _ H2).
  apply rev_involutive.
Qed.

Lemma topics_loop_built (matches : list (str * str)) :
  Forall (fun match_ => decimal (fst match_)) matches ->
  forall topics,
    exists new,
      topics_loop matches topics = topics ++ new
      /\ Forall2 (fun match_ t =>
                    float_of_str (fst match_) = Some (timestamp t)
                    /\ description t = strip (snd match_))
                 matches new.
Proof.
  induction 1 as [|m matches Hm Hms IH]; intros topics.
  - exists []. rewrite app_nil_r. split; [reflexivity | constructor].
  - cbn [topics_loop]. destruct (decimal_float_of_str Hm) as [ts E]. rewrite E.
    destruct (IH (topics ++ [Topic ts (strip (snd m)) (List.length topics + 1)]))
      as (new & H1 & H2).
    exists (Topic ts (strip (snd m)) (List.length topics + 1) :: new). split.
    + rewrite H1, <- app_assoc. reflexivity.
    + constructor; [split; [exact E | reflexivity] | exact H2].
Qed.

Lemma forall2_map (A B C : Type) (f : A -> B) (R : B -> C -> Prop) (l : list A) :
  forall l', Forall2 R (map f l) l' -> Forall2 (fun a c => R (f a) c) l l'.
Proof.
  induction l as [|a l IH]; intros l' H; inversion H; subst; constructor; auto.
Qed.

End TopicFormatFacts.

Set Implicit Arguments.

(** * The weights of the keywords *)

Unset Implicit Arguments.

Module WeightFacts.
Import PyFloat TopicClassifier ClassifierSpec ClassifierFacts SuggestionFacts WeightSpec.

(** ** Reading what was written *)

Lemma eqb_refl (k : str) : PyStr.eqb k k = true.
Proof. now apply eqb_eq. Qed.

Lemma eqb_neq (k k' : str) : PyStr.eqb k k' = false <-> k <> k'.
Proof.
  split.
  - intros E H. apply eqb_eq in H. congruence.
  - intros H. destruct (PyStr.eqb k k') eqn:E; [|reflexivity].
    apply eqb_eq in E. contradiction.
Qed.

Lemma get_set_same {V : Type} (k : str) (v : V) (d : Dict.dict V) :
  Dict.get k (Dict.set k v d) = Some v.
Proof.
  induction d as [|[k' v'] d IH]; simpl.
  - now rewrite eqb_refl.
  - destruct (PyStr.eqb k' k) eqn:E; simpl; rewrite E; [reflexivity | exact IH].
Qed.

Lemma get_set_other {V : Type} (k k' : str) (v : V) (d : Dict.dict V) :
  k' <> k -> Dict.get k' (Dict.set k v d) = Dict.get k' d.
Proof.
  intros N. induction d as [|[k0 v0] d IH]; simpl.
  - assert (E : PyStr.eqb k k' = false) by (apply eqb_neq; congruence). now rewrite E.
  - destruct (PyStr.eqb k0 k) eqn:E; simpl.
    + apply eqb_eq in E. subst k0.
      assert (E : PyStr.eqb k k' = false) by (apply eqb_neq; congruence). now rewrite E.
    + destruct (PyStr.eqb k0 k'); [reflexivity | exact IH].
Qed.

(** ** The weights of one category *)

Lemma keywords_get_in (keywords : list str) (keyword : str) :
  forall cw,
    In keyword keywords ->
    Dict.get keyword (weights_of_keywords keywords cw) = Some (keyword_weight keyword).
Proof.
  unfold weights_of_keywords.
  induction keywords as [|k keywords IH] using rev_ind; intros cw H; [destruct H|].
  rewrite fold_left_app. cbn [fold_left].
  destruct (list_eq_dec Ascii.ascii_dec keyword k) as [-> | N].
  - apply get_set_same.
  - rewrite get_set_other by exact N. apply IH.
    apply in_app_or in H. destruct H as [H | [H | []]]; [exact H | congruence].
Qed.

Lemma keywords_get_out (keywords : list str) (keyword : str) :
  forall cw,
    ~ In keyword keywords ->
    Dict.get keyword (weights_of_keywords keywords cw) = Dict.get keyword cw.
Proof.
  unfold weights_of_keywords.
  induction keywords as [|k keywords IH]; intros cw H; [reflexivity|].
  cbn [fold_left]. rewrite IH by (intros X; apply H; now right).
  apply get_set_other. intros ->. apply H. now left.
Qed.

(** The weight of a keyword is one of four numbers. *)
Lemma keyword_weight_values (keyword : str) :
  keyword_weight keyword
  = if (1 <? word_count keyword)%nat
    then if existsb (PyStr.eqb keyword) specific_terms then of_Z 3 else f1_5
    else if existsb (PyStr.eqb keyword) specific_terms then f2 else f1.
Proof.
  unfold keyword_weight.
  destruct (1 <? word_count keyword)%nat, (existsb (PyStr.eqb keyword) specific_terms);
    vm_compute; reflexivity.
Qed.

(** ** The weights of all categories *)

Section WithCategories.
Variable categories : list (str * list str).

Lemma weights_fold :
  _calculate_category_weights categories = fold_left weights_step categories [].
Proof. reflexivity. Qed.

Lemma weights_untouched (cats : list (str * list str)) (category : str) :
  forall weights,
    (category = lit "general" \/ ~ In category (map fst cats)) ->
    Dict.get category (fold_left weights_step cats weights) = Dict.get category weights.
Proof.
  induction cats as [|[c ks] cats IH]; intros weights H; [reflexivity|].
  cbn [fold_left]. rewrite IH.
  - unfold weights_step. destruct (PyStr.eqb c (lit "general")) eqn:E; [reflexivity|].
    apply get_set_other. apply eqb_neq in E. destruct H as [-> | H]; [congruence|].
    intros ->. apply H. now left.
  - destruct H as [H | H]; [now left | right]. intros X. apply H. now right.
Qed.

Lemma weights_get (cats : list (str * list str)) (category : str) (keywords : list str) :
  forall weights,
    NoDup (map fst cats) ->
    In (category, keywords) cats ->
    category <> lit "general" ->
    Dict.get category (fold_left weights_step cats weights)
    = Some (weights_of_keywords keywords []).
Proof.
  induction cats as [|[c ks] cats IH]; intros weights N H G; [destruct H|].
  cbn [map fst] in N. inversion N as [|x l Hx Hl]; subst.
  cbn [fold_left]. destruct H as [H | H].
  - inversion H; subst c ks. rewrite weights_untouched by (now right).
    unfold weights_step. apply eqb_neq in G. rewrite G. apply get_set_same.
  - now apply IH.
Qed.

Lemma general_has_no_weights :
  Dict.get (lit "general") (_calculate_category_weights categories) = None.
Proof. rewrite weights_fold, weights_untouched by (now left). reflexivity. Qed.

Lemma weight_of_keyword (category : str) (keywords : list str) (keyword : str) :
  NoDup (map fst categories) ->
  In (category, keywords) categories ->
  category <> lit "general" ->
  weight_of categories category keyword
  = if in_dec (list_eq_dec Ascii.ascii_dec) keyword keywords
    then keyword_weight keyword else f1.
Proof.
  intros N H G. unfold weight_of, category_weights.
  rewrite weights_fold, (weights_get _ _ _ _ N H G).
  destruct (in_dec (list_eq_dec Ascii.ascii_dec) keyword keywords) as [I | I].
  - now rewrite keywords_get_in.
  - now rewrite keywords_get_out.
Qed.

End WithCategories.
End WeightFacts.

Set Implicit Arguments.

(** * The best category *)

Unset Implicit Arguments.

Module BestFacts.
Import PyFloat PyFloatSpec PyFloatArith PyFloatBounds PyFloatOps TopicClassifier.
Import ClassifierSpec ClassifierFacts SuggestionFacts CombinedFacts.
Import PyFloatOrderSpec PyFloatOrder BestSpec.

(** ** Orders *)

Lemma ge_bpow_pos (x : float) (k : Z) : ge_bpow x k -> ltb zero x = true.
Proof. destruct x as [[]|[]| |[] m e]; simpl; try tauto; reflexivity. Qed.

Lemma leb_ltb_trans (x y z : float) :
  nonneg x = true -> nonneg y = true -> nonneg z = true ->
  leb x y = true -> ltb y z = true -> ltb x z = true.
Proof.
  intros Nx Ny Nz L1 L2. apply (ltb_le_ext x z Nx Nz). intros L.
  apply (ltb_le_ext y z Ny Nz) in L2. apply L2.
  apply (leb_le_ext x y Nx Ny) in L1. exact (le_ext_trans z x y Nz Nx Ny L L1).
Qed.

Lemma ltb_trans (x y z : float) :
  nonneg x = true -> nonneg y = true -> nonneg z = true ->
  ltb x y = true -> ltb y z = true -> ltb x z = true.
Proof.
  intros Nx Ny Nz L1 L2. apply (leb_ltb_trans x y z); auto. now apply ltb_leb.
Qed.

(** ** The first maximum *)

Lemma max_from_first {A : Type} (key : A -> float) (l : list A) :
  forall pre best mid,
    (forall x, In x (pre ++ best :: mid ++ l) -> nonneg (key x) = true) ->
    Forall (fun x => ltb (key x) (key best) = true) pre ->
    Forall (fun x => leb (key x) (key best) = true) mid ->
    first_maximum key (pre ++ best :: mid ++ l) (max_from key best l).
Proof.
  induction l as [|x l IH]; intros pre best mid N Hpre Hmid; cbn [max_from].
  - exists pre, mid. rewrite app_nil_r. auto.
  - assert (Nb : nonneg (key best) = true).
    { apply N. apply in_or_app. right. now left. }
    assert (Nx : nonneg (key x) = true).
    { apply N. apply in_or_app. right. right. apply in_or_app. right. now left. }
    assert (Npre : forall a, In a pre -> nonneg (key a) = true).
    { intros a Ha. apply N. apply in_or_app. now left. }
    assert (Nmid : forall a, In a mid -> nonneg (key a) = true).
    { intros a Ha. apply N. apply in_or_app. right. right. apply in_or_app. now left. }
    unfold gtb. destruct (ltb (key best) (key x)) eqn:E.
    + replace (pre ++ best :: mid ++ x :: l) with ((pre ++ best :: mid) ++ x :: [] ++ l)
        by (rewrite <- app_assoc; reflexivity).
      apply IH.
      * intros a Ha. apply N. rewrite <- app_assoc in Ha. exact Ha.
      * apply Forall_app. split; [|constructor].
        -- rewrite Forall_forall in Hpre |- *. intros a Ha.
           apply (ltb_trans _ (key best)); auto.
        -- exact E.
        -- rewrite Forall_forall in Hmid |- *. intros a Ha.
           apply (leb_ltb_trans _ (key best)); auto.
      * constructor.
    + replace (pre ++ best :: mid ++ x :: l) with (pre ++ best :: (mid ++ [x]) ++ l)
        by (rewrite <- app_assoc; reflexivity).
      apply IH.
      * intros a Ha. apply N. rewrite <- app_assoc in Ha. exact Ha.
      * exact Hpre.
      * apply Forall_app. split; [exact Hmid|]. constructor; [|constructor].
        now apply ltb_false_leb.
Qed.

Lemma best_of_first (d : Dict.dict score_entry) (m : str * score_entry) :
  scores_nonneg d ->
  best_of d = Some m ->
  first_maximum (fun ce => score (snd ce)) d m.
Proof.
  intros N H. destruct d as [|first others]; [discriminate|].
  cbn [best_of] in H. inversion H; subst m.
  apply (max_from_first (fun ce => score (snd ce)) others [] first []);
    [|constructor|constructor].
  intros x Hx. unfold scores_nonneg, all_values in N. rewrite Forall_forall in N.
  now apply N.
Qed.

Lemma first_maximum_in {A : Type} (key : A -> float) (l : list A) (m : A) :
  first_maximum key l m -> In m l.
Proof. intros (pre & post & -> & _). apply in_or_app. right. now left. Qed.

Section WithCategories.
Variable categories : list (str * list str).

(** ** The entries of [classify_by_description] *)

Lemma description_fold (description_lower category : str) (keywords : list str) :
  forall s matched,
    score_inv s ->
    let r :=
      fold_left
        (fun (acc : float * list str) keyword =>
           let '(score, matched) := acc in
           if PyStr.contains keyword description_lower
           then (add score (weight_of categories category keyword), matched ++ [keyword])
           else acc)
        keywords (s, matched) in
    snd r = matched ++ filter (fun keyword => PyStr.contains keyword description_lower) keywords
    /\ score_inv (fst r)
    /\ (mentioned description_lower keywords = true -> ge_bpow (fst r) 0)
    /\ (mentioned description_lower keywords = false -> fst r = s).
Proof.
  unfold mentioned.
  induction keywords as [|k keywords IH]; intros s matched Hs; cbn [fold_left filter existsb].
  - cbn [fst snd]. rewrite app_nil_r. repeat split; auto; discriminate.
  - destruct (PyStr.contains k description_lower) eqn:E.
    + assert (G : ge_bpow (add s (weight_of categories category k)) 0).
      { apply add_low_r; [apply emin_le_0 | now apply score_inv_nonneg|].
        apply weight_ok_ge, weight_of_ok. }
      destruct (IH _ (matched ++ [k]) (or_intror G)) as (H1 & H2 & H3 & H4).
      cbv zeta. rewrite H1, <- app_assoc. split; [reflexivity|]. split; [exact H2|].
      cbn [orb]. split; [|discriminate]. intros _.
      destruct (existsb (fun keyword => PyStr.contains keyword description_lower) keywords)
        eqn:X.
      * now apply H3.
      * cbv zeta in H4. now rewrite (H4 eq_refl).
    + cbn [orb]. exact (IH s matched Hs).
Qed.

Lemma description_entry_spec (description_lower category : str) (keywords : list str) :
  let e := description_entry categories description_lower category keywords in
  matched_keywords e
  = filter (fun keyword => PyStr.contains keyword description_lower) keywords
  /\ gtb (score e) f0 = mentioned description_lower keywords.
Proof.
  unfold description_entry.
  pose proof (description_fold description_lower category keywords f0 [] (or_introl eq_refl))
    as H. cbv zeta in H.
  destruct (fold_left _ keywords (f0, [])) as [s matched].
  cbn [fst snd] in H. destruct H as (H1 & H2 & H3 & H4).
  cbn [matched_keywords score]. split; [exact H1|].
  destruct (mentioned description_lower keywords).
  - unfold gtb. exact (ge_bpow_pos _ _ (H3 eq_refl)).
  - now rewrite (H4 eq_refl).
Qed.

Lemma description_scores_fold (description_lower : str) (cats : list (str * list str))
    (category : str) :
  forall acc,
    In category
       (keys (fold_left
                (fun category_scores (ck : str * list str) =>
                   let '(category, keywords) := ck in
                   if PyStr.eqb category (lit "general") then category_scores
                   else
                     let e := description_entry categories description_lower category
                                keywords in
                     if gtb (score e) f0 then Dict.set category e category_scores
                     else category_scores)
                cats acc))
    <-> In category (keys acc)
        \/ (category <> lit "general"
            /\ exists keywords,
                 In (category, keywords) cats
                 /\ mentioned description_lower keywords = true).
Proof.
  induction cats as [|[c ks] cats IH]; intros acc; cbn [fold_left].
  - split; [auto|]. intros [H | (_ & ks & [] & _)]. exact H.
  - rewrite IH. clear IH.
    destruct (PyStr.eqb c (lit "general")) eqn:G.
    + apply eqb_eq in G. subst c. split.
      * intros [H | (N & ks' & H & M)]; [now left | right].
        split; [exact N|]. exists ks'. split; [now right | exact M].
      * intros [H | (N & ks' & [H | H] & M)]; [now left | congruence | right].
        split; [exact N|]. now exists ks'.
    + cbv zeta. rewrite (proj2 (description_entry_spec description_lower c ks)).
      assert (G' : c <> lit "general") by (intros X; apply eqb_eq in X; congruence).
      destruct (mentioned description_lower ks) eqn:M.
      * rewrite set_keys_in. split.
        -- intros [[-> | H] | (N & ks' & H & M')]; [right | now left | right].
           ++ split; [exact G'|]. exists ks. split; [now left | exact M].
           ++ split; [exact N|]. exists ks'. split; [now right | exact M'].
        -- intros [H | (N & ks' & [H | H] & M')]; [left; now right | | right].
           ++ inversion H; subst. left. now left.
           ++ split; [exact N|]. now exists ks'.
      * split.
        -- intros [H | (N & ks' & H & M')]; [now left | right].
           split; [exact N|]. exists ks'. split; [now right | exact M'].
        -- intros [H | (N & ks' & [H | H] & M')]; [now left | | right].
           ++ inversion H; subst. congruence.
           ++ split; [exact N|]. now exists ks'.
Qed.

(** The categories [classify_by_description] scores. *)
Lemma description_scores_key (description category : str) :
  In category (keys (description_scores categories description))
  <-> category <> lit "general"
      /\ exists keywords,
           In (category, keywords) categories
           /\ mentioned (PyStr.lower description) keywords = true.
Proof.
  unfold description_scores. cbv zeta. rewrite description_scores_fold. cbn [keys map In].
  tauto.
Qed.

(** ** The entries of [classify_by_content] *)

Lemma content_fold (content_lower category : str) (keywords : list str) :
  forall s matched positions,
    score_inv s ->
    let r :=
      fold_left
        (fun (acc : float * list str * list Z) keyword =>
           let '(score, matched, keyword_positions) := acc in
           let found := Re.finditer (keyword_pattern keyword) content_lower in
           let occurrences := List.length found in
           if (0 <? occurrences)%nat then
             (add score (mul (weight_of categories category keyword)
                             (of_Z (Z.of_nat occurrences))),
              matched ++ [keyword],
              keyword_positions ++ map (fun m => Z.of_nat (Re.m_start m)) found)
           else acc)
        keywords (s, matched, positions) in
    snd (fst r)
    = matched ++ filter (fun keyword => (0 <? occurrences content_lower keyword)%nat) keywords
    /\ (occurring content_lower keywords = true -> ge_bpow (fst (fst r)) 0)
    /\ (occurring content_lower keywords = false -> fst (fst r) = s).
Proof.
  unfold occurring, occurrences.
  induction keywords as [|k keywords IH]; intros s matched positions Hs;
    cbn [fold_left filter existsb].
  - cbn [fst snd]. rewrite app_nil_r. repeat split; auto; discriminate.
  - cbv zeta.
    destruct (0 <? List.length (Re.finditer (keyword_pattern k) content_lower))%nat eqn:E.
    + assert (G : ge_bpow (add s (mul (weight_of categories category k)
                                      (of_Z (Z.of_nat (List.length
                                         (Re.finditer (keyword_pattern k) content_lower))))))
                          0).
      { apply add_low_r; [apply emin_le_0 | now apply score_inv_nonneg|].
        apply (mul_low _ _ 0 0); [apply emin_le_0 | apply weight_ok_ge, weight_of_ok|].
        apply of_Z_low. apply Nat.ltb_lt in E. lia. }
      destruct (IH _ (matched ++ [k])
                  (positions ++ map (fun m => Z.of_nat (Re.m_start m))
                                    (Re.finditer (keyword_pattern k) content_lower))
                  (or_intror G)) as (H1 & H3 & H4).
      cbv zeta in H1, H3, H4. rewrite H1, <- app_assoc. split; [reflexivity|].
      cbn [orb]. split; [|discriminate]. intros _.
      destruct (existsb _ keywords) eqn:X.
      * now apply H3.
      * now rewrite (H4 eq_refl).
    + cbn [orb]. exact (IH s matched positions Hs).
Qed.

Lemma content_entry_spec (content_lower category : str) (keywords : list str) :
  match content_entry categories content_lower category keywords with
  | Some e =>
      occurring content_lower keywords = true
      /\ matched_keywords e
         = filter (fun keyword => (0 <? occurrences content_lower keyword)%nat) keywords
  | None => occurring content_lower keywords = false
  end.
Proof.
  unfold content_entry.
  pose proof (content_fold content_lower category keywords f0 [] [] (or_introl eq_refl))
    as H. cbv zeta in H.
  destruct (fold_left _ keywords (f0, [], [])) as [[s matched] positions].
  cbn [fst snd] in H. destruct H as (H1 & H3 & H4).
  destruct (occurring content_lower keywords).
  - pose proof (ge_bpow_pos _ _ (H3 eq_refl)) as P.
    change (gtb s f0) with (ltb zero s). rewrite P. cbn [matched_keywords]. auto.
  - rewrite (H4 eq_refl). reflexivity.
Qed.

Lemma content_scores_fold (content_lower : str) (cats : list (str * list str))
    (category : str) :
  forall acc,
    In category
       (keys (fold_left
                (fun category_scores (ck : str * list str) =>
                   let '(category, keywords) := ck in
                   if PyStr.eqb category (lit "general") then category_scores
                   else
                     match content_entry categories content_lower category keywords with
                     | Some e => Dict.set category e category_scores
                     | None => category_scores
                     end)
                cats acc))
    <-> In category (keys acc)
        \/ (category <> lit "general"
            /\ exists keywords,
                 In (category, keywords) cats
                 /\ occurring content_lower keywords = true).
Proof.
  induction cats as [|[c ks] cats IH]; intros acc; cbn [fold_left].
  - split; [auto|]. intros [H | (_ & ks & [] & _)]. exact H.
  - rewrite IH. clear IH.
    destruct (PyStr.eqb c (lit "general")) eqn:G.
    + apply eqb_eq in G. subst c. split.
      * intros [H | (N & ks' & H & M)]; [now left | right].
        split; [exact N|]. exists ks'. split; [now right | exact M].
      * intros [H | (N & ks' & [H | H] & M)]; [now left | congruence | right].
        split; [exact N|]. now exists ks'.
    + pose proof (content_entry_spec content_lower c ks) as S.
      assert (G' : c <> lit "general") by (intros X; apply eqb_eq in X; congruence).
      destruct (content_entry categories content_lower c ks) as [e|].
      * destruct S as [M _]. rewrite set_keys_in. split.
        -- intros [[-> | H] | (N & ks' & H & M')]; [right | now left | right].
           ++ split; [exact G'|]. exists ks. split; [now left | exact M].
           ++ split; [exact N|]. exists ks'. split; [now right | exact M'].
        -- intros [H | (N & ks' & [H | H] & M')]; [left; now right | | right].
           ++ inversion H; subst. left. now left.
           ++ split; [exact N|]. now exists ks'.
      * split.
        -- intros [H | (N & ks' & H & M')]; [now left | right].
           split; [exact N|]. exists ks'. split; [now right | exact M'].
        -- intros [H | (N & ks' & [H | H] & M')]; [now left | | right].
           ++ inversion H; subst. congruence.
           ++ split; [exact N|]. now exists ks'.
Qed.

(** The categories the loop of [classify_by_content] scores. *)
Lemma content_scores_key (transcript_segment category : str) :
  In category (keys (content_scores categories transcript_segment))
  <-> category <> lit "general"
      /\ exists keywords,
           In (category, keywords) categories
           /\ occurring (PyStr.lower transcript_segment) keywords = true.
Proof.
  unfold content_scores. cbv zeta. rewrite content_scores_fold. cbn [keys map In].
  tauto.
Qed.

(** ** Where the entries come from *)

Lemma description_scores_entries (description : str) :
  Forall (fun ce =>
            exists keywords,
              In (fst ce, keywords) categories
              /\ snd ce = description_entry categories (PyStr.lower description) (fst ce)
                            keywords)
         (description_scores categories description).
Proof.
  unfold description_scores. cbv zeta.
  assert (G : forall cats acc,
             incl cats categories ->
             Forall (fun ce =>
                       exists keywords,
                         In (fst ce, keywords) categories
                         /\ snd ce = description_entry categories (PyStr.lower description)
                                       (fst ce) keywords) acc ->
             Forall (fun ce =>
                       exists keywords,
                         In (fst ce, keywords) categories
                         /\ snd ce = description_entry categories (PyStr.lower description)
                                       (fst ce) keywords)
               (fold_left
                  (fun category_scores (ck : str * list str) =>
                     let '(category, keywords) := ck in
                     if PyStr.eqb category (lit "general") then category_scores
                     else
                       let e := description_entry categories (PyStr.lower description)
                                  category keywords in
                       if gtb (score e) f0 then Dict.set category e category_scores
                       else category_scores)
                  cats acc)).
  { induction cats as [|[c ks] cats IH]; intros acc I H; cbn [fold_left]; [exact H|].
    apply IH; [intros x Hx; apply I; now right|].
    destruct (PyStr.eqb c (lit "general")); [exact H|]. cbv zeta.
    destruct (gtb _ f0); [|exact H].
    apply set_pairs; [exact H|]. exists ks. split; [apply I; now left | reflexivity]. }
  apply G; [apply incl_refl | constructor].
Qed.

Lemma content_scores_entries (transcript_segment : str) :
  Forall (fun ce =>
            exists keywords,
              In (fst ce, keywords) categories
              /\ content_entry categories (PyStr.lower transcript_segment) (fst ce) keywords
                 = Some (snd ce))
         (content_scores categories transcript_segment).
Proof.
  unfold content_scores. cbv zeta.
  assert (G : forall cats acc,
             incl cats categories ->
             Forall (fun ce =>
                       exists keywords,
                         In (fst ce, keywords) categories
                         /\ content_entry categories (PyStr.lower transcript_segment)
                              (fst ce) keywords = Some (snd ce)) acc ->
             Forall (fun ce =>
                       exists keywords,
                         In (fst ce, keywords) categories
                         /\ content_entry categories (PyStr.lower transcript_segment)
                              (fst ce) keywords = Some (snd ce))
               (fold_left
                  (fun category_scores (ck : str * list str) =>
                     let '(category, keywords) := ck in
                     if PyStr.eqb category (lit "general") then category_scores
                     else
                       match content_entry categories (PyStr.lower transcript_segment)
                               category keywords with
                       | Some e => Dict.set category e category_scores
                       | None => category_scores
                       end)
                  cats acc)).
  { induction cats as [|[c ks] cats IH]; intros acc I H; cbn [fold_left]; [exact H|].
    apply IH; [intros x Hx; apply I; now right|].
    destruct (PyStr.eqb c (lit "general")); [exact H|].
    destruct (content_entry _ _ c ks) as [e|] eqn:E; [|exact H].
    apply set_pairs; [exact H|]. exists ks. split; [apply I; now left | exact E]. }
  apply G; [apply incl_refl | constructor].
Qed.

(** ** Confidences *)

Lemma confident_bounds (c : float) :
  confident c -> ltb f0 c = true /\ leb c f1 = true.
Proof.
  intros H. split.
  - exact (ge_bpow_pos _ _ (proj1 H)).
  - destruct (sub_confidence_plain c (or_intror H)) as (F & _ & V).
    apply leb_value; [exact F | reflexivity|].
    rewrite f1_one. unfold one, value. rewrite one_value. exact V.
Qed.

End WithCategories.
End BestFacts.

Set Implicit Arguments.

(** * The combined verdict *)

Unset Implicit Arguments.

Module VerdictFacts.
Import PyFloat PyFloatSpec PyFloatArith PyFloatBounds PyFloatOps PyFloatMono TopicClassifier.
Import ClassifierSpec ClassifierFacts SuggestionFacts CombinedFacts.
Import PyFloatOrder BestSpec BestFacts.
Local Open Scope R_scope.

Lemma seven_tenths_low : ge_bpow f0_7 (-1).
Proof.
  rewrite f0_7_seven_tenths. unfold seven_tenths. cbn [ge_bpow].
  apply mval_ge_bpow; vm_compute; congruence.
Qed.

Lemma confident_nonneg (x : float) : confident x -> nonneg x = true.
Proof. intros H. exact (ge_bpow_nonneg _ _ (proj1 H)). Qed.

(** 0.7 times a confidence is a confidence again, but for the lower bound. *)
Lemma penalty_bounds (x : float) :
  confident x -> ltb f0 (mul x f0_7) = true /\ leb (mul x f0_7) f1 = true.
Proof.
  intros H.
  assert (G : ge_bpow (mul x f0_7) (-4 + -1)).
  { apply mul_low; [unfold emin, prec, emax; lia | exact (proj1 H) | exact seven_tenths_low]. }
  split; [exact (ge_bpow_pos _ _ G)|].
  apply (leb_trans _ x).
  - exact (ge_bpow_nonneg _ _ G).
  - now apply confident_nonneg.
  - reflexivity.
  - apply ltb_leb. now apply disagreement_penalty.
  - now apply confident_bounds.
Qed.

Lemma positive_not_zero (x : float) : ltb f0 x = true -> x <> f0.
Proof. intros H ->. discriminate H. Qed.

Lemma positive_not_below (x : float) : ltb f0 x = true -> ltb x f0 = false.
Proof. intros H. apply PyFloatFacts.leb_not_ltb. now apply ltb_leb. Qed.

Section WithCategories.
Variable categories : list (str * list str).

(** A classification is the fallback, or it names a category with a
    confidence. *)
Lemma description_split (description : str) :
  let r := classify_by_description categories description in
  (primary_category r = lit "general" /\ confidence_score r = f0)
  \/ (primary_category r <> lit "general" /\ confident (confidence_score r)).
Proof.
  intros r. pose proof (description_cases categories description) as C.
  cbv zeta in C. fold r in C.
  destruct (list_eq_dec Ascii.ascii_dec (primary_category r) (lit "general")) as [E | N].
  - left. split; [exact E|]. destruct C as [[_ Z] | C]; [exact Z|].
    exfalso. revert E C. unfold r, classify_by_description.
    destruct (best_of (description_scores categories description)) as [[c e]|] eqn:B.
    + cbn [primary_category]. intros -> _.
      pose proof (best_of_first _ _
                    (scores_ge_nonneg _ (description_scores_ok categories description)) B)
        as F.
      apply first_maximum_in in F.
      assert (K : In (lit "general") (keys (description_scores categories description))).
      { unfold keys. apply in_map_iff. now exists (lit "general", e). }
      apply description_scores_key in K. now destruct K.
    + cbn [confidence_score]. intros _ [G _]. exact G.
  - right. split; [exact N|]. destruct C as [[G _] | C]; [contradiction | exact C].
Qed.

Lemma content_split (transcript_segment : str) :
  length_converts transcript_segment ->
  let r := classify_by_content categories transcript_segment in
  (primary_category r = lit "general" /\ confidence_score r = f0)
  \/ (primary_category r <> lit "general" /\ confident (confidence_score r)).
Proof.
  intros Hlen r. pose proof (content_cases categories transcript_segment Hlen) as C.
  cbv zeta in C. fold r in C.
  destruct (list_eq_dec Ascii.ascii_dec (primary_category r) (lit "general")) as [E | N].
  - left. split; [exact E|]. destruct C as [[_ Z] | C]; [exact Z|].
    exfalso. revert E C. unfold r, classify_by_content.
    destruct (PyStr.strip transcript_segment); [intros _ [G _]; exact G|].
    destruct (best_of (content_scores categories transcript_segment)) as [[c e]|] eqn:B.
    + cbn [primary_category]. intros -> _.
      pose proof (best_of_first _ _
                    (scores_ge_nonneg _ (content_scores_ok categories _ Hlen)) B) as F.
      apply first_maximum_in in F.
      assert (K : In (lit "general") (keys (content_scores categories transcript_segment))).
      { unfold keys. apply in_map_iff. now exists (lit "general", e). }
      apply content_scores_key in K. now destruct K.
    + cbn [confidence_score]. intros _ [G _]. exact G.
  - right. split; [exact N|]. destruct C as [[G _] | C]; [contradiction | exact C].
Qed.

End WithCategories.
End VerdictFacts.

Set Implicit Arguments.

(** * The three suggestions *)

Unset Implicit Arguments.

Module TopThreeFacts.
Import PyFloat PyFloatSpec PyFloatArith PyFloatBounds PyFloatOps TopicClassifier.
Import ClassifierSpec ClassifierFacts SuggestionFacts CombinedFacts BestFacts VerdictFacts.

(** ** The categories of the combined scores *)

Lemma add_description_keys (scores : Dict.dict score_entry) (k : str) :
  forall cs,
    In k (keys (add_description_scores scores cs)) <-> In k (keys scores) \/ In k (keys cs).
Proof.
  unfold add_description_scores.
  induction scores as [|[category data] scores IH]; intros cs; cbn [fold_left].
  - cbn [keys map In]. tauto.
  - rewrite IH, set_keys_in. cbn [keys map In fst]. unfold keys. split.
    + intros [H | [H | H]]; auto.
    + intros [[H | H] | H]; auto.
Qed.

Lemma add_content_step (category : str) (data : score_entry)
    (cs : Dict.dict combined_entry) :
  exists entry,
    match Dict.get category cs with
    | Some old =>
        Dict.set category
          (CombinedEntry (ce_description_score old) (score data)
             (add (combined_score old) (mul (score data) f0_8))) cs
    | None =>
        Dict.set category (CombinedEntry f0 (score data) (mul (score data) f0_8)) cs
    end = Dict.set category entry cs.
Proof. destruct (Dict.get category cs); eexists; reflexivity. Qed.

Lemma add_content_keys (scores : Dict.dict score_entry) (k : str) :
  forall cs,
    In k (keys (add_content_scores scores cs)) <-> In k (keys scores) \/ In k (keys cs).
Proof.
  unfold add_content_scores.
  induction scores as [|[category data] scores IH]; intros cs; cbn [fold_left].
  - cbn [keys map In]. tauto.
  - destruct (add_content_step category data cs) as [entry ->].
    rewrite IH, set_keys_in. cbn [keys map In fst]. unfold keys. split.
    + intros [H | [H | H]]; auto.
    + intros [[H | H] | H]; auto.
Qed.

Lemma add_content_nodup (scores : Dict.dict score_entry) :
  forall cs, NoDup (keys cs) -> NoDup (keys (add_content_scores scores cs)).
Proof.
  unfold add_content_scores.
  induction scores as [|[category data] scores IH]; intros cs N; cbn [fold_left];
    [exact N|].
  destruct (add_content_step category data cs) as [entry ->].
  apply IH. now apply set_keys_nodup.
Qed.

Lemma suggestion_categories (cs : Dict.dict combined_entry) :
  map category (map suggestion_of cs) = keys cs.
Proof.
  unfold keys. rewrite map_map. apply map_ext. now intros [k e].
Qed.

(** ** The head of a sorted list *)

Lemma sorted_app {A : Type} (R : A -> A -> Prop) (l1 l2 : list A) :
  StronglySorted R (l1 ++ l2) -> forall a b, In a l1 -> In b l2 -> R a b.
Proof.
  induction l1 as [|x l1 IH]; intros S a b Ha Hb; [destruct Ha|].
  cbn [app] in S. inversion S as [|y l S' F]; subst.
  destruct Ha as [<- | Ha].
  - rewrite Forall_forall in F. apply F. apply in_or_app. now right.
  - now apply IH.
Qed.

Lemma nodup_firstn {A : Type} (n : nat) (l : list A) : NoDup l -> NoDup (firstn n l).
Proof.
  intros N. rewrite <- (firstn_skipn n l) in N. exact (NoDup_app_remove_r _ _ N).
Qed.

(** What is not among the first [n] of a sorted list is below all of
    them, and then there are [n] of them. *)
Lemma firstn_top {A : Type} (R : A -> A -> Prop) (n : nat) (l : list A) (x : A) :
  StronglySorted R l -> In x l ->
  In x (firstn n l)
  \/ (List.length (firstn n l) = n /\ forall t, In t (firstn n l) -> R t x).
Proof.
  intros S H. rewrite <- (firstn_skipn n l) in H, S.
  apply in_app_or in H. destruct H as [H | H]; [now left | right]. split.
  - rewrite length_firstn. apply Nat.min_l.
    destruct (Nat.le_gt_cases n (List.length l)) as [L | L]; [exact L|].
    rewrite skipn_all2 in H by lia. destruct H.
  - intros t Ht. exact (sorted_app R _ _ S t x Ht H).
Qed.

(** ** What every suggestion and every verdict satisfies *)

Section WithCategories.
Variable categories : list (str * list str).






End WithCategories.
End TopThreeFacts.

Set Implicit Arguments.

(** * Sorting the positions *)

Unset Implicit Arguments.

Module SortFacts.
Import TopicClassifier ClusteringFacts.

(** Two sorted lists of the same numbers are the same list. *)
Lemma sorted_unique (l1 : list Z) :
  forall l2,
    StronglySorted Z.le l1 -> StronglySorted Z.le l2 -> Permutation l1 l2 -> l1 = l2.
Proof.
  induction l1 as [|x l1 IH]; intros l2 S1 S2 P.
  - now apply Permutation_nil in P.
  - destruct l2 as [|y l2]; [symmetry in P; now apply Permutation_nil in P|].
    inversion S1 as [|x' l1' S1' F1]; subst. inversion S2 as [|y' l2' S2' F2]; subst.
    rewrite Forall_forall in F1, F2.
    assert (E : x = y).
    { assert (Hy : In y (x :: l1))
        by (apply (Permutation_in _ (Permutation_sym P)); now left).
      assert (Hx : In x (y :: l2)) by (apply (Permutation_in _ P); now left).
      destruct Hy as [Hy | Hy]; [exact Hy|]. destruct Hx as [Hx | Hx]; [now symmetry|].
      specialize (F1 y Hy). specialize (F2 x Hx). lia. }
    subst y. f_equal. apply IH; [exact S1' | exact S2'|].
    exact (Permutation_cons_inv P).
Qed.

Lemma sort_asc_permutation (l1 l2 : list Z) :
  Permutation l1 l2 -> sort_asc l1 = sort_asc l2.
Proof.
  intros P. apply sorted_unique; [apply sort_asc_sorted | apply sort_asc_sorted|].
  rewrite <- (sort_asc_perm l1), <- (sort_asc_perm l2). exact P.
Qed.

End SortFacts.

Set Implicit Arguments.

(** * Whole words and parts of the text *)

Unset Implicit Arguments.

Module OccurrenceFacts.
Import Re PyStr ReSpec ReFacts TopicClassifier ClassifierSpec SuggestionFacts.
Import BestSpec BestFacts.

(** Where a search finds its match. *)
Lemma search_at_suffix (r : regex) (s : str) :
  forall b m,
    search_at r b s = Some m ->
    exists pre s',
      s = pre ++ s' /\ run r Some (State (rev pre ++ b) s' []) = Some (m_final m).
Proof.
  induction s as [|c s IH]; simpl; intros b m H.
  - destruct (run r Some (State b [] [])) eqn:Hr; [|discriminate].
    inversion H; subst; simpl. exists [], []. auto.
  - destruct (run r Some (State b (c :: s) [])) eqn:Hr.
    + inversion H; subst; simpl. exists [], (c :: s). auto.
    + destruct (IH _ _ H) as (pre & s' & -> & Hrun).
      exists (c :: pre), s'. split; [reflexivity|].
      cbn [rev]. rewrite <- app_assoc. exact Hrun.
Qed.

Lemma matches_exact (p : str) :
  forall l, matches_text false p l = true -> l = p.
Proof.
  induction p as [|c p IH]; intros [|x l] H; try discriminate H; [reflexivity|].
  cbn [matches_text] in H. apply andb_prop in H. destruct H as [Hx Hl].
  unfold char in Hx. apply Ascii.eqb_eq in Hx. subst x. f_equal. now apply IH.
Qed.

Lemma starts_with_app (p post : str) : starts_with p (p ++ post) = true.
Proof.
  induction p as [|c p IH]; [reflexivity|].
  cbn [app starts_with]. now rewrite Ascii.eqb_refl, IH.
Qed.

Lemma contains_app (p pre post : str) : contains p (pre ++ p ++ post) = true.
Proof.
  induction pre as [|c pre IH].
  - cbn [app]. destruct (p ++ post) eqn:E; cbn [contains]; rewrite <- E;
      now rewrite starts_with_app.
  - cbn [app contains]. rewrite IH. apply orb_true_r.
Qed.

(** A keyword that occurs as a whole word is part of the text. *)
Lemma keyword_found (content keyword : str) :
  (0 <? occurrences content keyword)%nat = true -> contains keyword content = true.
Proof.
  unfold occurrences, finditer. cbn [finditer_at].
  destruct (search_at (keyword_pattern keyword) [] content) as [m|] eqn:E;
    [|discriminate].
  intros _. apply search_at_suffix in E. destruct E as (pre & s' & -> & H).
  unfold keyword_pattern in H.
  apply run_sound in H. destruct H as (st & R & _).
  apply reach_seq_inv in R. destruct R as (st1 & R1 & R).
  apply reach_seq_inv in R. destruct R as (st2 & R2 & _).
  inversion R1; subst. apply reach_text in R2. destruct R2 as (l & Hl & Hr).
  apply matches_exact in Hl. subst l. cbn [rest] in Hr. rewrite Hr.
  apply contains_app.
Qed.

Lemma occurring_mentioned (content : str) (keywords : list str) :
  occurring content keywords = true -> mentioned content keywords = true.
Proof.
  unfold occurring, mentioned. rewrite !existsb_exists.
  intros (k & I & H). exists k. split; [exact I | now apply keyword_found].
Qed.

End OccurrenceFacts.

Set Implicit Arguments.

(** * The stated properties *)

Section Claims.
Import Re PyStr PyNum Eff ClipFinder ReSpec ClipFinderSpec ReFacts PyFloatFacts ClipFinderFacts.

Variable World : Type.
Variable create : request -> World -> World * (exn + str).
Variable config : Config.
Variable model : str.

(** C1 (as amended).  When the service answers the request of
    [find_clip_timestamps] with [START_TIME: s END_TIME: e], for unsigned
    decimal literals [s] and [e] (digits, then possibly a point and
    further digits) whose values satisfy [start < end], the function
    returns [(start, end)] unchanged.  The duration check contributes
    nothing but one warning in the log when the configured band rejects
    the duration: the returned pair and the world are the same either
    way. *)
Theorem C1_echo_returned_unchanged
    (transcription clip_description ls le : str) (start_time end_time : float)
    (s : store World) (w' : World) :
  float_of_str ls = Some start_time ->
  float_of_str le = Some end_time ->
  PyFloat.ltb start_time end_time = true ->
  create (clip_request config model
            (_create_clip_finding_prompt config (prepared config transcription)
               clip_description))
         (world s)
  = (w', inr (echo ls le)) ->
  let duration := PyFloat.sub end_time start_time in
  find_clip_timestamps create config model transcription clip_description s
  = (Store w'
       (logs s ++ [(INFO, Analyzing clip_description)]
        ++ prepare_log config transcription
        ++ [(INFO, Found_clip start_time end_time duration)]
        ++ (if validate_clip_duration config duration then []
            else [(WARNING, Duration_outside_range duration)])),
     inr (Some start_time, Some end_time)).
Proof.
  intros Hs He Hlt Hcall duration.
  unfold find_clip_timestamps, try_except, bind at 1.
  unfold log at 1. unfold bind at 1. rewrite prepare_eq.
  unfold bind at 1, call. cbn [world logs]. rewrite Hcall.
  unfold bind at 1. erewrite parse_echo by eassumption.
  unfold bind, log, ret; cbn [world logs].
  fold duration.
  destruct (validate_clip_duration config duration); cbn [negb world logs];
    rewrite <- ?app_assoc; cbn [app]; rewrite ?app_nil_r; reflexivity.
Qed.


(** C2 (as amended).  The parse never raises.  It returns the absence
    marker exactly when both strict fields are found and one of them is the
    NOT_FOUND sentinel or the coerced pair has [end <= start], or when the
    strict fields are not both found and the loose pattern yields no pair
    with [end > start].  In every other case it returns the pair of numbers
    read from the strict fields or, these missing, from the loose pattern. *)
Theorem C2_absence_marker_exactly (text : str) (s : store World) :
  exists r : timestamps,
    outcome (_parse_timestamp_response text) s = inr r
    /\ (r = not_found <->
        (exists a b, strict_fields text = Some (a, b)
           /\ (upper a = lit "NOT_FOUND" \/ upper b = lit "NOT_FOUND"
               \/ exists x y, float_of_str a = Some x /\ float_of_str b = Some y
                              /\ PyFloat.leb y x = true))
        \/ (strict_fields text = None
            /\ forall a b x y, loose_fields text = Some (a, b) ->
                 float_of_str a = Some x -> float_of_str b = Some y ->
                 PyFloat.gtb y x = false))
    /\ (r <> not_found ->
        exists a b x y,
          (strict_fields text = Some (a, b)
           \/ strict_fields text = None /\ loose_fields text = Some (a, b))
          /\ float_of_str a = Some x /\ float_of_str b = Some y
          /\ r = (Some x, Some y)).
Proof.
  destruct (parse_cases text s) as (r & Hr & Hc). exists r. split; [exact Hr|].
  destruct (strict_fields text) as [[a b]|].
  - destruct Hc as [[Hs ->] | (Ha & Hb & x & y & Hx & Hy & [[Hle ->] | [Hle ->]])].
    + split; [split; [intros _; left; exists a, b; tauto | reflexivity] | congruence].
    + split; [split; [|reflexivity] | congruence].
      intros _. left. exists a, b. split; [reflexivity|]. right; right. eauto.
    + split.
      * split; [discriminate|].
        intros [(a' & b' & E & [H | [H | (x' & y' & Hx' & Hy' & H)]]) | [E _]];
          try discriminate E; inversion E; subst a' b'; try contradiction.
        congruence.
      * intros _. exists a, b, x, y. auto.
  - destruct (loose_fields text) as [[a b]|].
    + destruct (float_of_str a) as [x|] eqn:Hx;
        [destruct (float_of_str b) as [y|] eqn:Hy|].
      * destruct Hc as [[Hgt ->] | [Hgt ->]].
        -- split.
           ++ split; [discriminate|].
              intros [(a' & b' & E & _) | [_ H]]; [discriminate E|].
              specialize (H a b x y eq_refl Hx Hy). congruence.
           ++ intros _. exists a, b, x, y. auto 6.
        -- split; [split; [|reflexivity] | congruence].
           intros _. right. split; [reflexivity|].
           intros a' b' x' y' E Hx' Hy'. inversion E; subst a' b'. congruence.
      * subst r. split; [split; [|reflexivity] | congruence].
        intros _. right. split; [reflexivity|].
        intros a' b' x' y' E Hx' Hy'. inversion E; subst a' b'. congruence.
      * subst r. split; [split; [|reflexivity] | congruence].
        intros _. right. split; [reflexivity|].
        intros a' b' x' y' E Hx' Hy'. inversion E; subst a' b'. congruence.
    + subst r. split; [split; [|reflexivity] | congruence].
      intros _. right. split; [reflexivity|]. discriminate.
Qed.

(** C3.  [find_clip_timestamps] raises only when the call of the service
    raises, and what it raises is a [ClipExtractionError]; when the service
    answers with a text, the function returns what the parse of that text
    gives, the absence marker on any parse failure, and raises nothing. *)
Theorem C3_raises_only_on_service_failure (transcription clip_description : str)
    (s : store World) :
  let q := clip_request config model
             (_create_clip_finding_prompt config (prepared config transcription)
                clip_description) in
  (forall e, outcome (find_clip_timestamps create config model transcription
                        clip_description) s = inl e ->
     exists msg w' e0, e = ClipExtractionError msg /\ create q (world s) = (w', inl e0))
  /\ (forall w' text, create q (world s) = (w', inr text) ->
      exists r, outcome (find_clip_timestamps create config model transcription
                           clip_description) s = inr r
                /\ (forall s1 : store World,
                      outcome (_parse_timestamp_response text) s1 = inr r)
                /\ (r = not_found \/ exists x y, r = (Some x, Some y))).
Proof.
  intros q.
  assert (Hrun : forall w' o, create q (world s) = (w', o) ->
            outcome (find_clip_timestamps create config model transcription
                       clip_description) s
            = match o with
              | inl (APIError m) =>
                  inl (ClipExtractionError (lit "OpenAI API error: " ++ m))
              | inl e => inl (ClipExtractionError (lit "Clip finding failed: " ++ str_of_exn e))
              | inr text => outcome (_parse_timestamp_response text) s
              end).
  { intros w' o Hq. unfold outcome, find_clip_timestamps, try_except, bind at 1.
    unfold log at 1. unfold bind at 1. rewrite prepare_eq.
    unfold bind at 1, call. cbn [world logs]. fold q. rewrite Hq.
    destruct o as [e | text].
    - destruct e; reflexivity.
    - unfold bind at 1.
      destruct (parse_pure World text) as (r & l & Hp & Hv). rewrite !Hp.
      destruct Hv as [-> | (x & y & ->)]; [reflexivity|].
      unfold bind, log, ret.
      destruct (validate_clip_duration config (PyFloat.sub y x)); reflexivity. }
  destruct (create q (world s)) as [w' o] eqn:Hq.
  rewrite (Hrun w' o eq_refl). split.
  - intros e He. destruct o as [e0 | text].
    + destruct e0; inversion He; subst; eauto.
    + destruct (parse_pure World text) as (r & l & Hp & _).
      unfold outcome in He. rewrite Hp in He. discriminate He.
  - intros w'' text E. inversion E; subst.
    destruct (parse_pure World text) as (r & l & Hp & Hv). exists r.
    unfold outcome. rewrite Hp. split; [reflexivity|]. split; [|exact Hv].
    intros s1. now rewrite Hp.
Qed.

(** C6.  When the strict fields are not both found the result is that of
    the loose pattern; when both are found the result is that of the strict
    branch and the loose pattern is not consulted; and the text
    [the clip runs from 12.5 seconds to 45.0 seconds] yields
    [(12.5, 45.0)]. *)
Theorem C6_fallback_only_after_strict (s : store World) :
  (forall text, strict_fields text = None ->
     _parse_timestamp_response text s = fallback_timestamps text s)
  /\ (forall text a b, strict_fields text = Some (a, b) ->
        _parse_timestamp_response text s = strict_timestamps a b s)
  /\ strict_fields (lit "the clip runs from 12.5 seconds to 45.0 seconds") = None
  /\ outcome (_parse_timestamp_response
                (lit "the clip runs from 12.5 seconds to 45.0 seconds")) s
     = inr (Some (PyFloat.of_ratio 125 10), Some (PyFloat.of_ratio 45 1)).
Proof.
  split; [intros text H; now apply parse_fallback|].
  split; [intros text a b H; now apply parse_strict|]. split.
  - vm_compute. reflexivity.
  - unfold outcome. rewrite parse_fallback by (vm_compute; reflexivity).
    unfold fallback_timestamps.
    replace (search timestamp_patterns
               (lit "the clip runs from 12.5 seconds to 45.0 seconds"))
      with (Some (Match 19 (State (rev (lit "the clip runs from 12.5 seconds to 45.0 seconds"))
                              [] [(2, lit "45.0"); (1, lit "12.5")])))
      by (vm_compute; reflexivity).
    reflexivity.
Qed.


(** C7.  [find_multiple_clips] never raises.  It returns one item per
    description, in the order of the descriptions, each with its
    description.  The item at a position is determined by the resolution of
    the description at that position alone: the dictionary of its
    timestamps when [find_clip_timestamps] returned, and when it raised the
    failure dictionary, with [success] false and the text of the exception
    under [error]. *)
Theorem C7_batch_isolates_failures (transcription : str) (descs : list str)
    (s : store World) :
  let rs := resolutions create config model 0 (List.length descs) transcription descs s in
  exists results,
    outcome (find_multiple_clips create config model transcription descs) s = inr results
    /\ List.length results = List.length descs
    /\ map description results = descs
    /\ (forall k d s_k o,
          nth_error descs k = Some d -> nth_error rs k = Some (s_k, o) ->
          o = outcome (find_clip_timestamps create config model transcription d) s_k
          /\ nth_error results k = Some (item_of d o))
    /\ (forall d e,
          item_of d (inl e) = ClipResult d None None None false (Some (str_of_exn e)))
    /\ (forall d start_time end_time,
          description (item_of d (inr (start_time, end_time))) = d
          /\ ClipFinder.start_time (item_of d (inr (start_time, end_time))) = start_time
          /\ ClipFinder.end_time (item_of d (inr (start_time, end_time))) = end_time
          /\ error (item_of d (inr (start_time, end_time))) = None).
Proof.
  intros rs. exists (items descs rs). split; [apply batch_eq|].
  assert (Hlen : List.length rs = List.length descs) by apply resolutions_length.
  repeat split.
  - rewrite <- (items_descriptions descs rs Hlen) at 2. now rewrite length_map.
  - now apply items_descriptions.
  - eapply resolutions_nth; eassumption.
  - now apply (items_nth descs rs k (d:=d) (r:=(s_k, o))).
Qed.

(** C10.  An item whose resolution returned two timestamps reports
    [success] true, and its [duration] is [end_time - start_time] when both
    timestamps are truthy and [None] otherwise; so an item that starts at
    0.0 succeeds with no duration. *)
Theorem C10_zero_start_has_no_duration (transcription : str) (descs : list str)
    (s : store World) (k : nat) (d : str) (s_k : store World)
    (start_time end_time : float) :
  nth_error descs k = Some d ->
  nth_error (resolutions create config model 0 (List.length descs) transcription descs s) k
  = Some (s_k, inr (Some start_time, Some end_time)) ->
  exists results item,
    outcome (find_multiple_clips create config model transcription descs) s = inr results
    /\ nth_error results k = Some item
    /\ success item = true
    /\ ClipFinder.start_time item = Some start_time
    /\ ClipFinder.end_time item = Some end_time
    /\ duration item
       = (if PyFloat.truthy start_time && PyFloat.truthy end_time
          then Some (PyFloat.sub end_time start_time) else None)
    /\ (PyFloat.eqb start_time PyFloat.zero = true -> duration item = None).
Proof.
  intros Hd Hr. do 2 eexists. split; [apply batch_eq|].
  split; [eapply items_nth; eassumption|]. simpl.
  repeat split. intros H0. unfold PyFloat.truthy at 1, PyFloat.neqb.
  now rewrite H0.
Qed.

End Claims.

(** * The stated properties of the classifier *)

Section ClassifierClaims.
Import PyFloat PyFloatSpec PyFloatArith PyFloatBounds PyFloatOps TopicClassifier ClusteringSpec.
Import PyFloatMono ClassifierSpec ClassifierFacts ClusteringFacts SuggestionFacts CombinedFacts.

Variable categories : list (str * list str).

(** C4 (as amended).  When the two classifications agree on the primary
    category, the combined confidence is [min((d + c) / 1.5, 1.0)] for the
    two confidences [d] and [c]; it is at least the smaller of the two and
    at most 1.0.  When they disagree, it is 0.7 times the higher of the
    two confidences, and strictly below that higher confidence.  The
    segment is one whose length converts to a float. *)
Theorem C4_agreement_boost_and_disagreement_penalty
    (description transcript_segment : str) (start_time end_time : float) :
  length_converts transcript_segment ->
  let desc_result := classify_by_description categories description in
  let content_result := classify_by_content categories transcript_segment in
  let d := confidence_score desc_result in
  let c := confidence_score content_result in
  let combined_confidence :=
    c_confidence_score
      (classify_combined categories description transcript_segment start_time end_time) in
  if PyStr.eqb (primary_category desc_result) (primary_category content_result)
  then combined_confidence = min (div (add d c) f1_5) f1
       /\ leb (min d c) combined_confidence = true
       /\ leb combined_confidence f1 = true
  else let higher := if gtb d c then d else c in
       combined_confidence = mul higher f0_7
       /\ leb d higher = true /\ leb c higher = true
       /\ ltb combined_confidence higher = true.
Proof.
  intros Hlen desc_result content_result d c combined_confidence.
  pose proof (description_cases categories description) as Hd.
  pose proof (content_cases categories transcript_segment Hlen) as Hc.
  pose proof (description_in_format categories description) as Fd.
  pose proof (content_in_format categories transcript_segment Hlen) as Fc.
  pose proof (disagreement_higher categories description transcript_segment Hlen) as Hh.
  cbv zeta in Hd, Hc, Hh.
  fold desc_result in Hd, Fd, Hh. fold content_result in Hc, Fc, Hh.
  fold d in Hd, Fd, Hh. fold c in Hc, Fc, Hh.
  unfold combined_confidence, classify_combined.
  fold desc_result content_result. fold d c.
  destruct (PyStr.eqb (primary_category desc_result) (primary_category content_result)).
  - cbn [c_confidence_score]. split; [reflexivity|].
    assert (Sd : d = f0 \/ confident d) by (destruct Hd as [[_ H] | H]; auto).
    assert (Sc : c = f0 \/ confident c) by (destruct Hc as [[_ H] | H]; auto).
    destruct (agreement_boost d c Sc Sd Fd Fc) as (H1 & _ & H3). auto.
  - destruct (Hh eq_refl) as (H1 & H2 & H3).
    destruct (gtb d c); cbn [c_confidence_score];
      (split; [reflexivity|]; split; [exact H2|]; split; [exact H3|]);
      now apply disagreement_penalty.
Qed.

(** C8.  [_calculate_clustering_bonus] sorts the positions ascending (the
    sorted list is an ordered rearrangement of the positions) and returns
    the sum, from left to right, of the contributions of the adjacent
    pairs, [(100 - distance)/100] for a pair at a distance of at most 100
    and nothing beyond.  The distance of an adjacent pair is never
    negative; from 0 to 100 the contribution does not increase with the
    distance; beyond 100 the loop adds nothing; and fewer than two
    positions give 0.0. *)
Theorem C8_clustering_bonus_by_adjacent_distance (positions : list Z) (content_length : nat) :
  let sorted := sort_asc positions in
  (StronglySorted Z.le sorted /\ Permutation positions sorted)
  /\ _calculate_clustering_bonus positions content_length = clustering_bonus positions
  /\ (forall a b, In (a, b) (adjacent sorted) -> (0 <= b - a)%Z)
  /\ (forall d1 d2, (0 <= d1)%Z -> (d1 <= d2)%Z -> (d2 <= 100)%Z ->
        leb (contribution d2) (contribution d1) = true)
  /\ (forall d, (100 < d)%Z -> pair_bonus d = None /\ contribution d = f0)
  /\ ((List.length positions < 2)%nat ->
        _calculate_clustering_bonus positions content_length = f0).
Proof.
  intros sorted. split; [split; [apply sort_asc_sorted | apply sort_asc_perm]|].
  split; [apply clustering_bonus_eq|].
  split; [intros a b; apply adjacent_distance, sort_asc_sorted|].
  split; [exact contribution_non_increasing|].
  split; [exact contribution_far|].
  intros H. unfold _calculate_clustering_bonus.
  apply Nat.ltb_lt in H. now rewrite H.
Qed.

(** C9.  [get_category_suggestions] returns at most three suggestions, in
    descending order of confidence.  In each of them the description score
    and the content score are the scores the two classifications gave the
    category, 0.0 where a classification did not score it, and the
    confidence is [min((description_score * 0.6 + content_score * 0.8) / 10, 1.0)],
    a number from 0.0 to 1.0.  The segment is one whose length converts to
    a float. *)
Theorem C9_suggestions_top_three (description transcript_segment : str) :
  length_converts transcript_segment ->
  let by_description := all_scores (classify_by_description categories description) in
  let by_content := all_scores (classify_by_content categories transcript_segment) in
  let suggestions := get_category_suggestions categories description transcript_segment in
  (List.length suggestions <= 3)%nat
  /\ StronglySorted (fun a b => leb (confidence b) (confidence a) = true) suggestions
  /\ Forall (fun s =>
       description_score s = score_in by_description (category s)
       /\ content_score s = score_in by_content (category s)
       /\ confidence s
          = min (div (add (mul (description_score s) f0_6) (mul (content_score s) f0_8))
                     f10) f1
       /\ leb f0 (confidence s) = true
       /\ leb (confidence s) f1 = true) suggestions.
Proof.
  intros Hlen by_description by_content suggestions.
  pose proof (suggestions_ok categories description transcript_segment Hlen) as H.
  cbv zeta in H. fold by_description by_content in H.
  set (all := map suggestion_of
                (add_content_scores by_content (add_description_scores by_description [])))
    in H.
  assert (Hs : Forall (fun s => suggestion_ok by_description by_content s
                                /\ finite_nonneg (confidence s) = true)
                 (sort_desc confidence all)).
  { exact (Permutation_Forall (sort_desc_perm _ confidence all) H). }
  assert (Hp : Forall (plain_key _ confidence) (sort_desc confidence all)).
  { eapply Forall_impl; [|exact Hs]. intros s [_ F]. exact F. }
  assert (Ha : Forall (plain_key _ confidence) all).
  { eapply Forall_impl; [|exact H]. intros s [_ F]. exact F. }
  change suggestions with (firstn 3 (sort_desc confidence all)).
  split; [apply firstn_le_length|]. split.
  - apply firstn_sorted. apply sorted_leb; [exact Hp|]. now apply sort_desc_sorted.
  - apply firstn_all. eapply Forall_impl; [|exact Hs]. intros s [Ok _]. exact Ok.
Qed.

End ClassifierClaims.

(** * Further properties of clip_finder.py *)

Section ClipFinderProperties.
Import Re PyStr PyNum Eff ClipFinder ReSpec ClipFinderSpec ReFacts PyFloatFacts ClipFinderFacts.
Import PyFloatSpec PyFloatOrder TimestampFacts LinesSpec TextSpec PrepareFacts ImprovementFacts.

Variable World : Type.
Variable create : request -> World -> World * (exn + str).
Variable config : Config.
Variable model : str.

(** X1.  A pair of timestamps that [find_clip_timestamps] returns is in
    order and not negative: [0 <= start_time < end_time], whatever the
    service answered (neither number is a NaN). *)
Theorem X1_returned_timestamps_ordered (transcription clip_description : str)
    (s : store World) (start_time end_time : float) :
  outcome (find_clip_timestamps create config model transcription clip_description) s
  = inr (Some start_time, Some end_time) ->
  PyFloat.leb PyFloat.zero start_time = true
  /\ PyFloat.ltb start_time end_time = true.
Proof.
  intros H.
  destruct (find_clip_ordered World create config model transcription clip_description s _ _ H)
    as (L & [Nx _] & _).
  split; [now apply nonneg_leb_zero | exact L].
Qed.

(** X2.  In the list [find_multiple_clips] returns, an item with
    [success] true has both timestamps, with [0 <= start_time < end_time];
    its [duration] is [None] when [start_time] is 0.0 and
    [end_time - start_time] otherwise, and that difference is positive. *)
Theorem X2_successful_items_have_positive_duration (transcription : str)
    (clip_descriptions : list str) (s : store World) (results : list clip_result) :
  outcome (find_multiple_clips create config model transcription clip_descriptions) s
  = inr results ->
  Forall (fun item =>
            success item = true ->
            exists x y,
              ClipFinder.start_time item = Some x /\ ClipFinder.end_time item = Some y
              /\ PyFloat.leb PyFloat.zero x = true /\ PyFloat.ltb x y = true
              /\ duration item
                 = (if PyFloat.eqb x PyFloat.zero then None else Some (PyFloat.sub y x))
              /\ PyFloat.ltb PyFloat.zero (PyFloat.sub y x) = true)
         results.
Proof.
  intros H. apply Forall_forall. intros item Hin Hs.
  destruct (batch_items World create config model transcription clip_descriptions s results item
              H Hin) as (d & s_k & _ & ->).
  destruct (outcome (find_clip_timestamps create config model transcription d) s_k)
    as [e | [[x|] [y|]]] eqn:E; try discriminate Hs.
  destruct (find_clip_ordered World create config model transcription d s_k x y E)
    as (L & [Nx Fx] & [Ny Fy]).
  exists x, y. cbn [item_of found_item ClipFinder.start_time ClipFinder.end_time duration].
  split; [reflexivity|]. split; [reflexivity|].
  split; [now apply nonneg_leb_zero|]. split; [exact L|].
  split; [|now apply sub_pos].
  rewrite (truthy_above x y Nx Ny L), andb_true_r, truthy_eqb.
  now destruct (PyFloat.eqb x PyFloat.zero).
Qed.

(** X3.  [_prepare_transcription_for_analysis] returns a text with one
    line for each line of the transcription it numbers (the transcription
    itself, or its shortened form when it is longer than
    [MAX_TRANSCRIPTION_LENGTH]), in the same order: an empty line for a
    blank line, and for any other line its stripped text behind a label
    [[~Ns] ].  For line [i] of [n] lines, counting from 0, [N] is
    [(i / n) * 1800] written without decimals: a run of digits, not
    empty. *)
Theorem X3_numbering_keeps_the_lines (transcription : str) (s : store World) :
  let text :=
    if (Z.of_nat (List.length transcription) >? MAX_TRANSCRIPTION_LENGTH config)%Z
    then shortened config transcription else transcription in
  let lines := split newline text in
  exists prepared_text,
    outcome (_prepare_transcription_for_analysis config transcription) s
    = inr prepared_text
    /\ List.length (split newline prepared_text) = List.length lines
    /\ forall i line,
         nth_error lines i = Some line ->
         exists out,
           nth_error (split newline prepared_text) i = Some out
           /\ numbered_line i (List.length lines) line out.
Proof.
  intros text lines. exists (numbered text). split.
  - unfold outcome. rewrite prepare_eq. cbn [snd]. unfold prepared. fold text.
    unfold text. now destruct (_ >? _)%Z.
  - rewrite numbered_lines. fold lines. split.
    + apply number_lines_length.
    + intros i line H.
      exact (number_lines_shape lines 0 (List.length lines) i line (Nat.le_refl _) H).
Qed.

(** X4.  A transcription longer than [MAX_TRANSCRIPTION_LENGTH] (a limit
    that is not negative) is shortened to three parts and 51 characters of
    markers: with [part_size = MAX_TRANSCRIPTION_LENGTH // 3], the text
    that is numbered has [3 * part_size + 51] characters when [part_size]
    is positive; when [part_size] is 0 the last part, [transcription[-0:]],
    is the whole transcription. *)
Theorem X4_shortened_transcription_length (transcription : str) (s : store World) :
  let len := Z.of_nat (List.length transcription) in
  let part_size := (MAX_TRANSCRIPTION_LENGTH config / 3)%Z in
  (0 <= MAX_TRANSCRIPTION_LENGTH config < len)%Z ->
  outcome (_prepare_transcription_for_analysis config transcription) s
  = inr (numbered (shortened config transcription))
  /\ Z.of_nat (List.length (shortened config transcription))
     = (2 * part_size + 51 + (if (part_size =? 0)%Z then len else part_size))%Z
  /\ ((part_size =? 0)%Z = true ->
      slice_from transcription (- part_size) = transcription).
Proof.
  intros len part_size H. split; [|split].
  - unfold outcome. rewrite prepare_eq. cbn [snd]. unfold prepared. fold len.
    assert (E : (len >? MAX_TRANSCRIPTION_LENGTH config)%Z = true)
      by (apply Z.gtb_lt; lia).
    now rewrite E.
  - now apply shortened_length.
  - intros E. apply Z.eqb_eq in E. rewrite E. apply slice_from_zero.
Qed.

(** X5.  [_parse_improvement_response] never raises and writes nothing to
    the log.  In the dictionary it returns, [improvement_reason] holds no
    newline and no blank at either end; each suggested boundary is the
    original one or the value of an unsigned decimal literal; and
    [changed] says whether a suggested boundary differs from the original
    one.  The [confidence] is MEDIUM when the answer has no CONFIDENCE
    field, and otherwise the capital form of what the field captured, a
    word that reads HIGH, MEDIUM or LOW when the case of its letters is
    left aside; for an answer of ASCII characters it is therefore one of
    HIGH, MEDIUM and LOW.  (Beyond U+00FF a character may stand for a
    letter without being one, as U+0130 for I, and the capital form is
    then none of the three words.) *)
Theorem X5_improvement_parse_well_formed (response_text : str)
    (original_start original_end : float) (s : store World) :
  exists r,
    _parse_improvement_response response_text original_start original_end s = (s, inr r)
    /\ match search confidence_pattern response_text with
       | None => confidence r = lit "MEDIUM"
       | Some m =>
           confidence r = upper (group 1 m)
           /\ (matches_text true (lit "HIGH") (group 1 m) = true
               \/ matches_text true (lit "MEDIUM") (group 1 m) = true
               \/ matches_text true (lit "LOW") (group 1 m) = true)
       end
    /\ (ascii_only response_text = true ->
        In (confidence r) [lit "HIGH"; lit "MEDIUM"; lit "LOW"])
    /\ single_line (improvement_reason r) /\ trimmed (improvement_reason r)
    /\ (suggested_start r = original_start
        \/ exists l, decimal l /\ float_of_str l = Some (suggested_start r))
    /\ (suggested_end r = original_end
        \/ exists l, decimal l /\ float_of_str l = Some (suggested_end r))
    /\ changed r = Some (PyFloat.neqb (suggested_start r) original_start
                         || PyFloat.neqb (suggested_end r) original_end).
Proof.
  eexists. split; [apply parse_improvement_eq|].
  cbn [confidence improvement_reason suggested_start suggested_end changed].
  split; [|split; [|split; [|split; [|split; [|split]]]]].
  - destruct (search confidence_pattern response_text) as [m|] eqn:E.
    + split; [reflexivity | exact (search_confidence_word _ _ E)].
    + reflexivity.
  - intros _. destruct (search confidence_pattern response_text) as [m|] eqn:E.
    + exact (search_confidence _ _ E).
    + simpl. auto.
  - destruct (search reason_pattern response_text) as [m|] eqn:E.
    + exact (search_reason _ _ E).
    + reflexivity.
  - destruct (search reason_pattern response_text) as [m|] eqn:E.
    + apply strip_trimmed.
    + split; reflexivity.
  - apply (suggested_cases "SUGGESTED_START:").
  - apply (suggested_cases "SUGGESTED_END:").
  - reflexivity.
Qed.

(** X6.  [suggest_clip_improvements] never raises, whatever the service
    does.  When the service raises, the result keeps the two boundaries,
    says LOW and has no [changed] entry, and one error is logged; when the
    service answers, the result is the parse of the answer, it has a
    [changed] entry and nothing is logged, and for an answer of ASCII
    characters its [confidence] is one of HIGH, MEDIUM and LOW. *)
Theorem X6_suggest_never_raises (transcription : str) (start_time end_time : float)
    (s : store World) :
  let q := improvement_request model
             (improvement_prompt transcription start_time end_time) in
  let run := suggest_clip_improvements create model transcription start_time end_time in
  exists r,
    outcome run s = inr r
    /\ (forall w' e, create q (world s) = (w', inl e) ->
          r = Improvement start_time end_time (lit "Could not analyze improvements")
                (lit "LOW") None
          /\ run s = (Store w' (logs s ++ [(ERROR, Failed_to_suggest e)]), inr r))
    /\ (forall w' text, create q (world s) = (w', inr text) ->
          outcome (_parse_improvement_response text start_time end_time) s = inr r
          /\ changed r <> None
          /\ run s = (Store w' (logs s), inr r)
          /\ (ascii_only text = true ->
              In (confidence r) [lit "HIGH"; lit "MEDIUM"; lit "LOW"])).
Proof.
  intros q run. unfold run, outcome, suggest_clip_improvements, try_except, bind, call.
  fold q. destruct (create q (world s)) as [w' [e | text]].
  - eexists. split; [reflexivity|]. split.
    + intros w'' e' E. inversion E; subst. split; reflexivity.
    + intros w'' text E. discriminate E.
  - destruct (parse_improvement_pure World text start_time end_time) as (r & Hr & Hc & Hch).
    rewrite (Hr (Store w' (logs s))). exists r. split; [reflexivity|]. split.
    + intros w'' e E. discriminate E.
    + intros w'' text' E. inversion E; subst. rewrite (Hr s). cbn [snd].
      split; [reflexivity|]. split; [rewrite Hch; discriminate|].
      split; [reflexivity | intros _; exact Hc].
Qed.

End ClipFinderProperties.

Section TopicProperties.
Import Re PyStr PyNum ReSpec ReFacts ClipFinderFacts.
Import PyFloatSpec TimestampFacts LinesSpec TextSpec PrepareFacts ImprovementFacts.
Import EffOf TopicExtraction TopicExtractionFacts TopicFormatSpec TopicFormatFacts.

Variable World : Type.
Variable create : request -> World -> World * (exn + str).
Variable model : str.

(** X7.  [_parse_topics_response] never raises and writes nothing to the
    log.  It returns one topic for each match of the pattern in the text,
    in the order of the matches (the number a match captures always
    converts, so no match is passed over): the [timestamp] of the k-th
    topic is the value of the first group of the k-th match, its
    [description] the stripped second group, and its [topic_id] is k,
    counting from 1.  Each [timestamp] is at least 0.0 (and no NaN), and
    each [description] holds no newline and no blank at either end. *)
Theorem X7_topics_one_per_match_numbered (response_text : str)
    (s : store World topics_message) :
  exists topics,
    _parse_topics_response response_text s = (s, inr topics)
    /\ Forall2 (fun m t =>
                  float_of_str (group 1 m) = Some (timestamp t)
                  /\ description t = strip (group 2 m))
               (finditer topic_pattern response_text) topics
    /\ List.length topics = List.length (finditer topic_pattern response_text)
    /\ map topic_id topics = seq 1 (List.length topics)
    /\ Forall (fun t => PyFloat.leb PyFloat.zero (timestamp t) = true
                        /\ single_line (description t)
                        /\ trimmed (description t)) topics.
Proof.
  exists (topics_loop (findall2 topic_pattern response_text) []).
  pose proof (findall_topics response_text) as F.
  assert (D : Forall (fun match_ : str * str => decimal (fst match_))
                (findall2 topic_pattern response_text)).
  { eapply Forall_impl; [|exact F]. now intros m [D _]. }
  split; [reflexivity|]. split; [|split; [|split]].
  - destruct (topics_loop_built _ D []) as (new & E & B). cbn [app] in E. rewrite E.
    unfold findall2 in B. apply forall2_map in B. exact B.
  - rewrite (topics_loop_length _ D). unfold findall2. now rewrite length_map.
  - now apply topics_loop_ids.
  - apply topics_loop_all; [|constructor].
    eapply Forall_impl; [|exact F]. intros [number words] (_ & c & d & E & L) ts n Hts.
    cbn [timestamp description fst snd] in *. subst words. split; [|split].
    + apply nonneg_leb_zero. now apply (float_of_str_plain _ _ Hts).
    + now apply strip_line.
    + apply strip_trimmed.
Qed.

(** X8.  [extract_key_topics] never raises.  When the service raises it
    returns the empty list and logs one error that carries the exception;
    when the service answers it returns the topics parsed from the answer
    and logs nothing. *)
Theorem X8_extract_topics_never_raises (transcription : str)
    (s : store World topics_message) :
  let q := topics_request model (topics_prompt transcription) in
  let run := extract_key_topics create model transcription in
  exists topics,
    outcome run s = inr topics
    /\ (forall w' e, create q (world s) = (w', inl e) ->
          topics = []
          /\ run s = (Store w' (logs s ++ [(ERROR, Failed_to_extract_topics e)]),
                      inr topics))
    /\ (forall w' text, create q (world s) = (w', inr text) ->
          outcome (_parse_topics_response text) s = inr topics
          /\ run s = (Store w' (logs s), inr topics)).
Proof.
  intros q run. unfold run, outcome, extract_key_topics, try_except, bind, call.
  fold q. destruct (create q (world s)) as [w' [e | text]].
  - eexists. split; [reflexivity|]. split.
    + intros w'' e' E. inversion E; subst. split; reflexivity.
    + intros w'' text E. discriminate E.
  - eexists. split; [reflexivity|]. split.
    + intros w'' e E. discriminate E.
    + intros w'' text' E. inversion E; subst. split; reflexivity.
Qed.

(** X18.  An answer in the format the prompt asks for is read back as it
    was written: for lines [TOPIC <number>: <seconds>s - <description>],
    one below the other, where each number is a run of digits, the seconds
    are a decimal literal and the description is one non-empty line with
    no blank at either end, [_parse_topics_response] returns one topic for
    each line, in order, with the value of the seconds and the description
    unchanged.  The [topic_id] is the position of the line, from 1, not
    the number written in it. *)
Theorem X18_topics_format_read_back (ts : list written)
    (s : store World topics_message) :
  Forall well_written ts ->
  exists topics,
    _parse_topics_response (topics_text ts) s = (s, inr topics)
    /\ Forall2 (fun t topic =>
                  float_of_str (w_seconds t) = Some (timestamp topic)
                  /\ description topic = w_description t)
               ts topics
    /\ map topic_id topics = seq 1 (List.length ts).
Proof.
  intros W.
  exists (topics_loop (findall2 topic_pattern (topics_text ts)) []).
  split; [reflexivity|]. rewrite (findall_topics_text ts W).
  assert (D : Forall (fun match_ : str * str => decimal (fst match_))
                (map (fun t => (w_seconds t, w_description t)) ts)).
  { apply Forall_map. eapply Forall_impl; [|exact W]. intros t H. exact (proj1 (proj2 (proj2 H))). }
  destruct (topics_loop_built _ D []) as (new & E & F). cbn [app] in E. rewrite E.
  apply forall2_map in F. cbn [fst snd] in F.
  assert (F' : Forall2 (fun t topic =>
                          float_of_str (w_seconds t) = Some (timestamp topic)
                          /\ description topic = w_description t) ts new).
  { clear E D. induction F as [|t topic ts' new' [H1 H2] F IH]; [constructor|].
    inversion W as [|t' ts'' Wt Wts]; subst.
    constructor; [|now apply IH]. split; [exact H1|].
    rewrite H2. apply strip_plain. exact (proj2 (proj2 (proj2 (proj2 (proj2 Wt))))). }
  split; [exact F'|].
  pose proof (topics_loop_ids (map (fun t => (w_seconds t, w_description t)) ts) []
                eq_refl) as I.
  rewrite E in I. rewrite I. now rewrite (Forall2_length F').
Qed.

End TopicProperties.

Section InitProperties.
Import PyStr PrepareFacts EffOf ClipFinderInit.

Variable World : Type.
Variable Client : Type.
Variable OpenAI : str -> World -> World * (exn + Client).

(** X9.  [__init__] raises [ConfigurationError] with the message
    "OpenAI API key is required" exactly when the key is empty or holds
    only blank characters, and then the client is not constructed and
    nothing is logged.  With any other key it constructs the client with
    that very key, unstripped: what the construction raises is raised, and
    otherwise the finder holds the key, the model and the client, and one
    line is logged. *)
Theorem X9_blank_api_key_rejected (api_key model : str)
    (s : store World init_message) :
  let run := __init__ OpenAI api_key model in
  (forallb is_space api_key = true ->
     run s = (s, inl (ConfigurationError (lit "OpenAI API key is required"))))
  /\ (forallb is_space api_key = false ->
      match OpenAI api_key (world s) with
      | (w', inl e) => run s = (Store w' (logs s), inl (ClientError e))
      | (w', inr c) =>
          run s = (Store w' (logs s ++ [(INFO, Initialized_with_model model)]),
                   inr (ClipFinder api_key model c))
      end).
Proof.
  intros run. unfold run, __init__. split; intros H.
  - apply strip_nil in H. rewrite H. cbn [is_empty]. rewrite orb_true_r. reflexivity.
  - assert (E : is_empty api_key || is_empty (strip api_key) = false).
    { apply orb_false_iff. split.
      - destruct api_key; [discriminate H | reflexivity].
      - destruct (strip api_key) eqn:S; [|reflexivity].
        apply strip_nil in S. congruence. }
    rewrite E. unfold bind, call, new_client, log, ret.
    destruct (OpenAI api_key (world s)) as [w' [e | c]]; reflexivity.
Qed.

End InitProperties.

(** * Further properties of topic_classifier.py *)

Section ClassifierProperties.
Import PyFloat PyFloatSpec PyFloatArith PyFloatBounds PyFloatOps TopicClassifier ClusteringSpec.
Import PyFloatMono ClassifierSpec ClassifierFacts ClusteringFacts SuggestionFacts CombinedFacts.
Import PyFloatOrder BestSpec WeightFacts BestFacts VerdictFacts TopThreeFacts.

Variable categories : list (str * list str).

(** X10.  What [_calculate_category_weights] writes is what the
    classifiers read: for a category of the configuration other than
    'general' (the keys of the configuration are distinct, as those of a
    dictionary are), the weight looked up for one of its keywords is the
    weight computed for that keyword, and the default 1.0 is what any
    other word gets.  The weight of a keyword is 1.0, 1.5, 2.0 or 3.0: 1.5
    for more than one word, twice that for a specific term.  'general' has
    no weights. *)
Theorem X10_weights_written_are_read (category : str) (keywords : list str)
    (keyword : str) :
  NoDup (map fst categories) ->
  In (category, keywords) categories ->
  category <> lit "general" ->
  (In keyword keywords -> weight_of categories category keyword = keyword_weight keyword)
  /\ (~ In keyword keywords -> weight_of categories category keyword = f1)
  /\ keyword_weight keyword
     = (if (1 <? word_count keyword)%nat
        then if existsb (PyStr.eqb keyword) specific_terms then of_Z 3 else f1_5
        else if existsb (PyStr.eqb keyword) specific_terms then f2 else f1)
  /\ Dict.get (lit "general") (_calculate_category_weights categories) = None.
Proof.
  intros N H G.
  pose proof (weight_of_keyword categories category keywords keyword N H G) as W.
  split; [|split; [|split]].
  - intros I. rewrite W.
    destruct (in_dec (list_eq_dec Ascii.ascii_dec) keyword keywords);
      [reflexivity | contradiction].
  - intros I. rewrite W.
    destruct (in_dec (list_eq_dec Ascii.ascii_dec) keyword keywords);
      [contradiction | reflexivity].
  - apply keyword_weight_values.
  - apply general_has_no_weights.
Qed.

(** X11.  [classify_by_description] scores a category exactly when the
    category is not 'general' and one of its keywords is part of the
    lowered description, and the entry of a scored category lists those of
    its keywords that are, in their order.  With no category scored the
    result is the fallback: 'general', 0.0, no scores.  Otherwise the
    primary category is the first of the categories with the largest
    score, and the confidence is [min(score / 5, 1.0)], above 0.0 and at
    most 1.0. *)
Theorem X11_description_first_best_category (description : str) :
  let r := classify_by_description categories description in
  (forall category,
     In category (keys (all_scores r))
     <-> category <> lit "general"
         /\ exists keywords,
              In (category, keywords) categories
              /\ mentioned (PyStr.lower description) keywords = true)
  /\ Forall (fun ce =>
               exists keywords,
                 In (fst ce, keywords) categories
                 /\ matched_keywords (snd ce)
                    = filter (fun keyword => PyStr.contains keyword (PyStr.lower description))
                             keywords)
            (all_scores r)
  /\ match all_scores r with
     | [] => r = Classification (lit "general") f0 [] (lit "default_fallback")
     | _ :: _ =>
         method r = lit "description_keywords"
         /\ exists e,
              first_maximum (fun ce => score (snd ce)) (all_scores r) (primary_category r, e)
              /\ confidence_score r = min (div (score e) f5) f1
              /\ ltb f0 (confidence_score r) = true
              /\ leb (confidence_score r) f1 = true
     end.
Proof.
  intros r.
  assert (A : all_scores r = description_scores categories description)
    by apply description_all_scores.
  split; [|split].
  - intros category. rewrite A. apply description_scores_key.
  - rewrite A. eapply Forall_impl; [|apply description_scores_entries].
    intros [c e] (ks & I & E). cbn [fst snd] in *. exists ks. split; [exact I|].
    rewrite E. apply description_entry_spec.
  - pose proof (description_cases categories description) as C. cbv zeta in C.
    fold r in C. revert A C. unfold r, classify_by_description.
    destruct (best_of (description_scores categories description)) as [[c e]|] eqn:B.
    + cbn [all_scores method primary_category confidence_score]. intros _ C.
      pose proof (best_of_first _ _
                    (scores_ge_nonneg _ (description_scores_ok categories description)) B)
        as F.
      destruct (description_scores categories description) as [|first others] eqn:D;
        [discriminate B|].
      split; [reflexivity|]. exists e. split; [exact F|]. split; [reflexivity|].
      destruct C as [[G _] | C]; [|now apply confident_bounds].
      exfalso. apply first_maximum_in in F.
      assert (K : In c (keys (description_scores categories description))).
      { rewrite D. unfold keys. apply in_map_iff. now exists (c, e). }
      apply description_scores_key in K. now destruct K.
    + reflexivity.
Qed.

(** X12.  For a segment whose length converts to a float:
    [classify_by_content] answers 'general' with method 'empty_content'
    exactly for a blank segment.  For any other segment it scores a
    category exactly when the category is not 'general' and one of its
    keywords occurs in the lowered segment as a whole word, and the entry
    lists those of its keywords that do.  With no category scored the
    result is 'general', 0.0, 'no_keywords_found'; otherwise the primary
    category is the first of the categories with the largest score, and
    the confidence is [min(score / 10 * (1 + keywords * 0.1), 1.0)], above
    0.0 and at most 1.0. *)
Theorem X12_content_first_best_category (transcript_segment : str) :
  length_converts transcript_segment ->
  let r := classify_by_content categories transcript_segment in
  (forallb PyStr.is_space transcript_segment = true ->
     r = Classification (lit "general") f0 [] (lit "empty_content"))
  /\ (forallb PyStr.is_space transcript_segment = false ->
      (forall category,
         In category (keys (all_scores r))
         <-> category <> lit "general"
             /\ exists keywords,
                  In (category, keywords) categories
                  /\ occurring (PyStr.lower transcript_segment) keywords = true)
      /\ Forall (fun ce =>
                   exists keywords,
                     In (fst ce, keywords) categories
                     /\ matched_keywords (snd ce)
                        = filter (fun keyword =>
                                    (0 <? occurrences (PyStr.lower transcript_segment)
                                            keyword)%nat)
                                 keywords)
                (all_scores r)
      /\ match all_scores r with
         | [] => r = Classification (lit "general") f0 [] (lit "no_keywords_found")
         | _ :: _ =>
             method r = lit "content_analysis"
             /\ exists e,
                  first_maximum (fun ce => score (snd ce)) (all_scores r)
                    (primary_category r, e)
                  /\ confidence_score r
                     = min (mul (div (score e) f10)
                              (add f1 (mul (of_Z (Z.of_nat (List.length (matched_keywords e))))
                                           f0_1)))
                           f1
                  /\ ltb f0 (confidence_score r) = true
                  /\ leb (confidence_score r) f1 = true
         end).
Proof.
  intros Hlen r. split.
  - intros B. apply PrepareFacts.strip_nil in B.
    unfold r, classify_by_content. now rewrite B.
  - intros B.
    assert (S : exists c s, PyStr.strip transcript_segment = c :: s).
    { destruct (PyStr.strip transcript_segment) as [|c s] eqn:E; [|eauto].
      apply PrepareFacts.strip_nil in E. congruence. }
    destruct S as (c0 & s0 & S).
    pose proof (content_cases categories transcript_segment Hlen) as C. cbv zeta in C.
    fold r in C. revert C. unfold r, classify_by_content. rewrite S.
    destruct (best_of (content_scores categories transcript_segment)) as [[c e]|] eqn:Best.
    + cbn [all_scores method primary_category confidence_score]. intros C.
      pose proof (best_of_first _ _
                    (scores_ge_nonneg _ (content_scores_ok categories _ Hlen)) Best) as F.
      split; [intros category; apply content_scores_key|]. split.
      * eapply Forall_impl; [|apply content_scores_entries].
        intros [c' e'] (ks & I & E). cbn [fst snd] in *. exists ks. split; [exact I|].
        pose proof (content_entry_spec categories (PyStr.lower transcript_segment) c' ks)
          as Sp.
        rewrite E in Sp. exact (proj2 Sp).
      * destruct (content_scores categories transcript_segment) as [|first others] eqn:D;
          [discriminate Best|].
        split; [reflexivity|]. exists e. split; [exact F|]. split; [reflexivity|].
        destruct C as [[G _] | C]; [|now apply confident_bounds].
        exfalso. apply first_maximum_in in F.
        assert (K : In c (keys (content_scores categories transcript_segment))).
        { rewrite D. unfold keys. apply in_map_iff. now exists (c, e). }
        apply content_scores_key in K. now destruct K.
    + intros _. cbn [all_scores]. apply best_of_none in Best.
      split; [|split; [constructor | reflexivity]].
      intros category. cbn [keys map In]. rewrite <- content_scores_key, Best.
      reflexivity.
Qed.

(** X13.  For a segment whose length converts to a float: the category
    [classify_combined] names is the one the description gave or the one
    the segment gave, and it is 'general' only when both classifications
    fell back to 'general'; the combined confidence is 0.0 in that case
    and otherwise above 0.0 and at most 1.0.  When only one of the two
    found a category, that category is named, with 0.7 times its
    confidence, and the result is marked as a disagreement.  The result
    has no [disagreement] entry exactly when the two agree. *)
Theorem X13_combined_general_only_if_both (description transcript_segment : str)
    (start_time end_time : float) :
  length_converts transcript_segment ->
  let desc_result := classify_by_description categories description in
  let content_result := classify_by_content categories transcript_segment in
  let r := classify_combined categories description transcript_segment start_time end_time in
  (c_primary_category r = primary_category desc_result
   \/ c_primary_category r = primary_category content_result)
  /\ (c_primary_category r = lit "general"
      <-> primary_category desc_result = lit "general"
          /\ primary_category content_result = lit "general")
  /\ (c_confidence_score r = f0 <-> c_primary_category r = lit "general")
  /\ leb f0 (c_confidence_score r) = true
  /\ leb (c_confidence_score r) f1 = true
  /\ (primary_category desc_result = lit "general" ->
      primary_category content_result <> lit "general" ->
      c_primary_category r = primary_category content_result
      /\ c_confidence_score r = mul (confidence_score content_result) f0_7
      /\ c_method r = lit "content_primary"
      /\ disagreement r = Some true)
  /\ (primary_category desc_result <> lit "general" ->
      primary_category content_result = lit "general" ->
      c_primary_category r = primary_category desc_result
      /\ c_confidence_score r = mul (confidence_score desc_result) f0_7
      /\ c_method r = lit "description_primary"
      /\ disagreement r = Some true)
  /\ (disagreement r = None
      <-> primary_category desc_result = primary_category content_result).
Proof.
  intros Hlen desc_result content_result r.
  pose proof (description_split categories description) as Sd.
  pose proof (content_split categories transcript_segment Hlen) as Sc.
  pose proof (description_in_format categories description) as Fd.
  pose proof (content_in_format categories transcript_segment Hlen) as Fc.
  cbv zeta in Sd, Sc. fold desc_result in Sd, Fd. fold content_result in Sc, Fc.
  unfold r, classify_combined. fold desc_result content_result.
  set (pd := primary_category desc_result) in *.
  set (pc := primary_category content_result) in *.
  set (d := confidence_score desc_result) in *.
  set (c := confidence_score content_result) in *.
  destruct (PyStr.eqb pd pc) eqn:E.
  - apply eqb_eq in E.
    cbn [c_primary_category c_confidence_score c_method disagreement].
    assert (Hd : d = f0 \/ confident d) by (destruct Sd as [[_ H] | [_ H]]; auto).
    assert (Hc : c = f0 \/ confident c) by (destruct Sc as [[_ H] | [_ H]]; auto).
    destruct (agreement_boost d c Hc Hd Fd Fc) as (B1 & B2 & B3). cbv zeta in B1, B2, B3.
    split; [now left|]. split; [rewrite <- E; tauto|]. split.
    + destruct Sd as [[Gd Zd] | [Nd Cd]].
      * destruct Sc as [[Gc Zc] | [Nc Cc]]; [|congruence].
        rewrite Zd, Zc. split; [intros _; exact Gd | intros _; vm_compute; reflexivity].
      * destruct Sc as [[Gc Zc] | [Nc Cc]]; [congruence|].
        split; [|intros G; contradiction].
        intros Z. exfalso. rewrite Z in B1.
        assert (P : ltb f0 (min d c) = true).
        { unfold min. destruct (ltb c d); now apply confident_bounds. }
        apply PyFloatFacts.ltb_not_leb in P. congruence.
    + split; [exact B2|]. split; [exact B3|].
      split; [intros G N; congruence|]. split; [intros N G; congruence|].
      split; [intros _; exact E | reflexivity].
  - assert (N : pd <> pc) by (intros X; apply eqb_eq in X; congruence).
    assert (Hh : exists x m,
               (if gtb d c then (desc_result, lit "description_primary")
                else (content_result, lit "content_primary")) = (x, m)
               /\ primary_category x <> lit "general"
               /\ confident (confidence_score x)
               /\ (pd = lit "general" -> x = content_result /\ m = lit "content_primary")
               /\ (pc = lit "general" -> x = desc_result /\ m = lit "description_primary")
               /\ (x = desc_result \/ x = content_result)).
    { unfold pd, pc, d, c in *.
      destruct Sd as [[Gd Zd] | [Nd Cd]], Sc as [[Gc Zc] | [Nc Cc]].
      - congruence.
      - rewrite Zd. unfold gtb.
        rewrite (positive_not_below _ (proj1 (confident_bounds _ Cc))).
        exists content_result, (lit "content_primary").
        split; [reflexivity|]. split; [exact Nc|]. split; [exact Cc|].
        split; [intros _; split; reflexivity|]. split; [intros G; contradiction|].
        now right.
      - rewrite Zc. unfold gtb. rewrite (proj1 (confident_bounds _ Cd)).
        exists desc_result, (lit "description_primary").
        split; [reflexivity|]. split; [exact Nd|]. split; [exact Cd|].
        split; [intros G; contradiction|]. split; [intros _; split; reflexivity|].
        now left.
      - destruct (gtb (confidence_score desc_result) (confidence_score content_result)).
        + exists desc_result, (lit "description_primary").
          split; [reflexivity|]. split; [exact Nd|]. split; [exact Cd|].
          split; [intros G; contradiction|]. split; [intros G; contradiction|].
          now left.
        + exists content_result, (lit "content_primary").
          split; [reflexivity|]. split; [exact Nc|]. split; [exact Cc|].
          split; [intros G; contradiction|]. split; [intros G; contradiction|].
          now right. }
    destruct Hh as (x & m & -> & Nx & Cx & Hg1 & Hg2 & Hx).
    cbn [c_primary_category c_confidence_score c_method disagreement].
    destruct (penalty_bounds _ Cx) as [P1 P2].
    split; [destruct Hx as [-> | ->]; auto|].
    split; [split; [intros G; contradiction | intros [G1 G2]; congruence]|].
    split; [split; [intros Z; exfalso; exact (positive_not_zero _ P1 Z)
                   | intros G; contradiction]|].
    split; [now apply ltb_leb|]. split; [exact P2|].
    split; [intros G _; destruct (Hg1 G) as [-> ->]; auto|].
    split; [intros _ G; destruct (Hg2 G) as [-> ->]; auto|].
    split; [discriminate | intros X; contradiction].
Qed.

(** X14.  For a segment whose length converts to a float: the
    suggestions of [get_category_suggestions] name distinct categories,
    each of them scored by the description or by the segment.  They are
    the best of those categories: a scored category that is not suggested
    is left out only when three others are suggested, and its confidence,
    [min((description_score * 0.6 + content_score * 0.8) / 10, 1.0)], is
    at most that of each of the three.  There is no suggestion exactly
    when neither classification scored a category. *)
Theorem X14_suggestions_are_the_best_categories (description transcript_segment : str) :
  length_converts transcript_segment ->
  let by_description := all_scores (classify_by_description categories description) in
  let by_content := all_scores (classify_by_content categories transcript_segment) in
  let suggestions := get_category_suggestions categories description transcript_segment in
  NoDup (map category suggestions)
  /\ (forall s, In s suggestions ->
        In (category s) (keys by_description) \/ In (category s) (keys by_content))
  /\ (forall k, In k (keys by_description) \/ In k (keys by_content) ->
        (exists s, In s suggestions /\ category s = k)
        \/ (List.length suggestions = 3%nat
            /\ forall t, In t suggestions ->
                 leb (min (div (total by_description by_content k) f10) f1) (confidence t)
                 = true))
  /\ (suggestions = [] <-> by_description = [] /\ by_content = []).
Proof.
  intros Hlen by_description by_content suggestions.
  pose proof (suggestions_ok categories description transcript_segment Hlen) as H.
  cbv zeta in H. fold by_description by_content in H.
  set (cs := add_content_scores by_content (add_description_scores by_description []))
    in H.
  set (all := map suggestion_of cs) in H.
  change suggestions with (firstn 3 (sort_desc confidence all)).
  assert (Kcs : forall k, In k (keys cs)
                          <-> In k (keys by_description) \/ In k (keys by_content)).
  { intros k. unfold cs. rewrite add_content_keys, add_description_keys.
    cbn [keys map In]. tauto. }
  assert (Ncs : NoDup (map category all)).
  { unfold all. rewrite suggestion_categories. unfold cs.
    apply add_content_nodup, add_description_nodup. constructor. }
  pose proof (sort_desc_perm _ confidence all) as P.
  assert (Hs : Forall (fun s => suggestion_ok by_description by_content s
                                /\ finite_nonneg (confidence s) = true)
                 (sort_desc confidence all)).
  { exact (Permutation_Forall P H). }
  assert (S : StronglySorted (fun a b => leb (confidence b) (confidence a) = true)
                (sort_desc confidence all)).
  { apply sorted_leb.
    - eapply Forall_impl; [|exact Hs]. intros s [_ F]. exact F.
    - apply sort_desc_sorted. eapply Forall_impl; [|exact H]. intros s [_ F]. exact F. }
  assert (T : forall k, In k (keys by_description) \/ In k (keys by_content) ->
                (exists s, In s (firstn 3 (sort_desc confidence all)) /\ category s = k)
                \/ (List.length (firstn 3 (sort_desc confidence all)) = 3%nat
                    /\ forall t, In t (firstn 3 (sort_desc confidence all)) ->
                         leb (min (div (total by_description by_content k) f10) f1)
                             (confidence t) = true)).
  { intros k Hk. apply Kcs in Hk. rewrite <- (suggestion_categories cs) in Hk.
    fold all in Hk. apply in_map_iff in Hk. destruct Hk as (s & <- & Hin).
    assert (Ok : suggestion_ok by_description by_content s).
    { rewrite Forall_forall in H. now apply H. }
    apply (Permutation_in _ P) in Hin.
    destruct (firstn_top _ 3 _ s S Hin) as [L | [L1 L2]]; [left; now exists s | right].
    split; [exact L1|]. intros t Ht. specialize (L2 t Ht). cbv beta in L2.
    destruct Ok as (O1 & O2 & O3 & _). unfold total. rewrite <- O1, <- O2, <- O3.
    exact L2. }
  split; [|split; [|split]].
  - rewrite <- firstn_map. apply nodup_firstn.
    exact (Permutation_NoDup (Permutation_map category P) Ncs).
  - intros s Hin. apply firstn_in in Hin.
    apply (Permutation_in _ (Permutation_sym P)) in Hin.
    apply Kcs. rewrite <- (suggestion_categories cs). apply in_map. exact Hin.
  - exact T.
  - split.
    + intros E. rewrite E in T.
      assert (None_scored : forall k, ~ (In k (keys by_description)
                                         \/ In k (keys by_content))).
      { intros k Hk. destruct (T k Hk) as [(s & [] & _) | [L _]]. discriminate L. }
      split.
      * destruct by_description as [|[k e] l]; [reflexivity|].
        exfalso. apply (None_scored k). left. now left.
      * destruct by_content as [|[k e] l]; [reflexivity|].
        exfalso. apply (None_scored k). right. now left.
    + intros [E1 E2]. unfold all, cs. rewrite E1, E2. reflexivity.
Qed.


(** X16.  The clustering bonus depends on the positions alone, not on
    the order in which they were collected nor on the length of the
    content: two lists with the same positions, each as often, give the
    same bonus.  The bonus is never negative and never a NaN. *)
Theorem X16_clustering_bonus_ignores_order (positions positions' : list Z)
    (content_length content_length' : nat) :
  Permutation positions positions' ->
  _calculate_clustering_bonus positions content_length
  = _calculate_clustering_bonus positions' content_length'
  /\ leb f0 (_calculate_clustering_bonus positions content_length) = true.
Proof.
  intros P. split.
  - unfold _calculate_clustering_bonus.
    rewrite (Permutation_length P), (SortFacts.sort_asc_permutation _ _ P). reflexivity.
  - apply TimestampFacts.nonneg_leb_zero, clustering_nonneg.
Qed.

(** X17.  Whole-word matching is the stricter of the two: a keyword that
    [classify_by_content] counts in a text is part of that text, so every
    category the content analysis of a text scores is also scored when the
    same text is classified as a description. *)
Theorem X17_content_categories_are_description_categories (text : str) :
  (forall keyword,
     (0 <? occurrences (PyStr.lower text) keyword)%nat = true ->
     PyStr.contains keyword (PyStr.lower text) = true)
  /\ forall category,
       In category (keys (all_scores (classify_by_content categories text))) ->
       In category (keys (all_scores (classify_by_description categories text))).
Proof.
  split; [intros keyword; apply OccurrenceFacts.keyword_found|].
  intros category H. rewrite description_all_scores. apply description_scores_key.
  destruct (content_all_scores categories text) as [E | E]; rewrite E in H;
    [destruct H|].
  apply content_scores_key in H. destruct H as (G & ks & I & O).
  split; [exact G|]. exists ks. split; [exact I|].
  now apply OccurrenceFacts.occurring_mentioned.
Qed.

End ClassifierProperties.

(** * Concrete runs *)

(** The echo of 12.5 and 45.0 is returned as it is. *)
Lemma C1_echo_witness :
  PyNum.float_of_str (lit "12.5") = Some (PyFloat.of_ratio 125 10)
  /\ PyNum.float_of_str (lit "45.0") = Some (PyFloat.of_ratio 45 1)
  /\ PyFloat.ltb (PyFloat.of_ratio 125 10) (PyFloat.of_ratio 45 1) = true
  /\ Eff.outcome
       (ClipFinder.find_clip_timestamps
          (answering (ClipFinderSpec.echo (lit "12.5") (lit "45.0")))
          example_config (lit "gpt-4") (lit "a talk about rates") (lit "the part on rates"))
       empty_store
     = inr (Some (PyFloat.of_ratio 125 10), Some (PyFloat.of_ratio 45 1)).
Proof.
  split; [reflexivity|]. split; [reflexivity|]. split; [reflexivity|].
  unfold Eff.outcome.
  rewrite (@C1_echo_returned_unchanged unit
             (answering (ClipFinderSpec.echo (lit "12.5") (lit "45.0")))
             example_config (lit "gpt-4") (lit "a talk about rates")
             (lit "the part on rates") (lit "12.5") (lit "45.0")
             (PyFloat.of_ratio 125 10) (PyFloat.of_ratio 45 1) empty_store tt
             eq_refl eq_refl eq_refl eq_refl).
  reflexivity.
Defined.

(** C1, as first stated, fails for a pair of floats that are not written
    as unsigned decimal literals.  Python writes 1e16 and 2e16 as [1e+16]
    and [2e+16]: of the echo [START_TIME: 1e+16 END_TIME: 2e+16] the
    strict pattern captures [1] and [2], and the pair returned is
    (1.0, 2.0).  It writes 0.00001 as [1e-05]: of the echo
    [START_TIME: 1e-05 END_TIME: 0.5] the pattern captures [1] and [0.5],
    and nothing is returned. *)
Lemma C1_counterexample :
  let start_time := PyFloat.of_Z (10 ^ 16) in
  let end_time := PyFloat.of_Z (2 * 10 ^ 16) in
  let returned :=
    Eff.outcome
      (ClipFinder.find_clip_timestamps
         (answering (lit "START_TIME: 1e+16 END_TIME: 2e+16"))
         example_config (lit "gpt-4") (lit "a talk about rates") (lit "the part on rates"))
      empty_store in
  PyFloat.leb PyFloat.zero start_time = true
  /\ PyFloat.ltb start_time end_time = true
  /\ returned = inr (Some (PyFloat.of_Z 1), Some (PyFloat.of_Z 2))
  /\ returned <> inr (Some start_time, Some end_time)
  /\ PyFloat.ltb (PyFloat.of_ratio 1 100000) (PyFloat.of_ratio 5 10) = true
  /\ Eff.outcome
       (ClipFinder.find_clip_timestamps
          (answering (lit "START_TIME: 1e-05 END_TIME: 0.5"))
          example_config (lit "gpt-4") (lit "a talk about rates") (lit "the part on rates"))
       empty_store
     = inr ClipFinder.not_found.
Proof.
  vm_compute. repeat split; try reflexivity. discriminate.
Qed.

(** C2, as first stated, fails: here the START_TIME field is the NOT_FOUND
    sentinel, there is no END_TIME field, and the parse returns the pair the
    loose pattern finds instead of the absence marker. *)
Lemma C2_counterexample :
  let text := lit "START_TIME: NOT_FOUND, perhaps 10 seconds to 20 seconds" in
  (exists m, Re.search ClipFinder.start_pattern text = Some m
             /\ PyStr.upper (Re.group 1 m) = lit "NOT_FOUND")
  /\ Eff.outcome (ClipFinder._parse_timestamp_response text) empty_store
     = inr (Some (PyFloat.of_Z 10), Some (PyFloat.of_Z 20))
  /\ Eff.outcome (ClipFinder._parse_timestamp_response text) empty_store
     <> inr ClipFinder.not_found.
Proof.
  intros text. split; [|split].
  - eexists. split; vm_compute; reflexivity.
  - vm_compute. reflexivity.
  - vm_compute. discriminate.
Qed.

(** C5 fails when the service fails: the dictionary returned then has no
    [changed] entry. *)
Theorem C5_service_failure_omits_changed (e : exn) (model transcription : str)
    (start_time end_time : float) :
  ClipFinder.suggest_clip_improvements (failing e) model transcription
    start_time end_time empty_store
  = (Eff.Store tt [(ERROR, Failed_to_suggest e)],
     inr (ClipFinder.Improvement start_time end_time
            (lit "Could not analyze improvements") (lit "LOW") None)).
Proof. reflexivity. Qed.

(** A batch of three descriptions in which the service fails the second
    request: three items come back, and the second alone is marked as
    failed. *)
Lemma batch_of_three_second_fails :
  Eff.outcome
    (ClipFinder.find_multiple_clips second_fails example_config (lit "gpt-4")
       (lit "a talk about rates") [lit "first"; lit "second"; lit "third"])
    (Eff.Store 0%nat [])
  = inr [ClipFinder.ClipResult (lit "first") (Some (PyFloat.of_Z 10)) (Some (PyFloat.of_Z 50))
           (Some (PyFloat.of_Z 40)) true None;
         ClipFinder.ClipResult (lit "second") None None None false
           (Some (lit "OpenAI API error: connection error"));
         ClipFinder.ClipResult (lit "third") (Some (PyFloat.of_Z 10)) (Some (PyFloat.of_Z 50))
           (Some (PyFloat.of_Z 40)) true None].
Proof. vm_compute. reflexivity. Qed.

(** A batch of one description whose clip starts at 0.0. *)
Lemma C10_zero_start_witness :
  exists results item,
    Eff.outcome
      (ClipFinder.find_multiple_clips (answering (lit "START_TIME: 0.0 END_TIME: 30.5"))
         example_config (lit "gpt-4") (lit "a talk about rates") [lit "the opening"])
      empty_store = inr results
    /\ nth_error results 0 = Some item
    /\ ClipFinder.success item = true
    /\ ClipFinder.start_time item = Some PyFloat.zero
    /\ ClipFinder.end_time item = Some (PyFloat.of_ratio 305 10)
    /\ ClipFinder.duration item = None.
Proof.
  destruct (@C10_zero_start_has_no_duration unit
              (answering (lit "START_TIME: 0.0 END_TIME: 30.5"))
              example_config (lit "gpt-4") (lit "a talk about rates") [lit "the opening"]
              empty_store 0 (lit "the opening")
              (Eff.Store tt [(INFO, Finding_clip 1 1 (lit "the opening"))])
              PyFloat.zero (PyFloat.of_ratio 305 10) eq_refl eq_refl)
    as (results & item & H1 & H2 & H3 & H4 & H5 & H6 & H7).
  exists results, item. repeat split; try assumption.
Defined.

(** ** The classifier *)

(** C4, as first stated, fails: the description and the segment both give
    the category [fed], the description with confidence 1.0 and the segment
    with confidence 0.416..., and the combined confidence, 0.944..., is
    below the confidence of the description. *)
Lemma C4_counterexample :
  let desc_result :=
    TopicClassifier.classify_by_description example_categories
      (lit "federal reserve interest rate") in
  let content_result := TopicClassifier.classify_by_content example_categories fomc_segment in
  let d := TopicClassifier.confidence_score desc_result in
  let c := TopicClassifier.confidence_score content_result in
  let combined_confidence :=
    TopicClassifier.c_confidence_score
      (TopicClassifier.classify_combined example_categories
         (lit "federal reserve interest rate") fomc_segment PyFloat.zero (PyFloat.of_Z 60)) in
  TopicClassifier.primary_category desc_result = lit "fed"
  /\ TopicClassifier.primary_category content_result = lit "fed"
  /\ d = PyFloat.of_Z 1
  /\ combined_confidence
     = PyFloat.min (PyFloat.div (PyFloat.add d c) TopicClassifier.f1_5) TopicClassifier.f1
  /\ PyFloat.ltb combined_confidence d = true
  /\ PyFloat.leb d combined_confidence = false.
Proof. vm_compute. repeat split. Qed.

(** A disagreement: the description gives [inflation] with confidence 0.6,
    the segment gives [markets] with confidence 1.0; the combined
    confidence is 0.7 times the latter and below it. *)
Lemma C4_disagreement_witness :
  TopicClassifier.length_converts markets_segment
  /\ let content_result :=
       TopicClassifier.classify_by_content example_categories markets_segment in
     let combined_confidence :=
       TopicClassifier.c_confidence_score
         (TopicClassifier.classify_combined example_categories inflation_description
            markets_segment PyFloat.zero (PyFloat.of_Z 60)) in
     combined_confidence
     = PyFloat.mul (TopicClassifier.confidence_score content_result) TopicClassifier.f0_7
     /\ PyFloat.ltb combined_confidence (TopicClassifier.confidence_score content_result)
        = true.
Proof.
  assert (Hlen : TopicClassifier.length_converts markets_segment)
    by (vm_compute; discriminate).
  split; [exact Hlen|].
  pose proof (@C4_agreement_boost_and_disagreement_penalty example_categories
                inflation_description markets_segment PyFloat.zero (PyFloat.of_Z 60) Hlen)
    as T.
  vm_compute in T. vm_compute.
  destruct T as (T1 & _ & _ & T4). split; [exact T1 | exact T4].
Defined.

(** The suggestions for the same description and segment. *)
Lemma C9_suggestions_witness :
  TopicClassifier.length_converts markets_segment
  /\ let suggestions :=
       TopicClassifier.get_category_suggestions example_categories inflation_description
         markets_segment in
     (List.length suggestions <= 3)%nat
     /\ StronglySorted
          (fun a b => PyFloat.leb (TopicClassifier.confidence b)
                                  (TopicClassifier.confidence a) = true)
          suggestions.
Proof.
  assert (Hlen : TopicClassifier.length_converts markets_segment)
    by (vm_compute; discriminate).
  split; [exact Hlen|].
  pose proof (@C9_suggestions_top_three example_categories inflation_description
                markets_segment Hlen) as T.
  cbv zeta in T. destruct T as (L & S & _). cbv zeta. split; [exact L | exact S].
Defined.

(** * Concrete runs of the further properties *)

(** The answer names 12.5 and 45.0. *)
Lemma X1_ordered_witness :
  Eff.outcome
    (ClipFinder.find_clip_timestamps (answering (lit "START_TIME: 12.5 END_TIME: 45.0"))
       example_config (lit "gpt-4") (lit "a talk about rates") (lit "the part on rates"))
    empty_store
  = inr (Some (PyFloat.of_ratio 125 10), Some (PyFloat.of_ratio 45 1))
  /\ PyFloat.leb PyFloat.zero (PyFloat.of_ratio 125 10) = true
  /\ PyFloat.ltb (PyFloat.of_ratio 125 10) (PyFloat.of_ratio 45 1) = true.
Proof.
  assert (H : Eff.outcome
                (ClipFinder.find_clip_timestamps
                   (answering (lit "START_TIME: 12.5 END_TIME: 45.0"))
                   example_config (lit "gpt-4") (lit "a talk about rates")
                   (lit "the part on rates"))
                empty_store
              = inr (Some (PyFloat.of_ratio 125 10), Some (PyFloat.of_ratio 45 1)))
    by (vm_compute; reflexivity).
  split; [exact H|].
  exact (@X1_returned_timestamps_ordered unit _ _ _ _ _ _ _ _ H).
Defined.

(** A batch of three descriptions in which the second request fails. *)
Lemma X2_batch_witness :
  exists results,
    Eff.outcome
      (ClipFinder.find_multiple_clips second_fails example_config (lit "gpt-4")
         (lit "a talk about rates") [lit "first"; lit "second"; lit "third"])
      (Eff.Store 0%nat [])
    = inr results
    /\ map ClipFinder.success results = [true; false; true]
    /\ Forall (fun item =>
                 ClipFinder.success item = true ->
                 exists x y,
                   ClipFinder.start_time item = Some x /\ ClipFinder.end_time item = Some y
                   /\ PyFloat.leb PyFloat.zero x = true /\ PyFloat.ltb x y = true
                   /\ ClipFinder.duration item
                      = (if PyFloat.eqb x PyFloat.zero then None
                         else Some (PyFloat.sub y x))
                   /\ PyFloat.ltb PyFloat.zero (PyFloat.sub y x) = true)
              results.
Proof.
  eexists. split; [vm_compute; reflexivity|]. split; [reflexivity|].
  apply (@X2_successful_items_have_positive_duration nat second_fails example_config
           (lit "gpt-4") (lit "a talk about rates") [lit "first"; lit "second"; lit "third"]
           (Eff.Store 0%nat [])).
  vm_compute. reflexivity.
Defined.

(** A transcription of 100 characters under a limit of 30: the parts have
    10 characters each, and the text that is numbered has 81. *)
Lemma X4_shortened_witness :
  (0 <= MAX_TRANSCRIPTION_LENGTH short_config < Z.of_nat (List.length ten_lines))%Z
  /\ List.length (ClipFinder.shortened short_config ten_lines) = 81%nat
  /\ Eff.outcome (ClipFinder._prepare_transcription_for_analysis short_config ten_lines)
       empty_store
     = inr (ClipFinder.numbered (ClipFinder.shortened short_config ten_lines)).
Proof.
  assert (H : (0 <= MAX_TRANSCRIPTION_LENGTH short_config
               < Z.of_nat (List.length ten_lines))%Z) by (vm_compute; split; congruence).
  split; [exact H|]. split; [reflexivity|].
  exact (proj1 (@X4_shortened_transcription_length unit short_config ten_lines
                  empty_store H)).
Defined.

(** Two lines of topics, read back. *)
Lemma X18_read_back_witness :
  Forall TopicFormatSpec.well_written example_answer
  /\ exists topics,
       TopicExtraction._parse_topics_response (TopicFormatSpec.topics_text example_answer)
         (EffOf.Store tt [])
       = (EffOf.Store tt [], inr topics)
       /\ map TopicExtraction.description topics
          = [lit "Discussion of inflation trends and CPI data";
             lit "Federal Reserve policy implications"]
       /\ map TopicExtraction.topic_id topics = [1; 2]%nat.
Proof.
  assert (W : Forall TopicFormatSpec.well_written example_answer).
  { constructor; [|constructor; [|constructor]].
    - split; [discriminate|]. split; [reflexivity|]. split.
      + apply (@ReSpec.decimal_int (lit "45")); [discriminate | reflexivity].
      + split; [discriminate|]. split; [reflexivity | split; reflexivity].
    - split; [discriminate|]. split; [reflexivity|]. split.
      + apply (@ReSpec.decimal_frac (lit "128") (lit "5"));
          [discriminate | reflexivity | reflexivity].
      + split; [discriminate|]. split; [reflexivity | split; reflexivity]. }
  split; [exact W|].
  destruct (@X18_topics_format_read_back unit example_answer (EffOf.Store tt []) W)
    as (topics & E & F & I).
  exists topics. split; [exact E|]. split; [|exact I].
  inversion F as [|t1 x1 l1 l1' [_ D1] F1]; subst.
  inversion F1 as [|t2 x2 l2 l2' [_ D2] F2]; subst.
  inversion F2; subst. cbn [map]. now rewrite D1, D2.
Defined.

(** ** The classifier *)

(** 'federal reserve' has two words and is a specific term. *)
Lemma X10_weights_witness :
  NoDup (map fst example_categories)
  /\ TopicClassifier.weight_of example_categories (lit "fed") (lit "federal reserve")
     = TopicClassifier.keyword_weight (lit "federal reserve")
  /\ TopicClassifier.keyword_weight (lit "federal reserve") = PyFloat.of_Z 3.
Proof.
  assert (N : NoDup (map fst example_categories)).
  { vm_compute. repeat constructor; cbn [In]; intuition discriminate. }
  split; [exact N|].
  destruct (@X10_weights_written_are_read example_categories (lit "fed")
              [lit "federal reserve"; lit "interest rate"; lit "fomc"; lit "powell"]
              (lit "federal reserve") N
              ltac:(right; left; reflexivity) ltac:(vm_compute; discriminate))
    as (H1 & _ & H3 & _).
  split; [apply H1; now left | rewrite H3; reflexivity].
Defined.

(** The segment on the stock market: 'markets' is the one category with a
    whole-word occurrence. *)
Lemma X12_content_witness :
  TopicClassifier.length_converts markets_segment
  /\ forallb PyStr.is_space markets_segment = false
  /\ forall category,
       In category
          (ClassifierSpec.keys
             (TopicClassifier.all_scores
                (TopicClassifier.classify_by_content example_categories markets_segment)))
       <-> category <> lit "general"
           /\ exists keywords,
                In (category, keywords) example_categories
                /\ BestSpec.occurring (PyStr.lower markets_segment) keywords = true.
Proof.
  assert (Hlen : TopicClassifier.length_converts markets_segment)
    by (vm_compute; discriminate).
  split; [exact Hlen|]. split; [reflexivity|].
  exact (proj1 (proj2 (@X12_content_first_best_category example_categories markets_segment
                         Hlen) eq_refl)).
Defined.

(** The description gives 'inflation', the segment 'markets': one of the
    two is named, and not 'general'. *)
Lemma X13_combined_witness :
  TopicClassifier.length_converts markets_segment
  /\ let r := TopicClassifier.classify_combined example_categories inflation_description
                markets_segment PyFloat.zero (PyFloat.of_Z 60) in
     TopicClassifier.c_primary_category r = lit "markets"
     /\ TopicClassifier.c_primary_category r <> lit "general"
     /\ PyFloat.leb (TopicClassifier.c_confidence_score r) TopicClassifier.f1 = true.
Proof.
  assert (Hlen : TopicClassifier.length_converts markets_segment)
    by (vm_compute; discriminate).
  split; [exact Hlen|].
  pose proof (@X13_combined_general_only_if_both example_categories inflation_description
                markets_segment PyFloat.zero (PyFloat.of_Z 60) Hlen) as T.
  cbv zeta in T. destruct T as (_ & _ & _ & _ & T5 & _).
  cbv zeta. split; [vm_compute; reflexivity|]. split; [vm_compute; discriminate | exact T5].
Defined.

(** The suggestions for the same description and segment name distinct
    categories. *)
Lemma X14_suggestions_witness :
  TopicClassifier.length_converts markets_segment
  /\ NoDup (map TopicClassifier.category
              (TopicClassifier.get_category_suggestions example_categories
                 inflation_description markets_segment)).
Proof.
  assert (Hlen : TopicClassifier.length_converts markets_segment)
    by (vm_compute; discriminate).
  split; [exact Hlen|].
  exact (proj1 (@X14_suggestions_are_the_best_categories example_categories
                  inflation_description markets_segment Hlen)).
Defined.


(** The positions 30, 10, 20 and the positions 10, 20, 30. *)
Lemma X16_clustering_witness :
  Permutation [30; 10; 20]%Z [10; 20; 30]%Z
  /\ TopicClassifier._calculate_clustering_bonus [30; 10; 20]%Z 100
     = TopicClassifier._calculate_clustering_bonus [10; 20; 30]%Z 50.
Proof.
  assert (P : Permutation [30; 10; 20]%Z [10; 20; 30]%Z).
  { eapply perm_trans; [apply perm_swap | apply perm_skip, perm_swap]. }
  split; [exact P|].
  exact (proj1 (@X16_clustering_bonus_ignores_order [30; 10; 20]%Z [10; 20; 30]%Z 100 50 P)).
Defined.
